(* ===== verification/_CoqProject ===== *)
-Q . S2P
Prelude.v
Steps.v
Bytes.v
Config.v
Scan.v
Protocol.v
Framing.v
Timer.v
ThreadPool.v
Context.v
EventLoop.v
Session.v
Json.v
RefCodec.v
FileStore.v
Llama.v
AiManager.v
Persist.v
Contract.v
DbWriter.v
MySqlStore.v
Storage.v
World.v
Business.v
Stream.v
Worker.v
ConnTable.v
System.v
Delivery.v
Requests.v
BusinessSteps.v
Concurrent.v
Interference.v
StreamProps.v
StreamSteps.v
Within.v
Handles.v
Interplay.v
Races.v
ClientNet.v
Client.v
ClientProps.v
EndToEnd.v
MainLoop.v
Startup.v
ClientSteps.v
MySqlProps.v
