(* ===== verification/Prelude.v ===== *)
(** * AuraChat: a verification development of the chat server and its client

    AuraChat is a C++ instant-messaging server with a terminal client.  The main thread accepts
    connections and hands each to a worker; a worker's thread runs an epoll
    loop that reads packets, enqueues one task per packet on a thread pool,
    and writes replies; pool threads run [process_business], which reads and
    changes the session table, the storage and the AI request queue and sends
    replies by queueing functors on the loop of the client's worker; the AI
    manager has a scheduler thread and streams the text of an HTTP service
    to the client; the storage has a writer thread that stores chat messages
    in batches, in a MySQL database or in JSON files.  The client is one class
    with a receiving thread, a heartbeat thread and a command line.

    ** Files and the sources they model

    - Prelude: machine integers, the monad [M] (state, C++ exceptions as
      [Throw], undefined behaviour and termination as [Crash]), tactics, hint
      databases, shared lemmas.
    - Bytes: [std::string] as a list of bytes, the standard-library calls the
      sources make, UTF-8 validity.
    - Config (include/config.h): the settings and their parsing.
    - Scan: [std::istringstream] extraction, [std::stoi], C strings.
    - Protocol (include/protocol.h, message.proto): packet header with its
      memory layout, commands, message types, the class [Protobuf] of the
      generated (de)serialisers.
    - Framing (src/connection.cpp): the packet loop of [handle_read].
    - Timer (include/timer.h): the ordered set of deadlines.
    - ThreadPool (include/thread_pool.h): the bounded task queue and its
      threads, a step relation.
    - Context (include/context.h, src/worker.cpp): client contexts in a heap
      and the pool that recycles them.
    - EventLoop (include/event_loop.h, src/event_loop.cpp): functors, eventfd
      and epoll set, a step relation of producers and loop.
    - Session (include/session_manager.h): the 1024-bucket session table.
    - Json, RefCodec: the JSON value type, the class [JsonText] of its text
      format, and reference instances of [JsonText] and [Protobuf].
    - FileStore, Persist (src/db_writer.cpp): the file branch of every
      storage method, the files on disk, and loading them.
    - Contract (src/db_writer.cpp): an abstract storage of finite maps and
      sets, and the file storage as a refinement of it.
    - DbWriter (src/db_writer.cpp): the batch queue and its thread over the
      class [Backend], which the file storage implements.
    - MySqlStore, Storage (src/db_writer.cpp): the MySQL branch of every
      method with its statements, over the class [MySql] of the client
      library, as a second [Backend], and the constructor's choice.
    - Llama (include/llama_client.h): request body and decoding of
      server-sent events.
    - AiManager (include/ai_manager.h, src/ai_manager.cpp): the request queue
      and its critical sections, the round robin over the HTTP clients and
      which of their CURL handles are in use.
    - World (include/globals.h): the record [Server] with all shared state,
      and the calls from one thread into another.
    - Business (src/business.cpp): [process_business], a definition per
      command.
    - Stream (src/ai_manager.cpp): the scheduler's round with its effects and
      [process_stream_request].
    - Worker (src/worker.cpp, src/connection.cpp, src/event_loop.cpp): life
      of a connection, reading, writing, heartbeat, one loop iteration.
    - ConnTable, System (src/main.cpp): the server as a transition system,
      [server_step], and its invariant [server_inv].
    - MainLoop (src/main.cpp, src/acceptor.cpp): the accept loop with its
      round robin, and the order of destruction at shutdown.
    - ClientNet, Client (chat_client.cpp): the client's packet loop, its state
      and its methods, with the text they print.
    - Startup (src/main.cpp, src/acceptor.cpp, src/event_loop.cpp,
      include/llama_client.h, chat_client.cpp): the kernel calls that set
      sockets, loops and signals up, the options of an HTTP request, and
      [main] of the server and of the client.
    - Steps: programs cut into atomic steps ([prog]), their runs alone, under
      interference and as threads, and the rely-guarantee rules ([wp],
      [threads_ok]).
    - BusinessSteps, StreamSteps (src/business.cpp, src/ai_manager.cpp): the
      request handlers and [process_stream_request] once more, cut at every
      access to shared state, with the proof that undisturbed they are the
      definitions of Business and Stream.
    - Concurrent, Interference, Interplay: what a request does under
      interference, that the rest of the server only interferes so, and
      requests and streams side by side.
    - Within, Handles: what each part of the server may do to the AI manager,
      and the phases of a stream from drawing a CURL handle to giving it back.
    - ClientSteps (chat_client.cpp): the client's methods once more, cut at
      every access to a field, its three threads as a step relation from
      [connect] to the joins of [disconnect], and its type invariant.
    - Races: interleavings that go wrong.
    - Delivery, Requests, StreamProps, MySqlProps, ClientProps, EndToEnd:
      properties of the above.

    ** What the theorems show

    - Transport: packets survive any cutting of the byte stream, in both
      directions (Framing, Delivery); every complete packet becomes one task
      in order; the send buffer is bounded; idle connections, and only those,
      are closed by the heartbeat.
    - Concurrency: no wake-up of a loop is lost and functors run in order; the
      pool is a bounded FIFO that drains at shutdown; in every reachable state
      of the server epoll, connection table, timers, contexts, descriptors and
      the connection count agree (System).  Requests and streams cut into
      atomic steps and interleaved with each other and the rest of the server
      in any order never crash, keep the server up, answer every well-formed
      request (or put it into the AI queue), send each stream's chunks to its
      own context in order and, as long as there are no more streams than
      clients, never use one CURL handle twice at once (Concurrent,
      StreamSteps, Interplay).
    - Requests: every request returns and is answered, with either storage
      (the instances of [BackendTotal]); a sender cannot be forged; messages within
      the rate limit are queued for their addressee or stored, the others
      refused; a login delivers the stored ones; the rate limit is exact
      for requests handled one by one, at whatever times (Requests).
    - Storage: after any sequence of calls the answers of the file storage are
      those of the abstract one (Contract); the tables stay consistent,
      registration and login, requests and friendships, batches and queries fit
      together, the files reload to the same tables, or, when the
      directory cannot be written, to none; the writer drains its queue; contents that are not UTF-8
      stop the server (FileStore, Persist, DbWriter).  In MySQL mode every
      statement that a method sends is one of its own, with each string of a
      user read as one string literal, and the writer survives
      whatever the database answers, but drops what it cannot store
      (MySqlProps).
    - Client: it hears exactly the server's packets and resynchronises after
      foreign bytes, its packets reach the server with consecutive numbers
      (and one that is too long ends the connection), a
      login follows the answer, the contact list is the last ten partners
      (ClientNet, ClientProps); of an AI answer it shows everything but the
      last chunk (EndToEnd); in every state its threads can reach its fields
      have the values their types and uses promise (ClientSteps).
    - Start and end: the calls [main] makes until the server is ready, its exit
      codes and the way [exit(1)] is reached, a client that is given the
      server's port finds it, a request to the AI service sees no option of
      an earlier one (Startup); connections are spread evenly over the workers
      (MainLoop).
    - AI: limits and order of the queue, decoding independent of how the
      transport cuts the stream, a prompt cannot break out of the request, a
      client receives the whole text once in numbered chunks, or the canned
      answer (Llama, AiManager, StreamProps).
    - Defects: theorems in Races and at the end of Delivery, DbWriter, Persist,
      MainLoop, ClientProps and ClientSteps exhibit runs that go wrong (a
      message that arrives during a login is lost, two logins at once leave a
      connection nobody reaches, a stream's answer goes to the next client of
      its context, two streams use one CURL handle, the rate limit counts two
      messages as one, the client's
      threads tear a packet, a destroyed connection is
      used, a session is unbound by an older connection, a recycled context
      logs the wrong client in, an exhausted pool dereferences null, shutdown
      and failed saves lose messages, shutdown runs requests without workers,
      a failed login sends the password to the chat partner).

    ** Bounds and fuel

    Recursion that is not structural has fuel equal to a length that every
    round decreases: the receive buffer ([parse_frames]), the line buffer
    ([line_loop]), the number of timers ([check_timers]), the text to cut
    ([pieces]); the fuel is part of the definition and lemmas show it is
    enough.  Integers are [Z] with the wrap-around of their width written out
    ([wrap_i32], [wrap_u32], ...).  The counters of the file tables are
    unbounded: their overflow is undefined behaviour after 2^31 rows, and the
    theorem that needs them to fit says so ([ids_fit]).

    ** Atomicity

    There are two levels.  A step of [server_step] is one loop iteration of a
    worker, one request, one callback of a stream, one round of the scheduler,
    one critical section of the pool (any new pool) or one change of the
    writer; the invariants of the connection tables are proved there.  In
    BusinessSteps and StreamSteps a step is one access to shared state: a
    critical section under a lock, a load or store of a field of a context, a
    call into the storage.  Calls into the file storage hold its mutex and are
    one step; a loop iteration of a worker is one step of its thread, which
    alone uses the worker's tables.  Accesses that the C++ memory model does
    not order (plain fields of a context) are steps in program order.  The
    client likewise has its methods twice: whole in Client, and in ClientSteps
    with a step for every access to a field; its critical sections under
    [pending_mutex_] are single steps, those under [wait_mutex_] are cut
    further than the lock allows.

    ** What is not modelled

    Two threads inside the MySQL client library at once, and the sinks of the
    log.  Answers of the kernel ([read], [write], [accept4], [epoll_wait],
    [send], [recv], [socket], [bind], ...), of libcurl and of the clocks, and
    the lines a user types, are inputs.  Logging has no effect.  The protobuf
    runtime, nlohmann::json and libmysqlclient are classes with the documented
    laws the sources rely on, each with an instance that shows the laws can
    hold; std::hash is an argument.

    ** Left for later

    A semantics of the SQL statements that relates the two storages, and the
    loop iterations of the workers cut into steps. *)

From stdpp Require Export prelude list gmap numbers.
From Stdlib Require Export Lia.

Declare Scope aura_scope.
Delimit Scope aura_scope with aura.
Open Scope aura_scope.

(** ** Machine integers

    Integers are values of [Z]; the wrap-around of each C++ width is written
    out where the source converts or computes at that width. *)

Definition wrap_u32 (z : Z) : Z := z `mod` 2 ^ 32.
Definition wrap_u64 (z : Z) : Z := z `mod` 2 ^ 64.
Definition wrap_i32 (z : Z) : Z := (z + 2 ^ 31) `mod` 2 ^ 32 - 2 ^ 31.
Definition wrap_i64 (z : Z) : Z := (z + 2 ^ 63) `mod` 2 ^ 64 - 2 ^ 63.

Definition is_u32 (z : Z) : Prop := (0 ≤ z < 2 ^ 32)%Z.
Definition is_u64 (z : Z) : Prop := (0 ≤ z < 2 ^ 64)%Z.
Definition is_i32 (z : Z) : Prop := (- 2 ^ 31 ≤ z < 2 ^ 31)%Z.
Definition is_i64 (z : Z) : Prop := (- 2 ^ 63 ≤ z < 2 ^ 63)%Z.

Definition INT32_MAX : Z := 2 ^ 31 - 1.
Definition INT64_MAX : Z := 2 ^ 63 - 1.

(** ** A state monad with C++ exceptions and undefined behaviour

    [Ret a s]: normal return.  [Throw s]: an exception derived from
    [std::exception] leaves the call; what was written before it stays
    written.  [Crash r]: the process dies or its behaviour is undefined. *)

Inductive crash_reason :=
  | NullDeref       (* member access through a null pointer *)
  | UseAfterFree    (* member access through a destroyed object *)
  | OutOfBounds     (* operator[] past the end *)
  | DivByZero       (* integer division or modulo by zero *)
  | Terminate       (* an exception leaves a thread's entry function *)
  | ExitFailure.    (* exit(1) *)

Inductive result (S A : Type) :=
  | Ret (a : A) (s : S)
  | Throw (s : S)
  | Crash (why : crash_reason).
Arguments Ret {S A} a s.
Arguments Throw {S A} s.
Arguments Crash {S A} why.

Definition M (S A : Type) : Type := S → result S A.

#[export] Instance M_ret (S : Type) : MRet (M S) := λ A a s, Ret a s.
#[export] Instance M_bind (S : Type) : MBind (M S) := λ A B k m s,
  match m s with
  | Ret a s' => k a s'
  | Throw s' => Throw s'
  | Crash r => Crash r
  end.

Definition throw {S A} : M S A := λ s, Throw s.
Definition crash {S A} (r : crash_reason) : M S A := λ _, Crash r.
Definition get_st {S} : M S S := λ s, Ret s s.
Definition put_st {S} (s : S) : M S unit := λ _, Ret tt s.
Definition gets {S A} (f : S → A) : M S A := λ s, Ret (f s) s.
Definition modify {S} (f : S → S) : M S unit := λ s, Ret tt (f s).
(** [try m h]: [try { m } catch (const std::exception&) { h }]. *)
Definition try_catch {S A} (m h : M S A) : M S A := λ s,
  match m s with
  | Throw s' => h s'
  | r => r
  end.
(** Reading a pointer that must not be null. *)
Definition deref {S A} (o : option A) (r : crash_reason) : M S A :=
  match o with Some a => mret a | None => crash r end.

Definition is_ret {S A} (r : result S A) : bool := match r with Ret _ _ => true | _ => false end.

(** [for (auto& x : l) f(x)]. *)
Fixpoint for_each {S A} (f : A → M S unit) (l : list A) : M S unit :=
  match l with
  | [] => mret tt
  | x :: l' => f x ;; for_each f l'
  end.

(** ** Tactics *)

(** Runs the monad's combinators on a state that is in the goal. *)
Ltac mred :=
  repeat progress (
    cbn [mbind M_bind mret M_ret gets modify get_st put_st throw crash deref try_catch] in *;
    unfold mbind, M_bind, mret, M_ret, gets, modify, get_st, put_st, throw, crash,
           deref, try_catch in *).

Ltac split_ands := repeat match goal with |- _ ∧ _ => split end.

(** Turns boolean comparisons in the context into propositions. *)
Ltac zbool :=
  repeat match goal with
  | H : (_ && _) = true |- _ => apply andb_true_iff in H as [? ?]
  | H : (_ || _) = false |- _ => apply orb_false_iff in H as [? ?]
  | H : negb _ = true |- _ => apply negb_true_iff in H
  | H : negb _ = false |- _ => apply negb_false_iff in H
  | H : Z.eqb _ _ = true |- _ => apply Z.eqb_eq in H
  | H : Z.eqb _ _ = false |- _ => apply Z.eqb_neq in H
  | H : Z.ltb _ _ = true |- _ => apply Z.ltb_lt in H
  | H : Z.ltb _ _ = false |- _ => apply Z.ltb_ge in H
  | H : Z.leb _ _ = true |- _ => apply Z.leb_le in H
  | H : Z.leb _ _ = false |- _ => apply Z.leb_gt in H
  | H : Z.gtb _ _ = true |- _ => rewrite Z.gtb_ltb in H
  | H : Z.gtb _ _ = false |- _ => rewrite Z.gtb_ltb in H
  | H : Z.geb _ _ = true |- _ => rewrite Z.geb_leb in H
  | H : Z.geb _ _ = false |- _ => rewrite Z.geb_leb in H
  | H : Nat.eqb _ _ = true |- _ => apply Nat.eqb_eq in H
  | H : Nat.eqb _ _ = false |- _ => apply Nat.eqb_neq in H
  | H : Nat.ltb _ _ = true |- _ => apply Nat.ltb_lt in H
  | H : Nat.ltb _ _ = false |- _ => apply Nat.ltb_ge in H
  | H : Nat.leb _ _ = true |- _ => apply Nat.leb_le in H
  | H : Nat.leb _ _ = false |- _ => apply Nat.leb_gt in H
  | H : bool_decide _ = true |- _ => apply bool_decide_eq_true in H
  | H : bool_decide _ = false |- _ => apply bool_decide_eq_false in H
  end.

(** Case analysis on the scrutinee of the goal's first [if] or [match]. *)
Ltac case_if :=
  match goal with
  | |- context [if ?b then _ else _] => let E := fresh "E" in destruct b eqn:E
  end.

Create HintDb aura discriminated.

(** ** Generic lemmas *)

Lemma wrap_i32_id (z : Z) : is_i32 z → wrap_i32 z = z.
Proof. unfold is_i32, wrap_i32. intros. rewrite Z.mod_small; lia. Qed.

Lemma wrap_i64_id (z : Z) : is_i64 z → wrap_i64 z = z.
Proof. unfold is_i64, wrap_i64. intros. rewrite Z.mod_small; lia. Qed.

Lemma wrap_u32_id (z : Z) : is_u32 z → wrap_u32 z = z.
Proof. unfold is_u32, wrap_u32. intros. by rewrite Z.mod_small. Qed.

Lemma wrap_u64_id (z : Z) : is_u64 z → wrap_u64 z = z.
Proof. unfold is_u64, wrap_u64. intros. by rewrite Z.mod_small. Qed.

Lemma wrap_i32_range (z : Z) : is_i32 (wrap_i32 z).
Proof.
  unfold is_i32, wrap_i32.
  pose proof (Z.mod_pos_bound (z + 2 ^ 31) (2 ^ 32) eq_refl). lia.
Qed.

Lemma wrap_i32_add (a b : Z) : wrap_i32 (wrap_i32 a + b) = wrap_i32 (a + b).
Proof.
  unfold wrap_i32. f_equal.
  replace ((a + 2 ^ 31) `mod` 2 ^ 32 - 2 ^ 31 + b + 2 ^ 31)%Z
    with ((a + 2 ^ 31) `mod` 2 ^ 32 + b)%Z by lia.
  rewrite Zplus_mod_idemp_l. f_equal. lia.
Qed.

Lemma wrap_u32_range (z : Z) : is_u32 (wrap_u32 z).
Proof. apply Z.mod_pos_bound. lia. Qed.

#[export] Hint Resolve wrap_i32_range wrap_u32_range : aura.

Lemma bind_ret {S A B} (a : A) (k : A → M S B) (s : S) :
  (mret a ≫= k) s = k a s.
Proof. reflexivity. Qed.

Lemma is_ret_unit {S} (r : result S unit) : is_ret r = true → ∃ s, r = Ret tt s.
Proof. destruct r as [[] s|s|w]; try done. by exists s. Qed.

Lemma for_each_app {S A} (f : A → M S unit) (l k : list A) (s : S) :
  for_each f (l ++ k) s = (for_each f l ;; for_each f k) s.
Proof.
  revert s. induction l as [|x l IH]; intros s; [done|].
  cbn [for_each app]. mred. destruct (f x s) as [[] s'|s'|r]; done.
Qed.

Lemma find_app {A} (f : A → bool) (l k : list A) :
  List.find f (l ++ k) = match List.find f l with Some x => Some x | None => List.find f k end.
Proof. induction l as [|x l IH]; simpl; [done|]. by destruct (f x). Qed.
