(* ===== verification/Steps.v ===== *)
(** * Threads as sequences of atomic steps

    [prog] is a program cut at the points where other threads may run: between
    two steps the state can change under it.  [seq_run] runs it alone, [exec]
    runs it with an interfering environment, [threads_step] runs several
    programs in any interleaving.  [wp] is the rely-guarantee weakest precondition: every
    step is taken from a state the environment may have reached by [R], must
    not crash, and must itself be a change [G] that others can rely on.  The index
    [tr] of [wp] is the history of the program's own steps. *)

From S2P Require Import Prelude.

(** ** Equality of computations *)

(** Two computations that do the same from every state. *)
Definition same_run {St A} (m m' : M St A) : Prop := ∀ s, m s = m' s.
Infix "≈" := same_run (at level 70) : aura_scope.

#[export] Instance same_run_equiv St A : Equivalence (same_run (St := St) (A := A)).
Proof. split; [intros m s; reflexivity|intros m m' Hm s; by rewrite Hm|intros a b c H1 H2 s; by rewrite H1, H2]. Qed.

Lemma same_bind {St A C} (m m' : M St A) (k k' : A → M St C) :
  m ≈ m' → (∀ a, k a ≈ k' a) → (m ≫= k) ≈ (m' ≫= k').
Proof. intros Hm Hk s. mred. rewrite Hm. destruct (m' s); [apply Hk|done..]. Qed.
Lemma same_try {St A} (m m' h h' : M St A) : m ≈ m' → h ≈ h' → try_catch m h ≈ try_catch m' h'.
Proof. intros Hm Hh s. mred. rewrite Hm. destruct (m' s); [done|apply Hh|done]. Qed.
Lemma same_for_each {St A} (f g : A → M St unit) l : (∀ a, f a ≈ g a) → for_each f l ≈ for_each g l.
Proof. intros Hf. induction l as [|a l IH]; [done|]. cbn [for_each]. apply same_bind; [apply Hf|done]. Qed.

Lemma bind_assoc {St A C D} (m : M St A) (k : A → M St C) (l : C → M St D) :
  ((m ≫= k) ≫= l) ≈ (m ≫= λ a, k a ≫= l).
Proof. intros s. mred. by destruct (m s). Qed.
Lemma ret_bind {St A C} (a : A) (k : A → M St C) : (mret a ≫= k) ≈ k a.
Proof. done. Qed.

(** ** Computations that change the state within a relation *)

Section Respects.
Context {St : Type} (R : St → St → Prop) `{!PreOrder R}.

Definition respects {A} (m : M St A) : Prop := ∀ s,
  match m s with Ret _ s' | Throw s' => R s s' | Crash _ => True end.

Lemma respects_ret {A} (a : A) : respects (mret a).
Proof. intros s. mred. reflexivity. Qed.
Lemma respects_bind {A C} (m : M St A) (f : A → M St C) :
  respects m → (∀ a, respects (f a)) → respects (m ≫= f).
Proof.
  intros Hm Hf s. mred. specialize (Hm s). destruct (m s) as [a s'|s'|r]; try done.
  specialize (Hf a s'). destruct (f a s'); try done; by etrans.
Qed.
Lemma respects_for_each {A} (f : A → M St unit) (l : list A) : (∀ a, respects (f a)) → respects (for_each f l).
Proof.
  intros Hf. induction l as [|x l IH]; cbn [for_each]; [apply respects_ret|]. by apply respects_bind.
Qed.
Lemma respects_read {A} (m : M St A) :
  (∀ s, match m s with Ret _ s' | Throw s' => s' = s | Crash _ => True end) → respects m.
Proof. intros Hm s. specialize (Hm s). destruct (m s); [subst; reflexivity|subst; reflexivity|done]. Qed.
Lemma respects_modify (g : St → St) : (∀ s, R s (g s)) → respects (modify g).
Proof. intros Hg s. apply Hg. Qed.
Lemma respects_Ret {A} (m : M St A) a s s' : respects m → m s = Ret a s' → R s s'.
Proof. intros Hm E. specialize (Hm s). by rewrite E in Hm. Qed.
End Respects.

(** ** Programs *)

Section Prog.
Context {St : Type}.

(** [PStep m k h]: one atomic step [m]; [k] follows its value, [h] an exception. *)
Inductive prog (A : Type) : Type :=
  | PRet (a : A)
  | PThrow
  | PStep (X : Type) (m : M St X) (k : X → prog A) (h : prog A).
Arguments PRet {A} a.
Arguments PThrow {A}.
Arguments PStep {A X} m k h.

Definition atomic {A} (m : M St A) : prog A := PStep m PRet PThrow.

Fixpoint pbind {A C} (f : A → prog C) (p : prog A) : prog C :=
  match p with
  | PRet a => f a
  | PThrow => PThrow
  | PStep m k h => PStep m (λ x, pbind f (k x)) (pbind f h)
  end.
#[global] Instance prog_ret : MRet prog := @PRet.
#[global] Instance prog_bind : MBind prog := @pbind.

(** [try { p } catch (const std::exception&) { q }] *)
Fixpoint ptry {A} (p q : prog A) : prog A :=
  match p with
  | PRet a => PRet a
  | PThrow => q
  | PStep m k h => PStep m (λ x, ptry (k x) q) (ptry h q)
  end.

Fixpoint pfor {A} (f : A → prog unit) (l : list A) : prog unit :=
  match l with
  | [] => mret tt
  | x :: l' => f x ;; pfor f l'
  end.

(** ** Running alone *)

Fixpoint seq_run {A} (p : prog A) : M St A :=
  match p with
  | PRet a => mret a
  | PThrow => throw
  | PStep m k h => λ s,
      match m s with
      | Ret x s' => seq_run (k x) s'
      | Throw s' => seq_run h s'
      | Crash r => Crash r
      end
  end.

Lemma seq_atomic {A} (m : M St A) : seq_run (atomic m) ≈ m.
Proof. intros s. cbn. by destruct (m s). Qed.
Lemma seq_bind {A C} (p : prog A) (f : A → prog C) : seq_run (p ≫= f) ≈ (seq_run p ≫= λ a, seq_run (f a)).
Proof.
  induction p as [a| |X m k IHk h IHh]; [done..|]. intros s. unfold mbind, M_bind in *. cbn.
  destruct (m s) as [x s'|s'|r]; [apply IHk|apply IHh|done].
Qed.
Lemma seq_try {A} (p q : prog A) : seq_run (ptry p q) ≈ try_catch (seq_run p) (seq_run q).
Proof.
  induction p as [a| |X m k IHk h IHh]; [done..|]. intros s. cbn. unfold try_catch.
  destruct (m s) as [x s'|s'|r]; [apply IHk|apply IHh|done].
Qed.
Lemma seq_for {A} (f : A → prog unit) l : seq_run (pfor f l) ≈ for_each (λ a, seq_run (f a)) l.
Proof.
  induction l as [|a l IH]; [done|]. cbn [pfor for_each]. rewrite seq_bind. apply same_bind; [done|]. by intros [].
Qed.

(** ** Running among others *)

(** The states before and after each of the program's own steps. *)
Definition history : Type := list (St * St).

(** [env i] is what the other threads do before the [i]-th own step. *)
Fixpoint exec {A} (env : nat → St → St) (i : nat) (p : prog A) (s : St) : history * result St A :=
  match p with
  | PRet a => ([], Ret a s)
  | PThrow => ([], Throw s)
  | PStep m k h =>
      let s1 := env i s in
      match m s1 with
      | Ret x s2 => let '(tr, r) := exec env (S i) (k x) s2 in ((s1, s2) :: tr, r)
      | Throw s2 => let '(tr, r) := exec env (S i) h s2 in ((s1, s2) :: tr, r)
      | Crash why => ([], Crash why)
      end
  end.

(** A thread: what it still has to do and what it did. *)
Record thread := mkThread { th_code : prog unit; th_trace : history }.

Definition ended (t : thread) : bool := match th_code t with PRet _ => true | _ => false end.
Lemma ended_ret t : ended t = true → th_code t = PRet tt.
Proof. unfold ended. by destruct (th_code t) as [[]| |]. Qed.

(** One step of one of the threads, or of something else that changes the
    state by [R]. *)
Inductive threads_step (R : St → St → Prop) : St * list thread → St * list thread → Prop :=
  | ts_step i X (m : M St X) k h tr x s s' ts :
      ts !! i = Some (mkThread (PStep m k h) tr) → m s = Ret x s' →
      threads_step R (s, ts) (s', <[i := mkThread (k x) (tr ++ [(s, s')])]> ts)
  | ts_throw i X (m : M St X) k h tr s s' ts :
      ts !! i = Some (mkThread (PStep m k h) tr) → m s = Throw s' →
      threads_step R (s, ts) (s', <[i := mkThread h (tr ++ [(s, s')])]> ts)
  | ts_env s s' ts : R s s' → threads_step R (s, ts) (s', ts).

(** The interleaving a schedule asks for: the [i]-th thread steps next.  A
    thread that has ended lets its turn pass. *)
Fixpoint run_schedule (sched : list nat) (s : St) (ts : list thread) : option (St * list thread) :=
  match sched with
  | [] => Some (s, ts)
  | i :: sched' =>
      match ts !! i with
      | Some (mkThread (PStep m k h) tr) =>
          match m s with
          | Ret x s' => run_schedule sched' s' (<[i := mkThread (k x) (tr ++ [(s, s')])]> ts)
          | Throw s' => run_schedule sched' s' (<[i := mkThread h (tr ++ [(s, s')])]> ts)
          | Crash _ => None
          end
      | _ => run_schedule sched' s ts
      end
  end.

Lemma run_schedule_steps (R : St → St → Prop) sched : ∀ s ts s' ts',
  run_schedule sched s ts = Some (s', ts') → rtc (threads_step R) (s, ts) (s', ts').
Proof.
  induction sched as [|i sched IH]; intros s ts s' ts' Hr; cbn in Hr; [by injection Hr as <- <-|].
  destruct (ts !! i) as [[[a| |X m k h] tr]|] eqn:Hi; [by apply IH..| |by apply IH].
  destruct (m s) as [x s2|s2|r] eqn:Em; [..|done];
    (eapply rtc_l; [first [by eapply ts_step|by eapply ts_throw]|by apply IH]).
Qed.

(** A thread that runs to its end without a break. *)
Lemma threads_alone (R : St → St → Prop) (p : prog unit) (i : nat) : ∀ n s tr s' tr0 ts,
  exec (λ _ s, s) n p s = (tr, Ret tt s') → ts !! i = Some (mkThread p tr0) →
  rtc (threads_step R) (s, ts) (s', <[i := mkThread (PRet tt) (tr0 ++ tr)]> ts).
Proof.
  induction p as [[]| |X m k IHk h IHh]; intros n s tr s' tr0 ts He Hi; cbn in He.
  - injection He as <- <-. rewrite app_nil_r, list_insert_id by done. apply rtc_refl.
  - done.
  - pose proof (lookup_lt_Some _ _ _ Hi) as Hl. destruct (m s) as [x s2|s2|r] eqn:Em; [| |done].
    + destruct (exec _ (S n) (k x) s2) as [tr2 r] eqn:E2. injection He as <- ->.
      eapply rtc_l; [by eapply ts_step|].
      replace (tr0 ++ (s, s2) :: tr2) with ((tr0 ++ [(s, s2)]) ++ tr2) by by rewrite <- app_assoc.
      specialize (IHk x (S n) s2 tr2 s' (tr0 ++ [(s, s2)]) (<[i := mkThread (k x) (tr0 ++ [(s, s2)])]> ts) E2).
      rewrite list_insert_insert_eq in IHk. apply IHk. by apply list_lookup_insert_eq.
    + destruct (exec _ (S n) h s2) as [tr2 r] eqn:E2. injection He as <- ->.
      eapply rtc_l; [by eapply ts_throw|].
      replace (tr0 ++ (s, s2) :: tr2) with ((tr0 ++ [(s, s2)]) ++ tr2) by by rewrite <- app_assoc.
      specialize (IHh (S n) s2 tr2 s' (tr0 ++ [(s, s2)]) (<[i := mkThread h (tr0 ++ [(s, s2)])]> ts) E2).
      rewrite list_insert_insert_eq in IHh. apply IHh. by apply list_lookup_insert_eq.
Qed.

(** The thread would crash if it ran now. *)
Definition about_to_crash (s : St) (t : thread) : Prop :=
  match th_code t with
  | PStep m _ _ => ∃ r, m s = Crash r
  | _ => False
  end.

(** ** Weakest preconditions *)

Section Wp.
Context (R G : St → St → Prop).

Fixpoint wp {A} (p : prog A) (tr : history) (s : St) (Φ : A → history → St → Prop) (E : history → St → Prop)
    : Prop :=
  match p with
  | PRet a => Φ a tr s
  | PThrow => E tr s
  | PStep m k h => ∀ s1, R s s1 →
      match m s1 with
      | Ret x s2 => G s1 s2 ∧ wp (k x) (tr ++ [(s1, s2)]) s2 Φ E
      | Throw s2 => G s1 s2 ∧ wp h (tr ++ [(s1, s2)]) s2 Φ E
      | Crash _ => False
      end
  end.

Lemma wp_mono {A} (p : prog A) Φ Φ' E E' : ∀ tr s,
  wp p tr s Φ E → (∀ a tr' s', Φ a tr' s' → Φ' a tr' s') → (∀ tr' s', E tr' s' → E' tr' s') → wp p tr s Φ' E'.
Proof.
  induction p as [a| |X m k IHk h IHh]; intros tr s Hp HΦ HE; cbn in *; [auto..|].
  intros s1 H1. specialize (Hp s1 H1). destruct (m s1); [|..|done]; destruct Hp; eauto.
Qed.
Lemma wp_bind {A C} (p : prog A) (f : A → prog C) Φ E : ∀ tr s,
  wp p tr s (λ a tr' s', wp (f a) tr' s' Φ E) E → wp (p ≫= f) tr s Φ E.
Proof.
  induction p as [a| |X m k IHk h IHh]; intros tr s Hp; cbn in *; [done..|].
  intros s1 H1. specialize (Hp s1 H1). destruct (m s1); [|..|done]; destruct Hp; eauto.
Qed.
Lemma wp_try {A} (p q : prog A) Φ E : ∀ tr s,
  wp p tr s Φ (λ tr' s', wp q tr' s' Φ E) → wp (ptry p q) tr s Φ E.
Proof.
  induction p as [a| |X m k IHk h IHh]; intros tr s Hp; cbn in *; [done..|].
  intros s1 H1. specialize (Hp s1 H1). destruct (m s1); [|..|done]; destruct Hp; eauto.
Qed.

(** An environment that keeps to [R] cannot keep the program from ending as
    [wp] says. *)
Lemma wp_exec {A} (env : nat → St → St) (p : prog A) Φ E : (∀ i s, R s (env i s)) → ∀ i tr s,
  wp p tr s Φ E →
  let '(tr', r) := exec env i p s in
  match r with
  | Ret a s' => Φ a (tr ++ tr') s'
  | Throw s' => E (tr ++ tr') s'
  | Crash _ => False
  end.
Proof.
  intros Henv. induction p as [a| |X m k IHk h IHh]; intros i tr s Hp; cbn in *; rewrite ?app_nil_r; try done.
  specialize (Hp _ (Henv i s)). destruct (m (env i s)) as [x s2|s2|r]; [..|done]; destruct Hp as [_ Hp].
  - specialize (IHk x (S i) _ _ Hp). destruct (exec env (S i) (k x) s2) as [tr' r].
    by rewrite <- app_assoc in IHk.
  - specialize (IHh (S i) _ _ Hp). destruct (exec env (S i) h s2) as [tr' r].
    by rewrite <- app_assoc in IHh.
Qed.

End Wp.

(** Every step of the program changes the state within [K]. *)
Fixpoint steps_respect {A} (K : St → St → Prop) (p : prog A) : Prop :=
  match p with
  | PStep m k h => respects K m ∧ (∀ x, steps_respect K (k x)) ∧ steps_respect K h
  | _ => True
  end.

Lemma steps_bind {A C} K (p : prog A) (f : A → prog C) :
  steps_respect K p → (∀ a, steps_respect K (f a)) → steps_respect K (p ≫= f).
Proof.
  intros Hp Hf. induction p as [a| |X m k IHk h IHh]; cbn in *; [apply Hf|done|]. destruct Hp as (? & ? & ?). auto.
Qed.
Lemma steps_try {A} K (p q : prog A) : steps_respect K p → steps_respect K q → steps_respect K (ptry p q).
Proof.
  intros Hp Hq. induction p as [a| |X m k IHk h IHh]; cbn in *; [done..|]. destruct Hp as (? & ? & ?). auto.
Qed.
Lemma steps_for {A} K (f : A → prog unit) l : (∀ a, steps_respect K (f a)) → steps_respect K (pfor f l).
Proof. intros Hf. induction l as [|x l IH]; cbn [pfor]; [done|]. by apply steps_bind. Qed.
Lemma steps_atomic {A} (K : St → St → Prop) (m : M St A) : respects K m → steps_respect K (atomic m).
Proof. done. Qed.
Lemma steps_ret {A} K (a : A) : steps_respect K (mret a).
Proof. done. Qed.

(** Such a program guarantees [K] too. *)
Lemma wp_respect {A} (R G K : St → St → Prop) (p : prog A) Φ E : steps_respect K p → ∀ tr s,
  wp R G p tr s Φ E → wp R (λ s s', G s s' ∧ K s s') p tr s Φ E.
Proof.
  induction p as [a| |X m k IHk h IHh]; intros Hk tr s Hp; cbn in *; [done..|]. destruct Hk as (Hm & Hk & Hh).
  intros s1 H1. specialize (Hp s1 H1). specialize (Hm s1). destruct (m s1); [..|done]; destruct Hp; auto.
Qed.

Lemma wp_guarantee {A} (R G G' : St → St → Prop) (p : prog A) Φ E : (∀ s s', G s s' → G' s s') → ∀ tr s,
  wp R G p tr s Φ E → wp R G' p tr s Φ E.
Proof.
  intros HG. induction p as [a| |X m k IHk h IHh]; intros tr s Hp; cbn in *; [done..|].
  intros s1 H1. specialize (Hp s1 H1). destruct (m s1); [..|done]; destruct Hp; auto.
Qed.

(** ** Threads side by side *)

(** Thread [i] copes with [R i] and does [G i], which the others cope with. *)
Section Par.
Context (R G : nat → St → St → Prop) `{!∀ i, PreOrder (R i)} (HG : ∀ i j s s', i ≠ j → G i s s' → R j s s').
Context (Env : St → St → Prop) (HE : ∀ i s s', Env s s' → R i s s').

(** What holds of every thread during any interleaving. *)
Definition threads_ok (Φ : nat → history → Prop) (c : St * list thread) : Prop :=
  ∀ i t, c.2 !! i = Some t →
    ∃ si, R i si c.1 ∧ wp (R i) (G i) (th_code t) (th_trace t) si (λ _ tr _, Φ i tr) (λ _ _, False).

Lemma threads_ok_update Φ s s' ts i t :
  threads_ok Φ (s, ts) → G i s s' →
  wp (R i) (G i) (th_code t) (th_trace t) s' (λ _ tr _, Φ i tr) (λ _ _, False) → threads_ok Φ (s', <[i := t]> ts).
Proof.
  intros Hok Hs Ht j u Hu. cbn in *. destruct (decide (i = j)) as [<-|Hne].
  - destruct (decide (i < length ts)) as [Hl|Hl].
    + rewrite list_lookup_insert_eq in Hu by done. injection Hu as <-. by exists s'.
    + rewrite list_insert_ge in Hu by lia. apply lookup_lt_Some in Hu. lia.
  - rewrite list_lookup_insert_ne in Hu by done. destruct (Hok j u Hu) as (si & Hsi & Hw). exists si.
    split; [etrans; [exact Hsi|by eapply HG]|done].
Qed.

(** What a thread does next is within its guarantee. *)
Lemma threads_ok_next Φ s ts i X (m : M St X) k h tr :
  threads_ok Φ (s, ts) → ts !! i = Some (mkThread (PStep m k h) tr) →
  match m s with
  | Ret x s' => G i s s' ∧ threads_ok Φ (s', <[i := mkThread (k x) (tr ++ [(s, s')])]> ts)
  | Throw s' => G i s s' ∧ threads_ok Φ (s', <[i := mkThread h (tr ++ [(s, s')])]> ts)
  | Crash _ => False
  end.
Proof.
  intros Hok Hi. destruct (Hok i _ Hi) as (si & Hsi & Hw). cbn in Hw. specialize (Hw s Hsi).
  destruct (m s); [..|done]; destruct Hw as [Hg Hw]; (split; [done|by eapply threads_ok_update]).
Qed.

(** [W] is what everybody keeps to. *)
Lemma threads_ok_reach Φ (W : St → St → Prop) `{!PreOrder W} c c' :
  (∀ i s s', G i s s' → W s s') → (∀ s s', Env s s' → W s s') →
  rtc (threads_step Env) c c' → threads_ok Φ c → threads_ok Φ c' ∧ W c.1 c'.1.
Proof.
  intros HGW HEW. induction 1 as [c|c1 c2 c3 Hs _ IH]; intros Hok; [done|].
  assert (Hn : threads_ok Φ c2 ∧ W c1.1 c2.1).
  { destruct Hs as [i X m k h tr x s s' ts Hi Hm|i X m k h tr s s' ts Hi Hm|s s' ts Henv].
    - pose proof (threads_ok_next Φ s ts i X m k h tr Hok Hi) as Hn. rewrite Hm in Hn. destruct Hn. eauto.
    - pose proof (threads_ok_next Φ s ts i X m k h tr Hok Hi) as Hn. rewrite Hm in Hn. destruct Hn. eauto.
    - split; [|by apply HEW]. intros i t Hi. destruct (Hok i t Hi) as (si & Hsi & Hw). exists si.
      split; [etrans; [exact Hsi|by apply HE]|done]. }
  destruct Hn as [Hok2 H12]. destruct (IH Hok2). split; [done|]. by etrans.
Qed.

(** In a good interleaving nobody is about to crash, and who has ended has
    done what was promised. *)
Lemma threads_ok_result Φ s ts i t :
  threads_ok Φ (s, ts) → ts !! i = Some t →
  ¬ about_to_crash s t ∧ (∀ u, th_code t = PRet u → Φ i (th_trace t)) ∧ th_code t ≠ PThrow.
Proof.
  intros Hok Hi. destruct (Hok i t Hi) as (si & Hsi & Hw). destruct t as [[a| |X m k h] tr]; cbn in *.
  - split_ands; [by intros []|by intros u ?|done].
  - done.
  - split_ands; [|done..]. intros [r Hr]. specialize (Hw s Hsi). by rewrite Hr in Hw.
Qed.
End Par.
End Prog.
Arguments prog : clear implicits.
Arguments thread : clear implicits.
Arguments history : clear implicits.
Arguments PRet {St A} a.
Arguments PThrow {St A}.
Arguments PStep {St A X} m k h.

Lemma seq_pbind {St A C} (p : prog St A) (f : A → prog St C) s :
  seq_run (pbind f p) s =
  match seq_run p s with
  | Ret a s' => seq_run (f a) s'
  | Throw s' => Throw s'
  | Crash r => Crash r
  end.
Proof. exact (seq_bind p f s). Qed.
Lemma seq_patomic {St A} (m : M St A) s : seq_run (atomic m) s = m s.
Proof. exact (seq_atomic m s). Qed.
Lemma seq_pret {St A} (a : A) (s : St) : seq_run (PRet a) s = Ret a s.
Proof. done. Qed.

(** Runs programs and computations on a state that is in the goal. *)
Ltac sred :=
  mred; unfold prog_bind, prog_ret in *; rewrite ?seq_pbind, ?seq_patomic, ?seq_pret; lazy beta match;
  repeat progress (mred; rewrite ?seq_pbind, ?seq_patomic, ?seq_pret; lazy beta match).
