(* ===== verification/Bytes.v ===== *)
(** * Byte strings

    [std::string] is a sequence of bytes: [bytes].  This file has the string
    operations of the C++ standard library that the server and the client use
    ([find], [substr], [to_string], [tolower], hexadecimal output), the
    little-endian layout of a [uint32_t] in memory, and their lemmas.  String
    literals are UTF-8, as in the sources. *)

From S2P Require Import Prelude.
From Stdlib Require Export Strings.Byte Strings.String.
From stdpp Require Export strings.

Abbreviation bytes := (list byte).

(** A literal of the source, as its UTF-8 bytes. *)
Definition str (s : string) : bytes := list_byte_of_string s.

Definition byte_val (b : byte) : Z := Z.of_N (Byte.to_N b).
Definition byte_of (z : Z) : byte := default x00 (Byte.of_N (Z.to_N (z `mod` 256))).

#[export] Instance byte_eq_dec : EqDecision byte := Byte.byte_eq_dec.
#[export] Program Instance byte_countable : Countable byte :=
  inj_countable Byte.to_N Byte.of_N _.
Next Obligation. intros b. apply Byte.of_to_N. Qed.

(** ** A [uint32_t] in memory (the server and the client run little-endian) *)

Definition le32 (z : Z) : bytes :=
  [byte_of z; byte_of (Z.shiftr z 8); byte_of (Z.shiftr z 16); byte_of (Z.shiftr z 24)].

Definition of_le32 (l : bytes) : Z :=
  match l with
  | b0 :: b1 :: b2 :: b3 :: _ =>
      byte_val b0 + Z.shiftl (byte_val b1) 8 + Z.shiftl (byte_val b2) 16
        + Z.shiftl (byte_val b3) 24
  | _ => 0
  end.

(** ** [std::string] operations *)

(** Does [s] start with [pat]? *)
Fixpoint starts_with (pat s : bytes) : bool :=
  match pat, s with
  | [], _ => true
  | p :: pat', c :: s' => bool_decide (p = c) && starts_with pat' s'
  | _ :: _, [] => false
  end.

(** [s.find(pat)]: position of the first occurrence, [None] for [npos]. *)
Fixpoint find_from (pat s : bytes) (pos : nat) : option nat :=
  if starts_with pat s then Some pos
  else match s with
       | [] => None
       | _ :: s' => find_from pat s' (S pos)
       end.
Definition find (pat s : bytes) : option nat := find_from pat s 0.
Definition contains (pat s : bytes) : bool :=
  match find pat s with Some _ => true | None => false end.

(** [s.find(c)] for one character. *)
Fixpoint find_char (c : byte) (s : bytes) : option nat :=
  match s with
  | [] => None
  | x :: s' => if decide (x = c) then Some 0 else S <$> find_char c s'
  end.

(** [s.substr(pos, n)] for [pos <= s.size()]. *)
Definition substr (pos n : nat) (s : bytes) : bytes := take n (drop pos s).

(** [::tolower] on each byte, in the C locale. *)
Definition tolower1 (b : byte) : byte :=
  let n := byte_val b in
  if (65 <=? n)%Z && (n <=? 90)%Z then byte_of (n + 32) else b.
Definition tolower (s : bytes) : bytes := map tolower1 s.

(** [std::to_string] of an [int]: decimal digits, most significant first. *)
Definition digit (d : Z) : byte := byte_of (48 + d).
Fixpoint dec_digits (fuel : nat) (z : Z) (acc : bytes) : bytes :=
  match fuel with
  | O => acc
  | S f =>
      let acc' := digit (z `mod` 10) :: acc in
      if (z <? 10)%Z then acc' else dec_digits f (z / 10) acc'
  end.
(** Twenty digits hold every 64-bit value. *)
Definition to_string (z : Z) : bytes :=
  if (z <? 0)%Z then x2d :: dec_digits 20 (- z) [] else dec_digits 20 z [].

(** [ss << std::hex << std::setfill('0') << std::setw(16) << h]. *)
Definition hexdigit (d : Z) : byte :=
  if (d <? 10)%Z then byte_of (48 + d) else byte_of (87 + d).
Fixpoint hex_fixed (n : nat) (z : Z) : bytes :=
  match n with
  | O => []
  | S n' => hex_fixed n' (z / 16) ++ [hexdigit (z `mod` 16)]
  end.
Definition hex16 (h : Z) : bytes := hex_fixed 16 h.

(** ** UTF-8 (RFC 3629) *)

Definition between (lo hi : Z) (b : byte) : bool :=
  (lo <=? byte_val b)%Z && (byte_val b <=? hi)%Z.
Definition cont : byte → bool := between 0x80 0xBF.

Fixpoint utf8_valid (s : bytes) : bool :=
  match s with
  | [] => true
  | b0 :: s1 =>
      if between 0 0x7F b0 then utf8_valid s1
      else match s1 with
      | [] => false
      | b1 :: s2 =>
          if between 0xC2 0xDF b0 then cont b1 && utf8_valid s2
          else match s2 with
          | [] => false
          | b2 :: s3 =>
              if between 0xE0 0xE0 b0 then between 0xA0 0xBF b1 && cont b2 && utf8_valid s3
              else if between 0xED 0xED b0 then between 0x80 0x9F b1 && cont b2 && utf8_valid s3
              else if between 0xE1 0xEF b0 then cont b1 && cont b2 && utf8_valid s3
              else match s3 with
              | [] => false
              | b3 :: s4 =>
                  if between 0xF0 0xF0 b0
                  then between 0x90 0xBF b1 && cont b2 && cont b3 && utf8_valid s4
                  else if between 0xF1 0xF3 b0
                  then cont b1 && cont b2 && cont b3 && utf8_valid s4
                  else if between 0xF4 0xF4 b0
                  then between 0x80 0x8F b1 && cont b2 && cont b3 && utf8_valid s4
                  else false
              end
          end
      end
  end.

Arguments hex16 : simpl never.
Arguments to_string : simpl never.
Arguments str : simpl never.

(** ** Lemmas: bytes *)

Lemma byte_val_range (b : byte) : (0 ≤ byte_val b < 256)%Z.
Proof. unfold byte_val. pose proof (Byte.to_N_bounded b). lia. Qed.

Lemma byte_val_of (z : Z) : byte_val (byte_of z) = (z `mod` 256)%Z.
Proof.
  unfold byte_val, byte_of.
  pose proof (Z.mod_pos_bound z 256 ltac:(lia)) as Hr.
  destruct (Byte.of_N (Z.to_N (z `mod` 256))) as [b|] eqn:E; simpl.
  - apply Byte.to_of_N in E. rewrite E. lia.
  - apply Byte.of_N_None_iff in E. lia.
Qed.

Lemma byte_val_inj (a b : byte) : byte_val a = byte_val b → a = b.
Proof.
  unfold byte_val. intros H. apply N2Z.inj in H.
  pose proof (Byte.of_to_N a) as Ha. pose proof (Byte.of_to_N b) as Hb. congruence.
Qed.

Lemma byte_of_val (b : byte) : byte_of (byte_val b) = b.
Proof.
  apply byte_val_inj. rewrite byte_val_of. apply Z.mod_small, byte_val_range.
Qed.

(** ** Lemmas: little-endian words *)

Lemma le32_length (z : Z) : length (le32 z) = 4.
Proof. reflexivity. Qed.

Lemma of_le32_le32 (z : Z) (rest : bytes) :
  is_u32 z → of_le32 (le32 z ++ rest) = z.
Proof.
  unfold is_u32, le32, of_le32. intros Hz. cbn [app].
  rewrite !byte_val_of, !Z.shiftr_div_pow2, !Z.shiftl_mul_pow2 by lia.
  change (2 ^ 8)%Z with 256%Z. change (2 ^ 16)%Z with 65536%Z.
  change (2 ^ 24)%Z with 16777216%Z.
  Z.div_mod_to_equations. lia.
Qed.

Lemma of_le32_range (l : bytes) : is_u32 (of_le32 l).
Proof.
  unfold is_u32, of_le32.
  destruct l as [|b0 [|b1 [|b2 [|b3 l]]]]; try lia.
  rewrite !Z.shiftl_mul_pow2 by lia.
  pose proof (byte_val_range b0). pose proof (byte_val_range b1).
  pose proof (byte_val_range b2). pose proof (byte_val_range b3). lia.
Qed.

Lemma le32_of_le32 (b0 b1 b2 b3 : byte) (rest : bytes) :
  le32 (of_le32 (b0 :: b1 :: b2 :: b3 :: rest)) = [b0; b1; b2; b3].
Proof.
  pose proof (byte_val_range b0). pose proof (byte_val_range b1).
  pose proof (byte_val_range b2). pose proof (byte_val_range b3).
  unfold le32, of_le32.
  rewrite !Z.shiftr_div_pow2, !Z.shiftl_mul_pow2 by lia.
  repeat f_equal; apply byte_val_inj; rewrite byte_val_of;
    Z.div_mod_to_equations; lia.
Qed.

(** ** Lemmas: searching *)

Lemma starts_with_spec (pat s : bytes) :
  starts_with pat s = true ↔ ∃ post, s = pat ++ post.
Proof.
  revert s. induction pat as [|p pat IH]; intros s; simpl.
  - split; [eauto|done].
  - destruct s as [|c s].
    + split; [done|]. intros [post [=]].
    + rewrite andb_true_iff, bool_decide_eq_true, IH. split.
      * intros [-> [post ->]]. eauto.
      * intros [post [= -> ->]]. eauto.
Qed.

Lemma starts_with_app (pat s : bytes) : starts_with pat (pat ++ s) = true.
Proof. apply starts_with_spec. eauto. Qed.

Lemma find_from_shift (pat s : bytes) (n k : nat) :
  find_from pat s (n + k) = (λ p, p + k) <$> find_from pat s n.
Proof.
  revert n. induction s as [|c s IH]; intros n; simpl; case_if; simpl; try done.
  apply (IH (S n)).
Qed.

(** [find] answers [npos] exactly when there is no occurrence. *)
Lemma find_from_None (pat s : bytes) (n : nat) :
  find_from pat s n = None ↔ ¬ ∃ pre post, s = pre ++ pat ++ post.
Proof.
  revert n. induction s as [|c s IH]; intros n; cbn [find_from]; case_if.
  - apply starts_with_spec in E as [post ->]. split; [done|].
    intros []. by exists [], post.
  - split; [|done]. intros _ (pre & post & H).
    destruct pre, pat; try done.
  - apply starts_with_spec in E as [post E]. split; [done|].
    intros []. exists [], post. done.
  - rewrite IH. split; intros H (pre & post & Heq); apply H.
    + destruct pre as [|p pre].
      * simpl in Heq. assert (starts_with pat (c :: s) = true); [|congruence].
        apply starts_with_spec. eauto.
      * injection Heq as -> ->. eauto.
    + subst s. by exists (c :: pre), post.
Qed.

Lemma find_from_Some (pat s : bytes) (n p : nat) :
  find_from pat s n = Some p →
  ∃ pre post, s = pre ++ pat ++ post ∧ p = n + length pre.
Proof.
  revert n. induction s as [|c s IH]; intros n; cbn [find_from]; case_if.
  - intros [= ->]. apply starts_with_spec in E as [post ->]. exists [], post.
    split; [done|]. simpl. lia.
  - done.
  - intros [= ->]. apply starts_with_spec in E as [post E]. exists [], post.
    split; [done|]. simpl. lia.
  - intros (pre & post & -> & ->)%IH. exists (c :: pre), post.
    split; [done|]. simpl. lia.
Qed.

Lemma contains_spec (pat s : bytes) :
  contains pat s = true ↔ ∃ pre post, s = pre ++ pat ++ post.
Proof.
  unfold contains, find. destruct (find_from pat s 0) eqn:E.
  - split; [intros _|done]. apply find_from_Some in E as (? & ? & ? & _). eauto.
  - apply find_from_None in E. split; [done|]. intros H. by destruct E.
Qed.

Lemma find_char_Some (c : byte) (s : bytes) (n : nat) :
  find_char c s = Some n → s = take n s ++ c :: drop (S n) s ∧ c ∉ take n s.
Proof.
  revert n. induction s as [|x s IH]; intros n; simpl; [done|].
  case_decide as Hx.
  - intros [= <-]. subst. split; [done|]. apply not_elem_of_nil.
  - destruct (find_char c s) as [m|]; [|done]. intros [= <-].
    destruct (IH m eq_refl) as [Hs Hn]. simpl.
    split; [by f_equal|]. rewrite not_elem_of_cons. done.
Qed.

Lemma find_char_None (c : byte) (s : bytes) : find_char c s = None ↔ c ∉ s.
Proof.
  induction s as [|x s IH]; simpl.
  - split; [intros; apply not_elem_of_nil|done].
  - rewrite not_elem_of_cons. case_decide as Hx.
    + split; [done|]. intros [[] _]. done.
    + destruct (find_char c s); simpl; split; intros Hf.
      * done.
      * destruct Hf as [_ Hf]. by apply IH in Hf.
      * split; [congruence|by apply IH].
      * done.
Qed.

Lemma find_char_app (c : byte) (s t : bytes) :
  c ∉ s → find_char c (s ++ c :: t) = Some (length s).
Proof.
  induction s as [|x s IH]; simpl; intros Hs.
  - by rewrite decide_True.
  - apply not_elem_of_cons in Hs as [Hx Hs].
    rewrite decide_False by done. by rewrite (IH Hs).
Qed.

(** ** Lemmas: numbers as text *)

Lemma digit_val (d : Z) : (0 ≤ d < 10)%Z → byte_val (digit d) = (48 + d)%Z.
Proof. intros. unfold digit. rewrite byte_val_of. apply Z.mod_small. lia. Qed.

Lemma hex_fixed_length (n : nat) (z : Z) : length (hex_fixed n z) = n.
Proof.
  revert z. induction n as [|n IH]; intros z; simpl; [done|].
  rewrite length_app, IH. simpl. lia.
Qed.

Lemma hexdigit_inj (a b : Z) :
  (0 ≤ a < 16)%Z → (0 ≤ b < 16)%Z → hexdigit a = hexdigit b → a = b.
Proof.
  intros Ha Hb H. apply (f_equal byte_val) in H. unfold hexdigit in H.
  repeat case_match; zbool; rewrite !byte_val_of, !Z.mod_small in H by lia; lia.
Qed.

Lemma hex_fixed_inj (n : nat) (a b : Z) :
  (0 ≤ a < 16 ^ Z.of_nat n)%Z → (0 ≤ b < 16 ^ Z.of_nat n)%Z →
  hex_fixed n a = hex_fixed n b → a = b.
Proof.
  revert a b. induction n as [|n IH]; intros a b Ha Hb; [simpl in *; lia|].
  rewrite Nat2Z.inj_succ, Z.pow_succ_r in Ha, Hb by lia. cbn [hex_fixed].
  intros [H1 H2]%app_inj_2; [|done]. injection H2 as H2.
  apply hexdigit_inj in H2; [|apply Z.mod_pos_bound; lia..].
  apply IH in H1; [Z.div_mod_to_equations; lia|..];
    split; [apply Z.div_pos; lia|apply Z.div_lt_upper_bound; lia|
            apply Z.div_pos; lia|apply Z.div_lt_upper_bound; lia].
Qed.

(** Two 64-bit hashes print to the same sixteen digits only if they are equal. *)
Lemma hex16_inj (a b : Z) : is_u64 a → is_u64 b → hex16 a = hex16 b → a = b.
Proof. intros Ha Hb. by apply hex_fixed_inj. Qed.

#[export] Hint Resolve of_le32_range byte_val_range : aura.
