(* ===== verification/Config.v ===== *)
(** * Configuration (include/config.h)

    The settings are environment variables read through [std::from_chars].
    The process environment is an argument, [env]; so is the number that
    [std::thread::hardware_concurrency()] answers. *)

From S2P Require Import Prelude Bytes.

(** ** [std::from_chars], base 10

    The longest match of [-?[0-9]+] ([-] for signed types only; no sign [+],
    no leading blank).  [Invalid]: no digit.  [OutOfRange]: the number does
    not fit.  [Parsed v rest]: the value and what follows the match. *)

Inductive from_chars_result :=
  | Parsed (v : Z) (rest : bytes)
  | Invalid
  | OutOfRange.

Definition is_digit (b : byte) : bool :=
  (48 <=? byte_val b)%Z && (byte_val b <=? 57)%Z.

Fixpoint scan_digits (v : Z) (s : bytes) : Z * bytes :=
  match s with
  | c :: s' => if is_digit c then scan_digits (v * 10 + (byte_val c - 48)) s' else (v, s)
  | [] => (v, [])
  end.

Definition in_range (lo hi v : Z) (rest : bytes) : from_chars_result :=
  if (lo <=? v)%Z && (v <=? hi)%Z then Parsed v rest else OutOfRange.

Definition from_chars_digits (lo hi sign : Z) (s : bytes) : from_chars_result :=
  match s with
  | c :: _ => if is_digit c
              then let '(v, rest) := scan_digits 0 s in in_range lo hi (sign * v) rest
              else Invalid
  | [] => Invalid
  end.

Definition from_chars_i32 (s : bytes) : from_chars_result :=
  match s with
  | x2d :: s' => from_chars_digits (- 2 ^ 31) INT32_MAX (-1) s'
  | _ => from_chars_digits (- 2 ^ 31) INT32_MAX 1 s
  end.

Definition from_chars_u32 (s : bytes) : from_chars_result :=
  from_chars_digits 0 (2 ^ 32 - 1) 1 s.

(** ** Reading a setting *)

Definition environment : Type := bytes → option bytes.

Definition getenv_i32 (env : environment) (name : bytes) (def : Z) : Z :=
  match env name with
  | None | Some [] => def
  | Some s =>
      match from_chars_i32 s with
      | Parsed val [] => val
      | OutOfRange => def
      | Parsed _ _ | Invalid => def
      end
  end.

Definition getenv_u32 (env : environment) (name : bytes) (def : Z) : Z :=
  match env name with
  | None | Some [] => def
  | Some s =>
      match from_chars_u32 s with
      | Parsed val [] => val
      | _ => def
      end
  end.

(** [const char* e = getenv(name); return e ? e : def]. *)
Definition getenv_str (env : environment) (name def : bytes) : bytes :=
  default def (env name).

(** ** The settings *)

Definition PROTO_MAGIC : Z := 0xDEADBEEF.
Definition MAX_BODY_LEN : Z := 65535.

Definition PORT (env : environment) : Z := getenv_i32 env (str "IM_PORT") 8888.
Definition HEARTBEAT_SEC (env : environment) : Z := getenv_i32 env (str "IM_HB_SEC") 60.
Definition POOL_SIZE (env : environment) : Z := getenv_u32 env (str "IM_POOL_SIZE") 10000.
Definition MAX_SEND_BUF (env : environment) : Z :=
  getenv_u32 env (str "IM_MAX_SEND_BUF") (5 * 1024 * 1024).
Definition BACKLOG (env : environment) : Z := getenv_i32 env (str "IM_BACKLOG") 4096.
Definition MAX_CONN (env : environment) : Z := getenv_i32 env (str "IM_MAX_CONN") 500000.
Definition WORKER_NUM (env : environment) (hardware_concurrency : Z) : Z :=
  let v := getenv_i32 env (str "IM_WORKER") 0 in
  if (v =? 0)%Z then wrap_i32 hardware_concurrency else v.
Definition AI_MAX_CONCURRENT (env : environment) : Z :=
  getenv_i32 env (str "AI_MAX_CONCURRENT") 20.
Definition DB_HOST (env : environment) : bytes := getenv_str env (str "DB_HOST") (str "127.0.0.1").
Definition DB_PORT (env : environment) : Z := getenv_i32 env (str "DB_PORT") 3306.
Definition DB_USER (env : environment) : bytes := getenv_str env (str "DB_USER") (str "root").
Definition DB_PASS (env : environment) : bytes :=
  getenv_str env (str "DB_PASS") (str "@Liuyingjie040907").
Definition DB_NAME (env : environment) : bytes := getenv_str env (str "DB_NAME") (str "im_chat").
Definition RATE_LIMIT_MSGS (env : environment) : Z :=
  getenv_i32 env (str "IM_RATE_LIMIT_MSGS") 20.
Definition RATE_LIMIT_WINDOW (env : environment) : Z :=
  getenv_i32 env (str "IM_RATE_LIMIT_WINDOW") 1.
Definition AI_BASE_URL (env : environment) : bytes :=
  getenv_str env (str "AI_BASE_URL") (str "http://127.0.0.1:8082").

(** ** Lemmas *)

Lemma is_digit_digit (d : Z) : (0 ≤ d < 10)%Z → is_digit (digit d) = true.
Proof.
  intros H. unfold is_digit. rewrite digit_val by done.
  apply andb_true_iff. rewrite !Z.leb_le. lia.
Qed.

Lemma scan_digit (v d : Z) (s : bytes) :
  (0 ≤ d < 10)%Z → scan_digits v (digit d :: s) = scan_digits (v * 10 + d) s.
Proof.
  intros H. cbn [scan_digits]. rewrite is_digit_digit, digit_val by done.
  do 2 f_equal. lia.
Qed.

Lemma scan_dec_digits (f : nat) (z : Z) (acc : bytes) :
  (0 ≤ z < 10 ^ Z.of_nat f)%Z →
  scan_digits 0 (dec_digits f z acc) = scan_digits z acc.
Proof.
  revert z acc. induction f as [|f IH]; intros z acc Hz.
  - simpl in *. by replace z with 0%Z by lia.
  - rewrite Nat2Z.inj_succ, Z.pow_succ_r in Hz by lia. cbn [dec_digits].
    pose proof (Z.mod_pos_bound z 10 ltac:(lia)). case_if; zbool.
    + rewrite scan_digit by done. f_equal. rewrite Z.mod_small; lia.
    + rewrite IH, scan_digit by (Z.div_mod_to_equations; lia).
      f_equal. Z.div_mod_to_equations; lia.
Qed.

Lemma dec_digits_head (f : nat) (z : Z) (acc : bytes) :
  (0 ≤ z)%Z → ∃ d s, (0 ≤ d < 10)%Z ∧ dec_digits (S f) z acc = digit d :: s.
Proof.
  revert z acc. induction f as [|f IH]; intros z acc Hz;
    pose proof (Z.mod_pos_bound z 10 ltac:(lia)).
  - cbn [dec_digits]. case_if; eauto.
  - remember (S f) as g. cbn [dec_digits]. case_if; [eauto|]. subst g.
    apply IH. apply Z.div_pos; lia.
Qed.

Lemma from_chars_dec_digits (lo hi sign z : Z) :
  (0 ≤ z < 10 ^ 20)%Z → (lo ≤ sign * z ≤ hi)%Z →
  from_chars_digits lo hi sign (dec_digits 20 z []) = Parsed (sign * z) [].
Proof.
  intros Hz Hr. destruct (dec_digits_head 19 z [] ltac:(lia)) as (d & s & Hd & E).
  unfold from_chars_digits. rewrite E, is_digit_digit, <- E by done.
  rewrite scan_dec_digits by (simpl; lia). cbn. unfold in_range.
  destruct Hr as [H1 H2].
  apply Z.leb_le in H1 as ->. apply Z.leb_le in H2 as ->. done.
Qed.

Lemma from_chars_to_string (v : Z) :
  is_i32 v → from_chars_i32 (to_string v) = Parsed v [].
Proof.
  unfold is_i32, to_string. intros Hv. case_if; zbool.
  - cbn [from_chars_i32]. rewrite from_chars_dec_digits; unfold INT32_MAX; [|lia..].
    f_equal. lia.
  - destruct (dec_digits_head 19 v [] ltac:(lia)) as (d & s & Hd & Es).
    rewrite <- (Z.mul_1_l v) at 2.
    rewrite <- (from_chars_dec_digits (- 2 ^ 31) INT32_MAX 1 v);
      [|lia|unfold INT32_MAX; lia].
    rewrite Es. unfold from_chars_i32.
    destruct (digit d) eqn:Ed; try reflexivity.
    apply (f_equal byte_val) in Ed. rewrite digit_val in Ed by done.
    cbn in Ed. lia.
Qed.

Lemma to_string_nonempty (v : Z) : to_string v ≠ [].
Proof.
  unfold to_string. case_if; [done|]. zbool.
  destruct (dec_digits_head 19 v [] ltac:(lia)) as (d & s & _ & ->). done.
Qed.

Lemma from_chars_digits_range (lo hi sign v : Z) (s rest : bytes) :
  from_chars_digits lo hi sign s = Parsed v rest → (lo ≤ v ≤ hi)%Z.
Proof.
  unfold from_chars_digits, in_range. destruct s as [|c s]; [done|].
  case_if; [|done]. destruct (scan_digits 0 (c :: s)) as [w r].
  case_if; [|done]. intros [= <- <-]. zbool. lia.
Qed.

Lemma from_chars_i32_range (v : Z) (s rest : bytes) :
  from_chars_i32 s = Parsed v rest → is_i32 v.
Proof.
  unfold from_chars_i32, is_i32. intros H.
  assert (- 2 ^ 31 ≤ v ≤ INT32_MAX)%Z as ?; [|unfold INT32_MAX in *; lia].
  destruct s as [|[] s]; eauto using from_chars_digits_range.
Qed.

(** ** Properties *)

(** A setting is read back: when the variable holds the decimal text of a
    32-bit value [v], [getenv_i32] answers [v] whatever the default is. *)
Theorem getenv_i32_roundtrip (env : environment) (name : bytes) (v def : Z) :
  is_i32 v → env name = Some (to_string v) → getenv_i32 env name def = v.
Proof.
  intros Hv E. unfold getenv_i32. rewrite E, (from_chars_to_string v Hv).
  pose proof (to_string_nonempty v). by destruct (to_string v).
Qed.

Lemma getenv_i32_roundtrip_witness :
  getenv_i32 (λ _, Some (to_string (-17))) (str "IM_PORT") 8888 = (-17)%Z.
Proof. apply getenv_i32_roundtrip; [unfold is_i32; lia | reflexivity]. Defined.

(** Whatever the environment holds, a setting is a 32-bit value: text that
    is not a number, has trailing characters or is out of range gives the
    default. *)
Theorem getenv_i32_total (env : environment) (name : bytes) (def : Z) :
  is_i32 def →
  is_i32 (getenv_i32 env name def) ∧
  (getenv_i32 env name def = def ∨
   ∃ s, env name = Some s ∧ from_chars_i32 s = Parsed (getenv_i32 env name def) []).
Proof.
  intros Hd. unfold getenv_i32. destruct (env name) as [[|c s]|] eqn:E; [eauto| |eauto].
  destruct (from_chars_i32 (c :: s)) as [v [|r rest]| |] eqn:F; [|eauto..].
  split; [by eapply from_chars_i32_range|]. right. eauto.
Qed.

Lemma getenv_i32_total_witness :
  is_i32 (getenv_i32 (λ _, Some (str "99999999999")) (str "IM_PORT") 8888) ∧
  getenv_i32 (λ _, Some (str "99999999999")) (str "IM_PORT") 8888 = 8888%Z.
Proof.
  split; [apply getenv_i32_total; unfold is_i32; lia | reflexivity].
Defined.
