(* ===== verification/Scan.v ===== *)
(** * Reading numbers and words

    [std::istringstream] extraction and [std::stoi] as the client and the
    database code use them. *)

From S2P Require Import Prelude Bytes Config.

(** ** Reading from [std::istringstream] *)

Definition isspace (b : byte) : bool :=
  match b with x20 | x09 | x0a | x0b | x0c | x0d => true | _ => false end.
Fixpoint skipws (s : bytes) : bytes :=
  match s with c :: s' => if isspace c then skipws s' else s | [] => [] end.
Fixpoint until_space (s : bytes) : bytes * bytes :=
  match s with
  | [] => ([], [])
  | c :: s' => if isspace c then ([], s) else let '(w, r) := until_space s' in (c :: w, r)
  end.

(** [iss >> word] *)
Definition get_word (s : bytes) : option (bytes * bytes) :=
  match skipws s with
  | [] => None
  | s' => Some (until_space s')
  end.

(** Blanks, an optional sign and decimal digits; [None]: no digit, or the value
    does not fit. *)
Definition get_number (lo hi : Z) (s : bytes) : option (Z * bytes) :=
  let '(sign, s') := match skipws s with
                     | x2d :: r => ((-1)%Z, r)
                     | x2b :: r => (1%Z, r)
                     | r => (1%Z, r)
                     end in
  match from_chars_digits lo hi sign s' with
  | Parsed v rest => Some (v, rest)
  | Invalid | OutOfRange => None
  end.

(** [iss >> t] for an [int]; [None]: the fail bit is set. *)
Definition get_int : bytes → option (Z * bytes) := get_number (- 2 ^ 31) INT32_MAX.

(** [std::stoi], [std::stoll]; [None]: an exception. *)
Definition stoi (s : bytes) : option Z := fst <$> get_number (- 2 ^ 31) INT32_MAX s.
Definition stoll (s : bytes) : option Z := fst <$> get_number (- 2 ^ 63) INT64_MAX s.

(** [std::getline(iss, m)] *)
Definition get_line (s : bytes) : bytes :=
  match find_char x0a s with Some n => take n s | None => s end.

(** [std::string(p)] and [c_str()]: a C string ends at the first zero byte. *)
Definition c_str (s : bytes) : bytes :=
  match find_char x00 s with Some n => take n s | None => s end.

Lemma c_str_id (s : bytes) : x00 ∉ s → c_str s = s.
Proof. intros Hs. unfold c_str. by rewrite (proj2 (find_char_None _ _)). Qed.

Lemma c_str_app (s t : bytes) : x00 ∉ s → c_str (s ++ t) = s ++ c_str t.
Proof.
  intros Hs. induction s as [|b s IH]; [done|]. apply not_elem_of_cons in Hs as [Hb Hs]. specialize (IH Hs).
  unfold c_str in *. cbn [app find_char]. rewrite decide_False by congruence.
  destruct (find_char x00 (s ++ t)) as [n|]; cbn; by rewrite IH.
Qed.
