(* ===== verification/Protocol.v ===== *)
(** * The wire protocol (include/protocol.h, message.proto)

    The packet header with its memory layout, the commands, the message types
    of message.proto as records, and the interface of the protobuf runtime:
    the generated [ParseFromString]/[SerializeToString] are not part of the
    sources, so they are the operations of the class [Protobuf]; what the code
    relies on is the class [ProtobufLaws]. *)

From S2P Require Import Prelude Bytes Config.

(** ** Packet header *)

Record PacketHeader := mkHeader {
  magic : Z;
  body_len : Z;
  cmd : Z;
  seq : Z
}.

Definition sizeof_PacketHeader : nat := 16.

(** The bytes of a header in memory. *)
Definition header_bytes (h : PacketHeader) : bytes :=
  le32 (magic h) ++ le32 (body_len h) ++ le32 (cmd h) ++ le32 (seq h).

(** The header that a pointer cast reads at the front of a buffer. *)
Definition header_at (buf : bytes) : PacketHeader :=
  mkHeader (of_le32 buf) (of_le32 (drop 4 buf)) (of_le32 (drop 8 buf))
           (of_le32 (drop 12 buf)).

(** ** Commands *)

Inductive CmdType :=
  | LOGIN | CHAT | ACK | HEARTBEAT | REGISTER | ADD_FRIEND | ACCEPT_FRIEND
  | FRIEND_LIST | SEARCH_USER | FRIEND_REQUESTS.

(** [(uint32_t)CmdType::X] *)
Definition cmd_val (c : CmdType) : Z :=
  match c with
  | LOGIN => 1 | CHAT => 2 | ACK => 3 | HEARTBEAT => 4 | REGISTER => 5
  | ADD_FRIEND => 6 | ACCEPT_FRIEND => 7 | FRIEND_LIST => 8
  | SEARCH_USER => 9 | FRIEND_REQUESTS => 10
  end.

(** ** Messages *)

Record ChatMessage := mkChat {
  from_uid : Z;
  to_uid : Z;
  content : bytes;
  timestamp : Z;
  is_stream : bool;
  is_last_chunk : bool;
  stream_seq : Z
}.
Record Response := mkResponse { success : bool; msg : bytes; resp_uid : Z }.
Record LoginRequest := mkLogin { login_username : bytes; login_password : bytes }.
Record RegisterRequest := mkRegister { reg_username : bytes; reg_password : bytes }.
Record FriendInfo := mkFriendInfo { fi_uid : Z; fi_username : bytes; fi_online : bool }.
Record AddFriendRequest := mkAddFriend { af_to_uid : Z; af_message : bytes }.
Record AcceptFriendRequest := mkAccept { request_id : Z }.
Record FriendRequestInfo := mkReqInfo {
  ri_id : Z; ri_from_uid : Z; ri_from_username : bytes; ri_message : bytes }.
Record SearchUserRequest := mkSearch { keyword : bytes }.
Record UserList := mkUserList { users : list FriendInfo }.
Record FriendRequestList := mkReqList { requests : list FriendRequestInfo }.

(** ** The protobuf runtime *)

Class ProtoCodec (Msg : Type) := {
  ParseFromString : bytes → option Msg;
  SerializeToString : Msg → bytes
}.

Class Protobuf := {
  pb_chat :: ProtoCodec ChatMessage;
  pb_response :: ProtoCodec Response;
  pb_login :: ProtoCodec LoginRequest;
  pb_register :: ProtoCodec RegisterRequest;
  pb_add_friend :: ProtoCodec AddFriendRequest;
  pb_accept :: ProtoCodec AcceptFriendRequest;
  pb_search :: ProtoCodec SearchUserRequest;
  pb_user_list :: ProtoCodec UserList;
  pb_req_list :: ProtoCodec FriendRequestList
}.

(** The values a message can carry: [int32] and [int64] fields hold their
    width, [string] fields are UTF-8 ([content] has type [bytes]: anything). *)
Definition chat_wf (m : ChatMessage) : Prop :=
  is_i32 (from_uid m) ∧ is_i32 (to_uid m) ∧ is_i64 (timestamp m) ∧ is_i32 (stream_seq m).
Definition response_wf (r : Response) : Prop :=
  utf8_valid (msg r) = true ∧ is_i32 (resp_uid r).
Definition login_wf (r : LoginRequest) : Prop :=
  utf8_valid (login_username r) = true ∧ utf8_valid (login_password r) = true.
Definition register_wf (r : RegisterRequest) : Prop :=
  utf8_valid (reg_username r) = true ∧ utf8_valid (reg_password r) = true.

(** Documented behaviour: parsing what was serialized gives the message back. *)
Class ProtobufLaws `{Protobuf} := {
  chat_parse_serialize (m : ChatMessage) :
    chat_wf m → ParseFromString (SerializeToString m) = Some m;
  response_parse_serialize (m : Response) :
    response_wf m → ParseFromString (SerializeToString m) = Some m;
  login_parse_serialize (m : LoginRequest) :
    login_wf m → ParseFromString (SerializeToString m) = Some m;
  register_parse_serialize (m : RegisterRequest) :
    register_wf m → ParseFromString (SerializeToString m) = Some m
}.

(** ** Building a packet ([Worker::send_packet_in_loop], [AIChatClient::send_packet]) *)

Definition make_packet (c s : Z) (body : bytes) : bytes :=
  header_bytes (mkHeader PROTO_MAGIC (wrap_u32 (Z.of_nat (length body))) c s) ++ body.

(** ** Decidable equality *)

#[export] Instance CmdType_eq_dec : EqDecision CmdType.
Proof. solve_decision. Defined.
#[export] Instance PacketHeader_eq_dec : EqDecision PacketHeader.
Proof. solve_decision. Defined.
#[export] Instance ChatMessage_eq_dec : EqDecision ChatMessage.
Proof. solve_decision. Defined.
#[export] Instance Response_eq_dec : EqDecision Response.
Proof. solve_decision. Defined.
#[export] Instance FriendInfo_eq_dec : EqDecision FriendInfo.
Proof. solve_decision. Defined.
#[export] Instance FriendRequestInfo_eq_dec : EqDecision FriendRequestInfo.
Proof. solve_decision. Defined.

(** ** Lemmas *)

Definition header_wf (h : PacketHeader) : Prop :=
  is_u32 (magic h) ∧ is_u32 (body_len h) ∧ is_u32 (cmd h) ∧ is_u32 (seq h).

Lemma header_bytes_length (h : PacketHeader) :
  length (header_bytes h) = sizeof_PacketHeader.
Proof. reflexivity. Qed.

Lemma header_at_bytes (h : PacketHeader) (rest : bytes) :
  header_wf h → header_at (header_bytes h ++ rest) = h.
Proof.
  intros (H1 & H2 & H3 & H4). destruct h as [m b c s]. cbn [magic body_len cmd seq] in H1, H2, H3, H4.
  unfold header_at, header_bytes. cbn [magic body_len cmd seq].
  rewrite <- !app_assoc.
  rewrite (drop_app_length' (le32 m) _ 4) by done.
  replace (drop 8 _) with (le32 c ++ le32 s ++ rest) by done.
  replace (drop 12 _) with (le32 s ++ rest) by done.
  by rewrite !of_le32_le32.
Qed.

Lemma header_at_wf (buf : bytes) : header_wf (header_at buf).
Proof. unfold header_wf. split_ands; apply of_le32_range. Qed.

Lemma header_at_app (buf rest : bytes) :
  sizeof_PacketHeader ≤ length buf → header_at (buf ++ rest) = header_at buf.
Proof.
  unfold sizeof_PacketHeader. intros H.
  do 16 (destruct buf as [|? buf]; [simpl in H; lia|]). reflexivity.
Qed.

Lemma header_at_inv (buf : bytes) :
  sizeof_PacketHeader ≤ length buf →
  header_bytes (header_at buf) = take sizeof_PacketHeader buf.
Proof.
  unfold sizeof_PacketHeader. intros H.
  do 16 (destruct buf as [|? buf]; [simpl in H; lia|]).
  unfold header_bytes, header_at. cbn [magic body_len cmd seq drop].
  rewrite !le32_of_le32. reflexivity.
Qed.

#[export] Hint Resolve header_at_wf : aura.
