(* ===== verification/Framing.v ===== *)
(** * Packet framing on the server ([TcpConnection::handle_read], src/connection.cpp)

    The loop that cuts the receive buffer of a connection into packets.  The
    rest of [handle_read] (the socket, the thread pool) is in Worker.v. *)

From S2P Require Import Prelude Bytes Config Protocol.

(** ** The parsing loop *)

Inductive parse_step :=
  | NeedMore
  | BadFrame
  | Frame (head : PacketHeader) (body rest : bytes).

(** One iteration of [while (recv_buf.size() >= sizeof(PacketHeader))]. *)
Definition parse_one (recv_buf : bytes) : parse_step :=
  if (length recv_buf <? sizeof_PacketHeader)%nat then NeedMore
  else
    let hdr := header_at recv_buf in
    if negb (magic hdr =? PROTO_MAGIC)%Z || (body_len hdr >? MAX_BODY_LEN)%Z then BadFrame
    else
      let blen := Z.to_nat (body_len hdr) in
      if (length recv_buf <? sizeof_PacketHeader + blen)%nat then NeedMore
      else Frame hdr (substr sizeof_PacketHeader blen recv_buf)
                     (drop (sizeof_PacketHeader + blen) recv_buf).

(** The loop: the packets it hands to the thread pool, the bytes left in
    [recv_buf], and whether the stream was still well formed ([false]: the
    connection is force-closed).  Each iteration consumes at least a header,
    so [length buf] iterations are enough. *)
Fixpoint parse_loop (fuel : nat) (buf : bytes) : list (PacketHeader * bytes) * bytes * bool :=
  match fuel with
  | O => ([], buf, true)
  | S f =>
      match parse_one buf with
      | NeedMore => ([], buf, true)
      | BadFrame => ([], buf, false)
      | Frame h b rest =>
          let '(fs, r, ok) := parse_loop f rest in ((h, b) :: fs, r, ok)
      end
  end.
Definition parse_frames (buf : bytes) : list (PacketHeader * bytes) * bytes * bool :=
  parse_loop (length buf) buf.

(** Feeding a buffer with the pieces that successive reads deliver. *)
Fixpoint feed (buf : bytes) (pieces : list bytes) : list (PacketHeader * bytes) * bytes * bool :=
  match pieces with
  | [] => ([], buf, true)
  | p :: ps =>
      let '(fs, r, ok) := parse_frames (buf ++ p) in
      if ok then let '(fs', r', ok') := feed r ps in (fs ++ fs', r', ok')
      else (fs, r, false)
  end.

(** A packet as a sender must build it. *)
Definition frame_wf (f : PacketHeader * bytes) : Prop :=
  header_wf f.1 ∧ magic f.1 = PROTO_MAGIC ∧
  body_len f.1 = Z.of_nat (length f.2) ∧ (Z.of_nat (length f.2) ≤ MAX_BODY_LEN)%Z.

Definition frame_bytes (f : PacketHeader * bytes) : bytes := header_bytes f.1 ++ f.2.

(** A packet (command, sequence number, body), and that it fits the protocol. *)
Definition packet_bytes (q : Z * Z * bytes) : bytes := make_packet q.1.1 q.1.2 q.2.
Definition packet_ok (q : Z * Z * bytes) : Prop :=
  is_u32 q.1.1 ∧ is_u32 q.1.2 ∧ (Z.of_nat (length q.2) ≤ MAX_BODY_LEN)%Z.
Definition packet_frame (q : Z * Z * bytes) : PacketHeader * bytes :=
  (mkHeader PROTO_MAGIC (Z.of_nat (length q.2)) q.1.1 q.1.2, q.2).

(** ** Lemmas *)

Lemma Frame_inj (h h' : PacketHeader) (b b' r r' : bytes) :
  Frame h b r = Frame h' b' r' → h = h' ∧ b = b' ∧ r = r'.
Proof. by intros [= -> -> ->]. Qed.

Lemma parse_one_Frame (buf : bytes) (h : PacketHeader) (b rest : bytes) :
  parse_one buf = Frame h b rest → buf = frame_bytes (h, b) ++ rest ∧ frame_wf (h, b).
Proof.
  unfold parse_one. case_if; [done|]. case_if; [done|]. case_if; [done|].
  intros (<- & <- & <-)%Frame_inj. zbool.
  assert (Hw : header_wf (header_at buf)) by auto with aura.
  assert (Hb : (0 ≤ body_len (header_at buf) ≤ MAX_BODY_LEN)%Z).
  { destruct Hw as (_ & [Hb _] & _). lia. }
  assert (Hl : length (substr sizeof_PacketHeader (Z.to_nat (body_len (header_at buf))) buf)
               = Z.to_nat (body_len (header_at buf))).
  { unfold substr. rewrite length_take, length_drop. lia. }
  split.
  - unfold frame_bytes. cbn [fst snd]. rewrite header_at_inv by lia.
    unfold substr. rewrite <- drop_drop, <- app_assoc, take_drop, take_drop. done.
  - unfold frame_wf. cbn [fst snd]. split_ands; [done..| |]; rewrite Hl; lia.
Qed.

Lemma parse_one_app (f : PacketHeader * bytes) (rest : bytes) :
  frame_wf f → parse_one (frame_bytes f ++ rest) = Frame f.1 f.2 rest.
Proof.
  destruct f as [h b]. intros (Hw & Hm & Hb & Hmax). cbn [fst snd] in *.
  unfold parse_one, frame_bytes. cbn [fst snd]. rewrite <- app_assoc.
  rewrite header_at_bytes by done.
  rewrite !length_app, header_bytes_length, Hm, Hb, Nat2Z.id.
  rewrite (proj2 (Nat.ltb_ge _ _)) by lia.
  rewrite Z.eqb_refl, Z.gtb_ltb, (proj2 (Z.ltb_ge _ _)) by lia. cbn [negb orb].
  rewrite (proj2 (Nat.ltb_ge _ _)) by lia.
  unfold substr. rewrite drop_app_length', take_app_length' by done.
  f_equal. rewrite (app_assoc (header_bytes h)). apply drop_app_length'.
  by rewrite length_app.
Qed.

Lemma packet_frame_wf q : packet_ok q → frame_wf (packet_frame q) ∧ packet_bytes q = frame_bytes (packet_frame q).
Proof.
  destruct q as [[cm sq] b]. intros (Hc & Hs & Hb). cbn [fst snd] in *.
  assert (Hu : is_u32 (Z.of_nat (length b))) by (unfold is_u32, MAX_BODY_LEN in *; lia).
  split.
  - unfold frame_wf, packet_frame, header_wf. cbn. split_ands; try done.
  - unfold packet_bytes, frame_bytes, packet_frame, make_packet. cbn [fst snd]. by rewrite wrap_u32_id.
Qed.

Lemma parse_one_shrinks (buf : bytes) (h : PacketHeader) (b rest : bytes) :
  parse_one buf = Frame h b rest → length rest + sizeof_PacketHeader ≤ length buf.
Proof.
  intros [-> _]%parse_one_Frame. unfold frame_bytes.
  rewrite !length_app, header_bytes_length. lia.
Qed.

(** More fuel than bytes changes nothing. *)
Lemma parse_loop_fuel (f g : nat) (buf : bytes) :
  length buf ≤ f → length buf ≤ g → parse_loop f buf = parse_loop g buf.
Proof.
  revert g buf. induction f as [|f IH]; intros [|g] buf Hf Hg; cbn [parse_loop].
  - done.
  - assert (buf = []) as -> by (destruct buf; simpl in *; [done|lia]). done.
  - assert (buf = []) as -> by (destruct buf; simpl in *; [done|lia]). done.
  - destruct (parse_one buf) as [| |h b rest] eqn:E; [done..|].
    apply parse_one_shrinks in E. unfold sizeof_PacketHeader in E.
    by rewrite (IH g rest) by lia.
Qed.

(** The equation of the loop, without fuel. *)
Lemma parse_frames_unfold (buf : bytes) :
  parse_frames buf =
  match parse_one buf with
  | NeedMore => ([], buf, true)
  | BadFrame => ([], buf, false)
  | Frame h b rest => let '(fs, r, ok) := parse_frames rest in ((h, b) :: fs, r, ok)
  end.
Proof.
  unfold parse_frames. destruct (length buf) as [|n] eqn:En.
  - destruct buf; [done|discriminate].
  - cbn [parse_loop]. destruct (parse_one buf) as [| |h b rest] eqn:E; [done..|].
    apply parse_one_shrinks in E. unfold sizeof_PacketHeader in E.
    by rewrite (parse_loop_fuel n (length rest)) by lia.
Qed.

Lemma parse_one_BadFrame_app (buf more : bytes) :
  parse_one buf = BadFrame → parse_one (buf ++ more) = BadFrame.
Proof.
  unfold parse_one. case_if; [done|]. case_if; [intros _|by case_if].
  zbool. rewrite header_at_app, E0 by done.
  by rewrite length_app, (proj2 (Nat.ltb_ge _ _)) by lia.
Qed.

(** Induction along the packets of a buffer. *)
Lemma frames_ind (P : bytes → Prop) :
  (∀ buf, (∀ h b rest, parse_one buf = Frame h b rest → P rest) → P buf) → ∀ buf, P buf.
Proof.
  intros H buf. remember (length buf) as n eqn:En. revert buf En.
  induction n as [n IH] using lt_wf_ind. intros buf ->. apply H.
  intros h b rest E. apply parse_one_shrinks in E. unfold sizeof_PacketHeader in E.
  apply (IH (length rest)); [lia|done].
Qed.

(** Parsing is incremental: what a prefix yields does not depend on what
    follows, and the leftover is where the parse of the rest resumes. *)
Lemma parse_frames_app (buf more : bytes) :
  parse_frames (buf ++ more) =
  let '(fs, r, ok) := parse_frames buf in
  if ok then let '(fs', r', ok') := parse_frames (r ++ more) in (fs ++ fs', r', ok')
  else (fs, r ++ more, false).
Proof.
  induction buf as [buf IH] using frames_ind.
  rewrite (parse_frames_unfold buf). destruct (parse_one buf) as [| |h b rest] eqn:E.
  - by destruct (parse_frames (buf ++ more)) as [[fs r] ok].
  - by rewrite parse_frames_unfold, parse_one_BadFrame_app.
  - apply parse_one_Frame in E as Hf. destruct Hf as [-> Hwf].
    rewrite <- app_assoc, (parse_frames_unfold (frame_bytes _ ++ _)), parse_one_app by done.
    rewrite (IH h b rest eq_refl). cbn [fst snd].
    destruct (parse_frames rest) as [[fs r] []]; [|done].
    by destruct (parse_frames (r ++ more)) as [[fs' r'] ok'].
Qed.

Lemma parse_frames_concat (fs : list (PacketHeader * bytes)) (tail : bytes) :
  Forall frame_wf fs → parse_one tail = NeedMore →
  parse_frames (concat (map frame_bytes fs) ++ tail) = (fs, tail, true).
Proof.
  intros Hfs Ht. induction Hfs as [|[h b] fs Hf Hfs IH]; cbn [map concat app].
  - by rewrite parse_frames_unfold, Ht.
  - rewrite <- app_assoc, parse_frames_unfold, parse_one_app by done.
    rewrite IH. done.
Qed.

Lemma parse_frames_rest (buf r : bytes) (fs : list (PacketHeader * bytes)) :
  parse_frames buf = (fs, r, true) → parse_one r = NeedMore.
Proof.
  revert fs. induction buf as [buf IH] using frames_ind. intros fs.
  rewrite parse_frames_unfold. destruct (parse_one buf) as [| |h b rest] eqn:E.
  - intros [= <- <-]. done.
  - done.
  - destruct (parse_frames rest) as [[fs' r'] ok'] eqn:E'. intros [= <- -> ->].
    by eapply IH.
Qed.

Lemma parse_frames_bad (buf r : bytes) (fs : list (PacketHeader * bytes)) :
  parse_frames buf = (fs, r, false) → parse_one r = BadFrame.
Proof.
  revert fs. induction buf as [buf IH] using frames_ind. intros fs.
  rewrite parse_frames_unfold. destruct (parse_one buf) as [| |h b rest] eqn:E.
  - done.
  - intros [= <- <-]. done.
  - destruct (parse_frames rest) as [[fs' r'] ok'] eqn:E'. intros [= <- -> ->].
    by eapply IH.
Qed.

Lemma parse_frames_sound (buf r : bytes) (fs : list (PacketHeader * bytes)) (ok : bool) :
  parse_frames buf = (fs, r, ok) →
  buf = concat (map frame_bytes fs) ++ r ∧ Forall frame_wf fs.
Proof.
  revert fs r ok. induction buf as [buf IH] using frames_ind. intros fs r ok.
  rewrite parse_frames_unfold. destruct (parse_one buf) as [| |h b rest] eqn:E.
  1,2: intros [= <- <- <-]; done.
  destruct (parse_frames rest) as [[fs' r'] ok'] eqn:E'. intros [= <- -> ->].
  destruct (IH _ _ _ eq_refl _ _ _ E') as [-> Hfs].
  apply parse_one_Frame in E as [-> Hf]. split; [|by constructor].
  cbn [map concat]. by rewrite app_assoc.
Qed.

(** Packets before a bad header are handed over, however the stream is cut. *)
Lemma parse_frames_then_bad (fs : list (PacketHeader * bytes)) (tail : bytes) :
  Forall frame_wf fs → parse_one tail = BadFrame →
  parse_frames (concat (map frame_bytes fs) ++ tail) = (fs, tail, false).
Proof.
  intros Hfs Ht. induction Hfs as [|[h b] fs Hf Hfs IH]; cbn [map concat app].
  - by rewrite parse_frames_unfold, Ht.
  - rewrite <- app_assoc, parse_frames_unfold, parse_one_app by done. by rewrite IH.
Qed.
Lemma feed_bad (pieces : list bytes) : ∀ buf fs r,
  parse_one buf = NeedMore → parse_frames (buf ++ concat pieces) = (fs, r, false) →
  ∃ r', feed buf pieces = (fs, r', false).
Proof.
  induction pieces as [|p ps IH]; intros buf fs r Hb; cbn [feed concat].
  - by rewrite app_nil_r, parse_frames_unfold, Hb.
  - rewrite app_assoc, parse_frames_app. destruct (parse_frames (buf ++ p)) as [[fs1 r1] ok1] eqn:E1.
    destruct ok1; [|intros [= <- <-]; eauto].
    destruct (parse_frames (r1 ++ concat ps)) as [[fs2 r2] ok2] eqn:E2. intros [= <- <- ->].
    destruct (IH r1 fs2 r2 (parse_frames_rest _ _ _ E1) E2) as [r' ->]. eauto.
Qed.

(** Cutting a well-formed stream does not matter. *)
Lemma feed_concat (pieces : list bytes) : ∀ buf fs r,
  parse_one buf = NeedMore → parse_frames (buf ++ concat pieces) = (fs, r, true) →
  feed buf pieces = (fs, r, true).
Proof.
  induction pieces as [|p ps IH]; intros buf fs r Hb; cbn [feed concat].
  - rewrite app_nil_r, parse_frames_unfold, Hb. done.
  - rewrite app_assoc, parse_frames_app. destruct (parse_frames (buf ++ p)) as [[fs1 r1] ok1] eqn:E1.
    destruct ok1; [|discriminate].
    destruct (parse_frames (r1 ++ concat ps)) as [[fs2 r2] ok2] eqn:E2. intros [= <- <- ->].
    by rewrite (IH r1 fs2 r2 (parse_frames_rest _ _ _ E1) E2).
Qed.

(** ** Properties *)

(** C6. Packets survive the stream: the bytes of any sequence of well-formed
    packets, cut by the network into any pieces and followed by an incomplete
    packet, are handed to the thread pool as exactly those packets, in order,
    and the incomplete one stays in the buffer. *)
Theorem framing_roundtrip (fs : list (PacketHeader * bytes)) (tail : bytes)
    (pieces : list bytes) :
  Forall frame_wf fs → parse_one tail = NeedMore →
  concat pieces = concat (map frame_bytes fs) ++ tail →
  feed [] pieces = (fs, tail, true).
Proof.
  intros Hfs Ht E. apply feed_concat; [done|]. cbn [app]. rewrite E. by apply parse_frames_concat.
Qed.

Definition ping : PacketHeader * bytes :=
  (mkHeader PROTO_MAGIC 4 4 1, str "PING").

Lemma framing_roundtrip_witness :
  feed [] [take 3 (frame_bytes ping); drop 3 (frame_bytes ping) ++ frame_bytes ping ++ [x01]]
  = ([ping; ping], [x01], true).
Proof.
  apply framing_roundtrip.
  - repeat constructor; vm_compute; congruence.
  - reflexivity.
  - reflexivity.
Defined.

(** C17. The cut points do not matter: delivering [p] and [q] in two reads hands
    over the same packets and closes the connection in the same cases as one
    read of [p ++ q].  If the connection stays open the same bytes are left in
    the buffer too.  If a bad header closes it, the bytes left may differ only
    by [q], which is not read any more when the bad header was already in
    [p]. *)
Theorem framing_cut_invariant (buf p q : bytes) :
  feed buf [p; q] = feed buf [p ++ q] ∨
  ∃ fs r, feed buf [p; q] = (fs, r, false) ∧ feed buf [p ++ q] = (fs, r ++ q, false).
Proof.
  cbn [feed]. rewrite app_assoc, (parse_frames_app (buf ++ p) q).
  destruct (parse_frames (buf ++ p)) as [[fs r] []] eqn:E1; [|eauto].
  left. destruct (parse_frames (r ++ q)) as [[fs' r'] []]; [|done].
  by rewrite !app_nil_r.
Qed.

(** C13. The parser accepts nothing else: the packets it hands over are
    well formed (magic, length field equal to the body's length, at most
    [MAX_BODY_LEN]) and their bytes, followed by the leftover, are exactly
    what was received; the loop stops only on an incomplete packet or on a
    bad header. *)
Theorem framing_sound (buf r : bytes) (fs : list (PacketHeader * bytes)) (ok : bool) :
  parse_frames buf = (fs, r, ok) →
  buf = concat (map frame_bytes fs) ++ r ∧ Forall frame_wf fs ∧
  parse_one r = if ok then NeedMore else BadFrame.
Proof.
  intros E. destruct (parse_frames_sound _ _ _ _ E) as [Hb Hwf].
  split_ands; [done..|]. destruct ok; [by eapply parse_frames_rest|].
  by eapply parse_frames_bad.
Qed.

Lemma framing_sound_witness :
  frame_bytes ping ++ [x01] = concat (map frame_bytes [ping]) ++ [x01] ∧
  Forall frame_wf [ping] ∧ parse_one [x01] = NeedMore.
Proof. apply (framing_sound (frame_bytes ping ++ [x01]) [x01] [ping] true). reflexivity. Defined.
