(* ===== verification/Timer.v ===== *)
(** * Timers (include/timer.h)

    A worker's timers: [std::set<TimerNode>] ordered by [(expire, id)], here
    the sorted list of its elements.  A callback is a value of a type [A]
    that the owner interprets (Worker.v).  The clock readings of [GetTick()]
    are arguments. *)

From S2P Require Import Prelude.
From stdpp Require Import sorting.

(** ** Data *)

Record TimerNodeBase := mkBase { expire : Z; id : Z }.

(** [TimerNodeBase::operator<] *)
Definition node_ltb (a b : TimerNodeBase) : bool :=
  if negb (expire a =? expire b)%Z then (expire a <? expire b)%Z else (id a <? id b)%Z.

Record TimerNode (A : Type) := mkNode { base : TimerNodeBase; func : A }.
Arguments mkNode {A} base func.
Arguments base {A} t.
Arguments func {A} t.

Record Timer (A : Type) := mkTimer { gid : Z; timermap_ : list (TimerNode A) }.
Arguments mkTimer {A} gid timermap_.
Arguments gid {A} t.
Arguments timermap_ {A} t.

#[export] Instance TimerNodeBase_eq_dec : EqDecision TimerNodeBase.
Proof. solve_decision. Defined.

Section Ops.
Context {A : Type}.
Implicit Types (t : Timer A) (n : TimerNode A) (l : list (TimerNode A)).

Definition empty_timer : Timer A := mkTimer 0 [].

(** [std::set::insert]: no effect when an equivalent element is there. *)
Fixpoint set_insert n l : list (TimerNode A) :=
  match l with
  | [] => [n]
  | m :: l' =>
      if node_ltb (base n) (base m) then n :: m :: l'
      else if node_ltb (base m) (base n) then m :: set_insert n l'
      else m :: l'
  end.

(** [find] and [erase] by key: two keys are equivalent when neither is less. *)
Definition node_equiv (a b : TimerNodeBase) : bool :=
  negb (node_ltb a b) && negb (node_ltb b a).
Fixpoint set_erase (k : TimerNodeBase) l : option (list (TimerNode A)) :=
  match l with
  | [] => None
  | m :: l' => if node_equiv k (base m) then Some l' else cons m <$> set_erase k l'
  end.

(** ** Operations *)

Definition AddTimer (now msec : Z) (f : A) t : TimerNodeBase * Timer A :=
  let b := mkBase (now + msec) (gid t + 1) in
  (b, mkTimer (gid t + 1) (set_insert (mkNode b f) (timermap_ t))).

Definition DelTimer (node : TimerNodeBase) t : bool * Timer A :=
  match set_erase node (timermap_ t) with
  | Some l => (true, mkTimer (gid t) l)
  | None => (false, t)
  end.

(** The node whose callback runs, if one has expired, and the timer without it. *)
Definition CheckTimer (now : Z) t : option (TimerNode A) * Timer A :=
  match timermap_ t with
  | n :: l => if (expire (base n) <=? now)%Z then (Some n, mkTimer (gid t) l) else (None, t)
  | [] => (None, t)
  end.

(** [static_cast<int>(diss)] keeps the low 32 bits. *)
Definition TimeToSleep (now : Z) t : Z :=
  match timermap_ t with
  | [] => -1
  | n :: _ =>
      let diss := (expire (base n) - now)%Z in
      if (diss >? 0)%Z then wrap_i32 diss else 0
  end.

(** ** Invariant *)

Definition node_lt (a b : TimerNode A) : Prop := node_ltb (base a) (base b) = true.

(** The set is strictly sorted and its ids were all handed out by [gid]. *)
Record timer_wf t : Prop := {
  wf_sorted : StronglySorted node_lt (timermap_ t);
  wf_ids : Forall (λ n, (0 < id (base n) ≤ gid t)%Z) (timermap_ t);
  wf_nodup : NoDup ((λ n, id (base n)) <$> timermap_ t)
}.

(** ** Lemmas *)

Lemma node_ltb_spec (a b : TimerNodeBase) :
  node_ltb a b = true ↔
  (expire a < expire b)%Z ∨ (expire a = expire b ∧ (id a < id b)%Z).
Proof.
  unfold node_ltb. destruct (expire a =? expire b)%Z eqn:E; cbn [negb]; zbool;
    rewrite Z.ltb_lt; lia.
Qed.

Lemma node_ltb_false (a b : TimerNodeBase) :
  node_ltb a b = false ↔
  (expire b < expire a)%Z ∨ (expire a = expire b ∧ (id b ≤ id a)%Z).
Proof.
  unfold node_ltb. destruct (expire a =? expire b)%Z eqn:E; cbn [negb]; zbool;
    rewrite Z.ltb_ge; lia.
Qed.

Lemma node_equiv_spec (a b : TimerNodeBase) : node_equiv a b = true ↔ a = b.
Proof.
  unfold node_equiv. rewrite andb_true_iff, !negb_true_iff, !node_ltb_false.
  destruct a as [e i], b as [e' i']. simpl. split.
  - intros [H1 H2]. f_equal; lia.
  - intros [= -> ->]. lia.
Qed.

Lemma node_lt_trans (a b c : TimerNode A) : node_lt a b → node_lt b c → node_lt a c.
Proof. unfold node_lt. rewrite !node_ltb_spec. lia. Qed.

Lemma set_insert_elem n l m :
  m ∈ set_insert n l → m = n ∨ m ∈ l.
Proof.
  induction l as [|x l IH]; simpl.
  - rewrite list_elem_of_singleton. auto.
  - repeat case_if; rewrite ?elem_of_cons; [tauto| |tauto].
    intros [->|H]; [tauto|]. apply IH in H. tauto.
Qed.

Lemma set_insert_sorted n l :
  StronglySorted node_lt l → StronglySorted node_lt (set_insert n l).
Proof.
  induction 1 as [|x l Hl IH Hx]; simpl; [by repeat constructor|].
  repeat case_if.
  - constructor; [by constructor|]. constructor; [done|].
    eapply Forall_impl; [done|]. intros y. by apply node_lt_trans.
  - constructor; [done|]. apply Forall_forall. intros y [->|Hy]%set_insert_elem; [done|].
    by eapply Forall_forall in Hx.
  - by constructor.
Qed.

(** A node with a new id is really added, whatever its deadline. *)
Lemma set_insert_perm n l :
  Forall (λ m, id (base m) ≠ id (base n)) l → set_insert n l ≡ₚ n :: l.
Proof.
  induction 1 as [|x l Hx Hl IH]; simpl; [done|]. repeat case_if.
  - done.
  - rewrite IH. constructor.
  - apply node_ltb_false in E. apply node_ltb_false in E0. lia.
Qed.

Lemma set_erase_Some k l l' :
  set_erase k l = Some l' →
  ∃ n pre post, base n = k ∧ l = pre ++ n :: post ∧ l' = pre ++ post.
Proof.
  revert l'. induction l as [|x l IH]; intros l'; simpl; [done|]. case_if.
  - intros [= <-]. apply node_equiv_spec in E. by exists x, [], l.
  - destruct (set_erase k l) as [l1|]; [|done]. intros [= <-].
    destruct (IH l1 eq_refl) as (n & pre & post & Hn & -> & ->).
    by exists n, (x :: pre), post.
Qed.

Lemma set_erase_None k l : set_erase k l = None ↔ Forall (λ n, base n ≠ k) l.
Proof.
  induction l as [|x l IH]; simpl; [by split|]. rewrite Forall_cons. case_if.
  - apply node_equiv_spec in E. split; [done|]. intros [H _]. congruence.
  - destruct (set_erase k l); simpl.
    + split; [done|]. intros [_ H]. by apply IH in H.
    + split; [intros _|done]. split; [|by apply IH].
      intros <-. assert (node_equiv (base x) (base x) = true) by by apply node_equiv_spec.
      congruence.
Qed.

Lemma sorted_remove n (pre post : list (TimerNode A)) :
  StronglySorted node_lt (pre ++ n :: post) → StronglySorted node_lt (pre ++ post).
Proof.
  rewrite !StronglySorted_app, StronglySorted_cons.
  intros (H & Hp & _ & Hq). split_ands; [|done..].
  intros x y Hx Hy. apply H; [done|]. by apply elem_of_cons; right.
Qed.

Lemma empty_timer_wf : timer_wf empty_timer.
Proof. split; simpl; constructor. Qed.

Lemma AddTimer_wf (now msec : Z) (f : A) t :
  timer_wf t → (0 ≤ gid t)%Z → timer_wf (AddTimer now msec f t).2.
Proof.
  intros [Hs Hi Hn] Hg. set (n := mkNode (mkBase (now + msec) (gid t + 1)) f).
  assert (Hp : set_insert n (timermap_ t) ≡ₚ n :: timermap_ t).
  { apply set_insert_perm. eapply Forall_impl; [exact Hi|]. simpl. lia. }
  split; cbn [AddTimer snd timermap_ gid].
  - by apply set_insert_sorted.
  - fold n. rewrite Hp. constructor; [simpl; lia|].
    eapply Forall_impl; [exact Hi|]. simpl. lia.
  - fold n. rewrite Hp. cbn [fmap list_fmap]. apply NoDup_cons. split; [|done].
    intros (m & Hm & Hin)%list_elem_of_fmap. rewrite Forall_forall in Hi.
    apply Hi in Hin. simpl in Hm. lia.
Qed.

Lemma remove_wf n t (pre post : list (TimerNode A)) :
  timer_wf t → timermap_ t = pre ++ n :: post → timer_wf (mkTimer (gid t) (pre ++ post)).
Proof.
  intros [Hs Hi Hn] E. rewrite E in *. split; cbn [timermap_ gid].
  - by eapply sorted_remove.
  - rewrite Forall_app, Forall_cons in Hi. rewrite Forall_app. tauto.
  - rewrite fmap_app, fmap_cons in Hn. rewrite fmap_app.
    rewrite <- Permutation_middle in Hn. by apply NoDup_cons in Hn as [_ Hn].
Qed.

Lemma DelTimer_wf (k : TimerNodeBase) t : timer_wf t → timer_wf (DelTimer k t).2.
Proof.
  intros Hw. unfold DelTimer. destruct (set_erase k (timermap_ t)) as [l|] eqn:E; [|done].
  apply set_erase_Some in E as (n & pre & post & _ & E & ->). by eapply remove_wf.
Qed.

Lemma CheckTimer_wf (now : Z) t : timer_wf t → timer_wf (CheckTimer now t).2.
Proof.
  intros Hw. unfold CheckTimer. destruct (timermap_ t) as [|n l] eqn:E; [done|].
  case_if; [|done]. by eapply (remove_wf n t [] l).
Qed.

Lemma sorted_head_min n m l :
  StronglySorted node_lt (n :: l) → m ∈ n :: l → (expire (base n) ≤ expire (base m))%Z.
Proof.
  rewrite StronglySorted_cons. intros [Hf _] [->|Hm]%elem_of_cons; [lia|].
  rewrite Forall_forall in Hf. apply Hf in Hm. unfold node_lt in Hm.
  apply node_ltb_spec in Hm. lia.
Qed.
End Ops.

#[export] Hint Resolve empty_timer_wf AddTimer_wf DelTimer_wf CheckTimer_wf : aura.

(** ** Properties *)

(** C34. Adding a timer never replaces or loses one, even when two timers have
    the same deadline: the set becomes the old one plus the new node, the
    handle that is returned is new, and deleting by that handle gives the old
    set back. *)
Theorem AddTimer_correct {A} (now msec : Z) (f : A) (t : Timer A) :
  timer_wf t → (0 ≤ gid t)%Z →
  let '(b, t') := AddTimer now msec f t in
  timer_wf t' ∧ timermap_ t' ≡ₚ mkNode b f :: timermap_ t ∧
  Forall (λ n, base n ≠ b) (timermap_ t) ∧
  (DelTimer b t').1 = true ∧ timermap_ (DelTimer b t').2 ≡ₚ timermap_ t.
Proof.
  intros Hw Hg. pose proof (AddTimer_wf now msec f t Hw Hg) as Hw'.
  set (n := mkNode (mkBase (now + msec) (gid t + 1)) f).
  assert (Hf : Forall (λ m, id (base m) ≠ id (base n)) (timermap_ t)).
  { eapply Forall_impl; [exact (wf_ids t Hw)|]. simpl. lia. }
  assert (Hb : Forall (λ m, base m ≠ base n) (timermap_ t)).
  { eapply Forall_impl; [exact Hf|]. simpl. intros x H E. by rewrite E in H. }
  pose proof (set_insert_perm n (timermap_ t) Hf) as Hp.
  cbn [AddTimer fst snd]. fold n. split_ands; [done|done|done|..]; unfold DelTimer;
    cbn [timermap_ gid]; destruct (set_erase _ _) as [l|] eqn:E.
  - done.
  - apply set_erase_None in E. rewrite Hp, Forall_cons in E. by destruct E as [[] _].
  - apply set_erase_Some in E as (m & pre & post & Hm & E & ->). cbn [snd timermap_].
    rewrite E in Hp. assert (m = n) as ->.
    { assert (Hin : m ∈ n :: timermap_ t) by (rewrite <- Hp; set_solver).
      apply elem_of_cons in Hin as [->|Hin]; [done|].
      rewrite Forall_forall in Hb. by destruct (Hb m Hin). }
    rewrite <- Permutation_middle in Hp. by apply Permutation_cons_inv in Hp.
  - apply set_erase_None in E. rewrite Hp, Forall_cons in E. by destruct E as [[] _].
Qed.

Lemma AddTimer_correct_witness :
  timer_wf (empty_timer (A := Z)) ∧
  (let '(b, t') := AddTimer 5 1000 7%Z empty_timer in
   timermap_ t' ≡ₚ [mkNode b 7%Z]).
Proof.
  split; [apply empty_timer_wf|].
  apply (AddTimer_correct 5 1000 7%Z empty_timer empty_timer_wf). simpl. lia.
Defined.

(** A timer fires exactly when it is due, earliest first: when a deadline
    has passed, [CheckTimer] takes the node with the smallest deadline and
    leaves the others; when none has passed, it changes nothing. *)
Theorem CheckTimer_correct {A} (now : Z) (t : Timer A) :
  timer_wf t →
  match CheckTimer now t with
  | (Some n, t') =>
      (expire (base n) ≤ now)%Z ∧ timermap_ t = n :: timermap_ t' ∧ timer_wf t' ∧
      (∀ m, m ∈ timermap_ t → (expire (base n) ≤ expire (base m))%Z)
  | (None, t') => t' = t ∧ (∀ m, m ∈ timermap_ t → (now < expire (base m))%Z)
  end.
Proof.
  intros Hw. pose proof (CheckTimer_wf now t Hw) as Hw'. unfold CheckTimer in *.
  pose proof (wf_sorted t Hw) as Hs.
  destruct (timermap_ t) as [|n l] eqn:E.
  - split; [done|]. intros m Hm. by apply elem_of_nil in Hm.
  - case_if; zbool; split_ands; try done.
    + intros m. by apply sorted_head_min.
    + intros m Hm. pose proof (sorted_head_min n m l Hs Hm). lia.
Qed.

Lemma CheckTimer_correct_witness :
  timer_wf (AddTimer 5 10 7%Z empty_timer).2 ∧
  (CheckTimer 15 (AddTimer 5 10 7%Z empty_timer).2).1 = Some (mkNode (mkBase 15 1) 7%Z).
Proof.
  assert (Hw : timer_wf (AddTimer 5 10 7%Z empty_timer).2)
    by (apply AddTimer_wf; [apply empty_timer_wf|simpl; lia]).
  split; [exact Hw|].
  destruct (CheckTimer_correct 15 (AddTimer 5 10 7%Z empty_timer).2 Hw) as (_ & H & _).
  reflexivity.
Defined.

(** The event loop neither oversleeps nor spins: with the nearest deadline
    at most [INT_MAX] milliseconds away, sleeping for [TimeToSleep] makes the
    next [CheckTimer] fire, and one millisecond less does not; [-1] (sleep
    until an event) is answered only when there is no timer. *)
Theorem TimeToSleep_exact {A} (now : Z) (t : Timer A) :
  timer_wf t →
  Forall (λ n, (expire (base n) - now ≤ INT32_MAX)%Z) (timermap_ t) →
  (TimeToSleep now t = (-1)%Z ↔ timermap_ t = []) ∧
  (timermap_ t ≠ [] →
   (0 ≤ TimeToSleep now t)%Z ∧
   (CheckTimer (now + TimeToSleep now t) t).1 ≠ None ∧
   (0 < TimeToSleep now t → CheckTimer (now + TimeToSleep now t - 1) t = (None, t))%Z).
Proof.
  intros Hw Hmax. unfold TimeToSleep, CheckTimer.
  destruct (timermap_ t) as [|n l]; [done|]. apply Forall_cons in Hmax as [Hn _].
  unfold INT32_MAX in Hn. case_if; zbool.
  - rewrite wrap_i32_id by (unfold is_i32; lia). split_ands; [split; [lia|done]|].
    intros _. split_ands; [lia| |].
    + case_if; [done|]. zbool. lia.
    + intros _. case_if; [|done]. zbool. lia.
  - split; [split; [lia|done]|]. intros _. split_ands; [lia| |lia].
    case_if; [done|]. zbool. lia.
Qed.

Lemma TimeToSleep_exact_witness :
  TimeToSleep 5 (AddTimer 5 10 7%Z empty_timer).2 = 10%Z ∧
  (CheckTimer (5 + TimeToSleep 5 (AddTimer 5 10 7%Z empty_timer).2)
              (AddTimer 5 10 7%Z empty_timer).2).1 ≠ None.
Proof.
  split; [reflexivity|].
  apply (TimeToSleep_exact 5 (AddTimer 5 10 7%Z empty_timer).2).
  - apply AddTimer_wf; [apply empty_timer_wf|simpl; lia].
  - repeat constructor. vm_compute. congruence.
  - discriminate.
Defined.
