(* ===== verification/ThreadPool.v ===== *)
(** * The task pool (include/thread_pool.h)

    A step relation: one step per critical section of [mutex_], plus the end
    of a task's execution.  Tasks are values of a type [T] that the owner
    interprets.  [accepted] and [started] are history variables: the tasks
    for which [enqueue] answered [true] and the tasks a thread took. *)

From S2P Require Import Prelude.

(** What a pool thread is doing. *)
Inductive thread_state (T : Type) :=
  | Waiting             (* blocked in [cv_.wait] or about to test its predicate *)
  | Running (task : T)  (* executing a task, outside the lock *)
  | Exited.             (* returned from its entry function *)
Arguments Waiting {T}.
Arguments Running {T} task.
Arguments Exited {T}.

Record ThreadPool (T : Type) := mkPool {
  tasks_ : list T;
  stop_ : bool;
  threads_ : list (thread_state T);
  accepted : list T;
  started : list T
}.
Arguments mkPool {T}.
Arguments tasks_ {T} t.
Arguments stop_ {T} t.
Arguments threads_ {T} t.
Arguments accepted {T} t.
Arguments started {T} t.

Definition MAX_TASKS : Z := 200000.

Section Pool.
Context {T : Type}.
Implicit Types (p : ThreadPool T).

(** [ThreadPool(n)] *)
Definition new_pool (n : nat) : ThreadPool T :=
  mkPool [] false (replicate n Waiting) [] [].

Definition enqueue (task : T) p : bool * ThreadPool T :=
  if (Z.of_nat (length (tasks_ p)) >? MAX_TASKS)%Z then (false, p)
  else (true, mkPool (tasks_ p ++ [task]) (stop_ p) (threads_ p)
                     (accepted p ++ [task]) (started p)).

Definition set_thread (i : nat) (st : thread_state T) p : ThreadPool T :=
  mkPool (tasks_ p) (stop_ p) (<[i := st]> (threads_ p)) (accepted p) (started p).

(** The critical section of thread [i]: after the wait, exit when stopping
    with nothing left, otherwise take the front task.  [None]: the wait's
    predicate is false, the thread stays blocked. *)
Definition take_task (i : nat) p : option (ThreadPool T) :=
  match threads_ p !! i with
  | Some Waiting =>
      if stop_ p || negb (bool_decide (tasks_ p = [])) then
        match tasks_ p with
        | [] => Some (set_thread i Exited p)
        | task :: rest =>
            Some (mkPool rest (stop_ p) (<[i := Running task]> (threads_ p))
                         (accepted p) (started p ++ [task]))
        end
      else None
  | _ => None
  end.

(** The destructor's critical section. *)
Definition request_stop p : ThreadPool T :=
  mkPool (tasks_ p) true (threads_ p) (accepted p) (started p).

Inductive pool_step : ThreadPool T → ThreadPool T → Prop :=
  | step_enqueue task p : pool_step p (enqueue task p).2
  | step_take i p p' : take_task i p = Some p' → pool_step p p'
  | step_finish i task p :
      threads_ p !! i = Some (Running task) → pool_step p (set_thread i Waiting p)
  | step_stop p : pool_step p (request_stop p).

(** What holds after any interleaving. *)
Record pool_inv (n : nat) p : Prop := {
  inv_fifo : accepted p = started p ++ tasks_ p;
  inv_bound : (Z.of_nat (length (tasks_ p)) ≤ MAX_TASKS + 1)%Z;
  inv_threads : length (threads_ p) = n;
  inv_exited : Exited ∈ threads_ p → stop_ p = true
}.

(** ** Lemmas *)

Lemma new_pool_inv n : pool_inv n (new_pool n).
Proof.
  split; simpl; [done|unfold MAX_TASKS; lia|by rewrite length_replicate|].
  intros H. by apply elem_of_replicate in H as [? _].
Qed.

Lemma exited_insert (l : list (thread_state T)) (i : nat) (s : thread_state T) :
  Exited ∈ <[i := s]> l → s = Exited ∨ Exited ∈ l.
Proof.
  intros (j & Hj)%list_elem_of_lookup. destruct (decide (i = j)) as [->|Hij].
  - destruct (decide (j < length l)) as [Hl|Hl].
    + rewrite list_lookup_insert_eq in Hj by done. left. congruence.
    + rewrite list_insert_ge in Hj by lia. right. by apply list_elem_of_lookup_2 in Hj.
  - rewrite list_lookup_insert_ne in Hj by done. right. by apply list_elem_of_lookup_2 in Hj.
Qed.

Lemma pool_step_inv n p p' : pool_inv n p → pool_step p p' → pool_inv n p'.
Proof.
  intros [Hf Hb Ht He] Hs. destruct Hs as [task p|i p p' E|i task p E|p].
  - unfold enqueue. case_if; [done|]. rewrite Z.gtb_ltb in E. zbool.
    split; simpl; [by rewrite Hf, app_assoc|rewrite length_app; simpl; lia|done|done].
  - unfold take_task in E. destruct (threads_ p !! i) as [[| |]|]; try done.
    destruct (stop_ p || _) eqn:Es; [|done].
    destruct (tasks_ p) as [|task rest] eqn:Eq; simplify_eq.
    + assert (stop_ p = true) by (destruct (stop_ p); done).
      split; cbn [set_thread tasks_ stop_ threads_ accepted started]; rewrite ?Eq;
        [done|done|by rewrite length_insert|done].
    + split; simpl in *; [by rewrite Hf, <- app_assoc|lia|by rewrite length_insert|].
      intros [?|?]%exited_insert; [done|auto].
  - split; simpl; [done|done|by rewrite length_insert|].
    intros [?|?]%exited_insert; [done|auto].
  - by split.
Qed.

Lemma pool_reach_inv n p p' : pool_inv n p → rtc pool_step p p' → pool_inv n p'.
Proof. intros H Hr. induction Hr; eauto using pool_step_inv. Qed.

End Pool.

(** ** Properties *)

(** C33. The pool is a bounded FIFO under every interleaving of producers and
    pool threads: the accepted tasks are the started ones followed by the
    queue, in order (none lost, duplicated or overtaken), and the queue never
    holds more than 200001 tasks. *)
Theorem pool_fifo {T} (n : nat) (p : ThreadPool T) :
  rtc pool_step (new_pool n) p →
  accepted p = started p ++ tasks_ p ∧
  (Z.of_nat (length (tasks_ p)) ≤ 200001)%Z ∧ length (threads_ p) = n.
Proof.
  intros H. destruct (pool_reach_inv n _ _ (new_pool_inv n) H) as [Hf Hb Ht _].
  unfold MAX_TASKS in Hb. split_ands; [done|lia|done].
Qed.

Lemma pool_fifo_witness :
  rtc pool_step (new_pool 1) (enqueue 7%Z (new_pool 1)).2 ∧
  accepted (enqueue 7%Z (new_pool 1)).2 = [7%Z].
Proof.
  assert (H : rtc pool_step (new_pool 1) (enqueue 7%Z (new_pool 1)).2)
    by (apply rtc_once, step_enqueue).
  split; [exact H|]. destruct (pool_fifo 1 _ H) as [E _]. exact E.
Defined.

(** Shutdown drains the queue: a pool thread leaves only when the pool is
    stopping and nothing is queued, and while the pool is stopping with a
    thread that is not busy, that thread can always move (take the next task
    or leave), so the join in the destructor is not blocked by the queue. *)
Theorem pool_shutdown {T} (n : nat) (p : ThreadPool T) (i : nat) :
  rtc pool_step (new_pool n) p → threads_ p !! i = Some Waiting → stop_ p = true →
  ∃ p', take_task i p = Some p' ∧
    (threads_ p' !! i = Some Exited ↔ tasks_ p = []) ∧
    (tasks_ p ≠ [] → length (tasks_ p') < length (tasks_ p)).
Proof.
  intros H Hi Hs. unfold take_task. rewrite Hi, Hs. cbn [orb].
  pose proof (lookup_lt_Some _ _ _ Hi) as Hl.
  destruct (tasks_ p) as [|task rest]; eexists; (split; [done|]); simpl.
  - rewrite list_lookup_insert_eq by done. done.
  - rewrite list_lookup_insert_eq by done. split; [split; congruence|lia].
Qed.

Lemma pool_shutdown_witness :
  ∃ p', take_task 0 (request_stop (new_pool (T := Z) 1)) = Some p' ∧
        threads_ p' !! 0 = Some Exited.
Proof.
  destruct (pool_shutdown (T := Z) 1 (request_stop (new_pool 1)) 0) as (p' & E & [_ H] & _).
  - apply rtc_once, step_stop.
  - reflexivity.
  - reflexivity.
  - exists p'. split; [exact E|]. apply H. reflexivity.
Defined.

(** No accepted task is abandoned: at the moment a pool thread leaves,
    every task accepted until then has been started, in acceptance order. *)
Theorem pool_exit_all_started {T} (n : nat) (p p' : ThreadPool T) (i : nat) :
  rtc pool_step (new_pool n) p → take_task i p = Some p' →
  threads_ p' !! i = Some Exited → started p' = accepted p'.
Proof.
  intros H E Hx. destruct (pool_reach_inv n _ _ (new_pool_inv n) H) as [Hf _ _ _].
  unfold take_task in E. destruct (threads_ p !! i) as [[| |]|] eqn:Hi; try done.
  destruct (stop_ p || _); [|done]. pose proof (lookup_lt_Some _ _ _ Hi) as Hl.
  destruct (tasks_ p) as [|task rest]; simplify_eq; simpl in *.
  - by rewrite Hf, app_nil_r.
  - rewrite list_lookup_insert_eq in Hx by done. done.
Qed.

Lemma pool_exit_all_started_witness :
  started (set_thread 0 Exited (request_stop (new_pool (T := Z) 1)))
  = accepted (set_thread 0 Exited (request_stop (new_pool (T := Z) 1))).
Proof.
  apply (pool_exit_all_started 1 (request_stop (new_pool 1)) _ 0).
  - apply rtc_once, step_stop.
  - reflexivity.
  - reflexivity.
Defined.
