(* ===== verification/Context.v ===== *)
(** * Client contexts and their pool (include/context.h, src/worker.cpp)

    [std::shared_ptr<ClientContext>] objects are shared between a connection,
    the session table, queued functors and AI requests, and the pool hands
    the same object to one connection after another.  So contexts live in a
    heap, [ctx_heap], and a pointer is a key of it, [ctx_id]. *)

From S2P Require Import Prelude Bytes.

Definition worker_id := nat.
Definition ctx_id := nat.

Record ClientContext := mkCtx {
  fd : Z;
  uid : Z;
  logged_in : bool;
  last_active : Z;
  recv_buf : bytes;
  send_buf : bytes;
  writing : bool;
  owner_worker : option worker_id;   (* [None]: nullptr *)
  pool_idx : Z;
  rate_window_start : Z;
  rate_msg_count : Z
}.

(** The member initializers of [ClientContext]. *)
Definition default_ctx : ClientContext :=
  mkCtx (-1) 0 false 0 [] [] false None (-1) 0 0.

Definition reset (c : ClientContext) : ClientContext :=
  mkCtx (-1) 0 false 0 [] [] false (owner_worker c) (pool_idx c) 0 0.

Definition update_time (now_sec : Z) (c : ClientContext) : ClientContext :=
  mkCtx (fd c) (uid c) (logged_in c) now_sec (recv_buf c) (send_buf c) (writing c)
        (owner_worker c) (pool_idx c) (rate_window_start c) (rate_msg_count c).

(** Assignments to one member. *)
Definition set_fd (v : Z) (c : ClientContext) : ClientContext :=
  mkCtx v (uid c) (logged_in c) (last_active c) (recv_buf c) (send_buf c) (writing c)
        (owner_worker c) (pool_idx c) (rate_window_start c) (rate_msg_count c).
Definition set_session (u : Z) (c : ClientContext) : ClientContext :=
  mkCtx (fd c) u true (last_active c) (recv_buf c) (send_buf c) (writing c)
        (owner_worker c) (pool_idx c) (rate_window_start c) (rate_msg_count c).
Definition set_recv_buf (b : bytes) (c : ClientContext) : ClientContext :=
  mkCtx (fd c) (uid c) (logged_in c) (last_active c) b (send_buf c) (writing c)
        (owner_worker c) (pool_idx c) (rate_window_start c) (rate_msg_count c).
Definition set_send_buf (b : bytes) (c : ClientContext) : ClientContext :=
  mkCtx (fd c) (uid c) (logged_in c) (last_active c) (recv_buf c) b (writing c)
        (owner_worker c) (pool_idx c) (rate_window_start c) (rate_msg_count c).
Definition set_writing (b : bool) (c : ClientContext) : ClientContext :=
  mkCtx (fd c) (uid c) (logged_in c) (last_active c) (recv_buf c) (send_buf c) b
        (owner_worker c) (pool_idx c) (rate_window_start c) (rate_msg_count c).
Definition set_rate (start count : Z) (c : ClientContext) : ClientContext :=
  mkCtx (fd c) (uid c) (logged_in c) (last_active c) (recv_buf c) (send_buf c) (writing c)
        (owner_worker c) (pool_idx c) start count.

Record ctx_heap := mkHeap {
  ctxs : gmap ctx_id ClientContext;
  next_ctx : ctx_id
}.

Definition empty_heap : ctx_heap := mkHeap ∅ 0.

(** [std::make_shared<ClientContext>()] with the given contents. *)
Definition alloc_ctx (c : ClientContext) (h : ctx_heap) : ctx_id * ctx_heap :=
  (next_ctx h, mkHeap (<[next_ctx h := c]> (ctxs h)) (S (next_ctx h))).

Definition upd_ctx (p : ctx_id) (f : ClientContext → ClientContext) (h : ctx_heap) : ctx_heap :=
  mkHeap (alter f p (ctxs h)) (next_ctx h).

(** ** The pool *)

Record ContextPool := mkCtxPool {
  owner_ : worker_id;
  storage_ : list ctx_id;
  free_list_ : list Z
}.

(** [v.back()] and [v.pop_back()]. *)
Definition unsnoc {A} (l : list A) : option (list A * A) :=
  match reverse l with
  | [] => None
  | x :: r => Some (reverse r, x)
  end.

(** The constructor's loop, for the indices [i .. i + n - 1]. *)
Fixpoint fill_pool (owner : worker_id) (i n : nat) (h : ctx_heap) (p : ContextPool)
    : ctx_heap * ContextPool :=
  match n with
  | O => (h, p)
  | S n' =>
      let '(c, h') := alloc_ctx (mkCtx (-1) 0 false 0 [] [] false (Some owner) (Z.of_nat i) 0 0) h in
      fill_pool owner (S i) n' h'
        (mkCtxPool owner (storage_ p ++ [c]) (free_list_ p ++ [Z.of_nat i]))
  end.
Definition new_ctx_pool (size : nat) (owner : worker_id) (h : ctx_heap) : ctx_heap * ContextPool :=
  fill_pool owner 0 size h (mkCtxPool owner [] []).

Definition acquire : M (ctx_heap * ContextPool) ctx_id := λ '(h, p),
  match unsnoc (free_list_ p) with
  | None => let '(c, h') := alloc_ctx default_ctx h in Ret c (h', p)
  | Some (rest, idx) =>
      match storage_ p !! Z.to_nat idx with
      | Some c => Ret c (h, mkCtxPool (owner_ p) (storage_ p) rest)
      | None => Crash OutOfBounds
      end
  end.

(** [release]: contexts that are not the pool's ([pool_idx == -1]) are dropped. *)
Definition release (c : option ctx_id) : M (ctx_heap * ContextPool) unit := λ '(h, p),
  match c with
  | None => Ret tt (h, p)
  | Some c =>
      match ctxs h !! c with
      | None => Crash UseAfterFree
      | Some x =>
          if (pool_idx x =? -1)%Z then Ret tt (h, p)
          else Ret tt (upd_ctx c reset h,
                       mkCtxPool (owner_ p) (storage_ p) (free_list_ p ++ [pool_idx x]))
      end
  end.

(** ** Invariant *)

(** Heap and pool fit together: slot [i] of [storage_] is a context whose
    [pool_idx] is [i] and whose owner is the pool's worker; [free_list_] has
    no duplicates, stays inside [storage_], and the contexts it names are in
    their reset state. *)
Record pool_ok (h : ctx_heap) (p : ContextPool) : Prop := {
  ok_fresh : ∀ c, next_ctx h ≤ c → ctxs h !! c = None;
  ok_storage : ∀ i c, storage_ p !! i = Some c →
    ∃ x, ctxs h !! c = Some x ∧ pool_idx x = Z.of_nat i ∧ owner_worker x = Some (owner_ p);
  ok_nodup : NoDup (free_list_ p);
  ok_free : ∀ idx, idx ∈ free_list_ p → (0 ≤ idx)%Z ∧
    ∃ c x, storage_ p !! Z.to_nat idx = Some c ∧ ctxs h !! c = Some x ∧ reset x = x
}.

(** A context of the pool that some connection holds. *)
Definition held (h : ctx_heap) (p : ContextPool) (c : ctx_id) : Prop :=
  ∃ x, ctxs h !! c = Some x ∧ pool_idx x ≠ (-1)%Z ∧
       storage_ p !! Z.to_nat (pool_idx x) = Some c ∧ (0 ≤ pool_idx x)%Z ∧
       pool_idx x ∉ free_list_ p.

(** ** Lemmas *)

Lemma unsnoc_snoc {A} (l : list A) (x : A) : unsnoc (l ++ [x]) = Some (l, x).
Proof. unfold unsnoc. rewrite reverse_snoc, reverse_involutive. done. Qed.

Lemma unsnoc_Some {A} (l r : list A) (x : A) : unsnoc l = Some (r, x) → l = r ++ [x].
Proof.
  unfold unsnoc. destruct (reverse l) as [|y k] eqn:E; [done|]. intros [= <- <-].
  by rewrite <- (reverse_involutive l), E, reverse_cons.
Qed.

Lemma unsnoc_None {A} (l : list A) : unsnoc l = None ↔ l = [].
Proof.
  unfold unsnoc. destruct (reverse l) as [|y k] eqn:E.
  - apply (f_equal reverse) in E. rewrite reverse_involutive in E. done.
  - split; [done|]. intros ->. done.
Qed.

Lemma lookup_upd (h : ctx_heap) (c : ctx_id) (f : ClientContext → ClientContext) :
  ctxs (upd_ctx c f h) !! c = f <$> ctxs h !! c.
Proof. unfold upd_ctx. simpl. by rewrite lookup_alter, decide_True. Qed.

Lemma lookup_upd_ne (h : ctx_heap) (c d : ctx_id) (f : ClientContext → ClientContext) :
  c ≠ d → ctxs (upd_ctx c f h) !! d = ctxs h !! d.
Proof. intros. unfold upd_ctx. simpl. by rewrite lookup_alter_ne. Qed.

Lemma pool_slot_inj (h : ctx_heap) (p : ContextPool) (i j : nat) (c : ctx_id) :
  pool_ok h p → storage_ p !! i = Some c → storage_ p !! j = Some c → i = j.
Proof.
  intros Hok Hi Hj. destruct (ok_storage h p Hok i c Hi) as (x & Hx & Pi & _).
  destruct (ok_storage h p Hok j c Hj) as (y & Hy & Pj & _). simplify_eq. lia.
Qed.

Lemma alloc_old (h : ctx_heap) (c : ctx_id) (x y : ClientContext) :
  (∀ d, next_ctx h ≤ d → ctxs h !! d = None) →
  ctxs h !! c = Some y → ctxs (alloc_ctx x h).2 !! c = Some y.
Proof.
  intros Hf Hc. simpl. rewrite lookup_insert_ne; [done|]. intros <-.
  by rewrite Hf in Hc by lia.
Qed.

(** Allocating a context elsewhere does not disturb a pool. *)
Lemma alloc_pool_ok (h : ctx_heap) (p : ContextPool) (x : ClientContext) :
  pool_ok h p → pool_ok (alloc_ctx x h).2 p.
Proof.
  intros [Hf Hs Hn Hfr]. split.
  - intros c Hc. simpl in *. rewrite lookup_insert_ne by lia. apply Hf. lia.
  - intros j c (y & Hy & ?)%Hs. exists y. split; [by apply alloc_old|done].
  - done.
  - intros idx (H0 & c & y & ? & ? & ?)%Hfr. split; [done|]. exists c, y.
    split_ands; [done|by apply alloc_old|done].
Qed.

Lemma push_pool_ok (h : ctx_heap) (p : ContextPool) (c : ctx_id) (x : ClientContext) :
  pool_ok h p → ctxs h !! c = Some x → reset x = x →
  pool_idx x = Z.of_nat (length (storage_ p)) → owner_worker x = Some (owner_ p) →
  pool_ok h (mkCtxPool (owner_ p) (storage_ p ++ [c]) (free_list_ p ++ [pool_idx x])).
Proof.
  intros [Hf Hs Hn Hfr] Hc Hr Hi Ho. split; cbn [storage_ free_list_ owner_]; [done| | |].
  - intros j d [[_ Hj]|[-> <-]]%lookup_snoc_Some; [by apply Hs|eauto].
  - apply NoDup_app. split_ands; [done| |apply NoDup_singleton].
    intros idx Hidx ->%list_elem_of_singleton.
    apply Hfr in Hidx as (_ & d & y & Hd & _). rewrite Hi, Nat2Z.id in Hd.
    apply lookup_lt_Some in Hd. lia.
  - intros idx [Hidx| ->%list_elem_of_singleton]%elem_of_app.
    + apply Hfr in Hidx as (H0 & d & y & Hd & ? & ?). split; [done|]. exists d, y.
      split_ands; [|done..]. by apply lookup_app_l_Some.
    + split; [lia|]. exists c, x. rewrite Hi, Nat2Z.id, lookup_app_r, Nat.sub_diag by lia.
      done.
Qed.

Lemma fill_pool_ok (owner : worker_id) (n : nat) : ∀ (h : ctx_heap) (p : ContextPool),
  pool_ok h p → owner_ p = owner →
  let '(h', p') := fill_pool owner (length (storage_ p)) n h p in
  pool_ok h' p' ∧ owner_ p' = owner ∧ length (free_list_ p') = length (free_list_ p) + n.
Proof.
  induction n as [|n IH]; intros h p Hok Ho; cbn [fill_pool].
  - split_ands; auto; lia.
  - set (x := mkCtx (-1) 0 false 0 [] [] false (Some owner) (Z.of_nat (length (storage_ p))) 0 0).
    pose proof (alloc_pool_ok h p x Hok) as H1.
    apply (push_pool_ok _ _ (next_ctx h) x) in H1; [|simpl; by simplify_map_eq|done|done|by subst].
    subst owner. destruct (alloc_ctx x h) as [c h'] eqn:E.
    assert (c = next_ctx h) as -> by (by injection E as <- <-). cbn [snd] in H1.
    specialize (IH _ _ H1 eq_refl). cbn [storage_ owner_ free_list_ pool_idx] in IH.
    rewrite !length_app in IH. cbn [length] in IH. rewrite Nat.add_1_r in IH.
    destruct (fill_pool _ _ _ _ _) as [h2 p2]. destruct IH as (? & ? & ->).
    split_ands; [done..|lia].
Qed.

Lemma new_ctx_pool_ok (size : nat) (owner : worker_id) (h : ctx_heap) :
  (∀ c, next_ctx h ≤ c → ctxs h !! c = None) →
  let '(h', p') := new_ctx_pool size owner h in
  pool_ok h' p' ∧ owner_ p' = owner ∧ length (free_list_ p') = size.
Proof.
  intros Hf. unfold new_ctx_pool.
  pose proof (fill_pool_ok owner size h (mkCtxPool owner [] [])) as H.
  simpl in H. destruct (fill_pool _ _ _ _ _) as [h' p']. apply H; [|done].
  split; simpl; [done|done|constructor|]. intros idx Hi. by apply elem_of_nil in Hi.
Qed.

Lemma pop_pool_ok (h : ctx_heap) (p : ContextPool) (rest : list Z) (idx : Z) :
  pool_ok h p → free_list_ p = rest ++ [idx] →
  pool_ok h (mkCtxPool (owner_ p) (storage_ p) rest).
Proof.
  intros [Hf Hs Hn Hfr] E. rewrite E in Hn, Hfr.
  split; cbn [storage_ free_list_ owner_]; [done..|by apply NoDup_app in Hn as [? _]|].
  intros j Hj. apply Hfr. apply elem_of_app. by left.
Qed.

Lemma reset_reset (x : ClientContext) : reset (reset x) = reset x.
Proof. reflexivity. Qed.

(** Writing a held context, or one that is not the pool's, keeps the pool intact. *)
Lemma upd_pool_ok (h : ctx_heap) (p : ContextPool) (c : ctx_id)
    (f : ClientContext → ClientContext) :
  pool_ok h p →
  (∀ x, pool_idx (f x) = pool_idx x ∧ owner_worker (f x) = owner_worker x) →
  (∀ idx, idx ∈ free_list_ p → storage_ p !! Z.to_nat idx ≠ Some c) →
  pool_ok (upd_ctx c f h) p.
Proof.
  intros [Hf Hs Hn Hfr] Hpres Hc.
  split; [| |done|].
  - intros d Hd. unfold upd_ctx. simpl in *. rewrite lookup_alter_None. by apply Hf.
  - intros i d Hd. destruct (Hs i d Hd) as (x & Hx & Hi & Ho).
    destruct (decide (c = d)) as [->|Hne].
    + exists (f x). rewrite lookup_upd, Hx. destruct (Hpres x) as [-> ->]. done.
    + exists x. by rewrite lookup_upd_ne.
  - intros idx Hidx. destruct (Hfr idx Hidx) as (H0 & d & x & Hd & Hx & Hr).
    split; [done|]. exists d, x. split_ands; [done| |done].
    rewrite lookup_upd_ne; [done|]. intros ->. by destruct (Hc idx).
Qed.

#[export] Hint Resolve alloc_pool_ok upd_pool_ok : aura.

(** ** Properties *)

(** A connection never inherits state: from a consistent pool, [acquire]
    succeeds with a context in its initial state (no descriptor, no user, not
    logged in, empty buffers, zero rate counters), the pool stays consistent,
    and the context is no longer free, so a second [acquire] cannot return it.
    When the pool is exhausted the context is a new object outside the pool. *)
Theorem acquire_clean (h : ctx_heap) (p : ContextPool) :
  pool_ok h p →
  ∃ c h' p' x, acquire (h, p) = Ret c (h', p') ∧ pool_ok h' p' ∧
    ctxs h' !! c = Some x ∧ reset x = x ∧
    (free_list_ p ≠ [] →
       h' = h ∧ held h' p' c ∧ owner_worker x = Some (owner_ p) ∧
       length (free_list_ p) = S (length (free_list_ p'))) ∧
    (free_list_ p = [] → p' = p ∧ ctxs h !! c = None ∧ pool_idx x = (-1)%Z).
Proof.
  intros Hok. pose proof Hok as [Hf Hs Hn Hfr]. unfold acquire.
  destruct (unsnoc (free_list_ p)) as [[rest idx]|] eqn:E.
  - apply unsnoc_Some in E. rewrite E in Hn, Hfr.
    destruct (Hfr idx) as (H0 & c & x & Hc & Hx & Hr); [apply elem_of_app; right; by apply list_elem_of_singleton|].
    rewrite Hc. eexists c, h, _, x. split; [done|].
    apply NoDup_app in Hn as (Hn & Hd & _).
    destruct (Hs _ _ Hc) as (y & Hy & Hi & Ho). simplify_eq.
    assert (Hidx : pool_idx x = idx) by lia.
    split_ands; [| |done| |rewrite E; by destruct rest].
    + by eapply pop_pool_ok.
    + done.
    + intros _. split_ands; [done| |done|rewrite E, length_app; simpl; lia].
      exists x. rewrite Hidx. simpl. split_ands; [done|lia|done|done|].
      intros Hin. apply (Hd idx Hin). by apply list_elem_of_singleton.
  - apply unsnoc_None in E. eexists _, _, _, default_ctx. split; [done|].
    split_ands; [by apply (alloc_pool_ok h p default_ctx)|simpl; by simplify_map_eq|done|done|].
    intros _. split_ands; [done|by apply Hf|done].
Qed.

Lemma acquire_clean_witness :
  let '(h, p) := new_ctx_pool 2 0 empty_heap in
  pool_ok h p ∧ ∃ c h' p', acquire (h, p) = Ret c (h', p') ∧ pool_ok h' p'.
Proof.
  assert (Hok := new_ctx_pool_ok 2 0 empty_heap (λ c _, lookup_empty c)).
  destruct (new_ctx_pool 2 0 empty_heap) as [h p]. destruct Hok as [Hok _].
  split; [exact Hok|].
  destruct (acquire_clean h p Hok) as (c & h' & p' & x & E & Hok' & _).
  exists c, h', p'. split; [exact E|exact Hok'].
Defined.

(** Returning a held context restores the pool: it is wiped, becomes free
    again, the pool stays consistent, no other context changes, and it is the
    next one handed out. *)
Theorem release_acquire (h : ctx_heap) (p : ContextPool) (c : ctx_id) :
  pool_ok h p → held h p c →
  ∃ h' p', release (Some c) (h, p) = Ret tt (h', p') ∧ pool_ok h' p' ∧
    ctxs h' !! c = reset <$> ctxs h !! c ∧
    (∀ d, d ≠ c → ctxs h' !! d = ctxs h !! d) ∧
    length (free_list_ p') = S (length (free_list_ p)) ∧
    acquire (h', p') = Ret c (h', p).
Proof.
  intros Hok (x & Hx & Hne & Hst & H0 & Hnf). pose proof Hok as [Hf Hs Hn Hfr].
  unfold release. rewrite Hx. apply Z.eqb_neq in Hne. rewrite Hne.
  do 2 eexists. split; [done|].
  assert (Hu : pool_ok (upd_ctx c reset h) p).
  { apply upd_pool_ok; [done|done|]. intros idx Hi Hc.
    destruct (Hfr idx Hi) as (Hp & _).
    pose proof (pool_slot_inj h p _ _ c Hok Hst Hc). replace idx with (pool_idx x) in Hi by lia.
    done. }
  split_ands.
  - destruct Hu as [Hf' Hs' Hn' Hfr']. split; cbn [storage_ free_list_ owner_]; [done..| |].
    + apply NoDup_app. split_ands; [done| |apply NoDup_singleton].
      intros idx Hi ->%list_elem_of_singleton. done.
    + intros idx [Hi| ->%list_elem_of_singleton]%elem_of_app; [by apply Hfr'|].
      split; [done|]. exists c, (reset x). rewrite lookup_upd, Hx. done.
  - by rewrite lookup_upd, Hx.
  - intros d Hd. by rewrite lookup_upd_ne.
  - cbn [free_list_]. rewrite length_app. simpl. lia.
  - unfold acquire. cbn [free_list_ storage_ owner_]. rewrite unsnoc_snoc, Hst.
    by destruct p.
Qed.

Lemma release_acquire_witness :
  let '(h, p) := new_ctx_pool 1 0 empty_heap in
  let p' := mkCtxPool 0 (storage_ p) [] in
  held h p' 0 ∧
  ∃ h'' p'', release (Some 0) (h, p') = Ret tt (h'', p'') ∧ acquire (h'', p'') = Ret 0 (h'', p').
Proof.
  assert (Hok := new_ctx_pool_ok 1 0 empty_heap (λ c _, lookup_empty c)).
  destruct (new_ctx_pool 1 0 empty_heap) as [h p] eqn:E. destruct Hok as (Hok & _ & Hl).
  vm_compute in E. injection E as <- <-.
  apply (pop_pool_ok _ _ [] 0%Z) in Hok; [|reflexivity].
  assert (Hheld : held (mkHeap {[0 := mkCtx (-1) 0 false 0 [] [] false (Some 0) 0 0 0]} 1)
                       (mkCtxPool 0 [0] []) 0).
  { eexists. split; [reflexivity|]. simpl. split_ands; [lia|done|lia|apply not_elem_of_nil]. }
  split; [exact Hheld|].
  destruct (release_acquire _ _ 0 Hok Hheld) as (h'' & p'' & Er & _ & _ & _ & _ & Eb).
  exists h'', p''. split; [exact Er|exact Eb].
Defined.
