(* ===== verification/EventLoop.v ===== *)
(** * The reactor loop (include/event_loop.h, src/event_loop.cpp)

    [EventLoop] keeps the functors other threads queued, the eventfd counter
    that wakes the loop, and the epoll interest set.  Functors and the
    pointers registered with epoll are values of types [F] and [P] that the
    owner interprets (Worker.v).  The second half is the loop against
    concurrent producers as a step relation. *)

From S2P Require Import Prelude.

(** ** epoll event bits (sys/epoll.h) *)

Definition EPOLLIN : Z := 0x1.
Definition EPOLLOUT : Z := 0x4.
Definition EPOLLERR : Z := 0x8.
Definition EPOLLHUP : Z := 0x10.
Definition EPOLLRDHUP : Z := 0x2000.
Definition EPOLLET : Z := 2 ^ 31.

Definition has_event (revents mask : Z) : bool := negb (Z.land revents mask =? 0)%Z.

(** ** State *)

Record EventLoop (F P : Type) := mkLoop {
  running_ : bool;
  wakeup_fd_ : Z;                  (* counter of the eventfd *)
  pending_functors_ : list F;
  interest : gmap Z (Z * P)        (* epfd_: descriptor to (events, data.ptr) *)
}.
Arguments mkLoop {F P}.
Arguments running_ {F P} e.
Arguments wakeup_fd_ {F P} e.
Arguments pending_functors_ {F P} e.
Arguments interest {F P} e.

Section Ops.
Context {F P : Type}.
Implicit Types (e : EventLoop F P).

Definition new_loop : EventLoop F P := mkLoop true 0 [] ∅.

(** [write(wakeup_fd_, 1)] *)
Definition wakeup e : EventLoop F P :=
  mkLoop (running_ e) (wakeup_fd_ e + 1) (pending_functors_ e) (interest e).

(** [read(wakeup_fd_)] resets the counter. *)
Definition handle_wakeup e : EventLoop F P :=
  mkLoop (running_ e) 0 (pending_functors_ e) (interest e).

(** The critical section of [queue_in_loop]. *)
Definition push_functor (cb : F) e : EventLoop F P :=
  mkLoop (running_ e) (wakeup_fd_ e) (pending_functors_ e ++ [cb]) (interest e).

Definition queue_in_loop (cb : F) e : EventLoop F P := wakeup (push_functor cb e).

Definition stop e : EventLoop F P :=
  wakeup (mkLoop false (wakeup_fd_ e) (pending_functors_ e) (interest e)).

(** The critical section of [do_pending_functors]: the batch to run. *)
Definition swap_functors e : list F * EventLoop F P :=
  (pending_functors_ e, mkLoop (running_ e) (wakeup_fd_ e) [] (interest e)).

(** [EPOLL_CTL_ADD] fails on a descriptor that is already there, [MOD] on one
    that is not; the source ignores both errors. *)
Definition add_event (f : Z) (evs : Z) (p : P) e : EventLoop F P :=
  match interest e !! f with
  | Some _ => e
  | None => mkLoop (running_ e) (wakeup_fd_ e) (pending_functors_ e) (<[f := (evs, p)]> (interest e))
  end.
Definition update_event (f : Z) (evs : Z) (p : P) e : EventLoop F P :=
  match interest e !! f with
  | None => e
  | Some _ => mkLoop (running_ e) (wakeup_fd_ e) (pending_functors_ e) (<[f := (evs, p)]> (interest e))
  end.
Definition remove_event (f : Z) e : EventLoop F P :=
  mkLoop (running_ e) (wakeup_fd_ e) (pending_functors_ e) (delete f (interest e)).
End Ops.

(** ** The loop and its producers *)

Inductive loop_pc (F : Type) :=
  | AtWait                     (* blocked in epoll_wait *)
  | Dispatching                (* handling the events it returned *)
  | Draining (rest : list F).  (* running the swapped functors *)
Arguments AtWait {F}.
Arguments Dispatching {F}.
Arguments Draining {F} rest.

(** [in_flight]: producers between their push and their eventfd write;
    [queued], [executed]: history. *)
Record loop_state (F P : Type) := mkLS {
  ls_loop : EventLoop F P;
  ls_pc : loop_pc F;
  in_flight : nat;
  queued : list F;
  executed : list F
}.
Arguments mkLS {F P}.
Arguments ls_loop {F P} l.
Arguments ls_pc {F P} l.
Arguments in_flight {F P} l.
Arguments queued {F P} l.
Arguments executed {F P} l.

Section Concurrency.
Context {F P : Type}.
Implicit Types (e : EventLoop F P) (s : loop_state F P).

Inductive loop_step : loop_state F P → loop_state F P → Prop :=
  | st_push f e pc n q x :
      loop_step (mkLS e pc n q x) (mkLS (push_functor f e) pc (S n) (q ++ [f]) x)
  | st_write e pc n q x :
      loop_step (mkLS e pc (S n) q x) (mkLS (wakeup e) pc n q x)
  | st_wait_returns e n q x :
      loop_step (mkLS e AtWait n q x) (mkLS e Dispatching n q x)
  | st_handle_wakeup e n q x :
      (0 < wakeup_fd_ e)%Z →
      loop_step (mkLS e Dispatching n q x) (mkLS (handle_wakeup e) Dispatching n q x)
  | st_swap e n q x :
      loop_step (mkLS e Dispatching n q x)
                (mkLS (swap_functors e).2 (Draining (swap_functors e).1) n q x)
  | st_run f r e n q x :
      loop_step (mkLS e (Draining (f :: r)) n q x) (mkLS e (Draining r) n q (x ++ [f]))
  | st_again e n q x :
      running_ e = true →
      loop_step (mkLS e (Draining []) n q x) (mkLS e AtWait n q x).

Definition loop_start : loop_state F P := mkLS new_loop AtWait 0 [] [].

Definition draining (pc : loop_pc F) : list F :=
  match pc with Draining r => r | _ => [] end.

Record loop_inv s : Prop := {
  li_fifo : queued s = executed s ++ draining (ls_pc s) ++ pending_functors_ (ls_loop s);
  li_wake : ls_pc s ≠ Dispatching → pending_functors_ (ls_loop s) ≠ [] →
            (0 < wakeup_fd_ (ls_loop s))%Z ∨ 0 < in_flight s;
  li_pos : (0 ≤ wakeup_fd_ (ls_loop s))%Z
}.

Lemma loop_step_inv s s' : loop_inv s → loop_step s s' → loop_inv s'.
Proof.
  intros [Hf Hw Hp] Hs. destruct Hs; cbn in *; split; cbn.
  all: try done.
  all: try (rewrite Hf; by rewrite ?app_nil_r, <- ?app_assoc).
  all: try lia.
  all: try (intros _ _; first [right; lia | left; lia]).
  all: intros; by apply Hw.
Qed.

Lemma loop_reach_inv s : rtc loop_step loop_start s → loop_inv s.
Proof.
  intros H. assert (H0 : loop_inv loop_start) by (split; simpl; [done|done|lia]).
  revert H0. induction H; eauto using loop_step_inv.
Qed.
End Concurrency.

(** ** Properties *)

(** C21. No wake-up is lost and functors run in order: whatever the
    interleaving of producers and loop, the functors queued so far are those
    executed, then those of the running batch, then the pending ones, in
    queueing order; and whenever the loop sits in [epoll_wait] while a functor
    is pending, the eventfd is readable or its write is about to happen. *)
Theorem no_lost_wakeup {F P} (s : loop_state F P) :
  rtc loop_step loop_start s →
  queued s = executed s ++ draining (ls_pc s) ++ pending_functors_ (ls_loop s) ∧
  (ls_pc s = AtWait → pending_functors_ (ls_loop s) ≠ [] → in_flight s = 0 →
   (0 < wakeup_fd_ (ls_loop s))%Z).
Proof.
  intros H. destruct (loop_reach_inv s H) as [Hf Hw _]. split; [done|].
  intros Hpc Hne Hi. destruct Hw as [|]; [by rewrite Hpc|done|done|lia].
Qed.

Lemma no_lost_wakeup_witness :
  ∃ s : loop_state Z unit, rtc loop_step loop_start s ∧ ls_pc s = AtWait ∧
    pending_functors_ (ls_loop s) = [5%Z] ∧ (0 < wakeup_fd_ (ls_loop s))%Z.
Proof.
  exists (mkLS (queue_in_loop 5%Z new_loop) AtWait 0 [5%Z] []).
  assert (H : rtc loop_step (loop_start (F := Z) (P := unit))
                (mkLS (queue_in_loop 5%Z new_loop) AtWait 0 [5%Z] [])).
  { eapply rtc_l; [apply (st_push 5%Z)|]. apply rtc_once, st_write. }
  split; [exact H|]. split; [reflexivity|]. split; [reflexivity|].
  apply (no_lost_wakeup _ H); [reflexivity|discriminate|reflexivity].
Defined.

(** Functors queued while a batch runs wait for the next round: the batch
    a round executes is fixed when the round takes it, so the loop always
    returns to [epoll_wait] after finitely many functors. *)
Theorem batch_is_fixed {F P} (r : list F) (e : EventLoop F P) (n : nat) (q x : list F) :
  ∃ q' x', rtc loop_step (mkLS e (Draining r) n q x) (mkLS e (Draining []) n q' x') ∧
           x' = x ++ r ∧ q' = q.
Proof.
  revert x. induction r as [|f r IH]; intros x.
  - exists q, x. by rewrite app_nil_r.
  - destruct (IH (x ++ [f])) as (q' & x' & Hs & -> & ->). exists q, (x ++ f :: r).
    split_ands; [|done..]. eapply rtc_l; [apply st_run|].
    by rewrite <- app_assoc in Hs.
Qed.
