(* ===== verification/Session.v ===== *)
(** * The session table (include/session_manager.h)

    1024 buckets, each an [unordered_map] with its own lock; a user's bucket
    is [static_cast<uint32_t>(uid) % 1024].  [bind] releases the bucket's
    lock while it asks for the old connection to be closed, so it is two
    atomic steps, [bind_find] and [bind_store]; the call in between is in
    World.v. *)

From S2P Require Import Prelude Context.

Definition NUM_BUCKETS : nat := 1024.

Record SessionManager := mkSessions { buckets_ : list (gmap Z ctx_id) }.

Definition new_sessions : SessionManager := mkSessions (replicate NUM_BUCKETS ∅).

Definition bucket_of (uid : Z) : nat := Z.to_nat (wrap_u32 uid `mod` 1024).

Definition bucket (uid : Z) (s : SessionManager) : gmap Z ctx_id :=
  default ∅ (buckets_ s !! bucket_of uid).

Definition upd_bucket (uid : Z) (f : gmap Z ctx_id → gmap Z ctx_id) (s : SessionManager)
    : SessionManager :=
  mkSessions (alter f (bucket_of uid) (buckets_ s)).

(** [get] *)
Definition get_session (uid : Z) (s : SessionManager) : option ctx_id := bucket uid s !! uid.

(** The first critical section of [bind]: the context bound before, if any. *)
Definition bind_find (uid : Z) (s : SessionManager) : option ctx_id := bucket uid s !! uid.

(** The second one: [b.m[uid] = ctx]. *)
Definition bind_store (uid : Z) (ctx : ctx_id) (s : SessionManager) : SessionManager :=
  upd_bucket uid (insert uid ctx) s.

Definition unbind (uid : Z) (s : SessionManager) : SessionManager :=
  upd_bucket uid (delete uid) s.

(** ** The contract: one map from users to contexts *)

Class SessionTable (T : Type) := {
  st_get : Z → T → option ctx_id;
  st_store : Z → ctx_id → T → T;
  st_erase : Z → T → T;
  st_empty : T
}.

#[export] Instance gmap_sessions : SessionTable (gmap Z ctx_id) := {|
  st_get := lookup; st_store := insert; st_erase := delete; st_empty := ∅ |}.
#[export] Instance sharded_sessions : SessionTable SessionManager := {|
  st_get := get_session; st_store := bind_store; st_erase := unbind; st_empty := new_sessions |}.

(** The sharded table represents the map [m]. *)
Definition shards (s : SessionManager) (m : gmap Z ctx_id) : Prop :=
  length (buckets_ s) = NUM_BUCKETS ∧ ∀ uid, st_get uid s = st_get uid m.

(** ** Lemmas *)

Lemma bucket_of_lt (uid : Z) : bucket_of uid < NUM_BUCKETS.
Proof.
  unfold bucket_of, NUM_BUCKETS.
  pose proof (Z.mod_pos_bound (wrap_u32 uid) 1024 ltac:(lia)). lia.
Qed.

Lemma get_upd (uid u : Z) (f : gmap Z ctx_id → gmap Z ctx_id) (s : SessionManager) :
  length (buckets_ s) = NUM_BUCKETS →
  get_session u (upd_bucket uid f s) =
  (if decide (bucket_of uid = bucket_of u) then f (bucket u s) !! u else get_session u s).
Proof.
  intros Hl. unfold get_session, bucket, upd_bucket. cbn [buckets_].
  pose proof (bucket_of_lt uid) as Hlt. case_decide as E.
  - rewrite E in *. rewrite list_lookup_alter_eq.
    destruct (lookup_lt_is_Some_2 (buckets_ s) (bucket_of u)) as [b ->]; [lia|]. done.
  - by rewrite list_lookup_alter_ne.
Qed.

Lemma shards_store (uid : Z) (c : ctx_id) (s : SessionManager) (m : gmap Z ctx_id) :
  shards s m → shards (st_store uid c s) (st_store uid c m).
Proof.
  intros [Hl Hg]. split; [unfold st_store; simpl; by rewrite length_alter|].
  intros u. change (get_session u (bind_store uid c s) = <[uid := c]> m !! u).
  specialize (Hg u). change (bucket u s !! u = m !! u) in Hg.
  unfold bind_store. rewrite get_upd by done. unfold get_session. destruct (decide (uid = u)) as [->|Hne].
  - rewrite decide_True by done. by simplify_map_eq.
  - rewrite !lookup_insert_ne, <- Hg by done. by case_decide.
Qed.

Lemma shards_erase (uid : Z) (s : SessionManager) (m : gmap Z ctx_id) :
  shards s m → shards (st_erase uid s) (st_erase uid m).
Proof.
  intros [Hl Hg]. split; [unfold st_erase; simpl; by rewrite length_alter|].
  intros u. change (get_session u (unbind uid s) = delete uid m !! u).
  specialize (Hg u). change (bucket u s !! u = m !! u) in Hg.
  unfold unbind. rewrite get_upd by done. unfold get_session. destruct (decide (uid = u)) as [->|Hne].
  - rewrite decide_True by done. by simplify_map_eq.
  - rewrite !lookup_delete_ne, <- Hg by done. by case_decide.
Qed.

Lemma shards_empty : shards st_empty st_empty.
Proof.
  split; [apply length_replicate|]. intros uid.
  change (bucket uid new_sessions !! uid = (∅ : gmap Z ctx_id) !! uid).
  unfold bucket, new_sessions. cbn [buckets_].
  by rewrite lookup_replicate_2 by apply bucket_of_lt.
Qed.

(** ** Operation sequences *)

Inductive session_op := OpStore (uid : Z) (c : ctx_id) | OpErase (uid : Z).

Definition run_op {T} `{SessionTable T} (o : session_op) (t : T) : T :=
  match o with OpStore u c => st_store u c t | OpErase u => st_erase u t end.

Lemma run_ops_shards (ops : list session_op) (s : SessionManager) (m : gmap Z ctx_id) :
  shards s m → shards (fold_left (λ t o, run_op o t) ops s) (fold_left (λ t o, run_op o t) ops m).
Proof.
  revert s m. induction ops as [|[u c|u] ops IH]; intros s m H; [done|..]; cbn [fold_left];
    apply IH; simpl; [by apply shards_store|by apply shards_erase].
Qed.

#[export] Hint Resolve shards_store shards_erase shards_empty : aura.

(** ** Properties *)

(** C32. Sharding is invisible: after any sequence of bindings and unbindings,
    looking a user up in the 1024 locked buckets answers what one plain map
    would answer. *)
Theorem sessions_refine_map (ops : list session_op) (uid : Z) :
  get_session uid (fold_left (λ t o, run_op o t) ops new_sessions) =
  fold_left (λ t o, run_op o t) ops (∅ : gmap Z ctx_id) !! uid.
Proof. apply (run_ops_shards ops new_sessions ∅ shards_empty). Qed.
