(* ===== verification/Json.v ===== *)
(** * JSON values (the part of nlohmann::json the sources use)

    The library is not part of the sources.  Its value type is public, so it
    is modelled here: [json], with objects kept sorted by key as [std::map]
    keeps them, and the accessors the code calls, with their exceptions.
    Text conversion is an interface, [JsonText], whose documented behaviour
    is the class [JsonTextLaws].  Values are restricted to what the program
    writes: no floating-point numbers. *)

From S2P Require Import Prelude Bytes.

(** ** Values *)

#[warnings="-register-all"]
Inductive json :=
  | JNull
  | JBool (b : bool)
  | JInt (z : Z)
  | JStr (s : bytes)
  | JArr (l : list json)
  | JObj (kvs : list (bytes * json)).

(** Lexicographic byte order, the order of [std::map<std::string, ...>]. *)
Fixpoint bytes_ltb (a b : bytes) : bool :=
  match a, b with
  | _, [] => false
  | [], _ :: _ => true
  | x :: a', y :: b' =>
      if (byte_val x <? byte_val y)%Z then true
      else if (byte_val y <? byte_val x)%Z then false else bytes_ltb a' b'
  end.

(** [j[key] = v] on an object. *)
Fixpoint jset (k : bytes) (v : json) (kvs : list (bytes * json)) : list (bytes * json) :=
  match kvs with
  | [] => [(k, v)]
  | (k', v') :: r =>
      if bytes_ltb k k' then (k, v) :: (k', v') :: r
      else if bytes_ltb k' k then (k', v') :: jset k v r
      else (k, v) :: r
  end.

(** An object from its key/value pairs, in the order the code writes them. *)
Definition jobj (pairs : list (bytes * json)) : json :=
  JObj (fold_left (λ o kv, jset kv.1 kv.2 o) pairs []).

Fixpoint jfind (k : bytes) (kvs : list (bytes * json)) : option json :=
  match kvs with
  | [] => None
  | (k', v) :: r => if decide (k = k') then Some v else jfind k r
  end.

(** [j.contains(key)] *)
Definition jcontains (k : bytes) (j : json) : bool :=
  match j with JObj kvs => bool_decide (is_Some (jfind k kvs)) | _ => false end.

(** [j[key]] as an rvalue: a missing key reads as null; on anything but an
    object or null it throws.  [None]: exception. *)
Definition jat (k : bytes) (j : json) : option json :=
  match j with
  | JObj kvs => Some (default JNull (jfind k kvs))
  | JNull => Some JNull
  | _ => None
  end.

(** [j[i]] on an array; a missing element reads as null. *)
Definition jidx (i : nat) (j : json) : option json :=
  match j with
  | JArr l => Some (default JNull (l !! i))
  | JNull => Some JNull
  | _ => None
  end.

(** What [for (auto& x : j)] visits. *)
Definition jitems (j : json) : list json :=
  match j with
  | JArr l => l
  | JObj kvs => map snd kvs
  | JNull => []
  | x => [x]
  end.

(** Conversions; a value of another kind throws. *)
Definition jget_int (j : json) : option Z :=
  match j with
  | JInt z => Some (wrap_i32 z)
  | JBool b => Some (Z.b2z b)
  | _ => None
  end.
Definition jget_str (j : json) : option bytes :=
  match j with JStr s => Some s | _ => None end.
Definition jget_bool (j : json) : option bool :=
  match j with JBool b => Some b | _ => None end.

(** [j.value(key, def)]: throws unless [j] is an object. *)
Definition jvalue {A} (conv : json → option A) (k : bytes) (def : A) (j : json) : option A :=
  match j with
  | JObj kvs => match jfind k kvs with Some v => conv v | None => Some def end
  | _ => None
  end.

(** ** Well-formed values *)

(** Every string in a value, keys included, is UTF-8. *)
Fixpoint json_utf8 (j : json) : bool :=
  match j with
  | JStr s => utf8_valid s
  | JArr l => forallb json_utf8 l
  | JObj kvs => forallb (λ kv, utf8_valid kv.1 && json_utf8 kv.2) kvs
  | _ => true
  end.

(** Keys are strictly increasing, as in a [std::map]. *)
Fixpoint keys_sorted (kvs : list (bytes * json)) : bool :=
  match kvs with
  | (k, _) :: (((k', _) :: _) as r) => bytes_ltb k k' && keys_sorted r
  | _ => true
  end.
(** A value the library can hold: sorted objects, 64-bit integers. *)
Fixpoint json_wf (j : json) : bool :=
  match j with
  | JInt z => (- 2 ^ 63 <=? z)%Z && (z <? 2 ^ 63)%Z
  | JArr l => forallb json_wf l
  | JObj kvs => keys_sorted kvs && forallb (λ kv, json_wf kv.2) kvs
  | _ => true
  end.

(** ** Text conversion *)

Class JsonText := {
  json_dump : json → option bytes;   (* [j.dump(2)]; [None]: throws *)
  json_parse : bytes → option json   (* [json::parse]; [None]: throws *)
}.

(** [dump] throws exactly on a string that is not UTF-8 (type_error.316),
    parsing a dump gives the value back, and no value is the empty text. *)
Class JsonTextLaws `{JsonText} := {
  dump_total (j : json) : json_utf8 j = true → is_Some (json_dump j);
  dump_throws (j : json) : json_utf8 j = false → json_dump j = None;
  parse_dump (j : json) (s : bytes) :
    json_wf j = true → json_dump j = Some s → json_parse s = Some j;
  parse_empty : json_parse [] = None
}.

(** ** Lemmas *)

Lemma json_ind' (P : json → Prop) :
  P JNull → (∀ b, P (JBool b)) → (∀ z, P (JInt z)) → (∀ s, P (JStr s)) →
  (∀ l, Forall P l → P (JArr l)) →
  (∀ kvs, Forall (λ kv, P kv.2) kvs → P (JObj kvs)) → ∀ j, P j.
Proof.
  intros Hn Hb Hi Hs Ha Ho. fix IH 1. intros [|b|z|s|l|kvs]; [done|done|done|done|..].
  - apply Ha. induction l as [|x l IHl]; constructor; [apply IH|apply IHl].
  - apply Ho. induction kvs as [|x l IHl]; constructor; [apply IH|apply IHl].
Qed.
