(* ===== verification/RefCodec.v ===== *)
(** * Reference codecs

    Concrete instances of the interfaces of code that is not part of the
    sources: JSON text ([JsonText]) and the protobuf runtime ([Protobuf]).
    They are built from injections into numbers, not from the real formats;
    they show that the laws the theorems assume can hold, and the witnesses
    run on them. *)

From S2P Require Import Prelude Bytes Protocol Json.

(** ** Numbers as text *)

Fixpoint pos_to_bytes (p : positive) : bytes :=
  match p with
  | xH => []
  | xO q => x30 :: pos_to_bytes q
  | xI q => x31 :: pos_to_bytes q
  end.

Fixpoint bytes_to_pos (s : bytes) : option positive :=
  match s with
  | [] => Some xH
  | x30 :: s' => xO <$> bytes_to_pos s'
  | x31 :: s' => xI <$> bytes_to_pos s'
  | _ => None
  end.

Lemma bytes_to_pos_to_bytes (p : positive) : bytes_to_pos (pos_to_bytes p) = Some p.
Proof. induction p as [p IH|p IH|]; cbn; by rewrite ?IH. Qed.

(** ** JSON *)

Abbreviation jtree := (gen_tree (bool + Z + bytes)).

Fixpoint json_tree (j : json) : jtree :=
  match j with
  | JNull => GenNode 0 []
  | JBool b => GenLeaf (inl (inl b))
  | JInt z => GenLeaf (inl (inr z))
  | JStr s => GenLeaf (inr s)
  | JArr l => GenNode 1 (map json_tree l)
  | JObj kvs => GenNode 2 (map (λ kv, GenNode 3 [GenLeaf (inr kv.1); json_tree kv.2]) kvs)
  end.

Fixpoint tree_json (t : jtree) : json :=
  match t with
  | GenLeaf (inl (inl b)) => JBool b
  | GenLeaf (inl (inr z)) => JInt z
  | GenLeaf (inr s) => JStr s
  | GenNode 1 l => JArr (map tree_json l)
  | GenNode 2 l =>
      JObj (map (λ t, match t with
                      | GenNode _ [GenLeaf (inr k); v] => (k, tree_json v)
                      | _ => ([], JNull)
                      end) l)
  | GenNode _ _ => JNull
  end.

Lemma tree_json_tree (j : json) : tree_json (json_tree j) = j.
Proof.
  induction j as [|b|z|s|l IH|kvs IH] using json_ind'; cbn; try done.
  - f_equal. rewrite map_map. induction IH as [|x l Hx Hl IHl]; cbn; [done|].
    by rewrite Hx, IHl.
  - f_equal. rewrite map_map. induction IH as [|[k v] l Hx Hl IHl]; cbn in *; [done|].
    by rewrite Hx, IHl.
Qed.

Definition ref_dump (j : json) : option bytes :=
  if json_utf8 j then Some (x30 :: pos_to_bytes (encode (json_tree j))) else None.
Definition ref_parse (s : bytes) : option json :=
  match s with
  | [] => None
  | _ :: s' => p ← bytes_to_pos s'; t ← decode p; Some (tree_json t)
  end.

#[export] Instance ref_json : JsonText := {| json_dump := ref_dump; json_parse := ref_parse |}.

#[export] Instance ref_json_laws : JsonTextLaws.
Proof.
  split; cbn; unfold ref_dump.
  - intros j ->. eauto.
  - by intros j ->.
  - intros j s _. case_if; [|done]. intros [= <-]. unfold ref_parse.
    rewrite bytes_to_pos_to_bytes. cbn. rewrite decode_encode. cbn.
    by rewrite tree_json_tree.
  - done.
Qed.

(** ** Protobuf *)

#[export] Program Instance ChatMessage_countable : Countable ChatMessage :=
  inj_countable'
    (λ m, (from_uid m, to_uid m, content m, timestamp m, is_stream m, is_last_chunk m, stream_seq m))
    (λ '(a, b, c, d, e, f, g), mkChat a b c d e f g) _.
Next Obligation. by intros []. Qed.

(** A codec from any numbering of the messages. *)
Definition countable_codec {Msg A} `{Countable A} (f : Msg → A) (g : A → Msg) : ProtoCodec Msg := {|
  ParseFromString s := p ← bytes_to_pos s; a ← decode p; Some (g a);
  SerializeToString m := pos_to_bytes (encode (f m)) |}.

#[export] Instance ref_proto : Protobuf := {|
  pb_chat := countable_codec id id;
  pb_response := countable_codec (λ m, (success m, msg m, resp_uid m))
                                 (λ '(a, b, c), mkResponse a b c);
  pb_login := countable_codec (λ m, (login_username m, login_password m))
                              (λ '(a, b), mkLogin a b);
  pb_register := countable_codec (λ m, (reg_username m, reg_password m))
                                 (λ '(a, b), mkRegister a b);
  pb_add_friend := countable_codec (λ m, (af_to_uid m, af_message m))
                                   (λ '(a, b), mkAddFriend a b);
  pb_accept := countable_codec request_id mkAccept;
  pb_search := countable_codec keyword mkSearch;
  pb_user_list := countable_codec
    (λ m, map (λ u, (fi_uid u, fi_username u, fi_online u)) (users m))
    (λ l, mkUserList (map (λ '(a, b, c), mkFriendInfo a b c) l));
  pb_req_list := countable_codec
    (λ m, map (λ r, (ri_id r, ri_from_uid r, ri_from_username r, ri_message r)) (requests m))
    (λ l, mkReqList (map (λ '(a, b, c, d), mkReqInfo a b c d) l)) |}.

#[export] Instance ref_proto_laws : ProtobufLaws.
Proof.
  split; intros m _; cbn; rewrite bytes_to_pos_to_bytes; cbn; rewrite decode_encode; by destruct m.
Qed.
