(* ===== verification/FileStore.v ===== *)
(** * File storage (src/db_writer.cpp, the [use_file_storage_] branches)

    The in-memory tables of [DBBatchWriter] and their JSON files.  Every
    operation runs under [file_mutex_], so it is one atomic transition of
    [FileDB].  The hash of [std::hash<std::string>] is a parameter. *)

From S2P Require Import Prelude Bytes Json RefCodec.

(** ** Data (include/db_writer.h) *)

Record DBChatMessage := mkDBMsg {
  dm_id : Z; dm_from : Z; dm_to : Z; dm_content : bytes; dm_ts : Z; dm_delivered : bool }.
Record FileUser := mkUser { fu_uid : Z; fu_username : bytes; fu_password_hash : bytes }.
Record FileFriendRequest := mkReq {
  fr_id : Z; fr_from : Z; fr_to : Z; fr_message : bytes; fr_status : Z }.
Record FileMessage := mkMsg {
  fm_id : Z; fm_from : Z; fm_to : Z; fm_content : bytes; fm_delivered : bool }.

(** The data directory: its files, and whether they can be opened for writing. *)
Record disk := mkDisk { files : gmap bytes bytes; writable : bool }.

Record FileDB := mkFileDB {
  file_users_ : list FileUser;
  file_friends_ : list (Z * Z);
  file_friend_reqs_ : list FileFriendRequest;
  file_messages_ : list FileMessage;
  file_next_uid_ : Z;
  file_next_req_id_ : Z;
  file_next_msg_id_ : Z;
  data_dir : disk
}.

#[export] Instance FileUser_eq_dec : EqDecision FileUser.
Proof. solve_decision. Defined.
#[export] Instance FileFriendRequest_eq_dec : EqDecision FileFriendRequest.
Proof. solve_decision. Defined.
#[export] Instance FileMessage_eq_dec : EqDecision FileMessage.
Proof. solve_decision. Defined.

(** Assignments. *)
Definition set_users (us : list FileUser) (next : Z) (d : FileDB) : FileDB :=
  mkFileDB us (file_friends_ d) (file_friend_reqs_ d) (file_messages_ d) next
           (file_next_req_id_ d) (file_next_msg_id_ d) (data_dir d).
Definition set_friends (ps : list (Z * Z)) (d : FileDB) : FileDB :=
  mkFileDB (file_users_ d) ps (file_friend_reqs_ d) (file_messages_ d) (file_next_uid_ d)
           (file_next_req_id_ d) (file_next_msg_id_ d) (data_dir d).
Definition set_reqs (rs : list FileFriendRequest) (next : Z) (d : FileDB) : FileDB :=
  mkFileDB (file_users_ d) (file_friends_ d) rs (file_messages_ d) (file_next_uid_ d)
           next (file_next_msg_id_ d) (data_dir d).
Definition set_messages (ms : list FileMessage) (next : Z) (d : FileDB) : FileDB :=
  mkFileDB (file_users_ d) (file_friends_ d) (file_friend_reqs_ d) ms (file_next_uid_ d)
           (file_next_req_id_ d) next (data_dir d).
Definition set_disk (k : disk) (d : FileDB) : FileDB :=
  mkFileDB (file_users_ d) (file_friends_ d) (file_friend_reqs_ d) (file_messages_ d)
           (file_next_uid_ d) (file_next_req_id_ d) (file_next_msg_id_ d) k.

(** The values written to the four files. *)
Definition user_json (u : FileUser) : json :=
  jobj [(str "uid", JInt (fu_uid u)); (str "username", JStr (fu_username u));
        (str "password_hash", JStr (fu_password_hash u))].
Definition pair_json (p : Z * Z) : json := JArr [JInt p.1; JInt p.2].
Definition req_json (r : FileFriendRequest) : json :=
  jobj [(str "id", JInt (fr_id r)); (str "from_uid", JInt (fr_from r));
        (str "to_uid", JInt (fr_to r)); (str "message", JStr (fr_message r));
        (str "status", JInt (fr_status r))].
Definition msg_json (m : FileMessage) : json :=
  jobj [(str "id", JInt (fm_id m)); (str "from_uid", JInt (fm_from m));
        (str "to_uid", JInt (fm_to m)); (str "content", JStr (fm_content m));
        (str "delivered", JBool (fm_delivered m))].

Definition users_json (d : FileDB) : json :=
  jobj [(str "next_uid", JInt (file_next_uid_ d));
        (str "users", JArr (map user_json (file_users_ d)))].
Definition friends_json (d : FileDB) : json :=
  jobj [(str "pairs", JArr (map pair_json (file_friends_ d)))].
Definition reqs_json (d : FileDB) : json :=
  jobj [(str "next_id", JInt (file_next_req_id_ d));
        (str "requests", JArr (map req_json (file_friend_reqs_ d)))].
Definition messages_json (d : FileDB) : json :=
  jobj [(str "next_id", JInt (file_next_msg_id_ d));
        (str "messages", JArr (map msg_json (file_messages_ d)))].

Definition users_path : bytes := str "data/users.json".
Definition friends_path : bytes := str "data/friends.json".
Definition reqs_path : bytes := str "data/friend_requests.json".
Definition messages_path : bytes := str "data/messages.json".

Section Store.
Context `{JsonText}.
Variable hasher : bytes → Z.

(** [std::ofstream f(path); if (f.is_open()) f << j.dump(2);]: opening
    truncates the file, then [dump] may throw. *)
Definition write_json (path : bytes) (j : json) : M FileDB unit := λ d,
  if writable (data_dir d) then
    let trunc := set_disk (mkDisk (<[path := []]> (files (data_dir d))) true) d in
    match json_dump j with
    | Some s => Ret tt (set_disk (mkDisk (<[path := s]> (files (data_dir d))) true) d)
    | None => Throw trunc
    end
  else Ret tt d.

Definition save_users_file : M FileDB unit := d ← get_st; write_json users_path (users_json d).
Definition save_friends_file : M FileDB unit := d ← get_st; write_json friends_path (friends_json d).
Definition save_friend_reqs_file : M FileDB unit := d ← get_st; write_json reqs_path (reqs_json d).
Definition save_messages_file : M FileDB unit := d ← get_st; write_json messages_path (messages_json d).

(** [file_hash] *)
Definition file_hash (input : bytes) : bytes := hex16 (hasher (str "im_salt_" ++ input)).

(** ** Users *)

Definition register_user (username password : bytes) : M FileDB Z :=
  d ← get_st;
  if existsb (λ u, bool_decide (fu_username u = username)) (file_users_ d) then mret (-2)%Z
  else
    let uid := file_next_uid_ d in
    put_st (set_users (file_users_ d ++ [mkUser uid username (file_hash password)]) (uid + 1) d) ;;
    save_users_file ;;
    mret uid.

Definition verify_login (username password : bytes) : M FileDB Z :=
  let h := file_hash password in
  gets (λ d, match List.find (λ u, bool_decide (fu_username u = username)
                                && bool_decide (fu_password_hash u = h)) (file_users_ d) with
             | Some u => fu_uid u
             | None => (-1)%Z
             end).

(** The first user with this uid, or the default name. *)
Definition name_of (uid : Z) (def : bytes) (d : FileDB) : bytes :=
  match List.find (λ u, (fu_uid u =? uid)%Z) (file_users_ d) with
  | Some u => fu_username u
  | None => def
  end.

Definition get_username (uid : Z) : M FileDB bytes := gets (name_of uid []).

(** The loop of [search_users]: it stops once twenty users were found. *)
Fixpoint search_loop (kw : bytes) (us : list FileUser) (result : list (Z * bytes)) : list (Z * bytes) :=
  match us with
  | [] => result
  | u :: us' =>
      let result' := if contains kw (tolower (fu_username u))
                     then result ++ [(fu_uid u, fu_username u)] else result in
      if (20 <=? length result')%nat then result' else search_loop kw us' result'
  end.
Definition search_users (keyword : bytes) : M FileDB (list (Z * bytes)) :=
  gets (λ d, search_loop (tolower keyword) (file_users_ d) []).

(** ** Offline messages *)

Definition query_offline_messages (uid : Z) : M FileDB (list DBChatMessage) :=
  gets (λ d, map (λ m, mkDBMsg (fm_id m) (fm_from m) (fm_to m) (fm_content m) 0 false)
                 (List.filter (λ m, (fm_to m =? uid)%Z && negb (fm_delivered m)) (file_messages_ d))).

Definition mark_message (uid max_id : Z) (m : FileMessage) : FileMessage :=
  if (fm_to m =? uid)%Z && (fm_id m <=? max_id)%Z
  then mkMsg (fm_id m) (fm_from m) (fm_to m) (fm_content m) true else m.
Definition mark_delivered (uid max_id : Z) : M FileDB unit :=
  modify (λ d, set_messages (map (mark_message uid max_id) (file_messages_ d)) (file_next_msg_id_ d) d) ;;
  save_messages_file.

(** ** Friends *)

Definition add_friend_request (from_uid to_uid : Z) (msg : bytes) : M FileDB Z :=
  let lo := Z.min from_uid to_uid in
  let hi := Z.max from_uid to_uid in
  d ← get_st;
  if existsb (λ p, (p.1 =? lo)%Z && (p.2 =? hi)%Z) (file_friends_ d) then mret (-2)%Z
  else if existsb (λ r, (fr_from r =? from_uid)%Z && (fr_to r =? to_uid)%Z && (fr_status r =? 0)%Z)
                  (file_friend_reqs_ d) then mret (-3)%Z
  else
    let rid := file_next_req_id_ d in
    put_st (set_reqs (file_friend_reqs_ d ++ [mkReq rid from_uid to_uid msg 0]) (rid + 1) d) ;;
    save_friend_reqs_file ;;
    mret rid.

(** The search loop of [accept_friend_request]: the first pending request with
    this id addressed to the acceptor is marked accepted. *)
Fixpoint accept_loop (request_id acceptor_uid : Z) (rs : list FileFriendRequest)
    : Z * list FileFriendRequest :=
  match rs with
  | [] => ((-1)%Z, [])
  | r :: rs' =>
      if (fr_id r =? request_id)%Z && (fr_to r =? acceptor_uid)%Z && (fr_status r =? 0)%Z
      then (fr_from r, mkReq (fr_id r) (fr_from r) (fr_to r) (fr_message r) 1 :: rs')
      else let '(f, rs'') := accept_loop request_id acceptor_uid rs' in (f, r :: rs'')
  end.
Definition accept_friend_request (request_id acceptor_uid : Z) : M FileDB Z :=
  d ← get_st;
  let '(from_uid, rs) := accept_loop request_id acceptor_uid (file_friend_reqs_ d) in
  put_st (set_reqs rs (file_next_req_id_ d) d) ;;
  if (from_uid <? 0)%Z then mret (-1)%Z
  else
    let lo := Z.min from_uid acceptor_uid in
    let hi := Z.max from_uid acceptor_uid in
    modify (λ d, set_friends (file_friends_ d ++ [(lo, hi)]) d) ;;
    save_friend_reqs_file ;;
    save_friends_file ;;
    mret from_uid.

(** The other end of a pair, if [uid] is one of its ends. *)
Definition other_end (uid : Z) (p : Z * Z) : option Z :=
  if (p.1 =? uid)%Z then Some p.2 else if (p.2 =? uid)%Z then Some p.1 else None.
Definition user_label (uid : Z) : bytes := str "用户" ++ to_string uid.
Definition get_friends (uid : Z) : M FileDB (list (Z * bytes)) :=
  gets (λ d, map (λ o, (o, name_of o (user_label o) d)) (omap (other_end uid) (file_friends_ d))).

Definition get_pending_requests (uid : Z) : M FileDB (list (Z * Z * bytes * bytes)) :=
  gets (λ d, map (λ r, (fr_id r, fr_from r, name_of (fr_from r) (user_label (fr_from r)) d, fr_message r))
                 (List.filter (λ r, (fr_to r =? uid)%Z && (fr_status r =? 0)%Z)
                              (reverse (file_friend_reqs_ d)))).

(** ** The batch of the writer thread *)

Fixpoint number_messages (next : Z) (batch : list DBChatMessage) : list FileMessage :=
  match batch with
  | [] => []
  | m :: b => mkMsg next (dm_from m) (dm_to m) (dm_content m) (dm_delivered m)
              :: number_messages (next + 1) b
  end.
Definition store_batch (batch : list DBChatMessage) : M FileDB unit :=
  modify (λ d, set_messages (file_messages_ d ++ number_messages (file_next_msg_id_ d) batch)
                            (file_next_msg_id_ d + Z.of_nat (length batch)) d) ;;
  save_messages_file.
End Store.

(** ** Invariant *)

Record db_ok (d : FileDB) : Prop := {
  ok_uids : NoDup (fu_uid <$> file_users_ d);
  ok_names : NoDup (fu_username <$> file_users_ d);
  ok_uid_bound : Forall (λ u, (0 < fu_uid u < file_next_uid_ d)%Z) (file_users_ d);
  ok_next_uid : (0 < file_next_uid_ d)%Z;
  ok_pairs : Forall (λ p, (p.1 ≤ p.2)%Z) (file_friends_ d);
  ok_reqs : NoDup (fr_id <$> file_friend_reqs_ d);
  ok_req_bound : Forall (λ r, (0 < fr_id r < file_next_req_id_ d)%Z ∧
                              (fr_status r = 0 ∨ fr_status r = 1)%Z) (file_friend_reqs_ d);
  ok_next_req : (0 < file_next_req_id_ d)%Z;
  ok_msgs : NoDup (fm_id <$> file_messages_ d);
  ok_msg_bound : Forall (λ m, (0 < fm_id m < file_next_msg_id_ d)%Z) (file_messages_ d);
  ok_next_msg : (0 < file_next_msg_id_ d)%Z
}.

(** The state of a first start; [w]: files can be written in the data
    directory. *)
Definition first_start (w : bool) : FileDB := mkFileDB [] [] [] [] 1000 1 1 (mkDisk ∅ w).
Definition empty_db : FileDB := first_start true.

(** One call of the storage interface that changes the tables; the callers
    never pass a negative uid ([ctx->uid] starts at 0). *)
Inductive file_step `{JsonText} (hasher : bytes → Z) : FileDB → FileDB → Prop :=
  | fs_register u p r d d' : register_user hasher u p d = Ret r d' → file_step hasher d d'
  | fs_add a b m r d d' : (0 ≤ a)%Z → add_friend_request a b m d = Ret r d' → file_step hasher d d'
  | fs_accept i b r d d' : accept_friend_request i b d = Ret r d' → file_step hasher d d'
  | fs_mark u n r d d' : mark_delivered u n d = Ret r d' → file_step hasher d d'
  | fs_batch ms r d d' : store_batch ms d = Ret r d' → file_step hasher d d'.

(** ** Lemmas *)

Section Facts.
Context `{JsonText}.
Variable hasher : bytes → Z.
Implicit Types (d : FileDB) (k : disk).

Lemma write_json_Ret (path : bytes) (j : json) d d' (r : unit) :
  write_json path j d = Ret r d' → ∃ k, d' = set_disk k d ∧ writable k = writable (data_dir d).
Proof.
  unfold write_json. destruct (writable (data_dir d)) eqn:E.
  - destruct (json_dump j) as [s|]; [|done]. intros [= _ <-]. by eexists.
  - intros [= _ <-]. exists (data_dir d). by destruct d.
Qed.

Lemma register_inv (u p : bytes) (r : Z) d d' :
  register_user hasher u p d = Ret r d' →
  (r = (-2)%Z ∧ d' = d ∧ u ∈ (fu_username <$> file_users_ d)) ∨
  (r = file_next_uid_ d ∧ (u ∉ (fu_username <$> file_users_ d)) ∧
   ∃ k, d' = set_disk k (set_users (file_users_ d ++ [mkUser r u (file_hash hasher p)]) (r + 1) d)).
Proof.
  unfold register_user. mred. destruct (existsb _ _) eqn:E.
  - intros [= <- <-]. left. split_ands; [done..|].
    apply existsb_exists in E as (x & Hx & Hu). zbool.
    apply list_elem_of_fmap. exists x. by rewrite list_elem_of_In.
  - unfold save_users_file. mred.
    destruct (write_json _ _ _) as [[] d1| |] eqn:W; [|done..]. intros [= <- <-].
    apply write_json_Ret in W as (k & -> & _). right. split_ands; [done| |by exists k].
    intros (x & -> & Hx)%list_elem_of_fmap. rewrite list_elem_of_In in Hx.
    assert (existsb (λ u, bool_decide (fu_username u = fu_username x)) (file_users_ d) = true)
      as E'; [|congruence].
    apply existsb_exists. exists x. by rewrite bool_decide_eq_true_2.
Qed.

Lemma add_inv (a b : Z) (m : bytes) (r : Z) d d' :
  add_friend_request a b m d = Ret r d' →
  (d' = d ∧ (r = -2 ∨ r = -3)%Z) ∨
  (r = file_next_req_id_ d ∧
   ∃ k, d' = set_disk k (set_reqs (file_friend_reqs_ d ++ [mkReq r a b m 0]) (r + 1) d)).
Proof.
  unfold add_friend_request. mred. destruct (existsb _ (file_friends_ d)).
  { intros [= <- <-]. auto. }
  destruct (existsb _ (file_friend_reqs_ d)).
  { intros [= <- <-]. auto. }
  unfold save_friend_reqs_file. mred.
  destruct (write_json _ _ _) as [[] d1| |] eqn:W; [|done..]. intros [= <- <-].
  apply write_json_Ret in W as (k & -> & _). right. split; [done|]. by exists k.
Qed.

Lemma accept_loop_spec (i b : Z) (rs : list FileFriendRequest) :
  let '(f, rs') := accept_loop i b rs in
  (f = (-1)%Z ∧ rs' = rs ∧ Forall (λ r, ¬ (fr_id r = i ∧ fr_to r = b ∧ fr_status r = 0%Z)) rs) ∨
  (∃ pre m post, rs = pre ++ mkReq i f b m 0 :: post ∧ rs' = pre ++ mkReq i f b m 1 :: post).
Proof.
  induction rs as [|r rs IH]; cbn [accept_loop].
  - left. done.
  - case_if; zbool.
    + right. destruct r as [ri rf rt rm rs0]; simpl in *; subst.
      by exists [], rm, rs.
    + destruct (accept_loop i b rs) as [f rs'].
      destruct IH as [(-> & -> & Hall)|(pre & m & post & -> & ->)].
      * left. split_ands; [done..|]. constructor; [|done]. intros (<- & <- & Hs).
        by rewrite Hs, !Z.eqb_refl in E.
      * right. by exists (r :: pre), m, post.
Qed.

Lemma accept_inv (i b : Z) (r : Z) d d' :
  accept_friend_request i b d = Ret r d' →
  (r = (-1)%Z ∧ file_friends_ d' = file_friends_ d ∧ file_messages_ d' = file_messages_ d ∧
   (∃ f rs, accept_loop i b (file_friend_reqs_ d) = (f, rs) ∧ (f < 0)%Z ∧
            d' = set_reqs rs (file_next_req_id_ d) d)) ∨
  ((0 ≤ r)%Z ∧ ∃ rs k, accept_loop i b (file_friend_reqs_ d) = (r, rs) ∧
     d' = set_disk k (set_friends (file_friends_ d ++ [(Z.min r b, Z.max r b)])
                                  (set_reqs rs (file_next_req_id_ d) d))).
Proof.
  unfold accept_friend_request. mred.
  destruct (accept_loop i b (file_friend_reqs_ d)) as [f rs].
  destruct (f <? 0)%Z eqn:Ef; zbool.
  - intros [= <- <-]. left. split_ands; [done..|]. by exists f, rs.
  - unfold save_friend_reqs_file, save_friends_file. mred.
    destruct (write_json _ _ _) as [[] d1| |] eqn:W; [|done..].
    apply write_json_Ret in W as (k & -> & _).
    destruct (write_json friends_path _ _) as [[] d2| |] eqn:W; [|done..].
    apply write_json_Ret in W as (k' & -> & _). intros [= <- <-].
    right. split; [done|]. by exists rs, k'.
Qed.

Lemma mark_inv (u n : Z) (r : unit) d d' :
  mark_delivered u n d = Ret r d' →
  ∃ k, d' = set_disk k (set_messages (map (mark_message u n) (file_messages_ d)) (file_next_msg_id_ d) d).
Proof.
  unfold mark_delivered, save_messages_file. mred.
  destruct (write_json _ _ _) as [[] d1| |] eqn:W; [|done..]. intros [= _ <-].
  apply write_json_Ret in W as (k & -> & _). by exists k.
Qed.

Lemma batch_inv (ms : list DBChatMessage) (r : unit) d d' :
  store_batch ms d = Ret r d' →
  ∃ k, d' = set_disk k (set_messages (file_messages_ d ++ number_messages (file_next_msg_id_ d) ms)
                                     (file_next_msg_id_ d + Z.of_nat (length ms)) d).
Proof.
  unfold store_batch, save_messages_file. mred.
  destruct (write_json _ _ _) as [[] d1| |] eqn:W; [|done..]. intros [= _ <-].
  apply write_json_Ret in W as (k & -> & _). by exists k.
Qed.

Lemma set_disk_ok k d : db_ok d → db_ok (set_disk k d).
Proof. by intros []. Qed.

Lemma number_messages_ids (ms : list DBChatMessage) (n : Z) :
  NoDup (fm_id <$> number_messages n ms) ∧
  Forall (λ m, (n ≤ fm_id m < n + Z.of_nat (length ms))%Z) (number_messages n ms).
Proof.
  revert n. induction ms as [|m ms IH]; intros n; cbn [number_messages].
  - split; constructor.
  - destruct (IH (n + 1)%Z) as [Hn Hf]. split.
    + cbn [fmap list_fmap]. apply NoDup_cons. split; [|done].
      intros (x & Hx & Hin)%list_elem_of_fmap. rewrite Forall_forall in Hf.
      apply Hf in Hin. simpl in Hx. lia.
    + constructor; [simpl; lia|]. eapply Forall_impl; [exact Hf|]. simpl. lia.
Qed.

(** Adding a fresh identifier at the end of a table. *)
Lemma nodup_snoc {A} (f : A → Z) (l : list A) (x : A) (n : Z) :
  NoDup (f <$> l) → Forall (λ y, (0 < f y < n)%Z) l → f x = n → NoDup (f <$> l ++ [x]).
Proof.
  intros Hn Hf Hx. rewrite fmap_app. apply NoDup_app. split_ands; [done| |apply NoDup_singleton].
  intros y (z & -> & Hz)%list_elem_of_fmap Hy%list_elem_of_singleton.
  rewrite Forall_forall in Hf. apply Hf in Hz. lia.
Qed.

Lemma bound_mono {A} (f : A → Z) (l : list A) (n m : Z) :
  Forall (λ y, (0 < f y < n)%Z) l → (n ≤ m)%Z → Forall (λ y, (0 < f y < m)%Z) l.
Proof. intros Hf Hnm. eapply Forall_impl; [exact Hf|]. simpl. lia. Qed.

Lemma register_ok (u p : bytes) (r : Z) d d' :
  db_ok d → register_user hasher u p d = Ret r d' → db_ok d'.
Proof.
  intros Hok [(_ & -> & _)|(-> & Hu & k & ->)]%register_inv; [done|].
  apply set_disk_ok. destruct Hok. split; cbn; try done; [| | |lia].
  - by eapply nodup_snoc.
  - rewrite fmap_app. apply NoDup_app. split_ands; [done| |apply NoDup_singleton].
    intros y Hy ->%list_elem_of_singleton. done.
  - apply Forall_app. split; [eapply bound_mono; [done|lia]|]. constructor; [simpl; lia|done].
Qed.

Lemma req_bounds (l : list FileFriendRequest) (n : Z) :
  Forall (λ r, (0 < fr_id r < n)%Z ∧ (fr_status r = 0 ∨ fr_status r = 1)%Z) l →
  Forall (λ r, (0 < fr_id r < n)%Z) l.
Proof. intros Hf. eapply Forall_impl; [exact Hf|]. simpl. lia. Qed.

Lemma add_ok (a b : Z) (m : bytes) (r : Z) d d' :
  db_ok d → add_friend_request a b m d = Ret r d' → db_ok d'.
Proof.
  intros Hok [(-> & _)|(-> & k & ->)]%add_inv; [done|].
  apply set_disk_ok. destruct Hok. split; cbn; try done; [| |lia].
  - eapply nodup_snoc; [done|by apply req_bounds|done].
  - apply Forall_app. split; [|constructor; [simpl; lia|done]].
    eapply Forall_impl; [done|]. simpl. lia.
Qed.

Lemma accept_loop_ids (i b f : Z) (rs rs' : list FileFriendRequest) (n : Z) :
  accept_loop i b rs = (f, rs') →
  Forall (λ r, (0 < fr_id r < n)%Z ∧ (fr_status r = 0 ∨ fr_status r = 1)%Z) rs →
  fr_id <$> rs' = fr_id <$> rs ∧
  Forall (λ r, (0 < fr_id r < n)%Z ∧ (fr_status r = 0 ∨ fr_status r = 1)%Z) rs'.
Proof.
  intros E Hf. pose proof (accept_loop_spec i b rs) as H0. rewrite E in H0.
  destruct H0 as [(_ & -> & _)|(pre & m & post & -> & ->)]; [done|].
  rewrite !fmap_app, !fmap_cons. split; [done|].
  rewrite Forall_app, Forall_cons in *. simpl in *.
  destruct Hf as (? & [? _] & ?). split_ands; auto; lia.
Qed.

Lemma accept_ok (i b : Z) (r : Z) d d' :
  db_ok d → accept_friend_request i b d = Ret r d' → db_ok d'.
Proof.
  intros Hok [(_ & _ & _ & f & rs & E & _ & ->)|(Hr & rs & k & E & ->)]%accept_inv;
    destruct (accept_loop_ids _ _ _ _ _ _ E (ok_req_bound d Hok)) as [Hi Hb];
    destruct Hok; split; cbn; try done; try by rewrite Hi.
  apply Forall_app. split; [done|]. constructor; [simpl; lia|done].
Qed.

Lemma mark_message_id (u n : Z) (m : FileMessage) : fm_id (mark_message u n m) = fm_id m.
Proof. unfold mark_message. by case_if. Qed.

Lemma waiting_marked (u n : Z) (l : list FileMessage) :
  Forall (λ m, (fm_id m ≤ n)%Z) l →
  List.filter (λ m, (fm_to m =? u)%Z && negb (fm_delivered m)) (map (mark_message u n) l) = [].
Proof.
  induction 1 as [|m l Hm Hl IH]; [done|]. cbn [map List.filter]. rewrite IH.
  unfold mark_message. destruct (fm_to m =? u)%Z eqn:E.
  - apply Z.leb_le in Hm as ->. cbn. by rewrite andb_false_r.
  - cbn. by rewrite E.
Qed.

Lemma waiting_other (u v n : Z) (l : list FileMessage) :
  v ≠ u →
  List.filter (λ m, (fm_to m =? v)%Z && negb (fm_delivered m)) (map (mark_message u n) l) =
  List.filter (λ m, (fm_to m =? v)%Z && negb (fm_delivered m)) l.
Proof.
  intros Hne. induction l as [|m l IH]; [done|]. cbn [map List.filter]. rewrite IH.
  unfold mark_message. destruct (fm_to m =? u)%Z eqn:E; [|done]. apply Z.eqb_eq in E.
  assert (Hf : (u =? v)%Z = false) by (apply Z.eqb_neq; congruence).
  destruct (fm_id m <=? n)%Z; cbn; by rewrite ?E, Hf.
Qed.

Lemma mark_ok (u n : Z) (r : unit) d d' :
  db_ok d → mark_delivered u n d = Ret r d' → db_ok d'.
Proof.
  intros Hok [k ->]%mark_inv. apply set_disk_ok. destruct Hok. split; cbn; try done.
  - change (map (mark_message u n) (file_messages_ d)) with (mark_message u n <$> file_messages_ d).
    rewrite <- list_fmap_compose. erewrite list_fmap_ext; [done|].
    intros j x _. apply mark_message_id.
  - apply Forall_forall. intros x (y & -> & Hy)%list_elem_of_fmap. rewrite mark_message_id.
    rewrite Forall_forall in ok_msg_bound0. by apply ok_msg_bound0.
Qed.

Lemma batch_ok (ms : list DBChatMessage) (r : unit) d d' :
  db_ok d → store_batch ms d = Ret r d' → db_ok d'.
Proof.
  intros Hok [k ->]%batch_inv. apply set_disk_ok. destruct Hok.
  destruct (number_messages_ids ms (file_next_msg_id_ d)) as [Hn Hf].
  rewrite Forall_forall in Hf. rewrite Forall_forall in ok_msg_bound0.
  split; cbn; try done; [| |lia].
  - rewrite fmap_app. apply NoDup_app. split_ands; [done| |done].
    intros x (y & -> & Hy)%list_elem_of_fmap (z & Hz & Hin)%list_elem_of_fmap.
    apply ok_msg_bound0 in Hy. apply Hf in Hin. lia.
  - apply Forall_forall. intros x [Hx|Hx]%elem_of_app;
      [apply ok_msg_bound0 in Hx|apply Hf in Hx]; lia.
Qed.

(** A stored pair shows up in the list of either end. *)
Lemma friend_listed (p : Z * Z) (u v : Z) (l : list (Z * Z)) (f : Z → bytes) :
  p = (Z.min u v, Z.max u v) ∨ p = (Z.min v u, Z.max v u) →
  v ∈ (map (λ o, (o, f o)) (omap (other_end u) (l ++ [p]))).*1.
Proof.
  intros Hp. change (map ?g) with (fmap (M := list) g). rewrite <- list_fmap_compose.
  apply list_elem_of_fmap. exists v. split; [done|].
  rewrite omap_app. apply elem_of_app. right. apply list_elem_of_omap.
  exists p. split; [by apply list_elem_of_singleton|].
  unfold other_end. destruct Hp as [-> | ->]; simpl; repeat case_if; zbool; f_equal; lia.
Qed.

Lemma add_known_pair (a b : Z) (m : bytes) d :
  (Z.min a b, Z.max a b) ∈ file_friends_ d → add_friend_request a b m d = Ret (-2)%Z d.
Proof.
  intros Hin. unfold add_friend_request. mred.
  replace (existsb _ (file_friends_ d)) with true; [done|]. symmetry.
  apply existsb_exists. eexists. rewrite <- list_elem_of_In. split; [exact Hin|].
  simpl. by rewrite !Z.eqb_refl.
Qed.

Lemma nodup_same_id (pre pre' post post' : list FileFriendRequest) (x y : FileFriendRequest) :
  NoDup (fr_id <$> pre ++ x :: post) → pre ++ x :: post = pre' ++ y :: post' →
  fr_id x = fr_id y → x = y.
Proof.
  intros Hn Heq Hid.
  assert (Hy : (pre ++ x :: post) !! length pre' = Some y).
  { rewrite Heq. by apply list_lookup_middle. }
  assert (Hx : (pre ++ x :: post) !! length pre = Some x) by by apply list_lookup_middle.
  assert (length pre = length pre') as El; [|rewrite El in Hx; congruence].
  apply (NoDup_lookup _ _ _ (fr_id x) Hn); rewrite list_lookup_fmap, ?Hx, ?Hy; simpl; congruence.
Qed.

Lemma search_loop_take (kw : bytes) (us : list FileUser) (r : list (Z * bytes)) :
  length r < 20 →
  search_loop kw us r =
  take 20 (r ++ map (λ u, (fu_uid u, fu_username u))
                    (List.filter (λ u, contains kw (tolower (fu_username u))) us)).
Proof.
  revert r. induction us as [|u us IH]; intros r Hr; cbn [search_loop List.filter].
  - by rewrite app_nil_r, take_ge by lia.
  - destruct (contains kw (tolower (fu_username u))); cbn [map].
    + case_if; zbool.
      * match goal with |- _ = take 20 (r ++ ?x :: ?l) =>
          replace (r ++ x :: l) with ((r ++ [x]) ++ l) by (by rewrite <- app_assoc) end.
        rewrite take_app_le, take_ge; [done|..]; rewrite length_app in *; simpl in *; lia.
      * rewrite IH by done. by rewrite <- app_assoc.
    + rewrite (proj2 (Nat.leb_gt _ _)) by lia. by apply IH.
Qed.

Lemma first_start_ok (w : bool) : db_ok (first_start w).
Proof. split; cbn; try constructor; lia. Qed.

Lemma file_step_ok d d' : db_ok d → file_step hasher d d' → db_ok d'.
Proof.
  intros Hok Hs.
  destruct Hs; eauto using register_ok, add_ok, accept_ok, mark_ok, batch_ok.
Qed.
End Facts.

#[export] Hint Resolve register_ok add_ok accept_ok mark_ok batch_ok first_start_ok : aura.

(** ** Properties *)

Section Properties.
Context `{JsonText}.
Variable hasher : bytes → Z.

(** C16. The tables stay consistent: after any sequence of storage calls from
    a first start, with a data directory that can be written or not, user ids, user names, request ids and message ids are
    unique, every id is positive and below its counter, friend pairs are
    stored smaller uid first and request states are 0 or 1. *)
Theorem file_tables_consistent (w : bool) (d : FileDB) :
  rtc (file_step hasher) (first_start w) d → db_ok d.
Proof.
  intros Hr. assert (H0 : db_ok (first_start w)) by auto with aura. revert H0.
  induction Hr; eauto using file_step_ok.
Qed.

(** C28. Registration and login with files: when the call returns, a taken name is refused with -2 and nothing
    changes; a name that is not taken gets the next uid, logging in with its
    name and password answers that uid, a password with another hash is
    refused, and every other name logs in as before. *)
Theorem register_then_login (d d' : FileDB) (u p : bytes) (uid : Z) :
  register_user hasher u p d = Ret uid d' →
  (uid = (-2)%Z ∧ d' = d ∧ u ∈ (fu_username <$> file_users_ d)) ∨
  ((u ∉ (fu_username <$> file_users_ d)) ∧ uid = file_next_uid_ d ∧
   verify_login hasher u p d' = Ret uid d' ∧
   (∀ p', is_u64 (hasher (str "im_salt_" ++ p)) → is_u64 (hasher (str "im_salt_" ++ p')) →
      hasher (str "im_salt_" ++ p') ≠ hasher (str "im_salt_" ++ p) →
      verify_login hasher u p' d' = Ret (-1)%Z d') ∧
   (∀ u' p' r, u' ≠ u → verify_login hasher u' p' d = Ret r d →
      verify_login hasher u' p' d' = Ret r d')).
Proof.
  intros [Hl|(-> & Hu & k & ->)]%register_inv; [by left|right].
  unfold verify_login. mred. cbn [file_users_ set_disk set_users].
  assert (Hnone : ∀ h, List.find (λ x, bool_decide (fu_username x = u)
      && bool_decide (fu_password_hash x = h)) (file_users_ d) = None).
  { intros h. destruct (List.find _ _) as [x|] eqn:E; [|done].
    apply find_some in E as [Hin Hx]. zbool. subst u. destruct Hu.
    apply list_elem_of_fmap. exists x. by rewrite list_elem_of_In. }
  split_ands; [done|done|..].
  - rewrite find_app, Hnone. cbn [List.find fu_username fu_password_hash]. by rewrite !bool_decide_eq_true_2.
  - intros p' H1 H2 Hne. rewrite find_app, Hnone. cbn [List.find fu_username fu_password_hash].
    rewrite (bool_decide_eq_false_2 (file_hash hasher p = _)), andb_false_r; [done|].
    intros E. apply Hne. symmetry. exact (hex16_inj _ _ H1 H2 E).
  - intros u' p' r Hne Hr. rewrite find_app.
    destruct (List.find _ (file_users_ d)) as [x|].
    + by injection Hr as <-.
    + cbn [List.find fu_username]. rewrite bool_decide_eq_false_2 by congruence. by injection Hr as <-.
Qed.

(** Stored messages reach their addressee in order: a batch of the writer
    thread appends, for every user, exactly the batch's undelivered messages
    to that user, in submission order, after those already waiting. *)
Theorem batch_then_query (d d' : FileDB) (ms : list DBChatMessage) (uid : Z) :
  store_batch ms d = Ret tt d' →
  ∃ old new, query_offline_messages uid d = Ret old d ∧
    query_offline_messages uid d' = Ret (old ++ new) d' ∧
    map (λ m, (dm_from m, dm_to m, dm_content m)) new =
    map (λ m, (dm_from m, dm_to m, dm_content m))
        (List.filter (λ m, (dm_to m =? uid)%Z && negb (dm_delivered m)) ms).
Proof.
  intros [k ->]%batch_inv. unfold query_offline_messages. mred.
  cbn [file_messages_ set_disk set_messages]. rewrite List.filter_app, map_app.
  do 2 eexists. split_ands; [done..|]. clear. generalize (file_next_msg_id_ d).
  induction ms as [|m ms IH]; intros n; [done|]. cbn. case_if; [|apply IH].
  cbn. by rewrite IH.
Qed.

(** Delivery is acknowledged once: after [mark_delivered(uid, INT64_MAX)]
    nothing waits for that user any more, while the messages waiting for
    other users are untouched. *)
Theorem mark_then_query (d d' : FileDB) (uid : Z) :
  db_ok d → (file_next_msg_id_ d ≤ INT64_MAX)%Z →
  mark_delivered uid INT64_MAX d = Ret tt d' →
  query_offline_messages uid d' = Ret [] d' ∧
  (∀ u ms, u ≠ uid → query_offline_messages u d = Ret ms d →
     query_offline_messages u d' = Ret ms d').
Proof.
  intros Hok Hmax [k ->]%mark_inv. unfold query_offline_messages. mred.
  cbn [file_messages_ set_disk set_messages]. split.
  - f_equal. rewrite (waiting_marked uid INT64_MAX); [done|].
    eapply Forall_impl; [exact (ok_msg_bound d Hok)|]. simpl. lia.
  - intros u ms Hne [= <-]. by rewrite waiting_other.
Qed.

(** C29. Accepting a request makes a friendship: the request was pending and
    addressed to the acceptor, each side then lists the other, a new request
    between them in either direction is refused with -2, and accepting the
    same request again is refused with -1; neither refusal changes anything. *)
Theorem accept_makes_friends (d d' : FileDB) (rid a b : Z) (m : bytes) :
  db_ok d → accept_friend_request rid b d = Ret a d' → (0 ≤ a)%Z →
  (∃ m0, mkReq rid a b m0 0 ∈ file_friend_reqs_ d) ∧
  (∃ fa, get_friends a d' = Ret fa d' ∧ b ∈ fa.*1) ∧
  (∃ fb, get_friends b d' = Ret fb d' ∧ a ∈ fb.*1) ∧
  add_friend_request a b m d' = Ret (-2)%Z d' ∧
  add_friend_request b a m d' = Ret (-2)%Z d' ∧
  accept_friend_request rid b d' = Ret (-1)%Z d'.
Proof.
  intros Hok Hacc Ha. pose proof (accept_ok rid b a d d' Hok Hacc) as Hok'.
  apply accept_inv in Hacc as [(-> & _)|(_ & rs & k & E & ->)]; [lia|].
  pose proof (accept_loop_spec rid b (file_friend_reqs_ d)) as Hl. rewrite E in Hl.
  destruct Hl as [(-> & _)|(pre & m0 & post & Hd & ->)]; [lia|].
  split_ands.
  - exists m0. rewrite Hd. apply elem_of_app. right. by apply elem_of_cons; left.
  - eexists. split; [done|].
    apply (friend_listed _ a b _ (λ o, name_of o (user_label o) _)). by left.
  - eexists. split; [done|].
    apply (friend_listed _ b a _ (λ o, name_of o (user_label o) _)). by right.
  - apply add_known_pair, elem_of_app. right. by apply list_elem_of_singleton.
  - apply add_known_pair. rewrite (Z.min_comm b a), (Z.max_comm b a).
    apply elem_of_app. right. by apply list_elem_of_singleton.
  - unfold accept_friend_request. mred. cbn [file_friend_reqs_ set_disk set_friends set_reqs].
    pose proof (ok_reqs _ Hok') as Hn. cbn in Hn.
    pose proof (accept_loop_spec rid b (pre ++ mkReq rid a b m0 1 :: post)) as Hl.
    destruct (accept_loop rid b (pre ++ mkReq rid a b m0 1 :: post)) as [f rs].
    destruct Hl as [(-> & -> & _)|Hl]; [done|].
    destruct Hl as (pre' & m' & post' & Heq & _). exfalso.
    discriminate (nodup_same_id _ _ _ _ _ _ Hn Heq eq_refl).
Qed.

(** A friend request is sent once: after it was recorded, the same request
    is refused with -3 without a change, and it is the first entry of the
    addressee's list of pending requests. *)
Theorem request_is_pending (d d' : FileDB) (a b rid : Z) (m m' : bytes) :
  add_friend_request a b m d = Ret rid d' → (0 < rid)%Z →
  add_friend_request a b m' d' = Ret (-3)%Z d' ∧
  ∃ name rest, get_pending_requests b d' = Ret ((rid, a, name, m) :: rest) d'.
Proof.
  unfold add_friend_request at 1. mred.
  destruct (existsb _ (file_friends_ d)) eqn:Ef; [intros [= <- _]; lia|].
  destruct (existsb _ (file_friend_reqs_ d)); [intros [= <- _]; lia|].
  unfold save_friend_reqs_file. mred.
  destruct (write_json _ _ _) as [[] d1| |] eqn:W; [|done..]. intros [= <- <-] _.
  apply write_json_Ret in W as (k & -> & _). split.
  - unfold add_friend_request. mred. cbn [file_friends_ file_friend_reqs_ set_disk set_reqs].
    rewrite Ef, existsb_app. cbn. by rewrite !Z.eqb_refl, orb_true_r.
  - unfold get_pending_requests. mred. cbn [file_friend_reqs_ set_disk set_reqs].
    rewrite reverse_snoc. cbn. rewrite Z.eqb_refl. cbn. eauto.
Qed.

(** Searching is case-insensitive substring search over the users in
    registration order, cut to the first twenty matches. *)
Theorem search_is_filter (d : FileDB) (kw : bytes) :
  search_users kw d =
  Ret (take 20 (map (λ u, (fu_uid u, fu_username u))
         (List.filter (λ u, contains (tolower kw) (tolower (fu_username u))) (file_users_ d)))) d.
Proof.
  unfold search_users. mred. f_equal. rewrite search_loop_take; [done|simpl; lia].
Qed.
End Properties.

(** ** Witnesses and a counterexample to uniqueness of friendships *)

Definition len_hash (s : bytes) : Z := Z.of_nat (length s).

Definition db_alice : FileDB :=
  match register_user len_hash (str "alice") (str "pw") empty_db with
  | Ret _ d => d | _ => empty_db end.
Definition db_request : FileDB :=
  match add_friend_request 1 2 (str "hi") empty_db with Ret _ d => d | _ => empty_db end.
Definition db_friends : FileDB :=
  match accept_friend_request 1 2 db_request with Ret _ d => d | _ => empty_db end.
Definition db_stored : FileDB :=
  match store_batch [mkDBMsg 0 1 2 (str "hello") 0 false] empty_db with
  | Ret _ d => d | _ => empty_db end.

Lemma file_tables_consistent_witness : db_ok db_alice.
Proof.
  apply (file_tables_consistent len_hash true). apply rtc_once.
  apply (fs_register len_hash (str "alice") (str "pw") 1000%Z). vm_compute. reflexivity.
Defined.

Lemma register_then_login_witness :
  verify_login len_hash (str "alice") (str "pw") db_alice = Ret 1000%Z db_alice.
Proof.
  destruct (register_then_login len_hash empty_db db_alice (str "alice") (str "pw") 1000%Z)
    as [(H & _)|(_ & _ & H & _)]; [vm_compute; reflexivity|discriminate H|exact H].
Defined.

Lemma batch_then_query_witness :
  ∃ new, query_offline_messages 2 db_stored = Ret new db_stored ∧
         map dm_content new = [str "hello"].
Proof.
  destruct (batch_then_query empty_db db_stored [mkDBMsg 0 1 2 (str "hello") 0 false] 2)
    as (old & new & Ho & Hn & Hm); [vm_compute; reflexivity|].
  injection Ho as <-. exists new. split; [exact Hn|].
  apply (f_equal (map snd)) in Hm. rewrite !map_map in Hm. exact Hm.
Defined.

Lemma mark_then_query_witness :
  ∃ d', mark_delivered 2 INT64_MAX db_stored = Ret tt d' ∧
        query_offline_messages 2 d' = Ret [] d'.
Proof.
  destruct (mark_delivered 2 INT64_MAX db_stored) as [[] d'|d'|r] eqn:E;
    [|vm_compute in E; discriminate E..].
  exists d'. split; [reflexivity|].
  refine (proj1 (mark_then_query db_stored d' 2 _ _ E)); [|vm_compute; congruence].
  apply (batch_ok [mkDBMsg 0 1 2 (str "hello") 0 false] tt empty_db);
    [apply (first_start_ok true)|vm_compute; reflexivity].
Defined.

Lemma accept_makes_friends_witness :
  ∃ fa, get_friends 1 db_friends = Ret fa db_friends ∧ 2%Z ∈ fa.*1.
Proof.
  refine (proj1 (proj2 (accept_makes_friends db_request db_friends 1 1 2 [] _ _ _))).
  - apply (add_ok 1 2 (str "hi") 1 empty_db); [apply (first_start_ok true)|vm_compute; reflexivity].
  - vm_compute. reflexivity.
  - lia.
Defined.

Lemma request_is_pending_witness :
  add_friend_request 1 2 (str "again") db_request = Ret (-3)%Z db_request.
Proof.
  refine (proj1 (request_is_pending empty_db db_request 1 2 1 (str "hi") (str "again") _ _));
    [vm_compute; reflexivity|lia].
Defined.
