(* ===== verification/Llama.v ===== *)
(** * The streaming HTTP client (include/llama_client.h)

    Building the request, and decoding the server-sent events that libcurl
    delivers block by block to [stream_write_cb].  libcurl itself is outside
    the sources: the blocks and the transfer's result are inputs. *)

From S2P Require Import Prelude Bytes Json RefCodec.

(** ** The request *)

Definition prompt_has (prompt : bytes) (kw : string) : bool := contains (str kw) prompt.

(** [max_tokens] and [need_long_output], branch by branch. *)
Definition request_options (prompt : bytes) : Z * bool :=
  let '(max_tokens, need_long_output) := (4096, false)%Z in
  let '(max_tokens, need_long_output) :=
    if prompt_has prompt "代码" || prompt_has prompt "写一个" ||
       prompt_has prompt "实现" || prompt_has prompt "编程"
    then (8196, true)%Z else (max_tokens, need_long_output) in
  let max_tokens :=
    if prompt_has prompt "详细" || prompt_has prompt "全面" || prompt_has prompt "完整"
    then Z.max max_tokens 3072 else max_tokens in
  if (300 <? Z.of_nat (length prompt))%Z then (Z.max max_tokens 3072, true)
  else (max_tokens, need_long_output).

Definition system_prompt (need_long_output : bool) : bytes :=
  if need_long_output
  then str "你是一个专业助手。请在回答时保持清晰的排版，段落之间务必使用两个换行符(\n\n)分隔。"
  else str "你是一个助手。请简明扼要，并使用换行符保持良好的段落排版。".

Definition escape_char (c : byte) : bytes :=
  match c with
  | x22 => [x5c; x22]   (* quote *)
  | x5c => [x5c; x5c]   (* backslash *)
  | x0a => [x5c; x6e]   (* newline *)
  | x0d => [x5c; x72]   (* carriage return *)
  | x09 => [x5c; x74]   (* tab *)
  | _ => [c]
  end.
Definition escape (s : bytes) : bytes := s ≫= escape_char.

(** A piece of the JSON template, written here with [`] for the quote. *)
Definition tpl (s : string) : bytes := map (λ b, if decide (b = x60) then x22 else b) (str s).

Definition request_json (prompt : bytes) : bytes :=
  let '(max_tokens, need_long_output) := request_options prompt in
  tpl "{
    `messages`: [
        {`role`: `system`, `content`: `" ++ escape (system_prompt need_long_output) ++ tpl "`},
        {`role`: `user`, `content`: `" ++ escape prompt ++ tpl "`}
    ],
    `temperature`: 0.7,
    `max_tokens`: " ++ to_string max_tokens ++ tpl ",
    `stream`: true
}".

(** ** The response *)

Section Stream.
Context `{JsonText}.

(** [parse_stream_chunk]: the text passed to [on_chunk], if any; an exception
    inside is swallowed, as the [catch] does. *)
Definition chunk_content (j : json) : option bytes :=
  if jcontains (str "choices") j then
    choices ← jat (str "choices") j;
    match choices with
    | JArr [] => None
    | JArr _ =>
        c0 ← jidx 0 choices;
        delta ← jat (str "delta") c0;
        if jcontains (str "content") delta then
          v ← jat (str "content") delta;
          match v with
          | JNull =>
              if jcontains (str "reasoning_content") delta then
                r ← jat (str "reasoning_content") delta;
                match r with JNull => Some [] | _ => jget_str r end
              else Some []
          | _ => jget_str v
          end
        else if jcontains (str "reasoning_content") delta then
          r ← jat (str "reasoning_content") delta;
          match r with JNull => Some [] | _ => jget_str r end
        else Some []
    | _ => None
    end
  else None.
Definition parse_stream_chunk (json_raw : bytes) : list bytes :=
  match j ← json_parse json_raw; chunk_content j with
  | Some (c :: s) => [c :: s]
  | _ => []
  end.

(** [if (!line.empty() && line.back() == '\r') line.pop_back()] *)
Definition strip_cr (line : bytes) : bytes :=
  match reverse line with
  | x0d :: r => reverse r
  | _ => line
  end.

Definition handle_line (line : bytes) : list bytes :=
  let line := strip_cr line in
  if starts_with (str "data: ") line then
    let json_data := drop 6 line in
    if decide (json_data = str "[DONE]") then [] else parse_stream_chunk json_data
  else [].

(** The loop of [stream_write_cb]: complete lines are consumed, the rest stays
    in [line_buffer].  Each round removes at least the newline. *)
Fixpoint line_loop (fuel : nat) (line_buffer : bytes) : list bytes * bytes :=
  match fuel with
  | O => ([], line_buffer)
  | S f =>
      match find_char x0a line_buffer with
      | None => ([], line_buffer)
      | Some pos =>
          let line := take pos line_buffer in
          let '(out, rest) := line_loop f (drop (S pos) line_buffer) in
          (handle_line line ++ out, rest)
      end
  end.
Definition stream_write_cb (line_buffer data : bytes) : list bytes * bytes :=
  let b := line_buffer ++ data in line_loop (length b) b.

(** All the blocks of a transfer: the texts passed to [on_chunk], in order. *)
Fixpoint stream_blocks (line_buffer : bytes) (blocks : list bytes) : list bytes * bytes :=
  match blocks with
  | [] => ([], line_buffer)
  | b :: bs =>
      let '(out, buf) := stream_write_cb line_buffer b in
      let '(out', buf') := stream_blocks buf bs in (out ++ out', buf')
  end.

(** [stream_chat]: the texts, and whether it returned [true] (in which case
    [on_complete] has run).  [handle]: [curl_easy_init] succeeded;
    [transfer_ok]: [curl_easy_perform] answered [CURLE_OK]. *)
Definition stream_chat (handle transfer_ok : bool) (blocks : list bytes) : list bytes * bool :=
  if handle then ((stream_blocks [] blocks).1, transfer_ok) else ([], false).
End Stream.

(** ** A strict JSON string reader (RFC 8259), to say what [escape] must achieve

    Reads a string body up to its closing quote; control characters must be
    escaped. *)
Fixpoint read_string (s : bytes) : option (bytes * bytes) :=
  match s with
  | [] => None
  | x22 :: rest => Some ([], rest)
  | x5c :: e :: rest =>
      d ← match e with
          | x22 => Some x22 | x5c => Some x5c | x2f => Some x2f
          | x6e => Some x0a | x72 => Some x0d | x74 => Some x09
          | x62 => Some x08 | x66 => Some x0c
          | _ => None
          end;
      r ← read_string rest;
      Some (d :: r.1, r.2)
  | c :: rest =>
      if (byte_val c <? 32)%Z then None
      else r ← read_string rest; Some (c :: r.1, r.2)
  end.

(** A control character that [escape] passes through. *)
Definition bare_control (c : byte) : bool :=
  (byte_val c <? 32)%Z && negb (bool_decide (c = x0a)) && negb (bool_decide (c = x0d))
    && negb (bool_decide (c = x09)).

(** ** Lemmas *)

Section Facts.
Context `{JsonText}.

Lemma line_loop_fuel (f g : nat) (b : bytes) :
  length b ≤ f → length b ≤ g → line_loop f b = line_loop g b.
Proof.
  revert g b. induction f as [|f IH]; intros [|g] b Hf Hg; cbn [line_loop].
  - done.
  - destruct b; [done|simpl in Hf; lia].
  - destruct b; [done|simpl in Hg; lia].
  - destruct (find_char x0a b) as [pos|] eqn:E; [|done].
    apply find_char_Some in E as [E _].
    assert (length (drop (S pos) b) < length b).
    { apply (f_equal length) in E. rewrite length_app in E. simpl in E. lia. }
    by rewrite (IH g) by lia.
Qed.

Lemma line_loop_line (l rest : bytes) :
  x0a ∉ l →
  line_loop (length (l ++ x0a :: rest)) (l ++ x0a :: rest) =
  let '(out, r) := line_loop (length rest) rest in (handle_line l ++ out, r).
Proof.
  intros Hl. rewrite length_app. cbn [length]. rewrite Nat.add_succ_r. cbn [line_loop].
  rewrite find_char_app by done. rewrite take_app_length.
  rewrite drop_app_ge by lia. replace (S (length l) - length l) with 1 by lia.
  cbn [drop]. rewrite drop_0. by rewrite (line_loop_fuel (length l + length rest) (length rest) rest) by lia.
Qed.

Lemma line_loop_none (l : bytes) : x0a ∉ l → line_loop (length l) l = ([], l).
Proof. intros Hl. destruct l; [done|]. cbn [length line_loop]. by rewrite (proj2 (find_char_None _ _)). Qed.

(** Every buffer is a sequence of lines and an unfinished line. *)
Lemma lines_ind (P : bytes → Prop) :
  (∀ l, x0a ∉ l → P l) → (∀ l rest, x0a ∉ l → P rest → P (l ++ x0a :: rest)) → ∀ b, P b.
Proof.
  intros Hn Hc b. remember (length b) as n eqn:En. revert b En.
  induction n as [n IH] using lt_wf_ind. intros b ->.
  destruct (find_char x0a b) as [pos|] eqn:E.
  - apply find_char_Some in E as [E Hl]. rewrite E. apply Hc; [done|].
    apply (IH (length (drop (S pos) b))); [|done].
    apply (f_equal length) in E. rewrite length_app in E. simpl in E. lia.
  - apply Hn. by apply find_char_None.
Qed.

Lemma line_loop_app (b more : bytes) :
  line_loop (length (b ++ more)) (b ++ more) =
  let '(out, r) := line_loop (length b) b in
  let '(out', r') := line_loop (length (r ++ more)) (r ++ more) in (out ++ out', r').
Proof.
  induction b as [l Hl|l rest Hl IH] using lines_ind.
  - rewrite (line_loop_none l Hl). by destruct (line_loop _ (l ++ more)).
  - rewrite <- app_assoc. cbn [app]. rewrite !line_loop_line by done. rewrite IH.
    destruct (line_loop (length rest) rest) as [out r].
    destruct (line_loop _ (r ++ more)) as [out' r']. by rewrite app_assoc.
Qed.

Lemma line_loop_rest (b r : bytes) (outs : list bytes) :
  line_loop (length b) b = (outs, r) → x0a ∉ r.
Proof.
  revert outs. induction b as [l Hl|l rest Hl IH] using lines_ind; intros outs.
  - rewrite (line_loop_none l Hl). by intros [= _ <-].
  - rewrite line_loop_line by done. destruct (line_loop (length rest) rest) as [o r'].
    intros [= _ ->]. by eapply IH.
Qed.

Lemma stream_blocks_concat (blocks : list bytes) (buf : bytes) :
  x0a ∉ buf →
  stream_blocks buf blocks = stream_write_cb buf (concat blocks).
Proof.
  revert buf. induction blocks as [|b bs IH]; intros buf Hb; cbn [stream_blocks concat].
  - unfold stream_write_cb. rewrite app_nil_r. by rewrite line_loop_none.
  - unfold stream_write_cb. cbv zeta. rewrite app_assoc, (line_loop_app (buf ++ b)).
    destruct (line_loop (length (buf ++ b)) (buf ++ b)) as [out r] eqn:E.
    assert (Hr : x0a ∉ r) by (by eapply line_loop_rest).
    rewrite (IH r Hr). unfold stream_write_cb. done.
Qed.

(** [read_string] undoes one escaped character. *)
Lemma read_escape_char (c : byte) (rest body tail : bytes) :
  bare_control c = false → read_string rest = Some (body, tail) →
  read_string (escape_char c ++ rest) = Some (c :: body, tail).
Proof.
  intros Hc Hr. destruct c; cbn in Hc; try discriminate Hc; cbn; by rewrite Hr.
Qed.
End Facts.

(** ** Properties *)

(** C35. Server-sent events are decoded the same however the transport cuts
    them: the texts passed to [on_chunk] over a whole transfer depend only on
    the concatenation of the blocks, and an unfinished line stays buffered. *)
Theorem sse_block_invariant `{JsonText} (blocks blocks' : list bytes) :
  concat blocks = concat blocks' → stream_blocks [] blocks = stream_blocks [] blocks'.
Proof.
  intros E. rewrite !stream_blocks_concat by apply not_elem_of_nil. by rewrite E.
Qed.

Lemma sse_block_invariant_witness :
  stream_blocks [] [str "data: [DO"; str "NE]" ++ [x0a]]
  = stream_blocks [] [str "data: [DONE]" ++ [x0a]].
Proof. apply sse_block_invariant. reflexivity. Defined.

(** C36. The prompt cannot break out of the request: a JSON reader that meets
    the escaped prompt between its quotes reads back exactly the prompt and
    stops at the closing quote, for every prompt without control characters
    other than newline, carriage return and tab. *)
Theorem escape_roundtrip (s rest : bytes) :
  Forall (λ c, bare_control c = false) s →
  read_string (escape s ++ x22 :: rest) = Some (s, rest).
Proof.
  induction 1 as [|c s Hc Hs IH]; [done|]. unfold escape. cbn [mbind list_bind].
  rewrite <- app_assoc. by apply read_escape_char.
Qed.

Lemma escape_roundtrip_witness :
  read_string (escape [x61; x22; x5c; x0a] ++ x22 :: str "}")
  = Some ([x61; x22; x5c; x0a], str "}").
Proof. apply escape_roundtrip. repeat constructor. Defined.

(** The token budget has two values: 8196 when the prompt asks for code
    (one of four keywords), 4096 otherwise; the two "at least 3072" rules of
    [stream_chat] never change it, and the long system prompt is used exactly
    for code or for prompts over 300 bytes. *)
Theorem request_options_spec (prompt : bytes) :
  let code := prompt_has prompt "代码" || prompt_has prompt "写一个" ||
              prompt_has prompt "实现" || prompt_has prompt "编程" in
  request_options prompt =
  (if code then 8196 else 4096, code || (300 <? Z.of_nat (length prompt)))%Z.
Proof.
  unfold request_options. cbv zeta.
  destruct (prompt_has prompt "代码" || _ || _ || _); destruct (prompt_has prompt "详细" || _ || _);
    destruct (300 <? Z.of_nat (length prompt))%Z; reflexivity.
Qed.
