(* ===== verification/AiManager.v ===== *)
(** * The AI request queue (include/ai_manager.h, src/ai_manager.cpp)

    The state that [mutex_] protects and its critical sections: [submit],
    [cancel_request] and one round of [schedule_requests].  Request objects
    are shared ([std::shared_ptr<StreamRequest>]), so they live in a heap and
    queues hold their keys.  Times are nanoseconds of the steady clock.
    Running a stream is in Stream.v. *)

From S2P Require Import Prelude Bytes Context.

Definition req_id := nat.

Record StreamRequest := mkStreamReq {
  sr_uid : Z;
  sr_prompt : bytes;
  sr_ctx : ctx_id;
  sr_timestamp : Z;
  sr_stream_seq : Z
}.

Record StreamingAIManager := mkAI {
  ai_reqs : gmap req_id StreamRequest;
  next_req : req_id;
  pending_requests_ : list req_id;
  active_streams_ : gmap Z req_id;    (* by descriptor *)
  ai_running_ : bool;
  ai_clients_ : nat;                  (* how many LlamaClient objects *)
  max_concurrent_ : Z;
  rr_counter : Z;
  ai_in_use : list nat                (* the clients whose CURL handle is in use, once per user *)
}.

(** The constructor, for [max_concurrent >= 0]. *)
Definition new_ai (max_concurrent : nat) : StreamingAIManager :=
  mkAI ∅ 0 [] ∅ true max_concurrent (Z.of_nat max_concurrent) 0 [].

(** The destructor's first step. *)
Definition stop_ai (a : StreamingAIManager) : StreamingAIManager :=
  mkAI (ai_reqs a) (next_req a) (pending_requests_ a) (active_streams_ a) false
       (ai_clients_ a) (max_concurrent_ a) (rr_counter a) (ai_in_use a).

Definition set_queues (reqs : gmap req_id StreamRequest) (next : req_id)
    (pending : list req_id) (active : gmap Z req_id) (a : StreamingAIManager) : StreamingAIManager :=
  mkAI reqs next pending active (ai_running_ a) (ai_clients_ a) (max_concurrent_ a) (rr_counter a) (ai_in_use a).

(** [req->stream_seq++] *)
Definition bump_seq (r : StreamRequest) : StreamRequest :=
  mkStreamReq (sr_uid r) (sr_prompt r) (sr_ctx r) (sr_timestamp r) (wrap_i32 (sr_stream_seq r + 1)).
Definition next_seq (r : req_id) (a : StreamingAIManager) : StreamingAIManager :=
  set_queues (alter bump_seq r (ai_reqs a)) (next_req a) (pending_requests_ a) (active_streams_ a) a.

(** ** Critical sections *)

(** [submit_stream_request] after its first reads of the context: whether it
    has an owner, and its descriptor. *)
Definition submit_stream_request (has_owner : bool) (fd sender_uid : Z) (prompt : bytes)
    (ctx : ctx_id) (now : Z) (a : StreamingAIManager) : bool * StreamingAIManager :=
  if negb has_owner then (false, a)
  else if (fd <? 0)%Z then (false, a)
  else if bool_decide (is_Some (active_streams_ a !! fd)) then (false, a)
  else if (1000 <? Z.of_nat (length (pending_requests_ a)))%Z then (false, a)
  else
    let r := mkStreamReq sender_uid prompt ctx now 0 in
    (true, set_queues (<[next_req a := r]> (ai_reqs a)) (S (next_req a))
                      (pending_requests_ a ++ [next_req a]) (active_streams_ a) a).

Definition req_uid (a : StreamingAIManager) (r : req_id) : option Z :=
  sr_uid <$> ai_reqs a !! r.

(** Every active stream of the user is dropped from the table. *)
Definition cancel_request (uid : Z) (a : StreamingAIManager) : StreamingAIManager :=
  set_queues (ai_reqs a) (next_req a) (pending_requests_ a)
    (filter (λ kv, req_uid a kv.2 ≠ Some uid) (active_streams_ a)) a.

(** One round of [schedule_requests] up to the enqueue.  [Idle]: wait and try
    again.  [Expired r]: [r] waited more than 30 s, an error chunk is sent.
    [Gone r]: its connection is closed.  [Start r]: [r] becomes active. *)
Inductive sched_result :=
  | Idle
  | Expired (r : req_id)
  | Gone (r : req_id)
  | Start (r : req_id).

Definition NANOS : Z := 1000000000.

Definition schedule_round (now : Z) (fd_of : ctx_id → Z) (a : StreamingAIManager)
    : sched_result * StreamingAIManager :=
  match pending_requests_ a with
  | [] => (Idle, a)
  | r :: rest =>
      if (Z.of_nat (size (active_streams_ a)) <? max_concurrent_ a)%Z then
        match ai_reqs a !! r with
        | None => (Idle, a)
        | Some q =>
            let a' := set_queues (ai_reqs a) (next_req a) rest (active_streams_ a) a in
            if (30 <? Z.quot (now - sr_timestamp q) NANOS)%Z then (Expired r, a')
            else
              let fd := fd_of (sr_ctx q) in
              if (fd <? 0)%Z then (Gone r, a')
              else (Start r, set_queues (ai_reqs a) (next_req a) rest
                                        (<[fd := r]> (active_streams_ a)) a)
        end
      else (Idle, a)
  end.

(** The last critical section of [process_stream_request]. *)
Definition finish_stream (fd : Z) (a : StreamingAIManager) : StreamingAIManager :=
  if (0 <=? fd)%Z
  then set_queues (ai_reqs a) (next_req a) (pending_requests_ a) (delete fd (active_streams_ a)) a
  else a.

(** [rr_counter.fetch_add(1) % ai_clients_.size()]: which client a stream uses. *)
Definition pick_client (a : StreamingAIManager) : option nat * StreamingAIManager :=
  let a' := mkAI (ai_reqs a) (next_req a) (pending_requests_ a) (active_streams_ a)
                 (ai_running_ a) (ai_clients_ a) (max_concurrent_ a) (wrap_u64 (rr_counter a + 1))
                 (ai_in_use a) in
  match ai_clients_ a with
  | O => (None, a')   (* division by zero *)
  | S _ => (Some (Z.to_nat (rr_counter a `mod` Z.of_nat (ai_clients_ a))), a')
  end.

(** A stream uses the CURL handle of its client from the first
    [curl_easy_setopt] until [curl_easy_perform] returns.  Nothing keeps a
    second stream from using the same handle meanwhile, which libcurl forbids:
    that is undefined behaviour, and shows as a client that occurs twice in
    [ai_in_use]. *)
Definition set_in_use (l : list nat) (a : StreamingAIManager) : StreamingAIManager :=
  mkAI (ai_reqs a) (next_req a) (pending_requests_ a) (active_streams_ a)
       (ai_running_ a) (ai_clients_ a) (max_concurrent_ a) (rr_counter a) l.
Fixpoint remove_one (k : nat) (l : list nat) : list nat :=
  match l with
  | [] => []
  | x :: l' => if (k =? x)%nat then l' else x :: remove_one k l'
  end.
Definition hold_handle (k : nat) (a : StreamingAIManager) : StreamingAIManager :=
  set_in_use (k :: ai_in_use a) a.
Definition release_handle (k : nat) (a : StreamingAIManager) : StreamingAIManager :=
  set_in_use (remove_one k (ai_in_use a)) a.

(** ** Invariant *)

Record ai_ok (a : StreamingAIManager) : Prop := {
  ai_fresh : ∀ r, next_req a ≤ r → ai_reqs a !! r = None;
  ai_pending_ok : Forall (λ r, is_Some (ai_reqs a !! r)) (pending_requests_ a);
  ai_pending_nodup : NoDup (pending_requests_ a);
  ai_active_ok : map_Forall (λ fd r, (0 ≤ fd)%Z ∧ is_Some (ai_reqs a !! r) ∧ r ∉ pending_requests_ a)
                            (active_streams_ a);
  ai_active_bound : (Z.of_nat (size (active_streams_ a)) ≤ max_concurrent_ a)%Z;
  ai_pending_bound : (Z.of_nat (length (pending_requests_ a)) ≤ 1001)%Z
}.

(** The calls other threads make, in any order. *)
Inductive ai_step : StreamingAIManager → StreamingAIManager → Prop :=
  | as_submit o fd u p c now a : ai_step a (submit_stream_request o fd u p c now a).2
  | as_cancel u a : ai_step a (cancel_request u a)
  | as_schedule now fd_of a : ai_step a (schedule_round now fd_of a).2
  | as_seq r a : ai_step a (next_seq r a)
  | as_finish fd a : ai_step a (finish_stream fd a)
  | as_pick a : ai_step a (pick_client a).2
  | as_hold k a : ai_step a (hold_handle k a)
  | as_release k a : ai_step a (release_handle k a).

(** ** Lemmas *)

Lemma new_ai_ok (n : nat) : ai_ok (new_ai n).
Proof.
  split; cbn; [intros; apply lookup_empty|constructor|constructor|apply map_Forall_empty| |lia].
  rewrite map_size_empty. lia.
Qed.

Lemma submit_ok (o : bool) (fd u : Z) (p : bytes) (c : ctx_id) (now : Z) (a : StreamingAIManager) :
  ai_ok a → ai_ok (submit_stream_request o fd u p c now a).2.
Proof.
  intros Hok. pose proof Hok as [Hf Hp Hn Ha Hb Hl]. unfold submit_stream_request.
  repeat (case_if; [done|]). zbool.
  assert (Hnew : ∀ r, is_Some (ai_reqs a !! r) → r ≠ next_req a).
  { intros r [q Hq] ->. rewrite Hf in Hq by lia. done. }
  split; cbn.
  - intros r Hr. rewrite lookup_insert_ne by lia. apply Hf. lia.
  - apply Forall_app. split; [|constructor; [by rewrite lookup_insert_eq|done]].
    eapply Forall_impl; [exact Hp|]. intros r Hr. simpl.
    rewrite lookup_insert_ne; [done|]. intros Heq. by destruct (Hnew r Hr).
  - apply NoDup_app. split_ands; [done| |apply NoDup_singleton].
    intros r Hr ->%list_elem_of_singleton. rewrite Forall_forall in Hp.
    by destruct (Hnew _ (Hp _ Hr)).
  - intros f r Hr. destruct (Ha f r Hr) as (H0 & Hs & Hni). split_ands; [done| |].
    + rewrite lookup_insert_ne; [done|]. intros Heq. by destruct (Hnew r Hs).
    + rewrite elem_of_app, list_elem_of_singleton. intros [?| ->]; [done|].
      by destruct (Hnew _ Hs).
  - done.
  - rewrite length_app. simpl. lia.
Qed.

Lemma drop_active_ok (a : StreamingAIManager) (m : gmap Z req_id) :
  ai_ok a → m ⊆ active_streams_ a →
  ai_ok (set_queues (ai_reqs a) (next_req a) (pending_requests_ a) m a).
Proof.
  intros [Hf Hp Hn Ha Hb Hl] Hm. split; cbn; try done.
  - intros fd r Hr. apply (Ha fd). by eapply lookup_weaken.
  - pose proof (map_subseteq_size _ _ Hm). lia.
Qed.

Lemma cancel_ok (u : Z) (a : StreamingAIManager) : ai_ok a → ai_ok (cancel_request u a).
Proof. intros Hok. apply drop_active_ok; [done|]. apply map_filter_subseteq. Qed.

Lemma finish_ok (fd : Z) (a : StreamingAIManager) : ai_ok a → ai_ok (finish_stream fd a).
Proof.
  intros Hok. unfold finish_stream. case_if; [|done].
  apply drop_active_ok; [done|]. apply delete_subseteq.
Qed.

Lemma pick_ok (a : StreamingAIManager) : ai_ok a → ai_ok (pick_client a).2.
Proof. intros []. unfold pick_client. case_match; by split. Qed.

Lemma in_use_ok (l : list nat) (a : StreamingAIManager) : ai_ok a → ai_ok (set_in_use l a).
Proof. intros []. by split. Qed.

Lemma seq_ok (r : req_id) (a : StreamingAIManager) : ai_ok a → ai_ok (next_seq r a).
Proof.
  intros [Hf Hp Hn Ha Hb Hl]. split; cbn; try done.
  - intros q Hq. rewrite lookup_alter_None. by apply Hf.
  - eapply Forall_impl; [exact Hp|]. simpl. intros q Hq. by rewrite lookup_alter_is_Some.
  - intros fd q (H0 & Hs & Hni)%Ha. split_ands; [done| |done]. by rewrite lookup_alter_is_Some.
Qed.

Lemma schedule_ok (now : Z) (fd_of : ctx_id → Z) (a : StreamingAIManager) :
  ai_ok a → ai_ok (schedule_round now fd_of a).2.
Proof.
  intros Hok. pose proof Hok as [Hf Hp Hn Ha Hb Hl]. unfold schedule_round.
  destruct (pending_requests_ a) as [|r rest] eqn:E; [done|]. case_if; [|done].
  destruct (ai_reqs a !! r) as [q|] eqn:Eq; [|done].
  apply Forall_cons in Hp as [Hr Hp]. apply NoDup_cons in Hn as [Hnr Hn]. cbn [length] in Hl.
  assert (Hrest : ai_ok (set_queues (ai_reqs a) (next_req a) rest (active_streams_ a) a)).
  { split; cbn; [done..| |done|lia]. intros f x (H0 & Hs & Hni)%Ha.
    split_ands; [done..|]. intros Hin. apply Hni. by apply elem_of_cons; right. }
  case_if; [done|]. case_if; [done|]. zbool. destruct Hrest as [_ _ _ Ha' _ _].
  cbn [active_streams_ set_queues] in Ha'.
  split; cbn; [done|done|done| | |lia].
  - apply map_Forall_insert_2; [|done]. split_ands; [done|eauto|done].
  - destruct (active_streams_ a !! fd_of (sr_ctx q)) as [x|] eqn:Ex.
    + rewrite map_size_insert_Some by eauto. lia.
    + rewrite map_size_insert_None by done. lia.
Qed.

Lemma ai_step_ok (a a' : StreamingAIManager) : ai_ok a → ai_step a a' → ai_ok a'.
Proof.
  intros Hok Hs.
  destruct Hs; unfold hold_handle, release_handle;
    auto using submit_ok, cancel_ok, schedule_ok, seq_ok, finish_ok, pick_ok, in_use_ok.
Qed.

Lemma ai_step_max (a a' : StreamingAIManager) :
  ai_step a a' → max_concurrent_ a' = max_concurrent_ a.
Proof.
  intros Hs. destruct Hs; unfold submit_stream_request, schedule_round, finish_stream, pick_client;
    repeat case_match; done.
Qed.

Lemma ai_reach_ok (n : nat) (a : StreamingAIManager) :
  rtc ai_step (new_ai n) a → ai_ok a ∧ max_concurrent_ a = Z.of_nat n.
Proof.
  intros Hr.
  assert (H0 : ai_ok (new_ai n) ∧ max_concurrent_ (new_ai n) = Z.of_nat n)
    by (split; [apply new_ai_ok|done]).
  revert H0. induction Hr as [|x y z Hs _ IH]; [done|]. intros [Hok Hm]. apply IH.
  split; [by eapply ai_step_ok|]. by rewrite (ai_step_max x y Hs).
Qed.

(** ** Requests that have left the queue *)

(** [q] is the record of the request [r], which has been taken from the queue. *)
Definition settled (a : StreamingAIManager) (r : req_id) (q : StreamRequest) : Prop :=
  ai_reqs a !! r = Some q ∧ r < next_req a ∧ r ∉ pending_requests_ a.

(** Nothing changes for such requests, except perhaps for those in [X]. *)
Definition calm (X : req_id → Prop) (a a' : StreamingAIManager) : Prop :=
  ai_clients_ a' = ai_clients_ a ∧ ∀ r q, ¬ X r → settled a r q → settled a' r q.

#[export] Instance calm_preorder X : PreOrder (calm X).
Proof.
  split; [by intros a|]. intros a b c [H1 H2] [H3 H4]. split; [congruence|]. eauto.
Qed.

Section Calm.
Context (X : req_id → Prop).

Lemma calm_submit o fd u p c now a : calm X a (submit_stream_request o fd u p c now a).2.
Proof.
  unfold submit_stream_request. repeat (case_if; [done|]). split; [done|]. intros r q _ (Hr & Hl & Hp).
  unfold settled; cbn; split_ands; [by rewrite lookup_insert_ne by lia|lia|].
  rewrite elem_of_app, list_elem_of_singleton. intros [?| ->]; [done|lia].
Qed.
Lemma calm_cancel u a : calm X a (cancel_request u a).
Proof. done. Qed.
Lemma calm_finish fd a : calm X a (finish_stream fd a).
Proof. unfold finish_stream. by case_if. Qed.
Lemma calm_pick a : calm X a (pick_client a).2.
Proof. unfold pick_client. by case_match. Qed.
Lemma calm_in_use l a : calm X a (set_in_use l a).
Proof. done. Qed.
Lemma calm_seq r a : X r → calm X a (next_seq r a).
Proof.
  intros Hr. split; [done|]. intros r' q HX (Hq & Hl & Hp). unfold settled; cbn; split_ands; [|done..].
  rewrite lookup_alter_ne; [done|]. by intros ->.
Qed.
Lemma calm_schedule now fd_of a : calm X a (schedule_round now fd_of a).2.
Proof.
  unfold schedule_round. destruct (pending_requests_ a) as [|r rest] eqn:E; [done|]. case_if; [|done].
  destruct (ai_reqs a !! r) as [q|]; [|done].
  assert (Hrest : ∀ m, calm X a (set_queues (ai_reqs a) (next_req a) rest m a)).
  { intros m. split; [done|]. intros r' q' _ (Hq & Hl & Hp). unfold settled; cbn; split_ands; [done..|]. rewrite E in Hp.
    intros Hin. apply Hp. by apply elem_of_cons; right. }
  case_if; [apply Hrest|]. case_if; apply Hrest.
Qed.
End Calm.

(** ** The handles *)

Lemma remove_one_perm (k : nat) (l l' : list nat) : l ≡ₚ k :: l' → remove_one k l ≡ₚ l'.
Proof.
  revert l'. induction l as [|x l IH]; intros l' Hp; cbn.
  - by apply Permutation_nil_cons in Hp.
  - destruct (k =? x)%nat eqn:E; zbool.
    + subst x. by apply Permutation_cons_inv in Hp.
    + assert (Hx : x ∈ l') by (assert (Hin : x ∈ k :: l') by (rewrite <- Hp; by left); set_solver).
      apply list_elem_of_split in Hx as (l1 & l2 & ->). rewrite <- Permutation_middle.
      apply Permutation_skip, IH. apply (Permutation_cons_inv (a := x)). rewrite Hp. rewrite <- Permutation_middle.
      by rewrite Permutation_swap.
Qed.

(** The handles and the counter that assigns them are left alone. *)
Definition same_handles (a a' : StreamingAIManager) : Prop :=
  ai_clients_ a' = ai_clients_ a ∧ rr_counter a' = rr_counter a ∧ ai_in_use a' = ai_in_use a.
#[export] Instance same_handles_preorder : PreOrder same_handles.
Proof. split; [by intros a|]. intros a b c (? & ? & ?) (? & ? & ?). unfold same_handles. split_ands; congruence. Qed.

(** What every thread but a stream at its start does to the manager: relations
    that contain it. *)
Class Routine (K : StreamingAIManager → StreamingAIManager → Prop) : Prop := {
  rt_preorder :: PreOrder K;
  rt_submit o fd u p c now a : K a (submit_stream_request o fd u p c now a).2;
  rt_cancel u a : K a (cancel_request u a);
  rt_finish fd a : K a (finish_stream fd a);
  rt_schedule now fd_of a : K a (schedule_round now fd_of a).2
}.
#[export] Instance calm_routine X : Routine (calm X).
Proof.
  split; [apply _|intros; apply calm_submit|intros; apply calm_cancel|intros; apply calm_finish|intros; apply calm_schedule].
Qed.
#[export] Instance same_handles_routine : Routine same_handles.
Proof.
  split; [apply _|..]; intros; unfold submit_stream_request, cancel_request, finish_stream, schedule_round;
    repeat case_match; done.
Qed.

(** A request that the scheduler reports as expired was waiting. *)
Lemma expired_waits now fd_of a r : (schedule_round now fd_of a).1 = Expired r → r ∈ pending_requests_ a.
Proof.
  unfold schedule_round. destruct (pending_requests_ a) as [|r' rest]; [done|]. case_if; [|done].
  destruct (ai_reqs a !! r'); [|done]. case_if; [|by case_if]. intros [= ->]. by left.
Qed.

#[export] Hint Resolve submit_ok cancel_ok schedule_ok finish_ok : aura.

(** ** Properties *)

(** C31. Load limits hold under every interleaving: the table of active streams
    never exceeds [max_concurrent], the queue never exceeds 1001 requests, no
    request is queued twice or queued while it is active, and every key in
    the tables names a live request. *)
Theorem ai_limits (n : nat) (a : StreamingAIManager) :
  rtc ai_step (new_ai n) a →
  (size (active_streams_ a) ≤ n) ∧ (length (pending_requests_ a) ≤ 1001) ∧
  NoDup (pending_requests_ a) ∧
  (∀ fd r, active_streams_ a !! fd = Some r →
     (0 ≤ fd)%Z ∧ is_Some (ai_reqs a !! r) ∧ r ∉ pending_requests_ a).
Proof.
  intros [Hok Hmax]%ai_reach_ok.
  destruct Hok as [_ _ Hn Ha Hb Hl]. rewrite Hmax in Hb.
  split_ands; [lia|lia|done|exact Ha].
Qed.

Definition ai_one : StreamingAIManager :=
  (schedule_round 0 (λ _, 7%Z)
     (submit_stream_request true 7 1000 (str "hi") 0 0 (new_ai 2)).2).2.

Lemma ai_limits_witness :
  size (active_streams_ ai_one) ≤ 2 ∧ active_streams_ ai_one !! 7%Z = Some 0.
Proof.
  split; [|reflexivity]. apply (ai_limits 2 ai_one).
  eapply rtc_l; [apply (as_submit true 7 1000 (str "hi") 0 0)|].
  apply rtc_once, as_schedule.
Defined.

(** First come, first served: a round of the scheduler looks only at the
    oldest request, and only when a slot is free; it starts it (making it the
    active stream of its descriptor), reports it as expired after 30 s, or
    drops it when its connection is gone, and in each case removes exactly
    that request from the queue. *)
Theorem schedule_head (now : Z) (fd_of : ctx_id → Z) (a : StreamingAIManager)
    (r : req_id) (rest : list req_id) (q : StreamRequest) :
  pending_requests_ a = r :: rest → ai_reqs a !! r = Some q →
  (Z.of_nat (size (active_streams_ a)) < max_concurrent_ a)%Z →
  let '(res, a') := schedule_round now fd_of a in
  pending_requests_ a' = rest ∧
  match res with
  | Start r' => r' = r ∧ (0 ≤ fd_of (sr_ctx q))%Z ∧
      active_streams_ a' = <[fd_of (sr_ctx q) := r]> (active_streams_ a) ∧
      (now - sr_timestamp q < 31 * NANOS)%Z
  | Expired r' => r' = r ∧ active_streams_ a' = active_streams_ a ∧
      (31 * NANOS ≤ now - sr_timestamp q)%Z
  | Gone r' => r' = r ∧ active_streams_ a' = active_streams_ a ∧ (fd_of (sr_ctx q) < 0)%Z
  | Idle => False
  end.
Proof.
  intros Hp Hq Hlt. unfold schedule_round. rewrite Hp, Hq, (proj2 (Z.ltb_lt _ _)) by done.
  assert (Hage : ∀ z, (30 < Z.quot z NANOS)%Z ↔ (31 * NANOS ≤ z)%Z).
  { intros z. unfold NANOS. pose proof (Z.quot_rem z 1000000000 ltac:(lia)).
    destruct (Z.le_gt_cases 0 z).
    - pose proof (Z.rem_bound_pos z 1000000000 ltac:(lia) ltac:(lia)). lia.
    - pose proof (Z.quot_le_mono z 0 1000000000 ltac:(lia) ltac:(lia)) as Hle.
      rewrite Z.quot_0_l in Hle by lia. lia. }
  case_if; zbool.
  - apply Hage in E. done.
  - case_if; zbool; [done|]. split_ands; try done.
    apply Z.lt_nge. intros Hge%Hage. lia.
Qed.

Lemma schedule_head_witness :
  let a := (submit_stream_request true 7 1000 (str "hi") 0 0 (new_ai 2)).2 in
  (schedule_round 0 (λ _, 7%Z) a).1 = Start 0 ∧ pending_requests_ ai_one = [].
Proof.
  split; [reflexivity|].
  apply (schedule_head 0 (λ _, 7%Z)
    (submit_stream_request true 7 1000 (str "hi") 0 0 (new_ai 2)).2 0 []
    (mkStreamReq 1000 (str "hi") 0 0 0)); reflexivity.
Defined.
