(* ===== verification/Persist.v ===== *)
(** * Loading the JSON files (src/db_writer.cpp, [load_file_data])

    What the server reads back when it starts in file mode, and that it is
    what the tables held when it stopped. *)

From S2P Require Import Prelude Bytes Json RefCodec FileStore.

Local Open Scope Z_scope.

(** ** Loading *)

Section Load.
Context `{JsonText}.

(** [load_json]: a missing or unreadable file is an empty object. *)
Definition load_json (k : disk) (path : bytes) : json :=
  match files k !! path with
  | Some s => default (JObj []) (json_parse s)
  | None => JObj []
  end.

(** [if (j.contains(key)) for (auto& x : j[key]) table.push_back(conv(x));] *)
Definition load_table {A} (key : bytes) (conv : json → option A) (j : json) : option (list A) :=
  if jcontains key j then arr ← jat key j; mapM conv (jitems arr) else Some [].

Definition load_user (u : json) : option FileUser :=
  uid ← jat (str "uid") u ≫= jget_int;
  name ← jat (str "username") u ≫= jget_str;
  h ← jat (str "password_hash") u ≫= jget_str;
  Some (mkUser uid name h).
Definition load_pair (p : json) : option (Z * Z) :=
  a ← jidx 0 p ≫= jget_int;
  b ← jidx 1 p ≫= jget_int;
  Some (a, b).
Definition load_req (r : json) : option FileFriendRequest :=
  i ← jat (str "id") r ≫= jget_int;
  f ← jat (str "from_uid") r ≫= jget_int;
  t ← jat (str "to_uid") r ≫= jget_int;
  m ← jvalue jget_str (str "message") [] r;
  s ← jvalue jget_int (str "status") 0 r;
  Some (mkReq i f t m s).
Definition load_msg (m : json) : option FileMessage :=
  i ← jat (str "id") m ≫= jget_int;
  f ← jat (str "from_uid") m ≫= jget_int;
  t ← jat (str "to_uid") m ≫= jget_int;
  c ← jat (str "content") m ≫= jget_str;
  b ← jvalue jget_bool (str "delivered") true m;
  Some (mkMsg i f t c b).

(** [load_file_data].  [None]: an exception leaves the constructor. *)
Definition load_file_data (k : disk) : option FileDB :=
  let j_users := load_json k users_path in
  next_uid ← jvalue jget_int (str "next_uid") 1000 j_users;
  us ← load_table (str "users") load_user j_users;
  ps ← load_table (str "pairs") load_pair (load_json k friends_path);
  let j_reqs := load_json k reqs_path in
  next_req ← jvalue jget_int (str "next_id") 1 j_reqs;
  rs ← load_table (str "requests") load_req j_reqs;
  let j_msgs := load_json k messages_path in
  next_msg ← jvalue jget_int (str "next_id") 1 j_msgs;
  ms ← load_table (str "messages") load_msg j_msgs;
  Some (mkFileDB us ps rs ms next_uid next_req next_msg k).
End Load.

(** ** The values in the files *)

(** The four values with their keys in the order of the library. *)
Lemma user_json_eq (u : FileUser) :
  user_json u = JObj [(str "password_hash", JStr (fu_password_hash u)); (str "uid", JInt (fu_uid u));
                      (str "username", JStr (fu_username u))].
Proof. reflexivity. Qed.
Lemma req_json_eq (r : FileFriendRequest) :
  req_json r = JObj [(str "from_uid", JInt (fr_from r)); (str "id", JInt (fr_id r));
                     (str "message", JStr (fr_message r)); (str "status", JInt (fr_status r));
                     (str "to_uid", JInt (fr_to r))].
Proof. reflexivity. Qed.
Lemma msg_json_eq (m : FileMessage) :
  msg_json m = JObj [(str "content", JStr (fm_content m)); (str "delivered", JBool (fm_delivered m));
                     (str "from_uid", JInt (fm_from m)); (str "id", JInt (fm_id m));
                     (str "to_uid", JInt (fm_to m))].
Proof. reflexivity. Qed.
Lemma messages_json_eq (d : FileDB) :
  messages_json d = JObj [(str "messages", JArr (map msg_json (file_messages_ d)));
                          (str "next_id", JInt (file_next_msg_id_ d))].
Proof. reflexivity. Qed.

(** What [dump] requires of the messages file: every content is UTF-8. *)
Lemma messages_json_utf8 (d : FileDB) :
  json_utf8 (messages_json d) = forallb (λ m, utf8_valid (fm_content m)) (file_messages_ d).
Proof.
  transitivity (forallb json_utf8 (map msg_json (file_messages_ d)) && true); [reflexivity|].
  rewrite andb_true_r. induction (file_messages_ d) as [|m ms IH]; [done|]. cbn [map forallb].
  rewrite IH. f_equal. change (json_utf8 (msg_json m)) with (utf8_valid (fm_content m) && true).
  apply andb_true_r.
Qed.

(** ** The files follow the tables *)

(** Every integer of the tables fits its [int]. *)
Record ids_fit (d : FileDB) : Prop := {
  fit_next_uid : is_i32 (file_next_uid_ d);
  fit_next_req : is_i32 (file_next_req_id_ d);
  fit_next_msg : is_i32 (file_next_msg_id_ d);
  fit_users : Forall (λ u, is_i32 (fu_uid u)) (file_users_ d);
  fit_pairs : Forall (λ p, is_i32 p.1 ∧ is_i32 p.2) (file_friends_ d);
  fit_reqs : Forall (λ r, is_i32 (fr_id r) ∧ is_i32 (fr_from r) ∧ is_i32 (fr_to r) ∧
                          is_i32 (fr_status r)) (file_friend_reqs_ d);
  fit_msgs : Forall (λ m, is_i32 (fm_id m) ∧ is_i32 (fm_from m) ∧ is_i32 (fm_to m)) (file_messages_ d)
}.

Section Sync.
Context `{JsonText}.
Variable hasher : bytes → Z.
Implicit Types (d : FileDB) (k : disk).

(** A file holds a value, or is missing while the value is the default. *)
Definition file_is k (path : bytes) (j j0 : json) : Prop :=
  match files k !! path with
  | Some s => json_dump j = Some s
  | None => j = j0
  end.

Record synced d : Prop := {
  sync_users : file_is (data_dir d) users_path (users_json d) (users_json empty_db);
  sync_friends : file_is (data_dir d) friends_path (friends_json d) (friends_json empty_db);
  sync_reqs : file_is (data_dir d) reqs_path (reqs_json d) (reqs_json empty_db);
  sync_msgs : file_is (data_dir d) messages_path (messages_json d) (messages_json empty_db);
  sync_writable : writable (data_dir d) = true;
  sync_from : Forall (λ r, 0 ≤ fr_from r) (file_friend_reqs_ d)
}.

Lemma empty_synced : synced empty_db.
Proof. split; done. Qed.

Lemma write_json_disk (path : bytes) (j : json) d d' (r : unit) :
  write_json path j d = Ret r d' → writable (data_dir d) = true →
  ∃ s, json_dump j = Some s ∧ d' = set_disk (mkDisk (<[path := s]> (files (data_dir d))) true) d.
Proof.
  unfold write_json. intros Hw Ew. rewrite Ew in Hw. destruct (json_dump j) as [s|]; [|done].
  injection Hw as _ <-. by exists s.
Qed.

Lemma file_is_insert k path j j0 s :
  json_dump j = Some s → file_is (mkDisk (<[path := s]> (files k)) true) path j j0.
Proof. intros Hs. unfold file_is. cbn. by rewrite lookup_insert_eq. Qed.
Lemma file_is_other k path path' j j0 s :
  path ≠ path' → file_is k path j j0 → file_is (mkDisk (<[path' := s]> (files k)) true) path j j0.
Proof. intros Hne. unfold file_is. cbn. by rewrite lookup_insert_ne. Qed.

(** Saving one table brings its file up to date and leaves the others. *)
Lemma save_synced (path : bytes) (j : json) d d' (r : unit) :
  write_json path j d = Ret r d' → writable (data_dir d) = true →
  ∃ k', d' = set_disk k' d ∧ writable k' = true ∧
    (∀ j0, file_is k' path j j0) ∧
    (∀ p j' j0, p ≠ path → file_is (data_dir d) p j' j0 → file_is k' p j' j0).
Proof.
  intros W Hw. destruct (write_json_disk _ _ _ _ _ W Hw) as (s & Hs & ->).
  eexists. split_ands; [done|done| |].
  - intros j0. by apply file_is_insert.
  - intros p j' j0 Hne. by apply file_is_other.
Qed.

(** The four files have different names. *)
Ltac sync_tac Hs Ho :=
  split; try exact (Hs _); try (apply Ho; [discriminate|]); try done.

Lemma register_synced u p r d d' :
  synced d → register_user hasher u p d = Ret r d' → synced d'.
Proof.
  intros [? ? ? ? Hw ?]. unfold register_user, save_users_file. mred.
  destruct (existsb _ _); [by intros [= _ <-]|].
  destruct (write_json _ _ _) as [[] d1| |] eqn:W; [|done..]. intros [= _ <-].
  destruct (save_synced _ _ _ _ _ W Hw) as (k' & -> & ? & Hs & Ho). sync_tac Hs Ho.
Qed.

Lemma add_synced a b m r d d' :
  0 ≤ a → synced d → add_friend_request a b m d = Ret r d' → synced d'.
Proof.
  intros Ha [? ? ? ? Hw ?]. unfold add_friend_request, save_friend_reqs_file. mred.
  destruct (existsb _ _); [by intros [= _ <-]|]. destruct (existsb _ _); [by intros [= _ <-]|].
  destruct (write_json _ _ _) as [[] d1| |] eqn:W; [|done..]. intros [= _ <-].
  destruct (save_synced _ _ _ _ _ W Hw) as (k' & -> & ? & Hs & Ho). sync_tac Hs Ho.
  cbn. apply Forall_app. by rewrite Forall_singleton.
Qed.

Lemma mark_synced u n r d d' : synced d → mark_delivered u n d = Ret r d' → synced d'.
Proof.
  intros [? ? ? ? Hw ?]. unfold mark_delivered, save_messages_file. mred.
  destruct (write_json _ _ _) as [[] d1| |] eqn:W; [|done..]. intros [= _ <-].
  destruct (save_synced _ _ _ _ _ W Hw) as (k' & -> & ? & Hs & Ho). sync_tac Hs Ho.
Qed.

Lemma batch_synced ms r d d' : synced d → store_batch ms d = Ret r d' → synced d'.
Proof.
  intros [? ? ? ? Hw ?]. unfold store_batch, save_messages_file. mred.
  destruct (write_json _ _ _) as [[] d1| |] eqn:W; [|done..]. intros [= _ <-].
  destruct (save_synced _ _ _ _ _ W Hw) as (k' & -> & ? & Hs & Ho). sync_tac Hs Ho.
Qed.

Lemma accept_synced i b r d d' : synced d → accept_friend_request i b d = Ret r d' → synced d'.
Proof.
  intros Hd. pose proof Hd as [? ? ? ? Hw Hf]. unfold accept_friend_request. mred.
  pose proof (accept_loop_spec i b (file_friend_reqs_ d)) as Hl.
  destruct (accept_loop i b (file_friend_reqs_ d)) as [f rs].
  assert (Hrs : f < 0 ∧ rs = file_friend_reqs_ d ∨ 0 ≤ f ∧ Forall (λ r, 0 ≤ fr_from r) rs).
  { destruct Hl as [(-> & -> & _)|(pre & m & post & Hd' & ->)]; [by left|right].
    rewrite Hd', Forall_app, Forall_cons in Hf. rewrite Forall_app, Forall_cons. simpl in *. tauto. }
  destruct (f <? 0) eqn:Ef; zbool.
  - intros [= _ <-]. destruct Hrs as [[_ ->]|[? _]]; [|lia]. by destruct d.
  - destruct Hrs as [[? _]|[_ Hrs]]; [lia|]. unfold save_friend_reqs_file, save_friends_file. mred.
    destruct (write_json _ _ _) as [[] d1| |] eqn:W; [|done..].
    destruct (save_synced _ _ _ _ _ W Hw) as (k1 & -> & Hw1 & Hs1 & Ho1).
    destruct (write_json friends_path _ _) as [[] d2| |] eqn:W2; [|done..]. intros [= _ <-].
    destruct (save_synced _ _ _ _ _ W2 Hw1) as (k2 & -> & ? & Hs & Ho). sync_tac Hs Ho.
    all: first [exact (Hs1 _)|apply Ho1; [discriminate|done]].
Qed.

Lemma file_step_synced d d' : synced d → file_step hasher d d' → synced d'.
Proof.
  intros Hd Hs.
  destruct Hs; eauto using register_synced, add_synced, accept_synced, mark_synced, batch_synced.
Qed.

(** ** A directory that cannot be written *)

(** No call that returns changes a file. *)
Lemma file_step_unwritable d d' :
  writable (data_dir d) = false → file_step hasher d d' → data_dir d' = data_dir d.
Proof.
  assert (Hsame : ∀ path j d1 d2 (r : unit),
    writable (data_dir d1) = false → write_json path j d1 = Ret r d2 → d2 = d1).
  { intros path j d1 d2 r Hw. unfold write_json. rewrite Hw. by intros [= _ <-]. }
  intros Hw Hs. destruct Hs as [u p r d d' E|a b m r d d' _ E|i b r d d' E|u n r d d' E|ms r d d' E]; revert E;
    unfold register_user, add_friend_request, accept_friend_request, mark_delivered, store_batch,
      save_users_file, save_friends_file, save_friend_reqs_file, save_messages_file; mred;
    repeat match goal with
    | |- context [let '(_, _) := ?a in _] => destruct a
    | |- context [if ?b then _ else _] => destruct b
    | |- context [write_json ?a ?b ?c] =>
        let W := fresh in destruct (write_json a b c) as [[] ?| |] eqn:W; [apply Hsame in W as ->; [|done]|done..]
    end; by intros [= _ <-].
Qed.
End Sync.

(** ** Reading back *)

Lemma i32_wf (z : Z) : is_i32 z → json_wf (JInt z) = true.
Proof. unfold is_i32. cbn. intros. apply andb_true_iff. rewrite Z.leb_le, Z.ltb_lt. lia. Qed.

Lemma load_map {A} (enc : A → json) (dec : json → option A) (P : A → Prop) (l : list A) :
  (∀ x, P x → dec (enc x) = Some x) → Forall P l → mapM dec (map enc l) = Some l.
Proof. intros Hd. induction 1 as [|x l Hx Hl IH]; cbn; [done|]. by rewrite Hd, IH. Qed.
Lemma wf_map {A} (enc : A → json) (P : A → Prop) (l : list A) :
  (∀ x, P x → json_wf (enc x) = true) → Forall P l → forallb json_wf (map enc l) = true.
Proof. intros Hd. induction 1 as [|x l Hx Hl IH]; cbn; [done|]. by rewrite Hd, IH. Qed.

Lemma load_user_json (u : FileUser) : is_i32 (fu_uid u) → load_user (user_json u) = Some u.
Proof.
  intros Hi. transitivity (Some (mkUser (wrap_i32 (fu_uid u)) (fu_username u) (fu_password_hash u)));
    [reflexivity|]. rewrite wrap_i32_id by done. by destruct u.
Qed.
Lemma load_pair_json (p : Z * Z) : is_i32 p.1 ∧ is_i32 p.2 → load_pair (pair_json p) = Some p.
Proof.
  intros [H1 H2]. cbn. rewrite !wrap_i32_id by done. by destruct p.
Qed.
Lemma load_req_json (r : FileFriendRequest) :
  is_i32 (fr_id r) ∧ is_i32 (fr_from r) ∧ is_i32 (fr_to r) ∧ is_i32 (fr_status r) →
  load_req (req_json r) = Some r.
Proof.
  intros (H1 & H2 & H3 & H4).
  transitivity (Some (mkReq (wrap_i32 (fr_id r)) (wrap_i32 (fr_from r)) (wrap_i32 (fr_to r))
                            (fr_message r) (wrap_i32 (fr_status r)))); [reflexivity|].
  rewrite !wrap_i32_id by done. by destruct r.
Qed.
Lemma load_msg_json (m : FileMessage) :
  is_i32 (fm_id m) ∧ is_i32 (fm_from m) ∧ is_i32 (fm_to m) → load_msg (msg_json m) = Some m.
Proof.
  intros (H1 & H2 & H3).
  transitivity (Some (mkMsg (wrap_i32 (fm_id m)) (wrap_i32 (fm_from m)) (wrap_i32 (fm_to m))
                            (fm_content m) (fm_delivered m))); [reflexivity|].
  rewrite !wrap_i32_id by done. by destruct m.
Qed.

Lemma user_json_wf (u : FileUser) : is_i32 (fu_uid u) → json_wf (user_json u) = true.
Proof.
  intros Hi. rewrite user_json_eq.
  change (json_wf _) with (json_wf (JInt (fu_uid u)) && true). by rewrite i32_wf.
Qed.
Lemma pair_json_wf (p : Z * Z) : is_i32 p.1 ∧ is_i32 p.2 → json_wf (pair_json p) = true.
Proof.
  intros [H1 H2].
  change (json_wf _) with (json_wf (JInt p.1) && (json_wf (JInt p.2) && true)). by rewrite !i32_wf.
Qed.
Lemma req_json_wf (r : FileFriendRequest) :
  is_i32 (fr_id r) ∧ is_i32 (fr_from r) ∧ is_i32 (fr_to r) ∧ is_i32 (fr_status r) →
  json_wf (req_json r) = true.
Proof.
  intros (H1 & H2 & H3 & H4).
  change (json_wf _) with (json_wf (JInt (fr_from r)) && (json_wf (JInt (fr_id r)) &&
    (json_wf (JInt (fr_status r)) && (json_wf (JInt (fr_to r)) && true)))). by rewrite !i32_wf.
Qed.
Lemma msg_json_wf (m : FileMessage) :
  is_i32 (fm_id m) ∧ is_i32 (fm_from m) ∧ is_i32 (fm_to m) → json_wf (msg_json m) = true.
Proof.
  intros (H1 & H2 & H3).
  change (json_wf _) with (json_wf (JInt (fm_from m)) && (json_wf (JInt (fm_id m)) &&
    (json_wf (JInt (fm_to m)) && true))). by rewrite !i32_wf.
Qed.

Section Reload.
Context `{JsonTextLaws}.

(** A file that is up to date reads as the value, or as the empty object when
    the value is still the default one. *)
Lemma load_json_synced (k : disk) (path : bytes) (j j0 : json) :
  file_is k path j j0 → json_wf j = true →
  load_json k path = j ∨ (load_json k path = JObj [] ∧ j = j0).
Proof.
  unfold file_is, load_json. destruct (files k !! path) as [s|].
  - intros Hs Hwf. left. by rewrite (parse_dump j s).
  - by right.
Qed.

Lemma load_json_other (k : disk) (path p : bytes) (s : bytes) (b : bool) :
  p ≠ path → load_json (mkDisk (<[path := s]> (files k)) b) p = load_json k p.
Proof. intros Hne. unfold load_json. cbn. by rewrite lookup_insert_ne. Qed.
Lemma load_json_truncated (k : disk) (path : bytes) (b : bool) :
  load_json (mkDisk (<[path := []]> (files k)) b) path = JObj [].
Proof. unfold load_json. cbn. by rewrite lookup_insert_eq, parse_empty. Qed.

Lemma load_users_synced (d : FileDB) :
  synced d → ids_fit d →
  jvalue jget_int (str "next_uid") 1000 (load_json (data_dir d) users_path) = Some (file_next_uid_ d) ∧
  load_table (str "users") load_user (load_json (data_dir d) users_path) = Some (file_users_ d).
Proof.
  intros Hs Hf. destruct (load_json_synced _ _ _ _ (sync_users d Hs)) as [->|[-> E]].
  - change (json_wf _) with ((json_wf (JInt (file_next_uid_ d)) &&
      (forallb json_wf (map user_json (file_users_ d)) && true))).
    rewrite i32_wf by apply Hf. rewrite (wf_map _ _ _ user_json_wf (fit_users d Hf)). done.
  - split.
    + transitivity (Some (wrap_i32 (file_next_uid_ d))); [reflexivity|].
      f_equal. apply wrap_i32_id, Hf.
    + transitivity (mapM load_user (map user_json (file_users_ d))); [reflexivity|].
      exact (load_map _ _ _ _ load_user_json (fit_users d Hf)).
  - injection E as E1 E2.
    destruct (file_users_ d); [|discriminate E2]. by rewrite E1.
Qed.

Lemma load_friends_synced (d : FileDB) :
  synced d → ids_fit d →
  load_table (str "pairs") load_pair (load_json (data_dir d) friends_path) = Some (file_friends_ d).
Proof.
  intros Hs Hf. destruct (load_json_synced _ _ _ _ (sync_friends d Hs)) as [->|[-> E]].
  - change (json_wf _) with (forallb json_wf (map pair_json (file_friends_ d)) && true).
    by rewrite (wf_map _ _ _ pair_json_wf (fit_pairs d Hf)).
  - transitivity (mapM load_pair (map pair_json (file_friends_ d))); [reflexivity|].
    exact (load_map _ _ _ _ load_pair_json (fit_pairs d Hf)).
  - injection E as E. by destruct (file_friends_ d).
Qed.

Lemma load_reqs_synced (d : FileDB) :
  synced d → ids_fit d →
  jvalue jget_int (str "next_id") 1 (load_json (data_dir d) reqs_path) = Some (file_next_req_id_ d) ∧
  load_table (str "requests") load_req (load_json (data_dir d) reqs_path) = Some (file_friend_reqs_ d).
Proof.
  intros Hs Hf. destruct (load_json_synced _ _ _ _ (sync_reqs d Hs)) as [->|[-> E]].
  - change (json_wf _) with (json_wf (JInt (file_next_req_id_ d)) &&
      (forallb json_wf (map req_json (file_friend_reqs_ d)) && true)).
    by rewrite i32_wf, (wf_map _ _ _ req_json_wf (fit_reqs d Hf)) by apply Hf.
  - split.
    + transitivity (Some (wrap_i32 (file_next_req_id_ d))); [reflexivity|].
      f_equal. apply wrap_i32_id, Hf.
    + transitivity (mapM load_req (map req_json (file_friend_reqs_ d))); [reflexivity|].
      exact (load_map _ _ _ _ load_req_json (fit_reqs d Hf)).
  - injection E as E1 E2. destruct (file_friend_reqs_ d); [|discriminate E2]. by rewrite E1.
Qed.

Lemma load_msgs_synced (d : FileDB) :
  synced d → ids_fit d →
  jvalue jget_int (str "next_id") 1 (load_json (data_dir d) messages_path) = Some (file_next_msg_id_ d) ∧
  load_table (str "messages") load_msg (load_json (data_dir d) messages_path) = Some (file_messages_ d).
Proof.
  intros Hs Hf. destruct (load_json_synced _ _ _ _ (sync_msgs d Hs)) as [->|[-> E]].
  - change (json_wf _) with (forallb json_wf (map msg_json (file_messages_ d)) &&
      (json_wf (JInt (file_next_msg_id_ d)) && true)).
    by rewrite i32_wf, (wf_map _ _ _ msg_json_wf (fit_msgs d Hf)) by apply Hf.
  - split.
    + transitivity (Some (wrap_i32 (file_next_msg_id_ d))); [reflexivity|].
      f_equal. apply wrap_i32_id, Hf.
    + transitivity (mapM load_msg (map msg_json (file_messages_ d))); [reflexivity|].
      exact (load_map _ _ _ _ load_msg_json (fit_msgs d Hf)).
  - injection E as E1 E2. destruct (file_messages_ d); [|discriminate E1]. by rewrite E2.
Qed.

Lemma load_synced (d : FileDB) :
  synced d → ids_fit d → load_file_data (data_dir d) = Some d.
Proof.
  intros Hs Hf.
  destruct (load_users_synced d Hs Hf) as [H1 H2], (load_reqs_synced d Hs Hf) as [H3 H4],
    (load_msgs_synced d Hs Hf) as [H5 H6]. pose proof (load_friends_synced d Hs Hf) as H7.
  unfold load_file_data. rewrite H1. cbn. rewrite H2. cbn. rewrite H7. cbn.
  rewrite H3. cbn. rewrite H4. cbn. rewrite H5. cbn. rewrite H6. cbn. by destruct d.
Qed.

(** ** Properties *)

(** C5. File storage is durable where files can be written: after any sequence
    of storage calls from a first start, each of which returned, loading the
    JSON files of a writable data directory gives back exactly the tables the
    server held, as long as every identifier fits its [int].  If the directory
    cannot be written, the saves are skipped without an error, and a restart
    finds the empty tables of a first start. *)
Theorem storage_durable (hasher : bytes → Z) (w : bool) (d : FileDB) :
  rtc (file_step hasher) (first_start w) d → ids_fit d →
  load_file_data (data_dir d) = Some (if w then d else first_start false).
Proof.
  intros Hr Hf. destruct w.
  - apply load_synced; [|done]. clear Hf. assert (H1 : synced (first_start true)) by apply empty_synced. revert H1.
    induction Hr; eauto using file_step_synced.
  - assert (Hd : data_dir d = mkDisk ∅ false); [|by rewrite Hd]. clear Hf.
    assert (H1 : data_dir (first_start false) = mkDisk ∅ false) by done. revert H1.
    induction Hr as [|x y z Hs _ IH]; [done|]. intros Hx. apply IH. rewrite <- Hx.
    apply (file_step_unwritable hasher x y); [by rewrite Hx|done].
Qed.

(** A failed save loses the history: when [dump] throws while a batch is
    being stored (some content is not UTF-8), messages.json has already been
    truncated, and the next start finds every other table but no message, and
    restarts the message ids at 1. *)
Theorem failed_save_wipes (d d' : FileDB) (ms : list DBChatMessage) :
  synced d → ids_fit d → store_batch ms d = Throw d' →
  load_file_data (data_dir d') = Some (set_disk (data_dir d') (set_messages [] 1 d)).
Proof.
  intros Hs Hf. unfold store_batch, save_messages_file, write_json. mred.
  cbn [data_dir set_messages]. rewrite (sync_writable d Hs).
  destruct (json_dump _); [done|]. intros [= <-]. cbn [data_dir set_disk].
  destruct (load_users_synced d Hs Hf) as [H1 H2], (load_reqs_synced d Hs Hf) as [H3 H4].
  pose proof (load_friends_synced d Hs Hf) as H7.
  unfold load_file_data. rewrite (load_json_other _ _ users_path), (load_json_other _ _ friends_path),
    (load_json_other _ _ reqs_path), load_json_truncated by discriminate.
  rewrite H1. cbn. rewrite H2. cbn. rewrite H7. cbn. rewrite H3. cbn. by rewrite H4.
Qed.
End Reload.

(** ** Witnesses *)

(** The same two calls where nothing can be written. *)
Definition db_request_ro : FileDB :=
  match add_friend_request 1 2 (str "hi") (first_start false) with Ret _ d => d | _ => empty_db end.

Lemma storage_durable_witness :
  load_file_data (data_dir db_friends) = Some db_friends ∧
  file_friend_reqs_ db_request_ro ≠ [] ∧ load_file_data (data_dir db_request_ro) = Some (first_start false).
Proof.
  split; [|split].
  - apply (storage_durable len_hash true).
    + apply (rtc_l _ _ db_request).
      * apply (fs_add len_hash 1 2 (str "hi") 1); [lia|vm_compute; reflexivity].
      * apply rtc_once. apply (fs_accept len_hash 1 2 1). vm_compute. reflexivity.
    + split; repeat constructor; vm_compute; congruence.
  - vm_compute. congruence.
  - apply (storage_durable len_hash false).
    + apply rtc_once. apply (fs_add len_hash 1 2 (str "hi") 1); [lia|vm_compute; reflexivity].
    + split; repeat constructor; vm_compute; congruence.
Defined.

Definition bad_bytes : bytes := [xff].
Definition db_torn : FileDB :=
  match store_batch [mkDBMsg 0 1 2 bad_bytes 0 false] db_stored with Throw d => d | _ => empty_db end.

Lemma failed_save_wipes_witness :
  file_messages_ db_stored ≠ [] ∧
  load_file_data (data_dir db_torn) = Some (set_disk (data_dir db_torn) (set_messages [] 1 db_stored)).
Proof.
  split; [vm_compute; congruence|].
  apply (failed_save_wipes db_stored db_torn [mkDBMsg 0 1 2 bad_bytes 0 false]).
  - apply (batch_synced [mkDBMsg 0 1 2 (str "hello") 0 false] tt empty_db);
      [apply empty_synced|vm_compute; reflexivity].
  - split; repeat constructor; vm_compute; congruence.
  - vm_compute. reflexivity.
Defined.
