(* ===== verification/Contract.v ===== *)
(** * What the storage promises (src/db_writer.cpp, include/db_writer.h)

    An abstract storage: accounts, friend requests and messages as maps from
    their numbers, friendships as a set of pairs; every method of
    [DBBatchWriter] is a function on it.  The file storage refines it: after
    any sequence of calls its answers are the abstract ones. *)

From stdpp Require Import sorting.
From S2P Require Import Prelude Bytes Json RefCodec FileStore Persist.

(** ** Finite maps by number *)

(** The entries of a map in the order of their keys. *)
Definition by_id {A} (m : gmap Z A) : list (Z * A) :=
  omap (λ i, pair i <$> m !! i) (merge_sort Z.le (elements (dom m))).

Section ById.
Context {A : Type}.
Implicit Types (l : list (Z * A)).

(** Keys in increasing order. *)
Definition increasing l : Prop := StronglySorted Z.lt l.*1.

Lemma increasing_nodup l : increasing l → NoDup l.*1.
Proof.
  unfold increasing. generalize l.*1. induction 1 as [|x k _ IH Hf]; constructor; [|done].
  intros Hin. rewrite Forall_forall in Hf. specialize (Hf x Hin). lia.
Qed.
Lemma increasing_snoc l n a : increasing l → Forall (λ p, (p.1 < n)%Z) l → increasing (l ++ [(n, a)]).
Proof.
  unfold increasing. rewrite fmap_app. cbn. induction l as [|p l IH]; intros Hs Hf; cbn in *; [by repeat constructor|].
  apply StronglySorted_inv in Hs as [Hs Hp]. apply Forall_cons in Hf as [Hn Hf]. constructor; [by apply IH|].
  apply Forall_app. split; [done|by constructor].
Qed.

Lemma omap_pairs l (m : gmap Z A) : Forall (λ p, m !! p.1 = Some p.2) l → omap (λ i, pair i <$> m !! i) l.*1 = l.
Proof. induction 1 as [|[i a] l Hm _ IH]; [done|]. cbn in *. rewrite Hm. cbn. by rewrite IH. Qed.

Lemma sorted_le (k : list Z) : StronglySorted Z.lt k → StronglySorted Z.le k.
Proof.
  induction 1 as [|x k _ IH Hf]; constructor; [done|]. eapply Forall_impl; [exact Hf|]. cbn. lia.
Qed.

(** A table with increasing numbers is the map it spells, in order. *)
Lemma by_id_list l : increasing l → by_id (list_to_map l) = l.
Proof.
  intros Hi. pose proof (increasing_nodup l Hi) as Hn. unfold by_id.
  assert (E : merge_sort Z.le (elements (dom (list_to_map l : gmap Z A))) = l.*1).
  { apply (StronglySorted_unique Z.le); [apply StronglySorted_merge_sort; [intros x y z; lia|apply _]| |].
    - by apply sorted_le.
    - rewrite merge_sort_Permutation, dom_list_to_map_L. by apply elements_list_to_set. }
  rewrite E. apply omap_pairs, Forall_forall. intros [i a] Hin. by apply elem_of_list_to_map.
Qed.

Lemma list_to_map_fresh l n a :
  Forall (λ p, (p.1 < n)%Z) l → (list_to_map (l ++ [(n, a)]) : gmap Z A) = <[n := a]> (list_to_map l).
Proof.
  intros Hf. apply list_to_map_snoc. intros (p & -> & Hp)%list_elem_of_fmap. rewrite Forall_forall in Hf.
  specialize (Hf p Hp). lia.
Qed.
End ById.

(** ** The abstract storage *)

Record petition := mkPetition { pt_from : Z; pt_to : Z; pt_text : bytes; pt_open : bool }.
Record letter := mkLetter { lt_from : Z; lt_to : Z; lt_text : bytes; lt_delivered : bool }.

Record social := mkSocial {
  so_accounts : gmap Z (bytes * bytes);    (* name and hashed password *)
  so_friends : gset (Z * Z);               (* smaller number first *)
  so_requests : gmap Z petition;
  so_messages : gmap Z letter;
  so_next_uid : Z;
  so_next_req : Z;
  so_next_msg : Z
}.
Definition no_society : social := mkSocial ∅ ∅ ∅ ∅ 1000 1 1.

(** The methods, and what they answer. *)
Inductive call :=
  | CRegister (username password : bytes)
  | CLogin (username password : bytes)
  | CUsername (uid : Z)
  | CSearch (keyword : bytes)
  | CAddFriend (from_uid to_uid : Z) (msg : bytes)
  | CAccept (request_id acceptor_uid : Z)
  | CFriends (uid : Z)
  | CPending (uid : Z)
  | COffline (uid : Z)
  | CMark (uid max_id : Z)
  | CStore (batch : list DBChatMessage).
Inductive answer :=
  | ADone
  | ANumber (n : Z)
  | AText (s : bytes)
  | AUsers (l : list (Z * bytes))
  | AFriends (l : list (Z * bytes))
  | ARequests (l : list (Z * Z * bytes * bytes))
  | AMessages (l : list DBChatMessage).

Section Spec.
Variable hasher : bytes → Z.
Implicit Types (σ : social).

Definition name_in (uid : Z) (def : bytes) σ : bytes :=
  match so_accounts σ !! uid with Some a => a.1 | None => def end.

Definition spec_register (u p : bytes) σ : Z * social :=
  if bool_decide (map_Exists (λ _ a, a.1 = u) (so_accounts σ)) then ((-2)%Z, σ)
  else (so_next_uid σ,
        mkSocial (<[so_next_uid σ := (u, file_hash hasher p)]> (so_accounts σ)) (so_friends σ) (so_requests σ)
                 (so_messages σ) (so_next_uid σ + 1) (so_next_req σ) (so_next_msg σ)).
Definition spec_login (u p : bytes) σ : Z :=
  match List.find (λ e, bool_decide (e.2 = (u, file_hash hasher p))) (by_id (so_accounts σ)) with
  | Some e => e.1
  | None => (-1)%Z
  end.
Definition spec_search (kw : bytes) σ : list (Z * bytes) :=
  take 20 (map (λ e, (e.1, e.2.1))
               (List.filter (λ e, contains (tolower kw) (tolower e.2.1)) (by_id (so_accounts σ)))).

Definition spec_add_friend (a b : Z) (m : bytes) σ : Z * social :=
  if bool_decide ((Z.min a b, Z.max a b) ∈ so_friends σ) then ((-2)%Z, σ)
  else if bool_decide (map_Exists (λ _ p, pt_from p = a ∧ pt_to p = b ∧ pt_open p = true) (so_requests σ))
  then ((-3)%Z, σ)
  else (so_next_req σ,
        mkSocial (so_accounts σ) (so_friends σ) (<[so_next_req σ := mkPetition a b m true]> (so_requests σ))
                 (so_messages σ) (so_next_uid σ) (so_next_req σ + 1) (so_next_msg σ)).
Definition spec_accept (i b : Z) σ : Z * social :=
  match so_requests σ !! i with
  | Some (mkPetition a b' m true) =>
      if (b' =? b)%Z
      then (a, mkSocial (so_accounts σ) ({[(Z.min a b, Z.max a b)]} ∪ so_friends σ)
                        (<[i := mkPetition a b' m false]> (so_requests σ))
                        (so_messages σ) (so_next_uid σ) (so_next_req σ) (so_next_msg σ))
      else ((-1)%Z, σ)
  | _ => ((-1)%Z, σ)
  end.
Definition spec_friends (u : Z) σ : list (Z * bytes) :=
  map (λ o, (o, name_in o (user_label o) σ)) (omap (other_end u) (elements (so_friends σ))).
(** The latest request first. *)
Definition spec_pending (u : Z) σ : list (Z * Z * bytes * bytes) :=
  map (λ e, (e.1, pt_from e.2, name_in (pt_from e.2) (user_label (pt_from e.2)) σ, pt_text e.2))
      (List.filter (λ e, (pt_to e.2 =? u)%Z && pt_open e.2) (reverse (by_id (so_requests σ)))).

(** The oldest message first. *)
Definition spec_offline (u : Z) σ : list DBChatMessage :=
  map (λ e, mkDBMsg e.1 (lt_from e.2) (lt_to e.2) (lt_text e.2) 0 false)
      (List.filter (λ e, (lt_to e.2 =? u)%Z && negb (lt_delivered e.2)) (by_id (so_messages σ))).
Definition set_letters (ms : gmap Z letter) (next : Z) σ : social :=
  mkSocial (so_accounts σ) (so_friends σ) (so_requests σ) ms (so_next_uid σ) (so_next_req σ) next.
Definition receipt (u n i : Z) (m : letter) : letter :=
  if (lt_to m =? u)%Z && (i <=? n)%Z then mkLetter (lt_from m) (lt_to m) (lt_text m) true else m.
Definition spec_mark (u n : Z) σ : social :=
  set_letters (map_imap (λ i m, Some (receipt u n i m)) (so_messages σ)) (so_next_msg σ) σ.
Definition spec_store_one (m : DBChatMessage) σ : social :=
  set_letters (<[so_next_msg σ := mkLetter (dm_from m) (dm_to m) (dm_content m) (dm_delivered m)]> (so_messages σ))
              (so_next_msg σ + 1) σ.
Definition spec_store (ms : list DBChatMessage) σ : social := foldl (λ σ m, spec_store_one m σ) σ ms.

Definition spec_call (c : call) σ : answer * social :=
  match c with
  | CRegister u p => prod_map ANumber id (spec_register u p σ)
  | CLogin u p => (ANumber (spec_login u p σ), σ)
  | CUsername u => (AText (name_in u [] σ), σ)
  | CSearch kw => (AUsers (spec_search kw σ), σ)
  | CAddFriend a b m => prod_map ANumber id (spec_add_friend a b m σ)
  | CAccept i b => prod_map ANumber id (spec_accept i b σ)
  | CFriends u => (AFriends (spec_friends u σ), σ)
  | CPending u => (ARequests (spec_pending u σ), σ)
  | COffline u => (AMessages (spec_offline u σ), σ)
  | CMark u n => (ADone, spec_mark u n σ)
  | CStore ms => (ADone, spec_store ms σ)
  end.
Fixpoint spec_run (cs : list call) σ : list answer * social :=
  match cs with
  | [] => ([], σ)
  | c :: cs' =>
      let '(a, σ1) := spec_call c σ in
      let '(l, σ2) := spec_run cs' σ1 in
      (a :: l, σ2)
  end.
End Spec.

(** ** The file storage *)

Section Files.
Context `{JsonText}.
Variable hasher : bytes → Z.

Definition file_call (c : call) : M FileDB answer :=
  match c with
  | CRegister u p => r ← register_user hasher u p; mret (ANumber r)
  | CLogin u p => r ← verify_login hasher u p; mret (ANumber r)
  | CUsername u => r ← get_username u; mret (AText r)
  | CSearch kw => r ← search_users kw; mret (AUsers r)
  | CAddFriend a b m => r ← add_friend_request a b m; mret (ANumber r)
  | CAccept i b => r ← accept_friend_request i b; mret (ANumber r)
  | CFriends u => r ← get_friends u; mret (AFriends r)
  | CPending u => r ← get_pending_requests u; mret (ARequests r)
  | COffline u => r ← query_offline_messages u; mret (AMessages r)
  | CMark u n => mark_delivered u n ;; mret ADone
  | CStore ms => store_batch ms ;; mret ADone
  end.
Fixpoint file_run (cs : list call) : M FileDB (list answer) :=
  match cs with
  | [] => mret []
  | c :: cs' => a ← file_call c; l ← file_run cs'; mret (a :: l)
  end.
End Files.

(** Friends come in no particular order, and perhaps twice. *)
Definition agree (a a' : answer) : Prop :=
  match a, a' with
  | AFriends l, AFriends l' => ∀ x, x ∈ l ↔ x ∈ l'
  | _, _ => a = a'
  end.
(** The callers' uids are not negative, and the text is UTF-8. *)
Definition proper_call (c : call) : Prop :=
  match c with
  | CRegister u _ => utf8_valid u = true
  | CAddFriend a _ m => (0 ≤ a)%Z ∧ utf8_valid m = true
  | CStore ms => Forall (λ m, utf8_valid (dm_content m) = true) ms
  | _ => True
  end.

(** ** Abstraction *)

Definition user_entry (u : FileUser) : Z * (bytes * bytes) := (fu_uid u, (fu_username u, fu_password_hash u)).
Definition req_entry (r : FileFriendRequest) : Z * petition :=
  (fr_id r, mkPetition (fr_from r) (fr_to r) (fr_message r) (fr_status r =? 0)%Z).
Definition msg_entry (m : FileMessage) : Z * letter :=
  (fm_id m, mkLetter (fm_from m) (fm_to m) (fm_content m) (fm_delivered m)).

Definition abs (d : FileDB) : social :=
  mkSocial (list_to_map (user_entry <$> file_users_ d)) (list_to_set (file_friends_ d))
           (list_to_map (req_entry <$> file_friend_reqs_ d)) (list_to_map (msg_entry <$> file_messages_ d))
           (file_next_uid_ d) (file_next_req_id_ d) (file_next_msg_id_ d).

(** The tables are in the order of their numbers. *)
Record tidy (d : FileDB) : Prop := {
  ti_ok : db_ok d;
  ti_users : increasing (user_entry <$> file_users_ d);
  ti_reqs : increasing (req_entry <$> file_friend_reqs_ d);
  ti_msgs : increasing (msg_entry <$> file_messages_ d);
  ti_from : Forall (λ r, (0 ≤ fr_from r)%Z) (file_friend_reqs_ d)
}.

(** ** Lemmas *)

Section Facts.
Context `{JsonText}.
Variable hasher : bytes → Z.
Implicit Types (d : FileDB) (k : disk).

Lemma abs_set_disk k d : abs (set_disk k d) = abs d.
Proof. done. Qed.
Lemma tidy_set_disk k d : tidy d → tidy (set_disk k d).
Proof. intros []. split; try done. by apply set_disk_ok. Qed.
Lemma first_tidy (w : bool) : tidy (first_start w).
Proof. split; [apply first_start_ok|constructor..]. Qed.

Lemma users_below d : db_ok d → Forall (λ p, (p.1 < file_next_uid_ d)%Z) (user_entry <$> file_users_ d).
Proof. intros Hok. apply Forall_fmap. eapply Forall_impl; [apply (ok_uid_bound d Hok)|]. cbn. lia. Qed.
Lemma reqs_below d : db_ok d → Forall (λ p, (p.1 < file_next_req_id_ d)%Z) (req_entry <$> file_friend_reqs_ d).
Proof. intros Hok. apply Forall_fmap. eapply Forall_impl; [apply (ok_req_bound d Hok)|]. cbn. lia. Qed.
Lemma msgs_below d : db_ok d → Forall (λ p, (p.1 < file_next_msg_id_ d)%Z) (msg_entry <$> file_messages_ d).
Proof. intros Hok. apply Forall_fmap. eapply Forall_impl; [apply (ok_msg_bound d Hok)|]. cbn. lia. Qed.

Lemma find_same {A} (P Q : A → bool) (l : list A) : (∀ a, P a = Q a) → List.find P l = List.find Q l.
Proof. intros HPQ. induction l as [|a l IH]; [done|]. cbn. rewrite HPQ. by destruct (Q a). Qed.
(** [List.find], [List.filter] and [existsb] through an abstraction of rows. *)
Lemma find_entry {A C} (f : A → C) (P : C → bool) (l : list A) :
  List.find P (map f l) = f <$> List.find (λ a, P (f a)) l.
Proof. induction l as [|a l IH]; [done|]. cbn. by destruct (P (f a)). Qed.
Lemma filter_entry {A C} (f : A → C) (P : C → bool) (l : list A) :
  List.filter P (map f l) = map f (List.filter (λ a, P (f a)) l).
Proof. induction l as [|a l IH]; [done|]. cbn. destruct (P (f a)); cbn; by rewrite IH. Qed.
Lemma exists_entry {A C} (f : A → Z * C) (P : C → Prop) (Q : A → bool) (l : list A) :
  NoDup (map f l).*1 → (∀ a, Q a = true ↔ P (f a).2) →
  existsb Q l = true ↔ map_Exists (λ _, P) (list_to_map (map f l) : gmap Z C).
Proof.
  intros Hn HQ. rewrite existsb_exists. split.
  - intros (a & Hin & Ha). exists (f a).1, (f a).2. split; [|by apply HQ].
    apply elem_of_list_to_map; [done|]. apply list_elem_of_fmap. exists a. rewrite list_elem_of_In. by destruct (f a).
  - intros (i & v & Hv & HP). apply elem_of_list_to_map in Hv; [|done].
    apply list_elem_of_fmap in Hv as (a & E & Hin). exists a. rewrite <- list_elem_of_In. split; [done|].
    apply HQ. by rewrite <- E.
Qed.

Lemma name_of_abs uid def d : name_of uid def d = name_in uid def (abs d).
Proof.
  unfold name_of, name_in, abs. cbn [so_accounts]. induction (file_users_ d) as [|u us IH]; [done|]. cbn.
  destruct (Z.eqb_spec (fu_uid u) uid) as [<-|Hne]; [by rewrite lookup_insert_eq|]. rewrite lookup_insert_ne by done.
  exact IH.
Qed.

(** One call: the answer is the abstract one, and so is the new state. *)
Definition simulates (c : call) : Prop := ∀ d a d', tidy d → file_call hasher c d = Ret a d' →
  tidy d' ∧ agree a (spec_call hasher c (abs d)).1 ∧ abs d' = (spec_call hasher c (abs d)).2.

Lemma sim_login u p : simulates (CLogin u p).
Proof.
  intros d a d' Ht. cbn [file_call]. unfold verify_login. mred. intros [= <- <-]. split; [done|]. split; [|done].
  cbn. f_equal. unfold spec_login. cbn [abs so_accounts]. rewrite by_id_list by apply Ht.
  change (user_entry <$> file_users_ d) with (map user_entry (file_users_ d)). rewrite find_entry.
  rewrite (find_same _ (λ x, bool_decide ((user_entry x).2 = (u, file_hash hasher p)))).
  - by destruct (List.find _ _).
  - intros x. cbn. rewrite <- bool_decide_and. apply bool_decide_ext.
    split; [by intros [-> ->]|by intros [= ? ?]].
Qed.
Lemma sim_username u : simulates (CUsername u).
Proof.
  intros d a d' Ht. cbn [file_call]. unfold get_username. mred. intros [= <- <-]. split; [done|]. split; [|done].
  cbn. by rewrite name_of_abs.
Qed.
Lemma sim_search kw : simulates (CSearch kw).
Proof.
  intros d a d' Ht. cbn [file_call]. mred. rewrite search_is_filter. intros [= <- <-]. split; [done|]. split; [|done].
  cbn. unfold spec_search. cbn [abs so_accounts]. rewrite by_id_list by apply Ht.
  change (user_entry <$> file_users_ d) with (map user_entry (file_users_ d)). by rewrite filter_entry, map_map.
Qed.
Lemma sim_friends u : simulates (CFriends u).
Proof.
  intros d a d' Ht. cbn [file_call]. unfold get_friends. mred. intros [= <- <-]. split; [done|]. split; [|done].
  cbn. intros x. unfold spec_friends. change (map ?g) with (fmap (M := list) g).
  rewrite !list_elem_of_fmap. apply exist_proper. intros o. rewrite name_of_abs. apply and_iff_compat_l.
  rewrite !list_elem_of_omap. apply exist_proper. intros q. apply and_iff_compat_r.
  cbn [abs so_friends]. by rewrite elem_of_elements, elem_of_list_to_set.
Qed.
Lemma sim_pending u : simulates (CPending u).
Proof.
  intros d a d' Ht. cbn [file_call]. unfold get_pending_requests. mred. intros [= <- <-]. split; [done|]. split; [|done].
  cbn. f_equal. unfold spec_pending. cbn [abs so_requests]. rewrite by_id_list by apply Ht.
  rewrite <- fmap_reverse. change (req_entry <$> ?l) with (map req_entry l). rewrite filter_entry, map_map.
  apply map_ext. intros r. cbn. by rewrite name_of_abs.
Qed.
Lemma sim_offline u : simulates (COffline u).
Proof.
  intros d a d' Ht. cbn [file_call]. unfold query_offline_messages. mred. intros [= <- <-]. split; [done|]. split; [|done].
  cbn. f_equal. unfold spec_offline. cbn [abs so_messages]. rewrite by_id_list by apply Ht.
  change (msg_entry <$> ?l) with (map msg_entry l). by rewrite filter_entry, map_map.
Qed.


Lemma number_call (m : M FileDB Z) d a d' :
  (r ← m; mret (ANumber r)) d = Ret a d' → ∃ r, a = ANumber r ∧ m d = Ret r d'.
Proof. mred. destruct (m d) as [r d1|d1|e]; [|done..]. intros [= <- <-]. eauto. Qed.

Lemma sim_register u p : simulates (CRegister u p).
Proof.
  intros d a d' Ht (r & -> & Hr)%number_call. pose proof (ti_ok d Ht) as Hok.
  pose proof (register_ok hasher u p r d d' Hok Hr) as Hok'.
  assert (Hex : (u ∈ fu_username <$> file_users_ d) ↔ map_Exists (λ _ a, a.1 = u) (so_accounts (abs d))).
  { cbn [abs so_accounts]. change (user_entry <$> ?l) with (map user_entry l).
    rewrite <- (exists_entry user_entry _ (λ x, bool_decide (fu_username x = u)));
      [|by apply increasing_nodup, Ht|intros x; by rewrite bool_decide_eq_true].
    rewrite existsb_exists, list_elem_of_fmap. apply exist_proper. intros x. rewrite bool_decide_eq_true, list_elem_of_In.
    naive_solver. }
  cbn [spec_call]. unfold spec_register.
  apply register_inv in Hr as [(-> & -> & Hu)|(-> & Hu & k & ->)].
  - by rewrite bool_decide_eq_true_2 by by apply Hex.
  - rewrite bool_decide_eq_false_2 by (by rewrite <- Hex). split; [|split; [done|]].
    + destruct Ht. split; cbn [set_disk set_users file_users_ file_friend_reqs_ file_messages_]; try done.
      rewrite fmap_app. by apply increasing_snoc, users_below.
    + unfold abs. cbn [set_disk set_users file_users_ file_next_uid_]. rewrite fmap_app. cbn [snd prod_map id]. f_equal.
      exact (list_to_map_fresh _ _ (u, file_hash hasher p) (users_below d Hok)).
Qed.

Lemma friends_known a b d :
  existsb (λ p, (p.1 =? Z.min a b)%Z && (p.2 =? Z.max a b)%Z) (file_friends_ d) =
  bool_decide ((Z.min a b, Z.max a b) ∈ so_friends (abs d)).
Proof.
  apply eq_true_iff_eq. rewrite existsb_exists, bool_decide_eq_true. cbn [abs so_friends]. rewrite elem_of_list_to_set.
  split.
  - intros ([x y] & Hin & E). zbool. cbn in *. subst. by apply list_elem_of_In.
  - intros Hin. eexists. split; [by apply list_elem_of_In|]. cbn. by rewrite !Z.eqb_refl.
Qed.
Lemma request_known a b d : tidy d →
  existsb (λ r, (fr_from r =? a)%Z && (fr_to r =? b)%Z && (fr_status r =? 0)%Z) (file_friend_reqs_ d) =
  bool_decide (map_Exists (λ _ p, pt_from p = a ∧ pt_to p = b ∧ pt_open p = true) (so_requests (abs d))).
Proof.
  intros Ht. apply eq_true_iff_eq. rewrite bool_decide_eq_true. apply (exists_entry req_entry).
  - apply increasing_nodup, Ht.
  - intros r. cbn. rewrite !andb_true_iff, !Z.eqb_eq. tauto.
Qed.

Lemma sim_add_friend a b m : (0 ≤ a)%Z → simulates (CAddFriend a b m).
Proof.
  intros Ha d ans d' Ht (r & -> & Hr)%number_call. pose proof (ti_ok d Ht) as Hok.
  pose proof (add_ok a b m r d d' Hok Hr) as Hok'. revert Hr. cbn [spec_call].
  unfold add_friend_request, spec_add_friend. mred.
  rewrite friends_known, (request_known a b d Ht). case_bool_decide; [by intros [= <- <-]|].
  case_bool_decide; [by intros [= <- <-]|]. unfold save_friend_reqs_file. mred.
  destruct (write_json _ _ _) as [[] d1|d1|e] eqn:W; [|done..]. intros [= <- <-].
  apply write_json_Ret in W as (k & -> & _). split; [|split; [done|]].
  - destruct Ht. split; cbn; try done.
    + rewrite fmap_app. by apply increasing_snoc, reqs_below.
    + apply Forall_app. split; [done|]. by constructor.
  - unfold abs. cbn [set_disk set_reqs file_friend_reqs_ file_next_req_id_]. rewrite fmap_app. cbn [snd prod_map id]. f_equal.
    exact (list_to_map_fresh _ _ (mkPetition a b m true) (reqs_below d Hok)).
Qed.

(** The row with a given number is in one place. *)
Lemma req_lookup d pre post i f b m n : tidy d → file_friend_reqs_ d = pre ++ mkReq i f b m n :: post →
  so_requests (abs d) !! i = Some (mkPetition f b m (n =? 0)%Z).
Proof.
  intros Ht E. cbn [abs so_requests]. apply elem_of_list_to_map; [apply increasing_nodup, Ht|]. rewrite E, fmap_app.
  apply elem_of_app. right. by left.
Qed.
Lemma req_closed (pre post : list FileFriendRequest) i f b m :
  NoDup (req_entry <$> pre ++ mkReq i f b m 0 :: post).*1 →
  (list_to_map (req_entry <$> pre ++ mkReq i f b m 1 :: post) : gmap Z petition) =
  <[i := mkPetition f b m false]> (list_to_map (req_entry <$> pre ++ mkReq i f b m 0 :: post)).
Proof.
  rewrite !fmap_app, !fmap_cons, !list_to_map_app. cbn. intros Hn. apply NoDup_app in Hn as (_ & Hn & _).
  rewrite <- !insert_union_r, insert_insert_eq; [done|..]; apply not_elem_of_list_to_map_1; intros Hin;
    by destruct (Hn i Hin); left.
Qed.

Lemma sim_accept i b : simulates (CAccept i b).
Proof.
  intros d ans d' Ht (r & -> & Hr)%number_call. pose proof (ti_ok d Ht) as Hok.
  pose proof (accept_ok i b r d d' Hok Hr) as Hok'. cbn [spec_call]. unfold spec_accept.
  pose proof (accept_loop_spec i b (file_friend_reqs_ d)) as Hl.
  apply accept_inv in Hr as [(-> & _ & _ & f & rs & E & Hf & ->)|(Hr & rs & k & E & ->)]; rewrite E in Hl.
  - destruct Hl as [(-> & -> & Hno)|(pre & m & post & Ed & ->)].
    + assert (Hspec : match so_requests (abs d) !! i with
        | Some (mkPetition a b' m true) => (b' =? b)%Z = false | _ => True end).
      { destruct (so_requests (abs d) !! i) as [[a b' m []]|] eqn:Hi; [|done..].
        apply elem_of_list_to_map in Hi; [|apply increasing_nodup, Ht].
        apply list_elem_of_fmap in Hi as (x & Ex & Hx). rewrite Forall_forall in Hno. specialize (Hno x Hx).
        injection Ex as -> -> -> -> Eo. apply Z.eqb_neq. intros Eb. apply Hno. symmetry in Eo. apply Z.eqb_eq in Eo. done. }
      assert (Hd : set_reqs (file_friend_reqs_ d) (file_next_req_id_ d) d = d) by by destruct d. rewrite Hd.
      destruct (so_requests (abs d) !! i) as [[a b' m []]|]; [rewrite Hspec|..]; done.
    + exfalso. pose proof (ti_from d Ht) as Hp. rewrite Ed in Hp. apply Forall_app in Hp as [_ Hp].
      apply Forall_cons in Hp as [Hp _]. cbn in Hp. lia.
  - destruct Hl as [(-> & _)|(pre & m & post & Ed & ->)]; [lia|].
    rewrite (req_lookup d pre post i r b m 0 Ht Ed). change (0 =? 0)%Z with true. cbv iota. rewrite Z.eqb_refl. split; [|split; [done|]].
    + destruct Ht as [T1 T2 T3 T4 T5]. rewrite Ed in T3, T5. split; cbn; try done.
      * revert T3. unfold increasing. by rewrite !fmap_app.
      * apply Forall_app in T5 as [? T5]. apply Forall_cons in T5 as [? ?]. apply Forall_app. split; [done|]. by constructor.
    + unfold abs. cbn [set_disk set_friends set_reqs file_friends_ file_friend_reqs_ prod_map snd id]. f_equal.
      * rewrite list_to_set_app_L. cbn. rewrite union_empty_r_L. apply union_comm_L.
      * rewrite Ed. apply req_closed. rewrite <- Ed. apply increasing_nodup, Ht.
Qed.

Lemma unit_call (m : M FileDB unit) d a d' : (m ;; mret ADone) d = Ret a d' → a = ADone ∧ m d = Ret tt d'.
Proof. mred. destruct (m d) as [[] d1|d1|e]; [|done..]. by intros [= <- <-]. Qed.

Lemma mark_entry u n (l : list FileMessage) :
  msg_entry <$> map (mark_message u n) l = (λ e, (e.1, receipt u n e.1 e.2)) <$> (msg_entry <$> l).
Proof.
  induction l as [|m l IH]; [done|]. cbn. rewrite <- IH. f_equal. unfold msg_entry, mark_message, receipt. cbn.
  by case_if.
Qed.
Lemma marked_map u n (l : list (Z * letter)) :
  (list_to_map ((λ e, (e.1, receipt u n e.1 e.2)) <$> l) : gmap Z letter) =
  map_imap (λ i m, Some (receipt u n i m)) (list_to_map l).
Proof.
  apply map_eq. intros i. rewrite map_lookup_imap. induction l as [|[j m] l IH]; [done|]. cbn.
  destruct (decide (j = i)) as [->|Hne]; [by rewrite !lookup_insert_eq|]. by rewrite !lookup_insert_ne.
Qed.
Lemma sim_mark u n : simulates (CMark u n).
Proof.
  intros d a d' Ht [-> Hm]%unit_call. pose proof (mark_ok u n tt d d' (ti_ok d Ht) Hm) as Hok'.
  apply mark_inv in Hm as [k ->]. split; [|split; [done|]].
  - destruct Ht. split; cbn [set_disk set_messages file_users_ file_friend_reqs_ file_messages_]; try done.
    rewrite mark_entry. unfold increasing. by rewrite <- list_fmap_compose.
  - unfold abs. cbn [set_disk set_messages file_messages_]. rewrite mark_entry, marked_map. done.
Qed.

(** Storing a batch is storing its messages one by one. *)
Lemma stored_abs ms : ∀ d, db_ok d → increasing (msg_entry <$> file_messages_ d) →
  let l := file_messages_ d ++ number_messages (file_next_msg_id_ d) ms in
  increasing (msg_entry <$> l) ∧
  abs (set_messages l (file_next_msg_id_ d + Z.of_nat (length ms)) d) = spec_store ms (abs d).
Proof.
  induction ms as [|m ms IH]; intros d Hok Hi l; subst l; cbn [number_messages length].
  - rewrite app_nil_r, Z.add_0_r. split; [done|]. by destruct d.
  - set (x := mkMsg (file_next_msg_id_ d) (dm_from m) (dm_to m) (dm_content m) (dm_delivered m)).
    set (d1 := set_messages (file_messages_ d ++ [x]) (file_next_msg_id_ d + 1) d).
    assert (Hok1 : db_ok d1).
    { destruct Hok. split; cbn; try done; [by eapply nodup_snoc| |lia]. apply Forall_app.
      split; [eapply bound_mono; [done|lia]|]. constructor; [cbn; lia|done]. }
    assert (Hi1 : increasing (msg_entry <$> file_messages_ d1))
      by (cbn; rewrite fmap_app; by apply increasing_snoc, msgs_below).
    destruct (IH d1 Hok1 Hi1) as [Hi2 Ha]. cbn [d1 file_messages_ file_next_msg_id_ set_messages] in Hi2, Ha.
    rewrite <- app_assoc in Hi2, Ha. split; [exact Hi2|]. cbn [spec_store foldl].
    assert (E1 : abs d1 = spec_store_one m (abs d)).
    { unfold abs, spec_store_one, set_letters. cbn [d1 set_messages file_messages_ file_next_msg_id_]. rewrite fmap_app. f_equal.
      exact (list_to_map_fresh _ _ (mkLetter (dm_from m) (dm_to m) (dm_content m) (dm_delivered m)) (msgs_below d Hok)). }
    change (foldl (λ σ m, spec_store_one m σ) (spec_store_one m (abs d)) ms) with (spec_store ms (spec_store_one m (abs d))).
    rewrite <- E1, <- Ha. unfold d1, set_messages. cbn. do 2 f_equal. lia.
Qed.
Lemma sim_store ms : simulates (CStore ms).
Proof.
  intros d a d' Ht [-> Hm]%unit_call. pose proof (batch_ok ms tt d d' (ti_ok d Ht) Hm) as Hok'.
  apply batch_inv in Hm as [k ->]. destruct Ht as [T1 T2 T3 T4 T5]. destruct (stored_abs ms d T1 T4) as [Hi Ha].
  split; [by split|]. split; [done|exact Ha].
Qed.

Lemma call_simulated c : proper_call c → simulates c.
Proof.
  destruct c; intros Hc; try destruct Hc; auto using sim_register, sim_login, sim_username, sim_search, sim_add_friend, sim_accept,
    sim_friends, sim_pending, sim_offline, sim_mark, sim_store.
Qed.
Lemma run_simulated cs : ∀ d answers d',
  Forall proper_call cs → tidy d → file_run hasher cs d = Ret answers d' →
  tidy d' ∧ Forall2 agree answers (spec_run hasher cs (abs d)).1 ∧ abs d' = (spec_run hasher cs (abs d)).2.
Proof.
  induction cs as [|c cs IH]; intros d answers d' Hc Ht; cbn [file_run spec_run].
  - mred. intros [= <- <-]. by split_ands; [|constructor|].
  - apply Forall_cons in Hc as [Hc Hcs]. mred. destruct (file_call hasher c d) as [a d1|d1|e] eqn:E; [|done..].
    destruct (call_simulated c Hc d a d1 Ht E) as (Ht1 & Ha & Hs).
    destruct (spec_call hasher c (abs d)) as [a' σ1]. cbn [fst snd] in Ha, Hs. subst σ1.
    destruct (file_run hasher cs d1) as [l d2|d2|e] eqn:E2; [|done..]. intros [= <- <-].
    destruct (IH d1 l d2 Hcs Ht1 E2) as (Ht2 & Hl & Hs2). destruct (spec_run hasher cs (abs d1)) as [l' σ2].
    split_ands; [done| |done]. by constructor.
Qed.
End Facts.

(** ** Saving succeeds *)

Lemma ascii_utf8 (s : bytes) : Forall (λ b, between 0 0x7F b = true) s → utf8_valid s = true.
Proof. induction 1 as [|b s Hb _ IH]; [done|]. cbn [utf8_valid]. by rewrite Hb. Qed.
Lemma hexdigit_ascii d : (0 ≤ d < 16)%Z → between 0 0x7F (hexdigit d) = true.
Proof.
  intros Hd. assert (Hn : ∃ n, (n < 16)%nat ∧ d = Z.of_nat n) by (exists (Z.to_nat d); lia).
  destruct Hn as (n & Hn & ->). clear Hd. do 16 (destruct n as [|n]; [vm_compute; reflexivity|]). lia.
Qed.
Lemma hex_utf8 n : ∀ z, Forall (λ b, between 0 0x7F b = true) (hex_fixed n z).
Proof.
  induction n as [|n IH]; intros z; cbn [hex_fixed]; [constructor|]. apply Forall_app. split; [apply IH|].
  constructor; [|constructor]. apply hexdigit_ascii. apply Z.mod_pos_bound. lia.
Qed.

Lemma hash_utf8 hasher p : utf8_valid (file_hash hasher p) = true.
Proof. unfold file_hash, hex16. apply ascii_utf8, hex_utf8. Qed.

Lemma forallb_map {A C} (f : A → C) (P : C → bool) (Q : A → bool) (l : list A) :
  (∀ a, P (f a) = Q a) → forallb P (map f l) = forallb Q l.
Proof. intros HP. induction l as [|a l IH]; [done|]. cbn. by rewrite HP, IH. Qed.

Lemma forallb_snoc {A} (P : A → bool) (l : list A) x : forallb P l = true → P x = true → forallb P (l ++ [x]) = true.
Proof. intros Hl Hx. rewrite forallb_app, Hl. cbn. by rewrite Hx. Qed.

Section Saving.
Context `{JsonTextLaws}.
Variable hasher : bytes → Z.
Implicit Types (d : FileDB).

(** All text in the tables is UTF-8. *)
Record readable d : Prop := {
  rd_users : forallb (λ u, utf8_valid (fu_password_hash u) && utf8_valid (fu_username u)) (file_users_ d) = true;
  rd_reqs : forallb (λ r, utf8_valid (fr_message r)) (file_friend_reqs_ d) = true;
  rd_msgs : forallb (λ m, utf8_valid (fm_content m)) (file_messages_ d) = true
}.

Lemma write_returns path j d : json_utf8 j = true → ∃ d', write_json path j d = Ret tt d' ∧ ∃ k, d' = set_disk k d.
Proof.
  intros Hj. unfold write_json. destruct (dump_total j Hj) as [s ->]. destruct (writable (data_dir d)); [eauto|].
  exists d. split; [done|]. exists (data_dir d). by destruct d.
Qed.
Lemma save_users d : readable d → ∃ k, save_users_file d = Ret tt (set_disk k d).
Proof.
  intros [Hr _ _]. unfold save_users_file. mred. edestruct write_returns as (d' & E & k & ->); [|rewrite E; eauto].
  transitivity (forallb json_utf8 (map user_json (file_users_ d)) && true); [reflexivity|].
  rewrite (forallb_map _ _ (λ u, utf8_valid (fu_password_hash u) && utf8_valid (fu_username u))), Hr; [done|].
  intros u. transitivity (utf8_valid (fu_password_hash u) && (utf8_valid (fu_username u) && true)); [reflexivity|].
  by rewrite andb_true_r.
Qed.
Lemma save_reqs d : readable d → ∃ k, save_friend_reqs_file d = Ret tt (set_disk k d).
Proof.
  intros [_ Hr _]. unfold save_friend_reqs_file. mred. edestruct write_returns as (d' & E & k & ->); [|rewrite E; eauto].
  transitivity (forallb json_utf8 (map req_json (file_friend_reqs_ d)) && true); [reflexivity|].
  rewrite (forallb_map _ _ (λ r, utf8_valid (fr_message r))), Hr; [done|].
  intros r. transitivity (utf8_valid (fr_message r) && true); [reflexivity|]. by rewrite andb_true_r.
Qed.
Lemma save_msgs d : readable d → ∃ k, save_messages_file d = Ret tt (set_disk k d).
Proof.
  intros [_ _ Hr]. unfold save_messages_file. mred. edestruct write_returns as (d' & E & k & ->); [|rewrite E; eauto].
  by rewrite messages_json_utf8.
Qed.
Lemma save_pairs d : ∃ k, save_friends_file d = Ret tt (set_disk k d).
Proof.
  unfold save_friends_file. mred. edestruct write_returns as (d' & E & k & ->); [|rewrite E; eauto].
  transitivity (forallb json_utf8 (map pair_json (file_friends_ d)) && true); [done|].
  rewrite (forallb_map _ _ (λ _, true)); [|done]. by induction (file_friends_ d).
Qed.
Lemma readable_set_disk k d : readable d → readable (set_disk k d).
Proof. by intros []. Qed.

Lemma register_returns u p d : utf8_valid u = true → readable d →
  ∃ r d', register_user hasher u p d = Ret r d' ∧ readable d'.
Proof.
  intros Hu Hr. unfold register_user. mred. destruct (existsb _ _); [eauto|].
  match goal with |- context [save_users_file ?d1] => assert (Hr1 : readable d1) end.
  { destruct Hr as [R1 R2 R3]. split; [|exact R2|exact R3]. cbn [set_users file_users_].
    apply forallb_snoc; [exact R1|]. apply andb_true_intro. split; [apply hash_utf8|exact Hu]. }
  destruct (save_users _ Hr1) as [k ->]. eexists _, _. split; [reflexivity|]. by apply readable_set_disk.
Qed.
Lemma add_returns a b m d : utf8_valid m = true → readable d →
  ∃ r d', add_friend_request a b m d = Ret r d' ∧ readable d'.
Proof.
  intros Hm Hr. unfold add_friend_request. mred. destruct (existsb _ _); [eauto|]. destruct (existsb _ _); [eauto|].
  match goal with |- context [save_friend_reqs_file ?d1] => assert (Hr1 : readable d1) end.
  { destruct Hr as [R1 R2 R3]. split; cbn; try done. rewrite forallb_app, R2. cbn. by rewrite Hm. }
  destruct (save_reqs _ Hr1) as [k ->]. eexists _, _. split; [reflexivity|]. by apply readable_set_disk.
Qed.
Lemma accept_loop_texts i b (rs : list FileFriendRequest) :
  forallb (λ r, utf8_valid (fr_message r)) (accept_loop i b rs).2 = forallb (λ r, utf8_valid (fr_message r)) rs.
Proof.
  induction rs as [|r rs IH]; [done|]. cbn [accept_loop]. case_if; [done|]. destruct (accept_loop i b rs). cbn in *.
  by rewrite IH.
Qed.
Lemma accept_returns i b d : readable d → ∃ r d', accept_friend_request i b d = Ret r d' ∧ readable d'.
Proof.
  intros Hr. unfold accept_friend_request. mred. pose proof (accept_loop_texts i b (file_friend_reqs_ d)) as Ht.
  destruct (accept_loop i b (file_friend_reqs_ d)) as [f rs]. cbn in Ht.
  assert (Hr1 : readable (set_reqs rs (file_next_req_id_ d) d)) by (destruct Hr; split; cbn; by rewrite ?Ht).
  destruct (f <? 0)%Z; [eauto|].
  match goal with |- context [save_friend_reqs_file ?d1] => assert (Hr2 : readable d1) by (destruct Hr1; by split) end.
  destruct (save_reqs _ Hr2) as [k ->]. destruct (save_pairs (set_disk k
    (set_friends (file_friends_ d ++ [(Z.min f b, Z.max f b)]) (set_reqs rs (file_next_req_id_ d) d)))) as [k2 E2].
  cbn in E2 |- *. rewrite E2. eexists _, _. split; [reflexivity|]. by apply readable_set_disk, readable_set_disk.
Qed.
Lemma mark_returns u n d : readable d → ∃ d', mark_delivered u n d = Ret tt d' ∧ readable d'.
Proof.
  intros Hr. unfold mark_delivered. mred.
  match goal with |- context [save_messages_file ?d1] => assert (Hr1 : readable d1) end.
  { destruct Hr as [R1 R2 R3]. split; cbn; try done. rewrite (forallb_map _ _ (λ m, utf8_valid (fm_content m))); [done|].
    intros m. unfold mark_message. by case_if. }
  destruct (save_msgs _ Hr1) as [k ->]. eexists. split; [reflexivity|]. by apply readable_set_disk.
Qed.
Lemma store_returns ms d : Forall (λ m, utf8_valid (dm_content m) = true) ms → readable d →
  ∃ d', store_batch ms d = Ret tt d' ∧ readable d'.
Proof.
  intros Hm Hr. unfold store_batch. mred.
  match goal with |- context [save_messages_file ?d1] => assert (Hr1 : readable d1) end.
  { destruct Hr as [R1 R2 R3]. split; cbn; try done. rewrite forallb_app, R3. cbn.
    generalize (file_next_msg_id_ d). induction Hm as [|m ms Hm _ IH]; intros n; [done|]. cbn. by rewrite Hm, IH. }
  destruct (save_msgs _ Hr1) as [k ->]. eexists. split; [reflexivity|]. by apply readable_set_disk.
Qed.

Lemma call_returns c d : proper_call c → readable d → ∃ a d', file_call hasher c d = Ret a d' ∧ readable d'.
Proof.
  intros Hc Hr. destruct c as [u p|u p|u|kw|a b m|i b|u|u|u|u n|ms]; cbn [file_call proper_call] in *;
    unfold verify_login, get_username, search_users, get_friends, get_pending_requests, query_offline_messages; mred; eauto.
  - destruct (register_returns u p d Hc Hr) as (r & d' & -> & ?). eauto.
  - destruct Hc as [_ Hm]. destruct (add_returns a b m d Hm Hr) as (r & d' & -> & ?). eauto.
  - destruct (accept_returns i b d Hr) as (r & d' & -> & ?). eauto.
  - destruct (mark_returns u n d Hr) as (d' & -> & ?). eauto.
  - destruct (store_returns ms d Hc Hr) as (d' & -> & ?). eauto.
Qed.
Lemma run_returns cs : ∀ d, Forall proper_call cs → readable d → ∃ answers d', file_run hasher cs d = Ret answers d'.
Proof.
  induction cs as [|c cs IH]; intros d Hc Hr; cbn [file_run]; [by eexists _, _|]. apply Forall_cons in Hc as [Hc Hcs].
  destruct (call_returns c d Hc Hr) as (a & d1 & E & Hr1). destruct (IH d1 Hcs Hr1) as (l & d2 & E2).
  mred. rewrite E, E2. eauto.
Qed.
End Saving.

(** ** Property *)

(** C11. The file storage keeps its contract: whatever methods are called on a
    first start's storage, in whatever order, and whether the data directory
    can be written or not, every call returns, and the answers are those of the abstract storage.  Accounts, friend requests and
    messages are finite maps and friendships a set there: a name is registered
    once and logs in with its own password only, a request is open once and
    accepted once by its addressee, unread mail is listed oldest first until
    it is marked, open requests newest first, searches give the first twenty
    matches in order of registration.  (Friends are compared as sets; the
    callers' uids are not negative and their text is UTF-8.) *)
Theorem files_keep_contract `{JsonTextLaws} (hasher : bytes → Z) (w : bool) (cs : list call) :
  Forall proper_call cs →
  ∃ answers d, file_run hasher cs (first_start w) = Ret answers d ∧
    Forall2 agree answers (spec_run hasher cs no_society).1 ∧ abs d = (spec_run hasher cs no_society).2.
Proof.
  intros Hc. destruct (run_returns hasher cs (first_start w) Hc) as (answers & d & Hr); [by split|].
  destruct (run_simulated hasher cs (first_start w) answers d Hc (first_tidy w) Hr) as (_ & Ha & Hs). eauto.
Qed.

(** ** Witness *)

Definition demo_calls : list call :=
  [CRegister (str "alice") (str "pw"); CRegister (str "bob") (str "secret"); CRegister (str "alice") (str "x");
   CLogin (str "bob") (str "secret"); CAddFriend 1000 1001 (str "hi"); CPending 1001; CAccept 1 1001; CFriends 1000;
   CStore [mkDBMsg 0 1001 1000 (str "hello") 0 false]; COffline 1000; CMark 1000 INT64_MAX; COffline 1000; CSearch (str "B")].

Lemma files_keep_contract_witness :
  ∃ answers d, file_run len_hash demo_calls empty_db = Ret answers d ∧
    Forall2 agree answers (spec_run len_hash demo_calls no_society).1 ∧
    (spec_run len_hash demo_calls no_society).1 =
      [ANumber 1000; ANumber 1001; ANumber (-2); ANumber 1001; ANumber 1;
       ARequests [(1%Z, 1000%Z, str "alice", str "hi")]; ANumber 1000; AFriends [(1001%Z, str "bob")]; ADone;
       AMessages [mkDBMsg 1 1001 1000 (str "hello") 0 false]; ADone; AMessages []; AUsers [(1001%Z, str "bob")]].
Proof.
  destruct (files_keep_contract len_hash true demo_calls) as (answers & d & E & Ha & _).
  - repeat constructor; vm_compute; first [reflexivity|discriminate].
  - exists answers, d. split; [exact E|]. split; [exact Ha|]. vm_compute. reflexivity.
Defined.
