(* ===== verification/DbWriter.v ===== *)
(** * The batch writer (include/db_writer.h, src/db_writer.cpp)

    [DBBatchWriter] is a queue of chat messages in front of one of two
    backends, chosen when it is constructed: the JSON files (FileStore.v) or
    a MySQL server.  What the rest of the server and the writer thread ask of
    a backend is the class [Backend]; the file tables are an instance. *)

From S2P Require Import Prelude Bytes Json RefCodec FileStore Persist.

(** ** The interface of a backend *)

Class Backend (B : Type) := {
  be_register : bytes → bytes → M B Z;
  be_verify : bytes → bytes → M B Z;
  be_offline : Z → M B (list DBChatMessage);
  be_search : bytes → M B (list (Z * bytes));
  be_add_friend : Z → Z → bytes → M B Z;
  be_accept : Z → Z → M B Z;
  be_friends : Z → M B (list (Z * bytes));
  be_pending : Z → M B (list (Z * Z * bytes * bytes));
  be_mark : Z → Z → M B unit;
  be_store_batch : list DBChatMessage → M B unit
}.

(** The file tables with the hash function they use. *)
Record HashedDB (hasher : bytes → Z) := mkHashed { hashed_db : FileDB }.
Arguments mkHashed {hasher} hashed_db.
Arguments hashed_db {hasher} h.

Definition on_files {hasher A} (m : M FileDB A) : M (HashedDB hasher) A := λ h,
  match m (hashed_db h) with
  | Ret a d => Ret a (mkHashed d)
  | Throw d => Throw (mkHashed d)
  | Crash r => Crash r
  end.

#[export] Instance file_backend `{JsonText} (hasher : bytes → Z) : Backend (HashedDB hasher) := {|
  be_register u p := on_files (register_user hasher u p);
  be_verify u p := on_files (verify_login hasher u p);
  be_offline u := on_files (query_offline_messages u);
  be_search k := on_files (search_users k);
  be_add_friend a b m := on_files (add_friend_request a b m);
  be_accept i b := on_files (accept_friend_request i b);
  be_friends u := on_files (get_friends u);
  be_pending u := on_files (get_pending_requests u);
  be_mark u n := on_files (mark_delivered u n);
  be_store_batch ms := on_files (store_batch ms) |}.

(** ** The writer *)

Record DBBatchWriter (B : Type) := mkWriter {
  queue_ : list DBChatMessage;
  db_running_ : bool;
  backend : B
}.
Arguments mkWriter {B} queue_ db_running_ backend.
Arguments queue_ {B} d.
Arguments db_running_ {B} d.
Arguments backend {B} d.

Section Writer.
Context {B : Type} `{Backend B}.
Implicit Types (w : DBBatchWriter B).

(** A call that goes to the backend. *)
Definition lift {A} (m : M B A) : M (DBBatchWriter B) A := λ w,
  match m (backend w) with
  | Ret a b => Ret a (mkWriter (queue_ w) (db_running_ w) b)
  | Throw b => Throw (mkWriter (queue_ w) (db_running_ w) b)
  | Crash r => Crash r
  end.

(** [submit] *)
Definition submit (m : DBChatMessage) : M (DBBatchWriter B) unit :=
  modify (λ w, mkWriter (queue_ w ++ [m]) (db_running_ w) (backend w)).

Definition BATCH_MAX : nat := 100.

(** One round of the writer thread, [loop], after its wait: at most a hundred
    messages leave the queue, and the backend stores them.  An exception here
    leaves the thread's entry function. *)
Definition loop_round : M (DBBatchWriter B) unit := λ w,
  let batch := take BATCH_MAX (queue_ w) in
  let w' := mkWriter (drop BATCH_MAX (queue_ w)) (db_running_ w) (backend w) in
  match batch with
  | [] => Ret tt w'
  | _ =>
      match lift (be_store_batch batch) w' with
      | Throw _ => Crash Terminate
      | r => r
      end
  end.

(** [while (running_)]: [n] rounds with the flag still set, one per wake-up. *)
Fixpoint loop_rounds (n : nat) : M (DBBatchWriter B) unit :=
  match n with
  | O => mret tt
  | S n' => λ w, if db_running_ w then (loop_round ;; loop_rounds n') w else Ret tt w
  end.

(** The destructor: the flag is cleared, the thread finishes the round it is
    in ([in_round]: it was past the test of the flag) and is joined. *)
Definition shutdown (in_round : bool) : M (DBBatchWriter B) unit :=
  modify (λ w, mkWriter (queue_ w) false (backend w)) ;;
  if in_round then loop_round else mret tt.
End Writer.

(** ** Lemmas *)

Lemma loop_round_queue {B} `{Backend B} (w w' : DBBatchWriter B) :
  loop_round w = Ret tt w' →
  queue_ w' = drop BATCH_MAX (queue_ w) ∧ db_running_ w' = db_running_ w ∧
  (queue_ w = [] → w' = w) ∧
  (queue_ w ≠ [] → be_store_batch (take BATCH_MAX (queue_ w)) (backend w) = Ret tt (backend w')).
Proof.
  unfold loop_round. destruct (queue_ w) as [|m q] eqn:Eq.
  - cbn. intros [= <-]. cbn. split_ands; [done|done| |done].
    intros _. destruct w; cbn in *; by subst.
  - change (take BATCH_MAX (m :: q)) with (m :: take 99 q). unfold lift.
    destruct (be_store_batch _ _) as [[] b|b|r] eqn:E; [|done..].
    intros [= <-]. cbn. by split_ands.
Qed.

(** ** Properties *)

(** The writer loses and reorders nothing: one round hands to the backend
    exactly the oldest (at most 100) queued messages, in submission order,
    and keeps the rest queued; an empty queue is a no-op. *)
Theorem loop_round_batch {B} `{Backend B} (w w' : DBBatchWriter B) :
  loop_round w = Ret tt w' →
  ∃ batch, queue_ w = batch ++ queue_ w' ∧ length batch = Nat.min 100 (length (queue_ w)) ∧
    (batch = [] → w' = w) ∧
    (batch ≠ [] → be_store_batch batch (backend w) = Ret tt (backend w')).
Proof.
  intros (Hq & _ & He & Hb)%loop_round_queue. exists (take BATCH_MAX (queue_ w)).
  rewrite Hq, take_drop, length_take. split_ands; [done|done| |].
  - intros Hn. apply He. by destruct (queue_ w).
  - intros Hn. apply Hb. by destruct (queue_ w).
Qed.

Definition demo_msg : DBChatMessage := mkDBMsg 0 1 2 (str "hi") 0 false.
Definition demo_writer : DBBatchWriter (HashedDB len_hash) :=
  mkWriter [demo_msg] true (mkHashed empty_db).
Definition demo_writer' : DBBatchWriter (HashedDB len_hash) :=
  match loop_round demo_writer with Ret _ w => w | _ => demo_writer end.

Lemma loop_round_batch_witness :
  ∃ batch, [demo_msg] = batch ++ queue_ demo_writer' ∧ length batch = 1.
Proof.
  destruct (loop_round_batch demo_writer demo_writer') as (batch & Hq & Hl & _);
    [vm_compute; reflexivity|].
  exists batch. split; [exact Hq|exact Hl].
Defined.

(** Rounds of the file backend, as the state sees them. *)
Lemma file_round `{JsonText} (hasher : bytes → Z) (w w' : DBBatchWriter (HashedDB hasher)) :
  loop_round w = Ret tt w' → queue_ w ≠ [] →
  store_batch (take BATCH_MAX (queue_ w)) (hashed_db (backend w)) = Ret tt (hashed_db (backend w')).
Proof.
  intros (_ & _ & _ & Hb)%loop_round_queue Hne. specialize (Hb Hne). cbn in Hb.
  unfold on_files in Hb. destruct (store_batch _ _) as [[] d|d|r]; [|done..].
  by injection Hb as <-.
Qed.

(** A message that is not UTF-8 stops the server in file mode: [content]
    is a protobuf [bytes] field and is not validated, [j.dump] throws on it,
    and the exception leaves the writer thread. *)
Theorem bad_utf8_terminates `{JsonTextLaws} (hasher : bytes → Z)
    (w : DBBatchWriter (HashedDB hasher)) (m : DBChatMessage) :
  queue_ w = [m] → utf8_valid (dm_content m) = false →
  writable (data_dir (hashed_db (backend w))) = true →
  loop_round w = Crash Terminate.
Proof.
  intros Hq Hu Hw. unfold loop_round. rewrite Hq. cbn -[store_batch].
  unfold lift, be_store_batch, file_backend, on_files, store_batch, save_messages_file. mred.
  cbn [backend]. unfold write_json. cbn [set_messages data_dir]. rewrite Hw.
  rewrite dump_throws; [done|]. rewrite messages_json_utf8. cbn [set_messages file_messages_].
  rewrite forallb_app. cbn. by rewrite Hu, !andb_false_r.
Qed.

Lemma bad_utf8_terminates_witness :
  loop_round (mkWriter [mkDBMsg 0 1 2 bad_bytes 0 false] true
                (mkHashed (hasher := len_hash) empty_db)) = Crash Terminate.
Proof.
  apply (bad_utf8_terminates len_hash _ (mkDBMsg 0 1 2 bad_bytes 0 false)); vm_compute; reflexivity.
Defined.

(** ** Draining *)

Lemma number_messages_app (n : Z) (a b : list DBChatMessage) :
  number_messages n (a ++ b) = number_messages n a ++ number_messages (n + Z.of_nat (length a)) b.
Proof.
  revert n. induction a as [|m a IH]; intros n; cbn [app number_messages length].
  - f_equal. lia.
  - rewrite IH. do 3 f_equal. lia.
Qed.

(** Every content is UTF-8, those already stored and those queued. *)
Definition contents_ok {hasher} (w : DBBatchWriter (HashedDB hasher)) : Prop :=
  forallb (λ m, utf8_valid (fm_content m)) (file_messages_ (hashed_db (backend w))) = true ∧
  forallb (λ m, utf8_valid (dm_content m)) (queue_ w) = true ∧
  writable (data_dir (hashed_db (backend w))) = true.

Lemma number_messages_utf8 (n : Z) (ms : list DBChatMessage) :
  forallb (λ m, utf8_valid (fm_content m)) (number_messages n ms) =
  forallb (λ m, utf8_valid (dm_content m)) ms.
Proof. revert n. induction ms as [|m ms IH]; intros n; cbn; [done|]. by rewrite IH. Qed.

Lemma store_batch_total `{JsonTextLaws} (ms : list DBChatMessage) (d : FileDB) :
  forallb (λ m, utf8_valid (fm_content m)) (file_messages_ d) = true →
  forallb (λ m, utf8_valid (dm_content m)) ms = true → writable (data_dir d) = true →
  ∃ k, writable k = true ∧
    store_batch ms d =
    Ret tt (set_disk k (set_messages (file_messages_ d ++ number_messages (file_next_msg_id_ d) ms)
                                     (file_next_msg_id_ d + Z.of_nat (length ms)) d)).
Proof.
  intros H1 H2 Hw. unfold store_batch, save_messages_file, write_json. mred.
  cbn [set_messages data_dir]. rewrite Hw.
  destruct (dump_total (messages_json (set_messages
    (file_messages_ d ++ number_messages (file_next_msg_id_ d) ms)
    (file_next_msg_id_ d + Z.of_nat (length ms)) d))) as [s Hs].
  { rewrite messages_json_utf8. cbn [set_messages file_messages_].
    by rewrite forallb_app, H1, number_messages_utf8, H2. }
  rewrite Hs. eexists. split; [|reflexivity]. done.
Qed.

(** A round of the file backend, as a change of the tables. *)
Lemma file_round_total `{JsonTextLaws} (hasher : bytes → Z) (w : DBBatchWriter (HashedDB hasher)) :
  contents_ok w →
  ∃ w', loop_round w = Ret tt w' ∧ contents_ok w' ∧
    queue_ w' = drop BATCH_MAX (queue_ w) ∧ db_running_ w' = db_running_ w ∧
    let d := hashed_db (backend w) in let d' := hashed_db (backend w') in
    file_messages_ d' =
      file_messages_ d ++ number_messages (file_next_msg_id_ d) (take BATCH_MAX (queue_ w)) ∧
    file_next_msg_id_ d' = (file_next_msg_id_ d + Z.of_nat (length (take BATCH_MAX (queue_ w))))%Z.
Proof.
  intros (Hm & Hq & Hw). unfold loop_round.
  rewrite <- (take_drop BATCH_MAX (queue_ w)) in Hq. rewrite forallb_app in Hq. zbool.
  destruct (take BATCH_MAX (queue_ w)) as [|m b] eqn:Et.
  - eexists. split; [done|]. unfold contents_ok. cbn [queue_ backend db_running_]. rewrite app_nil_r.
    split_ands; try done. simpl. lia.
  - destruct (store_batch_total (m :: b) (hashed_db (backend w)) Hm) as (k & Hk & Hs); [done..|].
    unfold lift, be_store_batch, file_backend, on_files. cbn [backend]. rewrite Hs.
    eexists. split; [done|]. unfold contents_ok.
    cbn [queue_ backend db_running_ hashed_db set_disk set_messages file_messages_ data_dir
         file_next_msg_id_].
    split_ands; try done. rewrite forallb_app, Hm, number_messages_utf8. done.
Qed.

(** C30. Submitted messages are stored: with UTF-8 contents and a writable data
    directory, enough rounds of the writer thread empty the queue, and the
    messages table has grown by exactly the queued messages, in submission
    order and with consecutive ids. *)
Theorem writer_drains `{JsonTextLaws} (hasher : bytes → Z) (n : nat)
    (w : DBBatchWriter (HashedDB hasher)) :
  contents_ok w → db_running_ w = true → length (queue_ w) ≤ n * BATCH_MAX →
  ∃ w', loop_rounds n w = Ret tt w' ∧ queue_ w' = [] ∧
    file_messages_ (hashed_db (backend w')) =
      file_messages_ (hashed_db (backend w)) ++
      number_messages (file_next_msg_id_ (hashed_db (backend w))) (queue_ w).
Proof.
  revert w. induction n as [|n IH]; intros w Hok Hr Hlen.
  - exists w. assert (queue_ w = []) as E by (apply length_zero_iff_nil; lia).
    rewrite E. cbn. by rewrite app_nil_r.
  - destruct (file_round_total hasher w Hok) as (w1 & E1 & Hok1 & Hq1 & Hr1 & Hm1 & Hn1).
    destruct (IH w1) as (w2 & E2 & Hq2 & Hm2); [done|congruence| |].
    { rewrite Hq1, length_drop. unfold BATCH_MAX in *. lia. }
    exists w2. cbn [loop_rounds]. rewrite Hr. mred. rewrite E1, E2. split_ands; [done..|].
    rewrite Hm2, Hm1, Hn1, Hq1, <- app_assoc. f_equal. rewrite <- number_messages_app.
    by rewrite take_drop.
Qed.

(** Stopping the writer loses what is still queued: the destructor lets the
    thread finish at most one round, so the table has grown by the first
    hundred messages if the thread was past its test of the flag, by none
    otherwise, and everything else stays in the destroyed queue. *)
Theorem shutdown_loses `{JsonTextLaws} (hasher : bytes → Z) (in_round : bool)
    (w : DBBatchWriter (HashedDB hasher)) :
  contents_ok w →
  ∃ w', shutdown in_round w = Ret tt w' ∧
    queue_ w' = drop (if in_round then BATCH_MAX else 0) (queue_ w) ∧
    file_messages_ (hashed_db (backend w')) =
      file_messages_ (hashed_db (backend w)) ++
      number_messages (file_next_msg_id_ (hashed_db (backend w)))
                      (take (if in_round then BATCH_MAX else 0) (queue_ w)).
Proof.
  intros Hok. unfold shutdown. mred. destruct in_round.
  - destruct (file_round_total hasher (mkWriter (queue_ w) false (backend w)) Hok)
      as (w1 & E1 & _ & Hq1 & _ & Hm1 & _).
    exists w1. by rewrite E1.
  - eexists. split_ands; [done..|]. cbn. by rewrite app_nil_r.
Qed.

Lemma demo_writer_ok : contents_ok demo_writer.
Proof. unfold contents_ok. split_ands; reflexivity. Qed.

Lemma writer_drains_witness :
  ∃ w', loop_rounds 1 demo_writer = Ret tt w' ∧ queue_ w' = [] ∧
    length (file_messages_ (hashed_db (backend w'))) = 1.
Proof.
  destruct (writer_drains len_hash 1 demo_writer) as (w' & E & Hq & Hm);
    [apply demo_writer_ok|reflexivity|vm_compute; lia|].
  exists w'. split; [exact E|]. split; [exact Hq|]. rewrite Hm. reflexivity.
Defined.

Lemma shutdown_loses_witness :
  ∃ w', shutdown false demo_writer = Ret tt w' ∧ queue_ w' = [demo_msg] ∧
    file_messages_ (hashed_db (backend w')) = [].
Proof.
  destruct (shutdown_loses len_hash false demo_writer) as (w' & E & Hq & Hm); [apply demo_writer_ok|].
  exists w'. split; [exact E|]. split; [exact Hq|]. rewrite Hm. reflexivity.
Defined.
