(* ===== verification/MySqlStore.v ===== *)
(** * MySQL storage (src/db_writer.cpp, the branches without [use_file_storage_])

    The statements each method sends and what it makes of the answers.  The
    client library and the server are not part of the sources: they are the
    class [MySql].  No lock protects the connection in this mode; a method is
    one transition here. *)

From S2P Require Import Prelude Bytes Config Scan Json RefCodec FileStore DbWriter.

(** ** The client library *)

Definition sql_row : Type := list (option bytes).   (* MYSQL_ROW; a null column is [None] *)

Class MySql (S : Type) := {
  mysql_init : S → bool * S;                                      (* not null *)
  mysql_real_connect : bytes → bytes → bytes → bytes → Z → S → bool * S;
  mysql_close : S → S;
  mysql_ping : S → bool * S;                                      (* answered zero *)
  mysql_query : bytes → S → bool * S;                             (* answered zero *)
  mysql_store_result : S → option (list sql_row) * S;
  mysql_insert_id : S → Z;
  mysql_real_escape_string : S → bytes → bytes
}.

(** [mysql_] and the session behind it. *)
Record MySqlDB (env : environment) (S : Type) := mkMySql { my_handle : bool; my_session : S }.
Arguments mkMySql {env S} my_handle my_session.
Arguments my_handle {env S} m.
Arguments my_session {env S} m.

Section Methods.
Context {env : environment} {S : Type} `{MySql S}.
Let DB := MySqlDB env S.

Definition session_call {A} (f : S → A * S) : M DB A := λ d,
  let '(a, s) := f (my_session d) in Ret a (mkMySql (my_handle d) s).

(** [mysql_query(mysql_, sql.c_str()) == 0] *)
Definition query (sql : bytes) : M DB bool := session_call (mysql_query (c_str sql)).
Definition store_result : M DB (option (list sql_row)) := session_call mysql_store_result.
Definition insert_id : M DB Z := gets (λ d, wrap_i32 (mysql_insert_id (my_session d))).

(** [esc] *)
Definition esc (t : bytes) : M DB bytes :=
  gets (λ d, c_str (mysql_real_escape_string (my_session d) t)).

(** ** Connecting *)

Definition create_users : bytes := str
  "CREATE TABLE IF NOT EXISTS users (  uid INT AUTO_INCREMENT PRIMARY KEY,  username VARCHAR(64) NOT NULL UNIQUE,  password_hash CHAR(64) NOT NULL,  created_at DATETIME(3) NOT NULL DEFAULT CURRENT_TIMESTAMP(3)) ENGINE=InnoDB DEFAULT CHARSET=utf8mb4".
Definition create_msgs : bytes := str
  "CREATE TABLE IF NOT EXISTS messages (  id BIGINT AUTO_INCREMENT PRIMARY KEY,  from_uid INT NOT NULL,  to_uid INT NOT NULL,  content TEXT NOT NULL,  delivered TINYINT(1) NOT NULL DEFAULT 1,  created_at DATETIME(3) NOT NULL DEFAULT CURRENT_TIMESTAMP(3),  INDEX idx_from_uid (from_uid),  INDEX idx_to_uid (to_uid),  INDEX idx_delivered (delivered),  INDEX idx_created_at (created_at)) ENGINE=InnoDB DEFAULT CHARSET=utf8mb4".
Definition create_friends : bytes := str
  "CREATE TABLE IF NOT EXISTS friends (  id INT AUTO_INCREMENT PRIMARY KEY,  uid1 INT NOT NULL,  uid2 INT NOT NULL,  created_at DATETIME(3) NOT NULL DEFAULT CURRENT_TIMESTAMP(3),  UNIQUE INDEX idx_pair ((LEAST(uid1,uid2)), (GREATEST(uid1,uid2))),  INDEX idx_uid1 (uid1),  INDEX idx_uid2 (uid2)) ENGINE=InnoDB DEFAULT CHARSET=utf8mb4".
Definition create_friend_reqs : bytes := str
  "CREATE TABLE IF NOT EXISTS friend_requests (  id INT AUTO_INCREMENT PRIMARY KEY,  from_uid INT NOT NULL,  to_uid INT NOT NULL,  message VARCHAR(255) DEFAULT '',  status TINYINT(1) NOT NULL DEFAULT 0,  created_at DATETIME(3) NOT NULL DEFAULT CURRENT_TIMESTAMP(3),  INDEX idx_to_uid (to_uid),  INDEX idx_from_uid (from_uid)) ENGINE=InnoDB DEFAULT CHARSET=utf8mb4".

(** Statements up to the first that fails. *)
Fixpoint run_all (sqls : list bytes) : M DB bool :=
  match sqls with
  | [] => mret true
  | q :: qs => ok ← query q; if (ok : bool) then run_all qs else mret false
  end.

Definition connect_db : M DB bool :=
  d ← get_st;
  (if my_handle d then modify (λ d, mkMySql (my_handle d) (mysql_close (my_session d))) else mret tt) ;;
  h ← session_call mysql_init;
  modify (λ d, mkMySql h (my_session d)) ;;
  if negb h then mret false
  else
    ok ← session_call (mysql_real_connect (DB_HOST env) (DB_USER env) (DB_PASS env) (DB_NAME env) (DB_PORT env));
    if negb ok then mret false
    else run_all [create_users; create_msgs; create_friends; create_friend_reqs].

(** [mysql_ && !mysql_ping(mysql_)], or a new connection *)
Definition ensure_connected : M DB bool :=
  d ← get_st;
  alive ← (if my_handle d then session_call mysql_ping else mret false);
  if (alive : bool) then mret true else connect_db.
End Methods.

(** ** Statements, with the user's strings already escaped *)

Definition sql_user_exists (u : bytes) : bytes := str "SELECT uid FROM users WHERE username='" ++ u ++ str "'".
Definition sql_register (u p : bytes) : bytes :=
  str "INSERT INTO users (username,password_hash) VALUES ('" ++ u ++ str "',SHA2('" ++ p ++ str "',256))".
Definition sql_login (u p : bytes) : bytes :=
  str "SELECT uid FROM users WHERE username='" ++ u ++ str "' AND password_hash=SHA2('" ++ p ++ str "',256)".
Definition sql_offline (uid : Z) : bytes :=
  str "SELECT id,from_uid,to_uid,content FROM messages WHERE to_uid=" ++ to_string uid ++
  str " AND delivered=0 ORDER BY id".
Definition sql_search (k : bytes) : bytes :=
  str "SELECT uid,username FROM users WHERE username LIKE '%" ++ k ++ str "%' LIMIT 20".
Definition sql_friends_check (a b : Z) : bytes :=
  str "SELECT id FROM friends WHERE (uid1=LEAST(" ++ to_string a ++ str "," ++ to_string b ++
  str ") AND uid2=GREATEST(" ++ to_string a ++ str "," ++ to_string b ++ str "))".
Definition sql_request_check (a b : Z) : bytes :=
  str "SELECT id FROM friend_requests WHERE from_uid=" ++ to_string a ++ str " AND to_uid=" ++ to_string b ++
  str " AND status=0".
Definition sql_add_request (a b : Z) (m : bytes) : bytes :=
  str "INSERT INTO friend_requests (from_uid,to_uid,message) VALUES (" ++ to_string a ++ str "," ++
  to_string b ++ str ",'" ++ m ++ str "')".
Definition sql_find_request (id acceptor : Z) : bytes :=
  str "SELECT from_uid,to_uid FROM friend_requests WHERE id=" ++ to_string id ++ str " AND to_uid=" ++
  to_string acceptor ++ str " AND status=0".
Definition sql_accept (id : Z) : bytes :=
  str "UPDATE friend_requests SET status=1 WHERE id=" ++ to_string id.
Definition sql_add_friends (a b : Z) : bytes :=
  str "INSERT INTO friends (uid1,uid2) VALUES (" ++ to_string (Z.min a b) ++ str "," ++
  to_string (Z.max a b) ++ str ")".
Definition sql_friends (uid : Z) : bytes :=
  str "SELECT u.uid,u.username FROM users u INNER JOIN friends f ON (u.uid=f.uid1 OR u.uid=f.uid2) WHERE (f.uid1="
  ++ to_string uid ++ str " OR f.uid2=" ++ to_string uid ++ str ") AND u.uid!=" ++ to_string uid.
Definition sql_pending (uid : Z) : bytes :=
  str "SELECT fr.id,fr.from_uid,u.username,fr.message FROM friend_requests fr INNER JOIN users u ON fr.from_uid=u.uid WHERE fr.to_uid="
  ++ to_string uid ++ str " AND fr.status=0 ORDER BY fr.id DESC".
Definition sql_username (uid : Z) : bytes := str "SELECT username FROM users WHERE uid=" ++ to_string uid.
Definition sql_mark (uid max_id : Z) : bytes :=
  str "UPDATE messages SET delivered=1 WHERE to_uid=" ++ to_string uid ++ str " AND delivered=0 AND id<=" ++
  to_string max_id.
(** One tuple of the batch insert; the first has no comma in front. *)
Definition sql_tuple (first : bool) (from to : Z) (t : bytes) (delivered : bool) : bytes :=
  (if first then [] else str ",") ++ str "(" ++ to_string from ++ str "," ++ to_string to ++ str ",'" ++ t ++
  str "'," ++ (if delivered then str "1" else str "0") ++ str ")".
Definition sql_insert_head : bytes := str "INSERT INTO messages (from_uid,to_uid,content,delivered) VALUES ".

(** ** Methods *)

Section Queries.
Context {env : environment} {S : Type} `{MySql S}.
Let DB := MySqlDB env S.
Implicit Types (row : sql_row).

(** [row[k]] *)
Definition col (k : nat) row : M DB (option bytes) := deref (row !! k) OutOfBounds.
(** [std::stoi(row[k])]: a null pointer makes the string's constructor throw. *)
Definition number (parse : bytes → option Z) (k : nat) row : M DB Z :=
  v ← col k row;
  match v ≫= parse ∘ c_str with Some z => mret z | None => throw end.
(** [row[k] ? row[k] : ""] *)
Definition text (k : nat) row : M DB bytes := v ← col k row; mret (c_str (default [] v)).

Fixpoint each_row {A} (f : sql_row → M DB A) (rows : list sql_row) : M DB (list A) :=
  match rows with
  | [] => mret []
  | r :: rs => a ← f r; l ← each_row f rs; mret (a :: l)
  end.

(** [mysql_query] and [mysql_store_result]; [None]: the query failed or there
    is no result. *)
Definition fetch (sql : bytes) : M DB (option (list sql_row)) :=
  ok ← query sql;
  if (ok : bool) then store_result else mret None.

(** [if (mysql_query(...) == 0) { res = ...; if (res && mysql_num_rows(res) > 0) ... }] *)
Definition has_rows (sql : bytes) : M DB bool :=
  r ← fetch sql; mret (match r with Some (_ :: _) => true | _ => false end).

(** The rows, each converted by [f]. *)
Definition fetch_all {A} (sql : bytes) (f : sql_row → M DB A) : M DB (list A) :=
  r ← fetch sql;
  match r with Some rows => each_row f rows | None => mret [] end.

(** A [SELECT] whose failure is an empty list. *)
Definition select {A} (sql : bytes) (f : sql_row → M DB A) : M DB (list A) :=
  ok ← ensure_connected;
  if negb ok then mret [] else fetch_all sql f.

Definition my_register_user (username password : bytes) : M DB Z :=
  ok ← ensure_connected;
  if negb ok then mret (-1)%Z
  else
    u ← esc username;
    taken ← has_rows (sql_user_exists u);
    if (taken : bool) then mret (-2)%Z
    else
      u ← esc username;
      p ← esc password;
      ok ← query (sql_register u p);
      if negb ok then mret (-1)%Z else insert_id.

Definition my_verify_login (username password : bytes) : M DB Z :=
  ok ← ensure_connected;
  if negb ok then mret (-1)%Z
  else
    u ← esc username;
    p ← esc password;
    r ← fetch (sql_login u p);
    match r with
    | Some (row :: _) => number stoi 0 row
    | _ => mret (-1)%Z
    end.

Definition my_query_offline_messages (uid : Z) : M DB (list DBChatMessage) :=
  select (sql_offline uid) (λ row,
    i ← number stoll 0 row; f ← number stoi 1 row; t ← number stoi 2 row; c ← text 3 row;
    mret (mkDBMsg i f t c 0 false)).

Definition my_search_users (keyword : bytes) : M DB (list (Z * bytes)) :=
  ok ← ensure_connected;
  if negb ok then mret []
  else
    k ← esc keyword;
    fetch_all (sql_search k) (λ row, u ← number stoi 0 row; n ← text 1 row; mret (u, n)).

Definition my_add_friend_request (from_uid to_uid : Z) (msg : bytes) : M DB Z :=
  ok ← ensure_connected;
  if negb ok then mret (-1)%Z
  else
    friends ← has_rows (sql_friends_check from_uid to_uid);
    if (friends : bool) then mret (-2)%Z
    else
      dup ← has_rows (sql_request_check from_uid to_uid);
      if (dup : bool) then mret (-3)%Z
      else
        m ← esc msg;
        ok ← query (sql_add_request from_uid to_uid m);
        if negb ok then mret (-1)%Z else insert_id.

Definition my_accept_friend_request (request_id acceptor_uid : Z) : M DB Z :=
  ok ← ensure_connected;
  if negb ok then mret (-1)%Z
  else
    r ← fetch (sql_find_request request_id acceptor_uid);
    match r with
    | Some (row :: _) =>
        from_uid ← number stoi 0 row;
        to_uid ← number stoi 1 row;
        query (sql_accept request_id) ;;
        ok ← query (sql_add_friends from_uid to_uid);
        mret (if (ok : bool) then from_uid else (-1)%Z)
    | _ => mret (-1)%Z
    end.

Definition my_get_friends (uid : Z) : M DB (list (Z * bytes)) :=
  select (sql_friends uid) (λ row, u ← number stoi 0 row; n ← text 1 row; mret (u, n)).

Definition my_get_pending_requests (uid : Z) : M DB (list (Z * Z * bytes * bytes)) :=
  select (sql_pending uid) (λ row,
    i ← number stoi 0 row; f ← number stoi 1 row; n ← text 2 row; m ← text 3 row; mret (i, f, n, m)).

Definition my_get_username (uid : Z) : M DB bytes :=
  ok ← ensure_connected;
  if negb ok then mret []
  else
    r ← fetch (sql_username uid);
    match r with Some (row :: _) => text 0 row | _ => mret [] end.

Definition my_mark_delivered (uid max_id : Z) : M DB unit :=
  ok ← ensure_connected;
  if negb ok then mret tt else query (sql_mark uid max_id) ;; mret tt.

(** The batch of [loop]: without a connection, or when the statement fails, it
    is gone. *)
Fixpoint sql_tuples (first : bool) (batch : list DBChatMessage) : M DB bytes :=
  match batch with
  | [] => mret []
  | m :: ms =>
      t ← esc (dm_content m);
      rest ← sql_tuples false ms;
      mret (sql_tuple first (dm_from m) (dm_to m) t (dm_delivered m) ++ rest)
  end.
Definition my_store_batch (batch : list DBChatMessage) : M DB unit :=
  ok ← ensure_connected;
  if negb ok then mret tt
  else
    ts ← sql_tuples true batch;
    query (sql_insert_head ++ ts) ;; mret tt.

#[export] Instance mysql_backend : Backend DB := {|
  be_register := my_register_user;
  be_verify := my_verify_login;
  be_offline := my_query_offline_messages;
  be_search := my_search_users;
  be_add_friend := my_add_friend_request;
  be_accept := my_accept_friend_request;
  be_friends := my_get_friends;
  be_pending := my_get_pending_requests;
  be_mark := my_mark_delivered;
  be_store_batch := my_store_batch |}.
End Queries.
