(* ===== verification/Storage.v ===== *)
(** * Choosing the storage (src/db_writer.cpp, the constructor)

    [use_file_storage_] is set once, when no MySQL server could be reached; a
    value of [storage] is that choice with the state of the chosen branch. *)

From S2P Require Import Prelude Bytes Config Scan Json RefCodec FileStore Persist DbWriter MySqlStore.

Section Storage.
Context {hasher : bytes → Z} {env : environment} {S : Type} `{JsonText} `{MySql S}.

Inductive storage :=
  | OnFiles (d : HashedDB hasher)      (* use_file_storage_ *)
  | OnMySql (d : MySqlDB env S).

(** [if (use_file_storage_) { ...; return ...; } ...] *)
Definition branch {A} (f : M (HashedDB hasher) A) (m : M (MySqlDB env S) A) : M storage A := λ st,
  match st with
  | OnFiles d =>
      match f d with Ret a d' => Ret a (OnFiles d') | Throw d' => Throw (OnFiles d') | Crash r => Crash r end
  | OnMySql d =>
      match m d with Ret a d' => Ret a (OnMySql d') | Throw d' => Throw (OnMySql d') | Crash r => Crash r end
  end.

#[export] Instance storage_backend : Backend storage := {|
  be_register u p := branch (be_register u p) (be_register u p);
  be_verify u p := branch (be_verify u p) (be_verify u p);
  be_offline u := branch (be_offline u) (be_offline u);
  be_search k := branch (be_search k) (be_search k);
  be_add_friend a b m := branch (be_add_friend a b m) (be_add_friend a b m);
  be_accept i a := branch (be_accept i a) (be_accept i a);
  be_friends u := branch (be_friends u) (be_friends u);
  be_pending u := branch (be_pending u) (be_pending u);
  be_mark u n := branch (be_mark u n) (be_mark u n);
  be_store_batch ms := branch (be_store_batch ms) (be_store_batch ms) |}.

(** The constructor, from the files on disk and a database session.  [None]: an
    exception of [load_file_data] leaves it while the writer thread runs, and
    the process ends. *)
Definition new_writer (k : disk) (s : S) : option (DBBatchWriter storage) :=
  match connect_db (mkMySql (env := env) false s) with
  | Ret true d => Some (mkWriter [] true (OnMySql d))
  | Ret false _ => d ← load_file_data k; Some (mkWriter [] true (OnFiles (mkHashed d)))
  | _ => None
  end.
End Storage.
Arguments storage : clear implicits.
