(* ===== verification/World.v ===== *)
(** * The server's shared state (include/globals.h) and the calls between threads

    One record, [Server], holds every object the threads share: the context
    heap, the connection objects, the workers, the session table and the
    globals [g_workers], [g_db_writer], [g_streaming_ai] and [g_conn_count].
    [std::function] values are data: [functor] for what a worker's loop runs,
    [task] for what the thread pool runs.  The clocks are two fields; time
    passes between operations, not inside one. *)

From S2P Require Import Prelude Bytes Config Protocol Timer ThreadPool Context EventLoop Session.
From S2P Require Import AiManager FileStore DbWriter.

(** ** Data *)

Definition conn_id := nat.

(** The closures given to [queue_in_loop] by the three [queue_...] methods of
    [Worker]. *)
Inductive functor :=
  | FAdd (f : Z) (ip : bytes) (port : Z)
  | FSend (c : ctx_id) (command sequence : Z) (body : bytes)
  | FClose (f : Z).

(** The closures given to the thread pool. *)
Inductive task :=
  | TBusiness (c : ctx_id) (head : PacketHeader) (body : bytes)
  | TStream (r : req_id).

(** include/connection.h *)
Record TcpConnection := mkConn {
  tc_owner : worker_id;
  tc_fd : Z;
  tc_ip : bytes;
  tc_port : Z;
  tc_ctx : ctx_id;
  tc_closed : bool
}.

(** include/worker.h.  A timer's callback closes a descriptor, so it is that
    descriptor; [data.ptr] of an epoll entry is a connection. *)
Record Worker := mkWorker {
  loop_ : EventLoop functor conn_id;
  pool_ : ContextPool;
  connections_ : gmap Z conn_id;
  timer_ : Timer Z;
  heartbeat_timers_ : gmap Z TimerNodeBase
}.

Record Server (B : Type) := mkServer {
  sv_env : environment;
  sv_mono_ns : Z;                         (* steady_clock *)
  sv_wall_ms : Z;                         (* system_clock *)
  sv_heap : ctx_heap;
  sv_conns : gmap conn_id TcpConnection;  (* live connection objects *)
  sv_next_conn : conn_id;
  sv_open_fds : gset Z;                   (* descriptors of the process *)
  sv_workers : gmap worker_id Worker;
  sv_sessions : SessionManager;
  sv_ai : option StreamingAIManager;      (* g_streaming_ai *)
  sv_db : option (DBBatchWriter B);       (* g_db_writer *)
  sv_pool : option (ThreadPool task);     (* g_workers *)
  sv_conn_count : Z                       (* g_conn_count *)
}.
Arguments mkServer {B}.
Arguments sv_env {B} s.
Arguments sv_mono_ns {B} s.
Arguments sv_wall_ms {B} s.
Arguments sv_heap {B} s.
Arguments sv_conns {B} s.
Arguments sv_next_conn {B} s.
Arguments sv_open_fds {B} s.
Arguments sv_workers {B} s.
Arguments sv_sessions {B} s.
Arguments sv_ai {B} s.
Arguments sv_db {B} s.
Arguments sv_pool {B} s.
Arguments sv_conn_count {B} s.

(** ** Assignments *)

Section World.
Context {B : Type}.
Implicit Types (s : Server B).

Definition set_heap h s : Server B :=
  mkServer (sv_env s) (sv_mono_ns s) (sv_wall_ms s) h (sv_conns s) (sv_next_conn s) (sv_open_fds s)
    (sv_workers s) (sv_sessions s) (sv_ai s) (sv_db s) (sv_pool s) (sv_conn_count s).
Definition set_conns cs n s : Server B :=
  mkServer (sv_env s) (sv_mono_ns s) (sv_wall_ms s) (sv_heap s) cs n (sv_open_fds s)
    (sv_workers s) (sv_sessions s) (sv_ai s) (sv_db s) (sv_pool s) (sv_conn_count s).
Definition set_open_fds o s : Server B :=
  mkServer (sv_env s) (sv_mono_ns s) (sv_wall_ms s) (sv_heap s) (sv_conns s) (sv_next_conn s) o
    (sv_workers s) (sv_sessions s) (sv_ai s) (sv_db s) (sv_pool s) (sv_conn_count s).
Definition set_workers ws s : Server B :=
  mkServer (sv_env s) (sv_mono_ns s) (sv_wall_ms s) (sv_heap s) (sv_conns s) (sv_next_conn s)
    (sv_open_fds s) ws (sv_sessions s) (sv_ai s) (sv_db s) (sv_pool s) (sv_conn_count s).
Definition set_sessions t s : Server B :=
  mkServer (sv_env s) (sv_mono_ns s) (sv_wall_ms s) (sv_heap s) (sv_conns s) (sv_next_conn s)
    (sv_open_fds s) (sv_workers s) t (sv_ai s) (sv_db s) (sv_pool s) (sv_conn_count s).
Definition set_ai a s : Server B :=
  mkServer (sv_env s) (sv_mono_ns s) (sv_wall_ms s) (sv_heap s) (sv_conns s) (sv_next_conn s)
    (sv_open_fds s) (sv_workers s) (sv_sessions s) a (sv_db s) (sv_pool s) (sv_conn_count s).
Definition set_db d s : Server B :=
  mkServer (sv_env s) (sv_mono_ns s) (sv_wall_ms s) (sv_heap s) (sv_conns s) (sv_next_conn s)
    (sv_open_fds s) (sv_workers s) (sv_sessions s) (sv_ai s) d (sv_pool s) (sv_conn_count s).
Definition set_pool p s : Server B :=
  mkServer (sv_env s) (sv_mono_ns s) (sv_wall_ms s) (sv_heap s) (sv_conns s) (sv_next_conn s)
    (sv_open_fds s) (sv_workers s) (sv_sessions s) (sv_ai s) (sv_db s) p (sv_conn_count s).
Definition set_count n s : Server B :=
  mkServer (sv_env s) (sv_mono_ns s) (sv_wall_ms s) (sv_heap s) (sv_conns s) (sv_next_conn s)
    (sv_open_fds s) (sv_workers s) (sv_sessions s) (sv_ai s) (sv_db s) (sv_pool s) n.
Definition set_clocks mono wall s : Server B :=
  mkServer (sv_env s) mono wall (sv_heap s) (sv_conns s) (sv_next_conn s)
    (sv_open_fds s) (sv_workers s) (sv_sessions s) (sv_ai s) (sv_db s) (sv_pool s) (sv_conn_count s).

Definition set_loop (l : EventLoop functor conn_id) (k : Worker) : Worker :=
  mkWorker l (pool_ k) (connections_ k) (timer_ k) (heartbeat_timers_ k).
Definition set_ctx_pool (p : ContextPool) (k : Worker) : Worker :=
  mkWorker (loop_ k) p (connections_ k) (timer_ k) (heartbeat_timers_ k).
Definition set_connections (m : gmap Z conn_id) (k : Worker) : Worker :=
  mkWorker (loop_ k) (pool_ k) m (timer_ k) (heartbeat_timers_ k).
Definition set_timers (t : Timer Z) (hb : gmap Z TimerNodeBase) (k : Worker) : Worker :=
  mkWorker (loop_ k) (pool_ k) (connections_ k) t hb.

(** ** Reading through pointers *)

(** [duration_cast<seconds>], [GetTick()] of the steady clock. *)
Definition now_sec s : Z := Z.quot (sv_mono_ns s) 1000000000.
Definition GetTick s : Z := Z.quot (sv_mono_ns s) 1000000.

Definition ctx_of (c : ctx_id) : M (Server B) ClientContext := λ s,
  match ctxs (sv_heap s) !! c with Some x => Ret x s | None => Crash UseAfterFree end.
Definition mod_ctx (c : ctx_id) (f : ClientContext → ClientContext) : M (Server B) unit :=
  modify (λ s, set_heap (upd_ctx c f (sv_heap s)) s).

Definition worker_of (w : worker_id) : M (Server B) Worker := λ s,
  match sv_workers s !! w with Some k => Ret k s | None => Crash UseAfterFree end.
Definition mod_worker (w : worker_id) (f : Worker → Worker) : M (Server B) unit :=
  modify (λ s, set_workers (alter f w (sv_workers s)) s).

Definition conn_of (c : conn_id) : M (Server B) TcpConnection := λ s,
  match sv_conns s !! c with Some t => Ret t s | None => Crash UseAfterFree end.

(** [ctx->owner_worker->...] *)
Definition owner_of (c : ctx_id) : M (Server B) worker_id :=
  x ← ctx_of c; deref (owner_worker x) NullDeref.

(** [g_streaming_ai->...], [g_workers->...] *)
Definition with_ai {A} (f : StreamingAIManager → A * StreamingAIManager) : M (Server B) A := λ s,
  match sv_ai s with
  | Some a => let '(r, a') := f a in Ret r (set_ai (Some a') s)
  | None => Crash NullDeref
  end.
Definition enqueue_task (t : task) : M (Server B) bool := λ s,
  match sv_pool s with
  | Some p => let '(r, p') := enqueue t p in Ret r (set_pool (Some p') s)
  | None => Crash NullDeref
  end.

(** A call on [g_db_writer] when it is not null. *)
Definition on_db {A} (d : DBBatchWriter B) (m : M (DBBatchWriter B) A) : M (Server B) A := λ s,
  match m d with
  | Ret a d' => Ret a (set_db (Some d') s)
  | Throw d' => Throw (set_db (Some d') s)
  | Crash r => Crash r
  end.

(** ** Calls into a worker from any thread *)

Definition queue_functor (w : worker_id) (f : functor) : M (Server B) unit :=
  worker_of w ;; mod_worker w (λ k, set_loop (queue_in_loop f (loop_ k)) k).
Definition queue_add_connection (w : worker_id) (f : Z) (ip : bytes) (port : Z) : M (Server B) unit :=
  queue_functor w (FAdd f ip port).
Definition queue_send_packet (w : worker_id) (c : ctx_id) (command sequence : Z) (body : bytes)
    : M (Server B) unit :=
  queue_functor w (FSend c command sequence body).
Definition queue_close_connection (w : worker_id) (f : Z) : M (Server B) unit :=
  queue_functor w (FClose f).

(** [ctx->owner_worker->queue_send_packet(ctx, cmd, seq, body)] *)
Definition reply (c : ctx_id) (command : CmdType) (sequence : Z) (body : bytes) : M (Server B) unit :=
  w ← owner_of c; queue_send_packet w c (cmd_val command) sequence body.

(** ** The session table *)

(** [SessionManager::bind].  The bucket's lock is released around the call
    that closes the old connection. *)
Definition bind (uid : Z) (c : ctx_id) : M (Server B) unit :=
  s ← get_st;
  (match bind_find uid (sv_sessions s) with
   | Some old =>
       x ← ctx_of old;
       if (fd x =? -1)%Z then mret tt
       else w ← deref (owner_worker x) NullDeref; queue_close_connection w (fd x)
   | None => mret tt
   end) ;;
  mod_ctx c (set_session uid) ;;
  modify (λ s, set_sessions (bind_store uid c (sv_sessions s)) s).

(** [SessionManager::unbind], [SessionManager::get] *)
Definition unbind_session (uid : Z) : M (Server B) unit :=
  modify (λ s, set_sessions (unbind uid (sv_sessions s)) s).
Definition session_of (uid : Z) : M (Server B) (option ctx_id) :=
  gets (λ s, get_session uid (sv_sessions s)).
End World.
