(* ===== verification/Business.v ===== *)
(** * The request handler (src/business.cpp)

    [process_business] runs on a thread of the pool for every packet a client
    sent.  One definition per command; [process_business] puts the rate
    limit in front and the [try]/[catch] around them. *)

From S2P Require Import Prelude Bytes Config Protocol Timer ThreadPool Context EventLoop Session.
From S2P Require Import Json RefCodec AiManager FileStore DbWriter World.

Definition AI_UID : Z := 9999.

Section Business.
Context {B : Type} `{Backend B} `{Protobuf}.
Implicit Types (c : ctx_id) (sequence : Z) (body : bytes).

(** A [Response] whose other fields are left at their defaults. *)
Definition fail_resp (text : bytes) : Response := mkResponse false text 0.

(** [resp.SerializeToString(&out); ctx->owner_worker->queue_send_packet(ctx, ACK, hdr.seq, out);] *)
Definition ack c sequence (r : Response) : M (Server B) unit :=
  reply c ACK sequence (SerializeToString r).

Definition uid_of c : M (Server B) Z := x ← ctx_of c; mret (uid x).

(** A method of [g_db_writer] that goes to the backend. *)
Definition db_call {A} (m : M B A) : M (Server B) A :=
  s ← get_st;
  match sv_db s with Some d => on_db d (lift m) | None => crash NullDeref end.
Definition has_db : M (Server B) bool := gets (λ s, bool_decide (is_Some (sv_db s))).

(** [if (g_db_writer) g_db_writer->submit({...})] *)
Definition store_chat (from to : Z) (text : bytes) (delivered : bool) : M (Server B) unit :=
  s ← get_st;
  match sv_db s with
  | Some d => on_db d (submit (mkDBMsg 0 from to text (sv_wall_ms s) delivered))
  | None => mret tt
  end.

Definition unavailable : Response := fail_resp (str "服务暂不可用").

(** ** Rate limit *)

(** [true]: the message is over the limit. *)
Definition rate_limited c : M (Server B) bool :=
  s ← get_st;
  x ← ctx_of c;
  let now := now_sec s in
  let window := RATE_LIMIT_WINDOW (sv_env s) in
  let '(start, count) :=
    if (rate_window_start x =? 0)%Z || (now - rate_window_start x >? window)%Z
    then (now, 0%Z) else (rate_window_start x, rate_msg_count x) in
  let count' := wrap_i32 (count + 1) in
  mod_ctx c (set_rate start count') ;;
  mret (count' >? RATE_LIMIT_MSGS (sv_env s))%Z.

(** ** LOGIN *)

Definition deliver_offline c (m : DBChatMessage) : M (Server B) unit :=
  s ← get_st;
  let cm := mkChat (dm_from m) (dm_to m) (dm_content m) (sv_wall_ms s) false false 0 in
  reply c CHAT 0 (SerializeToString cm).

Definition handle_login c sequence body : M (Server B) unit :=
  match ParseFromString body : option LoginRequest with
  | None => mret tt
  | Some req =>
      db ← has_db;
      u ← (if (db : bool) then db_call (be_verify (login_username req) (login_password req)) else mret (-1)%Z);
      if (0 <? u)%Z then
        bind u c ;;
        db ← has_db;
        (if (db : bool) then
           offline ← db_call (be_offline u);
           match offline with
           | [] => mret tt
           | _ => for_each (deliver_offline c) offline ;; db_call (be_mark u INT64_MAX)
           end
         else mret tt) ;;
        ack c sequence (mkResponse true (str "login success") u)
      else ack c sequence (fail_resp (str "用户名或密码错误"))
  end.

(** ** CHAT *)

Definition handle_ai_chat c sequence (m : ChatMessage) : M (Server B) unit :=
  u ← uid_of c;
  x ← ctx_of c;
  s ← get_st;
  ok ← with_ai (submit_stream_request (bool_decide (is_Some (owner_worker x))) (fd x) u (content m) c
                                      (sv_mono_ns s));
  if (ok : bool) then mret tt
  else ack c sequence (mkResponse false (str "AI服务繁忙，请稍后再试") u).

Definition set_from_uid (u : Z) (m : ChatMessage) : ChatMessage :=
  mkChat u (to_uid m) (content m) (timestamp m) (is_stream m) (is_last_chunk m) (stream_seq m).

Definition handle_chat c sequence body : M (Server B) unit :=
  match ParseFromString body : option ChatMessage with
  | None => mret tt
  | Some m =>
      if (to_uid m =? AI_UID)%Z then handle_ai_chat c sequence m
      else
        target ← session_of (to_uid m);
        u ← uid_of c;
        match target with
        | Some t =>
            reply t CHAT 0 (SerializeToString (set_from_uid u m)) ;;
            ack c sequence (mkResponse true (str "消息已发送给用户" ++ to_string (to_uid m)) u) ;;
            store_chat u (to_uid m) (content m) true
        | None =>
            store_chat u (to_uid m) (content m) false ;;
            ack c sequence
              (mkResponse false (str "用户" ++ to_string (to_uid m) ++ str "不在线，消息已存储") u)
        end
  end.

(** ** REGISTER *)

Definition handle_register c sequence body : M (Server B) unit :=
  match ParseFromString body : option RegisterRequest with
  | None => mret tt
  | Some req =>
      if bool_decide (reg_username req = []) || bool_decide (reg_password req = [])
      then ack c sequence (fail_resp (str "用户名和密码不能为空"))
      else
        db ← has_db;
        if negb db then ack c sequence unavailable
        else
          u ← db_call (be_register (reg_username req) (reg_password req));
          if (u =? -2)%Z then ack c sequence (fail_resp (str "用户名已存在"))
          else if (u <? 0)%Z then ack c sequence (fail_resp (str "注册失败，请稍后再试"))
          else
            bind u c ;;
            ack c sequence (mkResponse true (str "注册成功，您的UID是" ++ to_string u) u)
  end.

(** ** HEARTBEAT *)

Definition handle_heartbeat c sequence : M (Server B) unit :=
  u ← uid_of c; ack c sequence (mkResponse true (str "PONG") u).

(** ** Friends *)

(** A notice to another user who is logged in. *)
Definition notify (u : Z) (text : bytes) : M (Server B) unit :=
  target ← session_of u;
  match target with
  | Some t => reply t ACK 0 (SerializeToString (mkResponse true text 0))
  | None => mret tt
  end.

Definition handle_add_friend c sequence body : M (Server B) unit :=
  match ParseFromString body : option AddFriendRequest with
  | None => mret tt
  | Some req =>
      u ← uid_of c;
      r ← (if (af_to_uid req =? u)%Z then mret (mkResponse false (str "不能添加自己为好友") u)
           else
             db ← has_db;
             if negb db then mret (mkResponse false (str "服务暂不可用") u)
             else
               ret ← db_call (be_add_friend u (af_to_uid req) (af_message req));
               if (ret =? -2)%Z then mret (mkResponse false (str "已经是好友了") u)
               else if (ret =? -3)%Z
               then mret (mkResponse false (str "已发送过好友请求，请等待对方处理") u)
               else if (ret <? 0)%Z then mret (mkResponse false (str "发送失败，请稍后再试") u)
               else notify (af_to_uid req) (str "收到新的好友请求") ;;
                    mret (mkResponse true (str "好友请求已发送") u));
      ack c sequence r
  end.

Definition handle_accept_friend c sequence body : M (Server B) unit :=
  match ParseFromString body : option AcceptFriendRequest with
  | None => mret tt
  | Some req =>
      u ← uid_of c;
      db ← has_db;
      r ← (if negb db then mret (mkResponse false (str "服务暂不可用") u)
           else
             from ← db_call (be_accept (request_id req) u);
             if (from <? 0)%Z then mret (mkResponse false (str "处理失败，请求可能已过期") u)
             else notify from (str "您的好友请求已被接受") ;;
                  mret (mkResponse true (str "已添加为好友") u));
      ack c sequence r
  end.

(** The rows of a [UserList], with who is online. *)
Definition user_list (l : list (Z * bytes)) : M (Server B) UserList :=
  gets (λ s, mkUserList (map (λ p, mkFriendInfo p.1 p.2
                              (bool_decide (is_Some (get_session p.1 (sv_sessions s))))) l)).

Definition handle_friend_list c sequence : M (Server B) unit :=
  db ← has_db;
  if negb db then ack c sequence unavailable
  else
    u ← uid_of c;
    friends ← db_call (be_friends u);
    ul ← user_list friends;
    reply c FRIEND_LIST sequence (SerializeToString ul).

Definition handle_search_user c sequence body : M (Server B) unit :=
  match ParseFromString body : option SearchUserRequest with
  | None => mret tt
  | Some req =>
      db ← has_db;
      if negb db then ack c sequence unavailable
      else
        found ← db_call (be_search (keyword req));
        ul ← user_list found;
        reply c SEARCH_USER sequence (SerializeToString ul)
  end.

Definition handle_friend_requests c sequence : M (Server B) unit :=
  db ← has_db;
  if negb db then ack c sequence unavailable
  else
    u ← uid_of c;
    pending ← db_call (be_pending u);
    reply c FRIEND_REQUESTS sequence
      (SerializeToString (mkReqList (map (λ '(i, f, name, text), mkReqInfo i f name text) pending))).

(** ** Dispatch *)

Definition handle_command c (hdr : PacketHeader) body : M (Server B) unit :=
  let is_cmd k := (cmd hdr =? cmd_val k)%Z in
  let sq := seq hdr in
  if is_cmd LOGIN then handle_login c sq body
  else if is_cmd CHAT then handle_chat c sq body
  else if is_cmd REGISTER then handle_register c sq body
  else if is_cmd HEARTBEAT then handle_heartbeat c sq
  else if is_cmd ADD_FRIEND then handle_add_friend c sq body
  else if is_cmd ACCEPT_FRIEND then handle_accept_friend c sq body
  else if is_cmd FRIEND_LIST then handle_friend_list c sq
  else if is_cmd SEARCH_USER then handle_search_user c sq body
  else if is_cmd FRIEND_REQUESTS then handle_friend_requests c sq
  else mret tt.

Definition internal_error : Response := fail_resp (str "服务器内部错误").

Definition process_business c (hdr : PacketHeader) body : M (Server B) unit :=
  try_catch
    (limited ← (if (cmd hdr =? cmd_val CHAT)%Z then rate_limited c else mret false);
     if (limited : bool) then ack c (seq hdr) (fail_resp (str "消息发送过快，请稍后再试"))
     else handle_command c hdr body)
    (try_catch (ack c (seq hdr) internal_error) (mret tt)).
End Business.
