(* ===== verification/Stream.v ===== *)
(** * Running an AI stream (src/ai_manager.cpp)

    A round of the scheduler thread with its effects, and
    [process_stream_request], which the thread pool runs: it flushes what
    [LlamaClient::stream_chat] delivers to the client in numbered chunks, or
    a canned answer when the service fails.  Other threads run between two
    callbacks and while the fallback loop sleeps: [pause i] is what they do to
    the server in the [i]-th such gap. *)

From S2P Require Import Prelude Bytes Config Protocol Timer ThreadPool Context EventLoop Session.
From S2P Require Import Json RefCodec Llama AiManager FileStore DbWriter World Business.

(** ** The canned answers *)

Definition nl : bytes := [x0a].

(** [generate_fallback_response]; [time_text] is the formatted local time. *)
Definition generate_fallback_response (time_text prompt : bytes) : bytes :=
  let lower := tolower prompt in
  let has k := contains (str k) lower in
  if has "你好" || has "hi" || bool_decide (lower = str "hello") then
    str "你好！我是 AI 助手。虽然目前没有连接到外部 AI 服务，但我可以帮你解答一些基本问题。" ++ nl ++ nl ++
    str "你可以尝试：" ++ nl ++ str "- 问我关于时间、日期的问题" ++ nl ++ str "- 跟我聊天" ++ nl ++
    str "- 或者配置 AI_BASE_URL 环境变量接入真正的 AI 服务"
  else if has "帮助" || has "help" then
    str "这是 WeChat 内置 AI 助手。" ++ nl ++ nl ++
    str "当前运行在离线模式，要接入真正的 AI 服务，请设置环境变量：" ++ nl ++
    str "  export AI_BASE_URL=http://your-llm-server:port" ++ nl ++ nl ++
    str "支持的 API 格式：OpenAI-compatible /v1/chat/completions"
  else if has "时间" || has "几点" then str "现在是 " ++ time_text
  else if has "天气" then
    str "抱歉，我目前无法获取实时天气数据。要获得完整的 AI 功能，请配置 AI_BASE_URL 环境变量连接到外部 AI 服务。"
  else if has "你是谁" || has "你是什么" then
    str "我是 WeChat 内置的 AI 助手。当前运行在离线模式，只能提供基础的回答。" ++ nl ++ nl ++
    str "要获得更强大的 AI 能力，可以连接 OpenAI 兼容的 API 服务，例如：" ++ nl ++ str "- Ollama" ++ nl ++
    str "- llama.cpp server" ++ nl ++ str "- vLLM" ++ nl ++ str "- 或其他兼容 /v1/chat/completions 的服务"
  else if (length prompt <? 5)%nat then
    str "你好！有什么我可以帮你的吗？" ++ nl ++ nl ++
    str "提示：当前 AI 运行在离线模式，回答能力有限。请设置 AI_BASE_URL 接入真正的 AI 服务。"
  else
    str "收到你的消息：「" ++ take 100 prompt ++
    (if (100 <? length prompt)%nat then str "..." else []) ++ str "」" ++ nl ++ nl ++
    str "当前 AI 服务未连接，我正在离线模式下工作。" ++ nl ++ nl ++
    str "要获得智能回复，请配置 AI_BASE_URL 环境变量：" ++ nl ++
    str "  export AI_BASE_URL=http://your-llm-server:port" ++ nl ++ nl ++ str "然后重启服务器即可。".

(** [for (i = 0; i < fallback.size(); i += 15)]: the pieces, each with whether
    it is the last.  Every round drops at least one byte. *)
Definition PIECE : nat := 15.
Fixpoint pieces (fuel : nat) (text : bytes) : list (bytes * bool) :=
  match fuel, text with
  | _, [] | O, _ => []
  | S n, _ => (take PIECE text, (length text <=? PIECE)%nat) :: pieces n (drop PIECE text)
  end.

(** The locals that the callbacks of [process_stream_request] capture. *)
Record stream_local := mkLocal { buffer : bytes; last_flush : Z; conn_lost : bool }.

Definition MAX_CHUNK_SIZE : nat := 50.
Definition FLUSH_INTERVAL : Z := 80000000.   (* 80 ms *)

Section Stream.
Context {B : Type} `{Backend B} `{Protobuf} `{JsonText}.
Implicit Types (r : req_id) (c : ctx_id).

(** ** Sending *)

Definition send_stream_chunk (u : Z) c (chunk : bytes) (is_first is_last : bool) (n : Z)
    : M (Server B) unit :=
  x ← ctx_of c;
  match owner_worker x with
  | None => mret tt
  | Some w =>
      if bool_decide (chunk = []) && negb is_last then mret tt
      else
        s ← get_st;
        let m := mkChat AI_UID u chunk (sv_wall_ms s) (negb is_last || negb (bool_decide (chunk = [])))
                        is_last n in
        queue_send_packet w c (cmd_val CHAT) 0 (SerializeToString m)
  end.

(** [req->...] and [req->stream_seq++] *)
Definition request_of r : M (Server B) StreamRequest :=
  q ← with_ai (λ a, (ai_reqs a !! r, a)); deref q UseAfterFree.
Definition take_seq r : M (Server B) Z :=
  q ← request_of r; with_ai (λ a, (tt, next_seq r a)) ;; mret (sr_stream_seq q).

(** [send_error_response] *)
Definition send_error_response r (error_msg : bytes) : M (Server B) unit :=
  q ← request_of r;
  n ← take_seq r;
  send_stream_chunk (sr_uid q) (sr_ctx q) error_msg false true n.

(** ** The scheduler thread *)

Definition fd_in (s : Server B) c : Z :=
  match ctxs (sv_heap s) !! c with Some x => fd x | None => (-1)%Z end.

(** One round of [schedule_requests]; the answer of [enqueue] is ignored. *)
Definition schedule_step : M (Server B) unit :=
  s ← get_st;
  res ← with_ai (schedule_round (sv_mono_ns s) (fd_in s));
  match res with
  | Expired r => send_error_response r (str "AI服务排队超时，请稍后再试")
  | Start r => if decide (is_Some (sv_pool s)) then enqueue_task (TStream r) ;; mret tt else mret tt
  | Idle | Gone _ => mret tt
  end.

(** ** The callbacks *)

(** [on_chunk].  The exception it throws when the connection is gone is
    caught by [parse_stream_chunk], its caller. *)
Definition on_chunk r (u : Z) c (l : stream_local) (text : bytes) : M (Server B) stream_local :=
  let buf := buffer l ++ text in
  s ← get_st;
  x ← ctx_of c;
  if (fd x <? 0)%Z then mret (mkLocal buf (last_flush l) true)
  else if (MAX_CHUNK_SIZE <=? length buf)%nat || (FLUSH_INTERVAL <=? sv_mono_ns s - last_flush l)%Z
          || contains nl text
  then
    match buf with
    | [] => mret (mkLocal buf (last_flush l) (conn_lost l))
    | _ => n ← take_seq r; send_stream_chunk u c buf false false n ;;
           mret (mkLocal [] (sv_mono_ns s) (conn_lost l))
    end
  else mret (mkLocal buf (last_flush l) (conn_lost l)).

(** [on_complete] *)
Definition on_complete r (u : Z) c (l : stream_local) : M (Server B) stream_local :=
  x ← ctx_of c;
  if (fd x <? 0)%Z then mret (mkLocal (buffer l) (last_flush l) true)
  else n ← take_seq r; send_stream_chunk u c (buffer l) false true n ;;
       mret (mkLocal [] (last_flush l) (conn_lost l)).

Fixpoint run_chunks r (u : Z) c (pause : nat → Server B → Server B) (i : nat) (l : stream_local)
    (texts : list bytes) : M (Server B) stream_local :=
  match texts with
  | [] => mret l
  | t :: ts =>
      modify (pause i) ;;
      l' ← on_chunk r u c l t;
      run_chunks r u c pause (S i) l' ts
  end.

(** The fallback loop. *)
Definition send_piece r (u : Z) c (p : bytes * bool) : M (Server B) unit :=
  x ← ctx_of c;
  if (fd x <? 0)%Z then mret tt
  else n ← take_seq r; send_stream_chunk u c p.1 false p.2 n.
Fixpoint run_pieces r (u : Z) c (pause : nat → Server B → Server B) (i : nat)
    (ps : list (bytes * bool)) : M (Server B) unit :=
  match ps with
  | [] => mret tt
  | p :: ps' => send_piece r u c p ;; modify (pause i) ;; run_pieces r u c pause (S i) ps'
  end.

(** The last critical section. *)
Definition finish r c : M (Server B) unit :=
  x ← ctx_of c; with_ai (λ a, (tt, finish_stream (fd x) a)).

(** [stream_chat] around its transfer: without a handle it returns at once. *)
Definition use_handle (handle : bool) (k : nat) : M (Server B) unit :=
  if handle then with_ai (λ a, (tt, hold_handle k a)) else mret tt.
Definition drop_handle (handle : bool) (k : nat) : M (Server B) unit :=
  if handle then with_ai (λ a, (tt, release_handle k a)) else mret tt.

(** [process_stream_request], for a transfer that delivered [blocks]. *)
Definition process_stream_request r (handle transfer_ok : bool) (blocks : list bytes)
    (time_text : bytes) (pause : nat → Server B → Server B) : M (Server B) unit :=
  q ← request_of r;
  let c := sr_ctx q in
  let u := sr_uid q in
  x ← ctx_of c;
  if (fd x <? 0)%Z then finish r c
  else
    idx ← with_ai pick_client;
    client ← deref idx DivByZero;
    s ← get_st;
    use_handle handle client ;;
    let '(texts, success) := stream_chat handle transfer_ok blocks in
    l ← run_chunks r u c pause 0 (mkLocal [] (sv_mono_ns s) false) texts;
    modify (pause (length texts)) ;;
    drop_handle handle client ;;
    l' ← (if (success : bool) then on_complete r u c l else mret l);
    (if negb success && negb (conn_lost l')
     then let fallback := generate_fallback_response time_text (sr_prompt q) in
          run_pieces r u c pause (S (length texts)) (pieces (length fallback) fallback)
     else mret tt) ;;
    finish r c.
End Stream.
