(* ===== verification/Worker.v ===== *)
(** * Workers and connections (src/worker.cpp, src/connection.cpp, src/event_loop.cpp)

    A worker's thread: its loop iteration, the connection objects it owns,
    their heartbeat timers and buffers.  Descriptors, [read] and [write] are
    the kernel's: their answers are arguments of the operations. *)

From S2P Require Import Prelude Bytes Config Protocol Framing Timer ThreadPool Context EventLoop.
From S2P Require Import Session Json RefCodec AiManager FileStore DbWriter World.

(** What one call of [handle_read] and [handle_write] gets from the kernel. *)
Inductive read_end := RAgain | RClosed.   (* EAGAIN; end of file or another error *)
Inductive write_answer := WSent (n : nat) | WError.
Record io_script := mkIO { io_reads : list bytes; io_read_end : read_end; io_writes : list write_answer }.

Definition READ_EVENTS : Z := Z.lor EPOLLIN (Z.lor EPOLLRDHUP EPOLLET).
Definition WRITE_EVENTS : Z := Z.lor READ_EVENTS EPOLLOUT.

(** ** Heartbeat timers *)

(** [Worker::cancel_heartbeat_timer] *)
Definition cancel_heartbeat_timer (f : Z) (k : Worker) : Worker :=
  match heartbeat_timers_ k !! f with
  | Some b => set_timers (DelTimer b (timer_ k)).2 (delete f (heartbeat_timers_ k)) k
  | None => k
  end.

(** [Worker::start_heartbeat_timer]; [hb_sec] is [Config::HEARTBEAT_SEC()]. *)
Definition start_heartbeat_timer (now hb_sec f : Z) (k : Worker) : Worker :=
  let k := cancel_heartbeat_timer f k in
  let '(b, t) := AddTimer now (hb_sec * 1000) f (timer_ k) in
  set_timers t (<[f := b]> (heartbeat_timers_ k)) k.

Section Ops.
Context {B : Type}.
Implicit Types (s : Server B) (w : worker_id) (c : ctx_id) (p : conn_id).

Definition heartbeat w (f : Z) : M (Server B) unit :=
  s ← get_st; mod_worker w (start_heartbeat_timer (GetTick s) (HEARTBEAT_SEC (sv_env s)) f).

Definition touch c : M (Server B) unit :=
  s ← get_st; mod_ctx c (update_time (now_sec s)).

(** ** Descriptors *)

(** [::close]: the kernel also drops the descriptor from every epoll set. *)
Definition sys_close (f : Z) : M (Server B) unit :=
  modify (λ s, set_open_fds (sv_open_fds s ∖ {[ f ]})
                 (set_workers ((λ k, set_loop (remove_event f (loop_ k)) k) <$> sv_workers s) s)).

(** ** Contexts of a worker's pool *)

Definition on_pool {A} w (m : M (ctx_heap * ContextPool) A) : M (Server B) A := λ s,
  match sv_workers s !! w with
  | None => Crash UseAfterFree
  | Some k =>
      match m (sv_heap s, pool_ k) with
      | Ret a (h, q) => Ret a (set_workers (<[w := set_ctx_pool q k]> (sv_workers s)) (set_heap h s))
      | Throw _ => Throw s
      | Crash r => Crash r
      end
  end.

(** ** Life of a connection *)

(** [std::make_shared<TcpConnection>(this, fd, ip, port)] *)
Definition new_connection w (f : Z) (ip : bytes) (port : Z) : M (Server B) conn_id :=
  c ← on_pool w acquire;
  mod_ctx c (set_fd f) ;;
  touch c ;;
  s ← get_st;
  put_st (set_count (wrap_i32 (sv_conn_count s + 1))
           (set_conns (<[sv_next_conn s := mkConn w f ip port c false]> (sv_conns s))
                      (S (sv_next_conn s)) s)) ;;
  mret (sv_next_conn s).

(** [~TcpConnection], when the last [shared_ptr] goes away. *)
Definition destroy_connection p : M (Server B) unit :=
  t ← conn_of p;
  (if (0 <=? tc_fd t)%Z then sys_close (tc_fd t) else mret tt) ;;
  (if tc_closed t then mret tt
   else modify (λ s, set_count (wrap_i32 (sv_conn_count s - 1)) s)) ;;
  modify (λ s, set_conns (delete p (sv_conns s)) (sv_next_conn s) s).

(** [TcpConnection::start] *)
Definition start_connection p : M (Server B) unit :=
  t ← conn_of p;
  mod_worker (tc_owner t) (λ k, set_loop (add_event (tc_fd t) READ_EVENTS p (loop_ k)) k) ;;
  heartbeat (tc_owner t) (tc_fd t).

(** [TcpConnection::close_impl] *)
Definition close_impl p : M (Server B) unit :=
  t ← conn_of p;
  let w := tc_owner t in
  mod_worker w (λ k, set_loop (remove_event (tc_fd t) (loop_ k)) k) ;;
  x ← ctx_of (tc_ctx t);
  (if (0 <? uid x)%Z then
     with_ai (λ a, (tt, cancel_request (uid x) a)) ;;
     unbind_session (uid x)
   else mret tt) ;;
  mod_worker w (cancel_heartbeat_timer (tc_fd t)) ;;
  sys_close (tc_fd t) ;;
  modify (λ s, set_conns (<[p := mkConn w (-1) (tc_ip t) (tc_port t) (tc_ctx t) (tc_closed t)]> (sv_conns s))
                         (sv_next_conn s) s) ;;
  mod_ctx (tc_ctx t) (set_fd (-1)) ;;
  on_pool w (release (Some (tc_ctx t))) ;;
  modify (λ s, set_count (wrap_i32 (sv_conn_count s - 1)) s).

(** [TcpConnection::do_force_close] *)
Definition do_force_close p : M (Server B) unit :=
  t ← conn_of p;
  if tc_closed t then mret tt
  else
    modify (λ s, set_conns (<[p := mkConn (tc_owner t) (tc_fd t) (tc_ip t) (tc_port t) (tc_ctx t) true]>
                             (sv_conns s)) (sv_next_conn s) s) ;;
    close_impl p.

(** [Worker::force_close_in_loop]; the local [shared_ptr] is the last one. *)
Definition force_close_in_loop w (f : Z) : M (Server B) unit :=
  k ← worker_of w;
  match connections_ k !! f with
  | None => mret tt
  | Some p =>
      mod_worker w (λ k, set_connections (delete f (connections_ k)) k) ;;
      do_force_close p ;;
      destroy_connection p
  end.

(** [Worker::add_connection_in_loop]; a connection that was stored under the
    same descriptor is destroyed by the assignment. *)
Definition add_connection_in_loop w (f : Z) (ip : bytes) (port : Z) : M (Server B) unit :=
  p ← new_connection w f ip port;
  k ← worker_of w;
  mod_worker w (λ k, set_connections (<[f := p]> (connections_ k)) k) ;;
  (match connections_ k !! f with Some old => destroy_connection old | None => mret tt end) ;;
  start_connection p.

(** ** Sending *)

(** [TcpConnection::send] *)
Definition send p (data : bytes) : M (Server B) unit :=
  t ← conn_of p;
  if tc_closed t then mret tt
  else
    x ← ctx_of (tc_ctx t);
    s ← get_st;
    if (Z.of_nat (length (send_buf x) + length data) >? MAX_SEND_BUF (sv_env s))%Z
    then queue_close_connection (tc_owner t) (tc_fd t)
    else
      mod_ctx (tc_ctx t) (set_send_buf (send_buf x ++ data)) ;;
      if writing x then mret tt
      else
        mod_ctx (tc_ctx t) (set_writing true) ;;
        mod_worker (tc_owner t) (λ k, set_loop (update_event (tc_fd t) WRITE_EVENTS p (loop_ k)) k).

(** [Worker::send_packet_in_loop] *)
Definition send_packet_in_loop w c (command sequence : Z) (body : bytes) : M (Server B) unit :=
  x ← ctx_of c;
  if (fd x <? 0)%Z then mret tt
  else
    k ← worker_of w;
    match connections_ k !! fd x with
    | None => mret tt
    | Some p => send p (make_packet command sequence body)
    end.

(** ** Socket events *)

(** The loop of [TcpConnection::handle_write]: the bytes the kernel took.  No
    answer left is [EAGAIN]. *)
Fixpoint handle_write p (answers : list write_answer) : M (Server B) bytes :=
  t ← conn_of p;
  x ← ctx_of (tc_ctx t);
  match send_buf x with
  | [] =>
      mod_ctx (tc_ctx t) (set_writing false) ;;
      mod_worker (tc_owner t) (λ k, set_loop (update_event (tc_fd t) READ_EVENTS p (loop_ k)) k) ;;
      mret []
  | _ =>
      match answers with
      | [] => mret []
      | WSent (S n) :: rest =>
          mod_ctx (tc_ctx t) (set_send_buf (drop (S n) (send_buf x))) ;;
          out ← handle_write p rest;
          mret (take (S n) (send_buf x) ++ out)
      | _ => force_close_in_loop (tc_owner t) (tc_fd t) ;; mret []
      end
  end.

(** The first loop of [TcpConnection::handle_read]. *)
Definition read_chunk p (data : bytes) : M (Server B) unit :=
  t ← conn_of p;
  x ← ctx_of (tc_ctx t);
  mod_ctx (tc_ctx t) (set_recv_buf (recv_buf x ++ data)) ;;
  touch (tc_ctx t) ;;
  heartbeat (tc_owner t) (tc_fd t).

(** [TcpConnection::handle_read].  [enqueue]'s answer is ignored. *)
Definition handle_read p (chunks : list bytes) (e : read_end) : M (Server B) unit :=
  for_each (read_chunk p) chunks ;;
  t ← conn_of p;
  match e with
  | RClosed => force_close_in_loop (tc_owner t) (tc_fd t)
  | RAgain =>
      x ← ctx_of (tc_ctx t);
      let '(frames, rest, ok) := parse_frames (recv_buf x) in
      mod_ctx (tc_ctx t) (set_recv_buf rest) ;;
      for_each (λ fr, enqueue_task (TBusiness (tc_ctx t) fr.1 fr.2) ;; mret tt) frames ;;
      if ok then mret tt else force_close_in_loop (tc_owner t) (tc_fd t)
  end.

(** [TcpConnection::handle_events]: [this] may be gone after [handle_read]. *)
Definition handle_events p (revents : Z) (io : io_script) : M (Server B) bytes :=
  if has_event revents (Z.lor EPOLLHUP (Z.lor EPOLLERR EPOLLRDHUP)) then
    t ← conn_of p;
    force_close_in_loop (tc_owner t) (tc_fd t) ;; mret []
  else
    (if has_event revents EPOLLIN then handle_read p (io_reads io) (io_read_end io) else mret tt) ;;
    if has_event revents EPOLLOUT then handle_write p (io_writes io) else mret [].

(** ** The loop *)

Definition run_functor w (f : functor) : M (Server B) unit :=
  match f with
  | FAdd d ip port => add_connection_in_loop w d ip port
  | FSend c command sequence body => send_packet_in_loop w c command sequence body
  | FClose d => force_close_in_loop w d
  end.

(** [EventLoop::do_pending_functors] *)
Definition do_pending_functors w : M (Server B) unit :=
  k ← worker_of w;
  let '(fs, l) := swap_functors (loop_ k) in
  mod_worker w (set_loop l) ;;
  for_each (run_functor w) fs.

(** [while(timer_.CheckTimer());] -- every call that answers [true] removes
    a node, and callbacks add none. *)
Fixpoint check_timers (fuel : nat) w : M (Server B) unit :=
  match fuel with
  | O => mret tt
  | S n =>
      s ← get_st;
      k ← worker_of w;
      match CheckTimer (GetTick s) (timer_ k) with
      | (None, _) => mret tt
      | (Some node, t) =>
          mod_worker w (set_timers t (heartbeat_timers_ k)) ;;
          force_close_in_loop w (func node) ;;
          check_timers n w
      end
  end.
Definition on_loop_once w : M (Server B) unit :=
  k ← worker_of w; check_timers (length (timermap_ (timer_ k))) w.

Inductive loop_event := EvWakeup | EvConn (p : conn_id) (revents : Z) (io : io_script).

Definition dispatch w (e : loop_event) : M (Server B) unit :=
  match e with
  | EvWakeup => mod_worker w (λ k, set_loop (handle_wakeup (loop_ k)) k)
  | EvConn p revents io => handle_events p revents io ;; mret tt
  end.

(** One iteration of [EventLoop::loop] after [epoll_wait] returned [events]. *)
Definition loop_iteration w (events : list loop_event) : M (Server B) unit :=
  for_each (dispatch w) events ;;
  on_loop_once w ;;
  do_pending_functors w.

(** [Worker::Worker] *)
Definition new_worker w : M (Server B) unit := modify (λ s,
  let '(h, q) := new_ctx_pool (Z.to_nat (POOL_SIZE (sv_env s))) w (sv_heap s) in
  set_workers (<[w := mkWorker new_loop q ∅ empty_timer ∅]> (sv_workers s)) (set_heap h s)).
End Ops.
