(* ===== verification/ConnTable.v ===== *)
(** * The connection table is consistent

    The invariant that ties a worker's table of connections to the epoll set,
    the heartbeat timers, the context pool, the open descriptors and the
    connection count, and that every operation of the server keeps it. *)

From S2P Require Import Prelude Bytes Config Protocol Framing Timer ThreadPool Context EventLoop.
From S2P Require Import Session Json RefCodec AiManager FileStore DbWriter World Worker.

(** ** Invariant *)

(** The pool of worker [w] over a heap, without a claim on the contents of
    free contexts. *)
Record pool_wf (w : worker_id) (h : ctx_heap) (q : ContextPool) : Prop := {
  pw_storage : ∀ i c, storage_ q !! i = Some c →
    ∃ x, ctxs h !! c = Some x ∧ pool_idx x = Z.of_nat i ∧ owner_worker x = Some w;
  pw_nodup : NoDup (free_list_ q);
  pw_free : ∀ idx, idx ∈ free_list_ q → (0 ≤ idx)%Z ∧ is_Some (storage_ q !! Z.to_nat idx)
}.

(** The timers and the heartbeat entries are the same pairs, except that the
    node of descriptor [o] may just have been taken out to be run. *)
Record timers_but (o : option Z) (t : Timer Z) (hb : gmap Z TimerNodeBase) : Prop := {
  tb_wf : timer_wf t;
  tb_gid : (0 ≤ gid t)%Z;
  tb_entry : ∀ f b, o ≠ Some f → hb !! f = Some b ↔ mkNode b f ∈ timermap_ t;
  tb_gone : ∀ f n, o = Some f → n ∈ timermap_ t → func n ≠ f ∧ hb !! f ≠ Some (base n)
}.

(** One heartbeat entry per connection. *)
Definition timers_ok (o : option Z) (k : Worker) : Prop :=
  timers_but o (timer_ k) (heartbeat_timers_ k) ∧
  ∀ f, is_Some (heartbeat_timers_ k !! f) ↔ is_Some (connections_ k !! f).

(** The context of a connection is not free in its worker's pool. *)
Definition ctx_held (k : Worker) (c : ctx_id) (x : ClientContext) : Prop :=
  pool_idx x = (-1)%Z ∨
  ((0 ≤ pool_idx x)%Z ∧ storage_ (pool_ k) !! Z.to_nat (pool_idx x) = Some c ∧
   pool_idx x ∉ free_list_ (pool_ k)).

Section Inv.
Context {B : Type}.
Implicit Types (s : Server B).

(** A live connection object: it is in its worker's table under its own
    descriptor, which is open, and its context carries that descriptor. *)
Definition conn_ok s (p : conn_id) (t : TcpConnection) : Prop :=
  tc_closed t = false ∧ (0 ≤ tc_fd t)%Z ∧ tc_fd t ∈ sv_open_fds s ∧
  ∃ k x, sv_workers s !! tc_owner t = Some k ∧ connections_ k !! tc_fd t = Some p ∧
         ctxs (sv_heap s) !! tc_ctx t = Some x ∧ fd x = tc_fd t ∧ ctx_held k (tc_ctx t) x.

(** A descriptor that is open but not yet that of a connection. *)
Definition new_fd s (f : Z) : Prop :=
  (0 ≤ f)%Z ∧ f ∈ sv_open_fds s ∧ ∀ p t, sv_conns s !! p = Some t → tc_fd t ≠ f.

(** The descriptors that [FAdd] functors carry: those queued for worker [w],
    after those [ex w] of the batch that it is running. *)
Definition adds (fs : list functor) : list Z :=
  omap (λ f, match f with FAdd d _ _ => Some d | _ => None end) fs.
Definition queued_adds s (w : worker_id) : list Z :=
  match sv_workers s !! w with Some k => adds (pending_functors_ (loop_ k)) | None => [] end.

Record server_inv_but (o : option (worker_id * Z)) (ex : worker_id → list Z) s : Prop := {
  si_fresh_conn : ∀ p : conn_id, sv_next_conn s ≤ p → sv_conns s !! p = None;
  si_fresh_ctx : ∀ c : ctx_id, next_ctx (sv_heap s) ≤ c → ctxs (sv_heap s) !! c = None;
  si_conns : ∀ p t, sv_conns s !! p = Some t → conn_ok s p t;
  si_table : ∀ w k f p, sv_workers s !! w = Some k → connections_ k !! f = Some p →
    ∃ t, sv_conns s !! p = Some t ∧ tc_owner t = w ∧ tc_fd t = f;
  si_ctx_inj : ∀ p p' t t', sv_conns s !! p = Some t → sv_conns s !! p' = Some t' →
    tc_ctx t = tc_ctx t' → p = p';
  si_fd_inj : ∀ p p' t t', sv_conns s !! p = Some t → sv_conns s !! p' = Some t' →
    tc_fd t = tc_fd t' → p = p';
  si_watched : ∀ w k f, sv_workers s !! w = Some k →
    snd <$> interest (loop_ k) !! f = connections_ k !! f;
  si_timers : ∀ w k, sv_workers s !! w = Some k →
    timers_ok (match o with Some (w', f) => if decide (w = w') then Some f else None | None => None end) k;
  si_pools : ∀ w k, sv_workers s !! w = Some k → pool_wf w (sv_heap s) (pool_ k);
  si_count : sv_conn_count s = wrap_i32 (Z.of_nat (size (sv_conns s)));
  si_new : ∀ w f, f ∈ ex w ++ queued_adds s w → new_fd s f;
  si_new_nodup : ∀ w, NoDup (ex w ++ queued_adds s w);
  si_new_inj : ∀ w w' f, f ∈ ex w ++ queued_adds s w → f ∈ ex w' ++ queued_adds s w' → w = w'
}.
Definition server_inv (ex : worker_id → list Z) s : Prop := server_inv_but None ex s.
End Inv.

(** ** Timers *)

Lemma DelTimer_elem (b : TimerNodeBase) (t : Timer Z) (n : TimerNode Z) :
  timer_wf t → n ∈ timermap_ (DelTimer b t).2 ↔ n ∈ timermap_ t ∧ base n ≠ b.
Proof.
  intros [_ _ Hn]. unfold DelTimer. destruct (set_erase b (timermap_ t)) as [l|] eqn:E.
  - apply set_erase_Some in E as (m & pre & post & Hm & E & ->). cbn [snd timermap_].
    rewrite E in Hn |- *. rewrite fmap_app, fmap_cons in Hn.
    rewrite <- Permutation_middle, <- fmap_app in Hn. apply NoDup_cons in Hn as [Hm' _].
    assert (Hd : ∀ x, x ∈ pre ++ post → base x ≠ b).
    { intros x Hx Hb. apply Hm'. apply list_elem_of_fmap. exists x. by rewrite Hb, <- Hm. }
    setoid_rewrite elem_of_app in Hd. rewrite !elem_of_app, elem_of_cons.
    split; [|naive_solver]. intros Hx. split; [tauto|]. by apply Hd.
  - apply set_erase_None in E. rewrite Forall_forall in E. cbn [snd]. naive_solver.
Qed.

Lemma AddTimer_elem (now ms f : Z) (t : Timer Z) (n : TimerNode Z) :
  timer_wf t → (0 ≤ gid t)%Z →
  n ∈ timermap_ (AddTimer now ms f t).2 ↔ n = mkNode (AddTimer now ms f t).1 f ∨ n ∈ timermap_ t.
Proof.
  intros Hw Hg. cbn [AddTimer fst snd timermap_]. rewrite set_insert_perm.
  - apply elem_of_cons.
  - eapply Forall_impl; [exact (wf_ids t Hw)|]. simpl. lia.
Qed.

Lemma AddTimer_fresh (now ms f : Z) (t : Timer Z) (n : TimerNode Z) :
  timer_wf t → n ∈ timermap_ t → base n ≠ (AddTimer now ms f t).1.
Proof.
  intros Hw Hn. pose proof (wf_ids t Hw) as Hi. rewrite Forall_forall in Hi. apply Hi in Hn.
  cbn. intros E. rewrite E in Hn. simpl in Hn. lia.
Qed.

Lemma node_eta (n : TimerNode Z) : mkNode (base n) (func n) = n.
Proof. by destruct n. Qed.

Lemma wf_base_inj (t : Timer Z) (n m : TimerNode Z) :
  timer_wf t → n ∈ timermap_ t → m ∈ timermap_ t → base n = base m → n = m.
Proof.
  intros [_ _ Hn] (i & Hi)%list_elem_of_lookup (j & Hj)%list_elem_of_lookup Hb.
  assert (i = j) as ->; [|congruence].
  apply (NoDup_lookup _ _ _ (id (base n)) Hn); rewrite list_lookup_fmap, ?Hi, ?Hj; simpl; congruence.
Qed.

(** Cancelling: the entry and every node of that descriptor are gone, the
    others are untouched. *)
Lemma cancel_spec (o : option Z) (f : Z) (k : Worker) :
  timers_but o (timer_ k) (heartbeat_timers_ k) → o = None ∨ o = Some f →
  timers_but None (timer_ (cancel_heartbeat_timer f k))
                  (heartbeat_timers_ (cancel_heartbeat_timer f k)) ∧
  heartbeat_timers_ (cancel_heartbeat_timer f k) = delete f (heartbeat_timers_ k) ∧
  loop_ (cancel_heartbeat_timer f k) = loop_ k ∧ pool_ (cancel_heartbeat_timer f k) = pool_ k ∧
  connections_ (cancel_heartbeat_timer f k) = connections_ k.
Proof.
  intros [Hw Hg He Hgone] Ho. unfold cancel_heartbeat_timer.
  destruct (heartbeat_timers_ k !! f) as [b|] eqn:Eb; cbn [set_timers timer_ heartbeat_timers_
    loop_ pool_ connections_].
  - split_ands; try done. split; try done.
    + by apply DelTimer_wf.
    + unfold DelTimer. by case_match.
    + intros f' b' _. rewrite DelTimer_elem by done. cbn [base].
      destruct (decide (f' = f)) as [->|Hne].
      * rewrite lookup_delete_eq. split; [done|]. intros [Hin Hb]. exfalso.
        destruct Ho as [->| ->].
        -- apply He in Hin; [|done]. congruence.
        -- by destruct (Hgone f _ eq_refl Hin) as [Hf _].
      * rewrite lookup_delete_ne, He by (done || naive_solver).
        split; [|tauto]. intros Hin. split; [done|]. intros ->. destruct Ho as [->| ->].
        -- apply He in Eb; [|done]. apply Hne.
           pose proof (wf_base_inj (timer_ k) _ _ Hw Hin Eb eq_refl). congruence.
        -- by destruct (Hgone f _ eq_refl Hin) as [_ Hf].
  - rewrite delete_id by done. split_ands; try done. split; try done.
    intros f' b' _. destruct (decide (f' = f)) as [->|Hne].
    + destruct Ho as [->| ->]; [by apply He|]. split; [congruence|].
      intros Hin. by destruct (Hgone f _ eq_refl Hin) as [Hf _].
    + apply He. naive_solver.
Qed.

(** Starting: the descriptor has exactly one node, at the new deadline. *)
Lemma start_spec (now hb f : Z) (k : Worker) :
  let k' := start_heartbeat_timer now hb f k in
  timers_but None (timer_ k) (heartbeat_timers_ k) →
  timers_but None (timer_ k') (heartbeat_timers_ k') ∧
  (∃ b, heartbeat_timers_ k' = <[f := b]> (heartbeat_timers_ k) ∧ expire b = (now + hb * 1000)%Z) ∧
  loop_ k' = loop_ k ∧ pool_ k' = pool_ k ∧ connections_ k' = connections_ k.
Proof.
  intros k' Hb. destruct (cancel_spec None f k Hb (or_introl eq_refl)) as ([Hw Hg He Hgone] & Hd & Hk).
  subst k'. unfold start_heartbeat_timer.
  destruct (AddTimer now (hb * 1000) f (timer_ (cancel_heartbeat_timer f k))) as [b t] eqn:E.
  set (t0 := timer_ (cancel_heartbeat_timer f k)) in *.
  assert (Hbt : b = (AddTimer now (hb * 1000) f t0).1 ∧ t = (AddTimer now (hb * 1000) f t0).2)
    by by rewrite E.
  destruct Hbt as [Eb Et].
  cbn [set_timers timer_ heartbeat_timers_ loop_ pool_ connections_]. rewrite Hd in *.
  split_ands; [|exists b; rewrite insert_delete_eq, Eb; done|tauto..].
  split; [|subst t; cbn; lia| |done].
  - rewrite Et. by apply AddTimer_wf.
  - intros f' b' Hne. rewrite Et, AddTimer_elem by done. rewrite <- Eb.
    destruct (decide (f' = f)) as [->|Hf].
    + rewrite insert_delete_eq, lookup_insert_eq. split.
      * intros [= ->]. by left.
      * intros [[= ->]|Hin]; [done|]. apply He in Hin; [|done]. by rewrite lookup_delete_eq in Hin.
    + rewrite lookup_insert_ne by done. rewrite He by done. split; [by right|].
      intros [[= -> ->]|Hin]; done.
Qed.

(** ** Closing a connection *)

(** Reduces the projections and assignments of the state records. *)
Ltac sv_red :=
  cbn [sv_env sv_mono_ns sv_wall_ms sv_heap sv_conns sv_next_conn sv_open_fds sv_workers sv_sessions
       sv_ai sv_db sv_pool sv_conn_count set_heap set_conns set_open_fds set_workers set_sessions
       set_ai set_db set_pool set_count set_clocks loop_ pool_ connections_ timer_ heartbeat_timers_
       set_loop set_ctx_pool set_connections set_timers ctxs next_ctx upd_ctx
       tc_owner tc_fd tc_ip tc_port tc_ctx tc_closed] in *.

(** What closing connection [p] (with record [t] and context [x]) of worker
    [w] does to a worker's own state, to its context and to the server. *)
Definition closed_worker (f : Z) (x : ClientContext) (k : Worker) : Worker :=
  mkWorker (remove_event f (loop_ k))
    (if (pool_idx x =? -1)%Z then pool_ k
     else mkCtxPool (Context.owner_ (pool_ k)) (storage_ (pool_ k)) (free_list_ (pool_ k) ++ [pool_idx x]))
    (delete f (connections_ k))
    (timer_ (cancel_heartbeat_timer f k)) (heartbeat_timers_ (cancel_heartbeat_timer f k)).

Definition closed_ctx (x : ClientContext) : ClientContext :=
  if (pool_idx x =? -1)%Z then set_fd (-1) x else reset x.

Definition closed_server {B} (p : conn_id) (t : TcpConnection) (x : ClientContext) (k : Worker)
    (s : Server B) : Server B :=
  let w := tc_owner t in
  let f := tc_fd t in
  mkServer (sv_env s) (sv_mono_ns s) (sv_wall_ms s)
    (mkHeap (<[tc_ctx t := closed_ctx x]> (ctxs (sv_heap s))) (next_ctx (sv_heap s)))
    (delete p (sv_conns s)) (sv_next_conn s) (sv_open_fds s ∖ {[ f ]})
    (<[w := closed_worker f x k]> ((λ k, set_loop (remove_event f (loop_ k)) k) <$> sv_workers s))
    (if (0 <? uid x)%Z then unbind (uid x) (sv_sessions s) else sv_sessions s)
    (if (0 <? uid x)%Z then cancel_request (uid x) <$> sv_ai s else sv_ai s)
    (sv_db s) (sv_pool s) (wrap_i32 (sv_conn_count s - 1)).

Lemma upd_ctx_eq (c : ctx_id) (g : ClientContext → ClientContext) (x : ClientContext) (h : ctx_heap) :
  ctxs h !! c = Some x → upd_ctx c g h = mkHeap (<[c := g x]> (ctxs h)) (next_ctx h).
Proof.
  intros Hx. unfold upd_ctx. f_equal. apply map_eq. intros d. destruct (decide (c = d)) as [->|Hne].
  - by rewrite lookup_alter_eq, lookup_insert_eq, Hx.
  - by rewrite lookup_alter_ne, lookup_insert_ne.
Qed.
Lemma upd_ctx_twice (c : ctx_id) (g g' : ClientContext → ClientContext) (x : ClientContext) (h : ctx_heap) :
  ctxs h !! c = Some x → upd_ctx c g' (upd_ctx c g h) = mkHeap (<[c := g' (g x)]> (ctxs h)) (next_ctx h).
Proof.
  intros Hx. rewrite (upd_ctx_eq c g x h Hx), (upd_ctx_eq c g' (g x)) by (cbn; by rewrite lookup_insert_eq).
  cbn. by rewrite insert_insert_eq.
Qed.

Lemma remove_event_twice {F P} (f : Z) (e : EventLoop F P) :
  remove_event f (remove_event f e) = remove_event f e.
Proof. unfold remove_event. cbn. by rewrite delete_delete_eq. Qed.

Lemma cancel_other_fields (f : Z) (k : Worker) (l : EventLoop functor conn_id) (m : gmap Z conn_id) :
  cancel_heartbeat_timer f (set_loop l (set_connections m k)) =
  set_loop l (set_connections m (cancel_heartbeat_timer f k)).
Proof. unfold cancel_heartbeat_timer. cbn. by case_match. Qed.

Lemma cancel_pool (f : Z) (k : Worker) : pool_ (cancel_heartbeat_timer f k) = pool_ k.
Proof. unfold cancel_heartbeat_timer. by case_match. Qed.

Section Close.
Context {B : Type} {ex : worker_id → list Z}.
Implicit Types (s : Server B).

(** [g_streaming_ai] must be there when the user is logged in. *)
Lemma force_close_eq s w k f p t x :
  sv_workers s !! w = Some k → connections_ k !! f = Some p →
  sv_conns s !! p = Some t → tc_owner t = w → tc_fd t = f → tc_closed t = false →
  ctxs (sv_heap s) !! tc_ctx t = Some x →
  force_close_in_loop w f s =
  match (0 <? uid x)%Z, sv_ai s with
  | true, None => Crash NullDeref
  | _, _ => Ret tt (closed_server p t x k s)
  end.
Proof.
  destruct s as [env mono wall h conns nx ofd ws ss ai db pl cnt], t as [tw tf tip tport tc tcl].
  sv_red. intros Hk Hp Ht -> -> -> Hx. unfold closed_server. sv_red.
  unfold force_close_in_loop, worker_of. mred. sv_red. rewrite Hk, Hp.
  unfold mod_worker, do_force_close, conn_of. mred. sv_red.
  rewrite Ht. unfold close_impl, conn_of. mred. sv_red. rewrite lookup_insert_eq.
  unfold mod_worker, ctx_of. mred. sv_red. rewrite Hx. unfold with_ai, unbind_session. mred. sv_red.
  assert (Hws : ∀ K, <[w := K]> ((λ k, set_loop (remove_event f (loop_ k)) k) <$>
      alter (cancel_heartbeat_timer f) w (alter (λ k, set_loop (remove_event f (loop_ k)) k) w
        (alter (λ k, set_connections (delete f (connections_ k)) k) w ws))) =
      <[w := K]> ((λ k, set_loop (remove_event f (loop_ k)) k) <$> ws)).
  { intros K. apply map_eq. intros w'. destruct (decide (w = w')) as [->|Hne].
    - by rewrite !lookup_insert_eq.
    - by rewrite !lookup_insert_ne, !lookup_fmap, !lookup_alter_ne. }
  destruct (0 <? uid x)%Z; [destruct ai as [a|]; [|reflexivity]|]; unfold sys_close, mod_ctx, on_pool; mred; sv_red;
    rewrite lookup_fmap, !lookup_alter_eq, Hk; cbn [fmap option_fmap option_map]; sv_red;
    rewrite cancel_other_fields; sv_red; rewrite cancel_pool; unfold release; cbn [ctxs upd_ctx]; rewrite lookup_alter_eq, Hx;
    cbn [fmap option_fmap option_map set_fd pool_idx]; unfold closed_worker, closed_ctx;
    (destruct (pool_idx x =? -1)%Z; sv_red; rewrite Hws; unfold destroy_connection, conn_of; mred; sv_red;
     rewrite lookup_insert_eq; cbn [tc_fd tc_closed Z.leb Z.compare]; sv_red;
     rewrite !delete_insert_eq, remove_event_twice).
  all: rewrite ?(upd_ctx_twice tc _ _ x h Hx), ?(upd_ctx_eq tc _ x h Hx); reflexivity.
Qed.

(** The workers of a closed server. *)
Lemma closed_lookup s p t x k w k' :
  sv_workers (closed_server p t x k s) !! w = Some k' →
  (w = tc_owner t ∧ k' = closed_worker (tc_fd t) x k) ∨
  (w ≠ tc_owner t ∧ ∃ k1, sv_workers s !! w = Some k1 ∧
     k' = set_loop (remove_event (tc_fd t) (loop_ k1)) k1).
Proof.
  cbn [closed_server sv_workers]. destruct (decide (w = tc_owner t)) as [->|Hne].
  - rewrite lookup_insert_eq. intros [= <-]. by left.
  - rewrite lookup_insert_ne, lookup_fmap by done.
    destruct (sv_workers s !! w) as [k1|]; [|done]. intros [= <-]. right. eauto.
Qed.

Lemma closed_conns s p t x k q t' :
  sv_conns (closed_server p t x k s) !! q = Some t' → q ≠ p ∧ sv_conns s !! q = Some t'.
Proof. cbn [closed_server sv_conns]. rewrite lookup_delete_Some. naive_solver. Qed.

Lemma closed_pool_wf (w : worker_id) (h : ctx_heap) (q : ContextPool) (c : ctx_id) (x : ClientContext) :
  pool_wf w h q → ctxs h !! c = Some x →
  pool_wf w (mkHeap (<[c := closed_ctx x]> (ctxs h)) (next_ctx h)) q.
Proof.
  intros [Hs Hn Hf] Hx. split; [|done..]. intros i d Hd. cbn [ctxs].
  destruct (Hs i d Hd) as (y & Hy & Hp & Ho). destruct (decide (c = d)) as [->|Hne].
  - simplify_eq. rewrite lookup_insert_eq. eexists. split; [done|].
    unfold closed_ctx. by case_if.
  - rewrite lookup_insert_ne by done. eauto.
Qed.

Lemma free_wf (w : worker_id) (h : ctx_heap) (q : ContextPool) (c : ctx_id) (x : ClientContext) :
  pool_wf w h q → (0 ≤ pool_idx x)%Z → storage_ q !! Z.to_nat (pool_idx x) = Some c →
  pool_idx x ∉ free_list_ q →
  pool_wf w h (mkCtxPool (Context.owner_ q) (storage_ q) (free_list_ q ++ [pool_idx x])).
Proof.
  intros [Hs Hn Hf] H0 Hc Hnot. split; cbn [storage_ free_list_]; [done| |].
  - apply NoDup_app. split_ands; [done| |apply NoDup_singleton].
    intros i Hi ->%list_elem_of_singleton. done.
  - intros i [Hi| ->%list_elem_of_singleton]%elem_of_app; [by apply Hf|]. eauto.
Qed.

Section Preserved.
Variables (o : option (worker_id * Z)) (s : Server B) (p : conn_id) (t : TcpConnection)
  (x : ClientContext) (k : Worker).
Hypothesis Hi : server_inv_but o ex s.
Hypothesis Ho : o = None ∨ o = Some (tc_owner t, tc_fd t).
Hypothesis Ht : sv_conns s !! p = Some t.
Hypothesis Hk : sv_workers s !! tc_owner t = Some k.
Hypothesis Hx : ctxs (sv_heap s) !! tc_ctx t = Some x.

(** Another connection is untouched. *)
Lemma closed_other_conn (p' : conn_id) (t' : TcpConnection) :
  p' ≠ p → sv_conns s !! p' = Some t' → conn_ok (closed_server p t x k s) p' t'.
Proof.
  intros Hne Ht'. destruct (si_conns o ex s Hi p' t' Ht') as (Hc & Hp & Hopen & k' & x' & Hk' & Hin & Hx' & Hfd & Hheld).
  assert (Hf : tc_fd t' ≠ tc_fd t) by (intros E; exact (Hne (si_fd_inj o ex s Hi _ _ _ _ Ht' Ht E))).
  assert (Hctx : tc_ctx t' ≠ tc_ctx t) by (intros E; exact (Hne (si_ctx_inj o ex s Hi _ _ _ _ Ht' Ht E))).
  unfold conn_ok. cbn [closed_server sv_open_fds sv_workers sv_heap ctxs]. split_ands; [done..| |].
  - set_solver.
  - destruct (decide (tc_owner t' = tc_owner t)) as [E|E].
    + rewrite E in Hk' |- *. simplify_eq. exists (closed_worker (tc_fd t) x k), x'.
      rewrite lookup_insert_eq, lookup_insert_ne by done. cbn [closed_worker connections_].
      rewrite lookup_delete_ne by done. split_ands; [done..|].
      destruct Hheld as [?|(H0 & Hst & Hnf)]; [by left|]. right. cbn [closed_worker pool_].
      destruct (pool_idx x =? -1)%Z eqn:Ex; [done|]. split_ands; [done..|].
      cbn [free_list_]. rewrite elem_of_app, list_elem_of_singleton. intros [?|Eidx]; [done|].
      destruct (si_conns o ex s Hi p t Ht) as (_ & _ & _ & k2 & x2 & Hk2 & _ & Hx2 & _ & Hheld2).
      simplify_eq. destruct Hheld2 as [?|(_ & Hst2 & _)]; [by apply Z.eqb_neq in Ex|].
      rewrite Eidx in Hst. congruence.
    + eexists _, x'. rewrite !lookup_insert_ne, lookup_fmap, Hk' by done.
      split_ands; [done..|]. exact Hheld.
Qed.

Lemma closed_timers (w : worker_id) (k' : Worker) :
  sv_workers (closed_server p t x k s) !! w = Some k' → timers_ok None k'.
Proof.
  intros [(-> & ->)|(Hne & k1 & Hk1 & ->)]%closed_lookup.
  - destruct (si_timers o ex s Hi _ k Hk) as [Hb Hd].
    destruct (cancel_spec _ (tc_fd t) k Hb) as (Hb' & Hhb & _).
    { destruct Ho as [->| ->]; [by left|]. rewrite decide_True by done. by right. }
    split; [done|]. intros f. cbn [closed_worker heartbeat_timers_ connections_]. rewrite Hhb.
    destruct (decide (tc_fd t = f)) as [->|Hf].
    + rewrite !lookup_delete_eq. done.
    + by rewrite !lookup_delete_ne.
  - pose proof (si_timers o ex s Hi _ k1 Hk1) as Htk. destruct Ho as [->| ->]; [done|].
    by rewrite decide_False in Htk.
Qed.

Lemma closed_pools (w : worker_id) (k' : Worker) :
  sv_workers (closed_server p t x k s) !! w = Some k' →
  pool_wf w (sv_heap (closed_server p t x k s)) (pool_ k').
Proof.
  intros [(-> & ->)|(Hne & k1 & Hk1 & ->)]%closed_lookup; cbn [closed_server sv_heap].
  - apply closed_pool_wf; [|done]. pose proof (si_pools o ex s Hi _ k Hk) as Hp. cbn [closed_worker pool_].
    destruct (pool_idx x =? -1)%Z eqn:Ex; [done|].
    destruct (si_conns o ex s Hi p t Ht) as (_ & _ & _ & k2 & x2 & Hk2 & _ & Hx2 & _ & Hheld).
    simplify_eq. destruct Hheld as [?|(H0 & Hst & Hnf)]; [by apply Z.eqb_neq in Ex|].
    by eapply free_wf.
  - apply closed_pool_wf; [|done]. exact (si_pools o ex s Hi _ k1 Hk1).
Qed.

Lemma closed_adds (w : worker_id) : queued_adds (closed_server p t x k s) w = queued_adds s w.
Proof.
  unfold queued_adds. cbn [closed_server sv_workers]. destruct (decide (tc_owner t = w)) as [<-|Hne].
  - by rewrite lookup_insert_eq, Hk.
  - rewrite lookup_insert_ne, lookup_fmap by done. by destruct (sv_workers s !! w).
Qed.

Lemma closed_new_fd (f : Z) : new_fd s f → new_fd (closed_server p t x k s) f.
Proof.
  intros (H0 & Hopen & Hnew). unfold new_fd. split_ands; [done| |].
  - cbn [closed_server sv_open_fds]. specialize (Hnew p t Ht). set_solver.
  - intros q t' [_ Hq]%closed_conns. by apply (Hnew q).
Qed.

Lemma closed_inv : server_inv ex (closed_server p t x k s).
Proof.
  pose proof (si_conns o ex s Hi p t Ht) as (_ & _ & _ & k2 & x2 & Hk2 & Hin & Hx2 & _).
  simplify_eq. split.
  - intros q Hq. cbn [closed_server sv_conns sv_next_conn] in *.
    apply lookup_delete_None. right. by apply (si_fresh_conn o ex s Hi).
  - intros c Hc. cbn [closed_server sv_heap ctxs next_ctx] in *. rewrite lookup_insert_ne.
    + by apply (si_fresh_ctx o ex s Hi).
    + intros <-. by rewrite (si_fresh_ctx o ex s Hi) in Hx.
  - intros q t' [Hne Hq]%closed_conns. by apply closed_other_conn.
  - intros w k' f q [(-> & ->)|(Hne & k1 & Hk1 & ->)]%closed_lookup Hq; cbn [closed_worker connections_
      set_loop closed_server sv_conns] in *.
    + apply lookup_delete_Some in Hq as [Hf Hq].
      destruct (si_table o ex s Hi _ _ _ _ Hk Hq) as (t' & Ht' & Ho' & Hf'). exists t'.
      rewrite lookup_delete_ne; [done|]. intros ->. congruence.
    + destruct (si_table o ex s Hi _ _ _ _ Hk1 Hq) as (t' & Ht' & Ho' & Hf'). exists t'.
      rewrite lookup_delete_ne; [done|]. intros ->. congruence.
  - intros q q' t1 t2 [_ H1]%closed_conns [_ H2]%closed_conns.
    by apply (si_ctx_inj o ex s Hi).
  - intros q q' t1 t2 [_ H1]%closed_conns [_ H2]%closed_conns.
    by apply (si_fd_inj o ex s Hi).
  - intros w k' f [(-> & ->)|(Hne & k1 & Hk1 & ->)]%closed_lookup;
      cbn [closed_worker connections_ loop_ set_loop remove_event interest].
    + destruct (decide (tc_fd t = f)) as [->|Hf]; [by rewrite !lookup_delete_eq|].
      rewrite !lookup_delete_ne by done. by apply (si_watched o ex s Hi _ _ _ Hk).
    + destruct (decide (tc_fd t = f)) as [<-|Hf].
      * rewrite lookup_delete_eq. cbn. symmetry. destruct (connections_ k1 !! tc_fd t) as [q|] eqn:Eq; [|done].
        destruct (si_table o ex s Hi _ _ _ _ Hk1 Eq) as (t' & Ht' & Ho' & Hf').
        pose proof (si_fd_inj o ex s Hi _ _ _ _ Ht' Ht Hf'). congruence.
      * rewrite lookup_delete_ne by done. by apply (si_watched o ex s Hi _ _ _ Hk1).
  - exact closed_timers.
  - exact closed_pools.
  - cbn [closed_server sv_conn_count sv_conns]. rewrite (si_count o ex s Hi).
    rewrite map_size_delete_Some by eauto. assert (size (sv_conns s) ≠ 0).
    { intros E. apply map_size_empty_iff in E. by rewrite E in Ht. }
    rewrite <- Z.add_opp_r, wrap_i32_add. f_equal. lia.
  - intros w f Hf. rewrite closed_adds in Hf. by apply closed_new_fd, (si_new o ex s Hi w).
  - intros w. rewrite closed_adds. apply (si_new_nodup o ex s Hi).
  - intros w w' f. rewrite !closed_adds. apply (si_new_inj o ex s Hi).
Qed.
End Preserved.

(** [force_close_in_loop] on any descriptor. *)
Lemma force_close_inv o s w f :
  server_inv_but o ex s → o = None ∨ (o = Some (w, f) ∧ ∃ k, sv_workers s !! w = Some k ∧ is_Some (connections_ k !! f)) →
  match force_close_in_loop w f s with
  | Ret _ s' => server_inv ex s'
  | Throw _ => False
  | Crash _ => True
  end.
Proof.
  intros Hi Ho. destruct (sv_workers s !! w) as [k|] eqn:Hk.
  - destruct (connections_ k !! f) as [p|] eqn:Hp.
    + destruct (si_table o ex s Hi w k f p Hk Hp) as (t & Ht & <- & <-).
      destruct (si_conns o ex s Hi p t Ht) as (Hc & _ & _ & k2 & x & Hk2 & _ & Hx & _). simplify_eq.
      rewrite (force_close_eq s _ k _ p t x) by done.
      assert (server_inv ex (closed_server p t x k s)).
      { eapply closed_inv; eauto. naive_solver. }
      destruct (0 <? uid x)%Z; [destruct (sv_ai s)|]; done.
    + unfold force_close_in_loop, worker_of. mred. rewrite Hk, Hp.
      destruct Ho as [->|(-> & k' & Hk' & [? ?])]; [done|]. congruence.
  - unfold force_close_in_loop, worker_of. mred. by rewrite Hk.
Qed.
End Close.

(** ** Operations that leave the table alone *)

Create HintDb quiet discriminated.

(** What the invariant sees of a context and of a worker. *)
Definition ctx_core (x : ClientContext) : Z * Z * option worker_id :=
  (fd x, pool_idx x, owner_worker x).

Record worker_same (k k' : Worker) : Prop := {
  ws_pool : pool_ k' = pool_ k;
  ws_connections : connections_ k' = connections_ k;
  ws_watched : ∀ f, snd <$> interest (loop_ k') !! f = snd <$> interest (loop_ k) !! f;
  ws_timer : timer_ k' = timer_ k;
  ws_heartbeat : heartbeat_timers_ k' = heartbeat_timers_ k;
  ws_adds : adds (pending_functors_ (loop_ k')) = adds (pending_functors_ (loop_ k))
}.

Lemma worker_same_refl k : worker_same k k.
Proof. done. Qed.
Lemma worker_same_trans k1 k2 k3 : worker_same k1 k2 → worker_same k2 k3 → worker_same k1 k3.
Proof. intros [] []. split; congruence. Qed.

Definition opt_rel {A} (R : A → A → Prop) (a b : option A) : Prop :=
  match a, b with Some x, Some y => R x y | None, None => True | _, _ => False end.

Section Same.
Context {B : Type} {ex : worker_id → list Z}.
Implicit Types (s : Server B).

Record same_conns s s' : Prop := {
  sc_conns : sv_conns s' = sv_conns s;
  sc_next : sv_next_conn s' = sv_next_conn s;
  sc_fds : sv_open_fds s' = sv_open_fds s;
  sc_count : sv_conn_count s' = sv_conn_count s;
  sc_next_ctx : next_ctx (sv_heap s') = next_ctx (sv_heap s);
  sc_ctxs : ∀ c, ctx_core <$> ctxs (sv_heap s') !! c = ctx_core <$> ctxs (sv_heap s) !! c;
  sc_workers : ∀ w, opt_rel worker_same (sv_workers s !! w) (sv_workers s' !! w)
}.

#[export] Instance same_conns_preorder : PreOrder same_conns.
Proof.
  split.
  - intros s. split; try done. intros w. by destruct (sv_workers s !! w).
  - intros s1 s2 s3 [] []. split; try congruence. intros w.
    specialize (sc_workers0 w). specialize (sc_workers1 w).
    destruct (sv_workers s1 !! w), (sv_workers s2 !! w), (sv_workers s3 !! w); try done.
    by eapply worker_same_trans.
Qed.

Lemma same_worker s s' w k' :
  same_conns s s' → sv_workers s' !! w = Some k' →
  ∃ k, sv_workers s !! w = Some k ∧ worker_same k k'.
Proof.
  intros Hs Hk'. pose proof (sc_workers s s' Hs w) as Hw. rewrite Hk' in Hw.
  destruct (sv_workers s !! w) as [k|]; [|done]. eauto.
Qed.

Lemma same_ctx s s' c x :
  same_conns s s' → ctxs (sv_heap s) !! c = Some x →
  ∃ x', ctxs (sv_heap s') !! c = Some x' ∧ ctx_core x' = ctx_core x.
Proof.
  intros Hs Hx. pose proof (sc_ctxs s s' Hs c) as Hc. rewrite Hx in Hc.
  destruct (ctxs (sv_heap s') !! c) as [x'|]; [|done]. injection Hc as Hc. eexists. split; [done|].
  unfold ctx_core. congruence.
Qed.

Lemma same_pool_wf s s' w q :
  same_conns s s' → pool_wf w (sv_heap s) q → pool_wf w (sv_heap s') q.
Proof.
  intros Hs [Hst Hn Hf]. split; [|done..]. intros i c Hc.
  destruct (Hst i c Hc) as (x & Hx & Hp & Ho). destruct (same_ctx s s' c x Hs Hx) as (x' & Hx' & E).
  exists x'. injection E as _ E2 E3. by rewrite E2, E3.
Qed.

Lemma same_adds s s' w : same_conns s s' → queued_adds s' w = queued_adds s w.
Proof.
  intros Hs. unfold queued_adds. pose proof (sc_workers s s' Hs w) as Hw.
  destruct (sv_workers s !! w), (sv_workers s' !! w); try done. apply Hw.
Qed.

Lemma same_inv s s' : same_conns s s' → server_inv ex s → server_inv ex s'.
Proof.
  intros Hs Hi. pose proof Hs as [Hc Hn Hf Hcnt Hnx Hctx Hw]. split.
  - rewrite Hc, Hn. apply (si_fresh_conn None ex s Hi).
  - intros c Hlt. rewrite Hnx in Hlt. pose proof (si_fresh_ctx None ex s Hi c Hlt) as E.
    specialize (Hctx c). rewrite E in Hctx. by destruct (ctxs (sv_heap s') !! c).
  - rewrite Hc. intros p t Ht. destruct (si_conns None ex s Hi p t Ht) as (H1 & H2 & H3 & k & x & Hk & Hin & Hx & Hfd & Hh).
    pose proof (Hw (tc_owner t)) as Hwk. rewrite Hk in Hwk.
    destruct (sv_workers s' !! tc_owner t) as [k'|] eqn:Hk'; [|done]. destruct Hwk as [Hp Hcn _ _ _ _].
    destruct (same_ctx s s' _ x Hs Hx) as (x' & Hx' & E). injection E as E1 E2 E3.
    unfold conn_ok. rewrite Hf. split_ands; [done..|]. exists k', x'. rewrite Hcn.
    split_ands; [done..| |]; [congruence|]. unfold ctx_held. by rewrite E2, Hp.
  - intros w k' f p Hk' Hp. destruct (same_worker s s' w k' Hs Hk') as (k & Hk & Hwk).
    rewrite Hc. rewrite (ws_connections k k' Hwk) in Hp. by eapply (si_table None ex s Hi).
  - rewrite Hc. apply (si_ctx_inj None ex s Hi).
  - rewrite Hc. apply (si_fd_inj None ex s Hi).
  - intros w k' f Hk'. destruct (same_worker s s' w k' Hs Hk') as (k & Hk & Hwk).
    rewrite (ws_watched k k' Hwk), (ws_connections k k' Hwk). by eapply (si_watched None ex s Hi).
  - intros w k' Hk'. destruct (same_worker s s' w k' Hs Hk') as (k & Hk & [_ Hcn _ Ht Hb _]).
    pose proof (si_timers None ex s Hi w k Hk) as Htk. unfold timers_ok in *. by rewrite Ht, Hb, Hcn.
  - intros w k' Hk'. destruct (same_worker s s' w k' Hs Hk') as (k & Hk & Hwk).
    rewrite (ws_pool k k' Hwk). eapply same_pool_wf; [done|]. by apply (si_pools None ex s Hi).
  - rewrite Hcnt, Hc. apply (si_count None ex s Hi).
  - intros w f Hin. rewrite (same_adds s s' w Hs) in Hin. unfold new_fd. rewrite Hf, Hc.
    exact (si_new None ex s Hi w f Hin).
  - intros w. rewrite (same_adds s s' w Hs). apply (si_new_nodup None ex s Hi).
  - intros w w' f. rewrite !(same_adds s s' _ Hs). apply (si_new_inj None ex s Hi).
Qed.

(** [quiet m]: [m] leaves the table alone; [keeps m]: [m] keeps the invariant. *)
Definition quiet {A} (m : M (Server B) A) : Prop := ∀ s,
  match m s with Ret _ s' | Throw s' => same_conns s s' | Crash _ => True end.
Definition keeps {A} (m : M (Server B) A) : Prop := ∀ s, server_inv ex s →
  match m s with Ret _ s' | Throw s' => server_inv ex s' | Crash _ => True end.

Lemma quiet_keeps {A} (m : M (Server B) A) : quiet m → keeps m.
Proof.
  intros Hq s Hi. specialize (Hq s). destruct (m s); try done; by eapply same_inv.
Qed.
Lemma quiet_ret {A} (a : A) : quiet (mret a : M (Server B) A).
Proof. intros s. mred. reflexivity. Qed.
Lemma quiet_bind {A C} (m : M (Server B) A) (f : A → M (Server B) C) :
  quiet m → (∀ a, quiet (f a)) → quiet (m ≫= f).
Proof.
  intros Hm Hf s. mred. specialize (Hm s). destruct (m s) as [a s'|s'|r]; try done.
  specialize (Hf a s'). destruct (f a s'); try done; by etrans.
Qed.
Lemma quiet_try {A} (m h : M (Server B) A) : quiet m → quiet h → quiet (try_catch m h).
Proof.
  intros Hm Hh s. mred. specialize (Hm s). destruct (m s) as [a s'|s'|r]; try done.
  specialize (Hh s'). destruct (h s'); try done; by etrans.
Qed.
Lemma quiet_for_each {A} (f : A → M (Server B) unit) (l : list A) :
  (∀ a, quiet (f a)) → quiet (for_each f l).
Proof.
  intros Hf. induction l as [|x l IH]; cbn [for_each]; [apply quiet_ret|]. by apply quiet_bind.
Qed.
Lemma keeps_bind {A C} (m : M (Server B) A) (f : A → M (Server B) C) :
  keeps m → (∀ a, keeps (f a)) → keeps (m ≫= f).
Proof.
  intros Hm Hf s Hi. mred. specialize (Hm s Hi). destruct (m s) as [a s'|s'|r]; try done. by apply Hf.
Qed.
Lemma keeps_ret {A} (a : A) : keeps (mret a : M (Server B) A).
Proof. apply quiet_keeps, quiet_ret. Qed.
Lemma keeps_for_each {A} (f : A → M (Server B) unit) (l : list A) :
  (∀ a, keeps (f a)) → keeps (for_each f l).
Proof.
  intros Hf. induction l as [|x l IH]; cbn [for_each]; [apply keeps_ret|]. by apply keeps_bind.
Qed.

Lemma quiet_read {A} (f : Server B → result (Server B) A) :
  (∀ s, match f s with Ret _ s' | Throw s' => s' = s | Crash _ => True end) → quiet f.
Proof. intros Hf s. specialize (Hf s). destruct (f s); [subst; reflexivity|subst; reflexivity|done]. Qed.
Lemma quiet_modify (g : Server B → Server B) : (∀ s, same_conns s (g s)) → quiet (modify g).
Proof. intros Hg s. mred. apply Hg. Qed.

Lemma quiet_ctx_of c : quiet (ctx_of c : M (Server B) _).
Proof. apply quiet_read. intros s. unfold ctx_of. by destruct (_ !! _). Qed.
Lemma quiet_worker_of w : quiet (worker_of w : M (Server B) _).
Proof. apply quiet_read. intros s. unfold worker_of. by destruct (_ !! _). Qed.
Lemma quiet_conn_of p : quiet (conn_of p : M (Server B) _).
Proof. apply quiet_read. intros s. unfold conn_of. by destruct (_ !! _). Qed.
Lemma quiet_get_st : quiet (get_st : M (Server B) _).
Proof. by apply quiet_read. Qed.
Lemma quiet_gets {A} (f : Server B → A) : quiet (gets f).
Proof. by apply quiet_read. Qed.
Lemma quiet_deref {A} (o : option A) (r : crash_reason) : quiet (deref o r : M (Server B) A).
Proof. apply quiet_read. intros s. by destruct o. Qed.
Lemma quiet_owner_of c : quiet (owner_of c : M (Server B) _).
Proof. apply quiet_bind; [apply quiet_ctx_of|]. intros x. apply quiet_deref. Qed.

Lemma quiet_mod_ctx c g : (∀ x, ctx_core (g x) = ctx_core x) → quiet (mod_ctx c g : M (Server B) _).
Proof.
  intros Hg. apply quiet_modify. intros s. split; try done; cbn [set_heap sv_heap upd_ctx ctxs sv_workers].
  - intros d. destruct (decide (c = d)) as [->|Hne].
    + rewrite lookup_alter_eq. destruct (ctxs (sv_heap s) !! d); cbn; [|done]. by rewrite Hg.
    + by rewrite lookup_alter_ne.
  - intros w. by destruct (sv_workers s !! w).
Qed.
Lemma quiet_mod_worker w g : (∀ k, worker_same k (g k)) → quiet (mod_worker w g : M (Server B) _).
Proof.
  intros Hg. apply quiet_modify. intros s. split; try done. cbn [set_workers sv_workers]. intros w'.
  destruct (decide (w = w')) as [->|Hne].
  - rewrite lookup_alter_eq. destruct (sv_workers s !! w'); [apply Hg|done].
  - rewrite lookup_alter_ne by done. by destruct (sv_workers s !! w').
Qed.
Lemma same_conns_refl_fields s s' :
  sv_conns s' = sv_conns s → sv_next_conn s' = sv_next_conn s → sv_open_fds s' = sv_open_fds s →
  sv_conn_count s' = sv_conn_count s → sv_heap s' = sv_heap s → sv_workers s' = sv_workers s →
  same_conns s s'.
Proof.
  intros ? ? ? ? Hh Hw. split; rewrite ?Hh; try done. intros w. rewrite Hw. by destruct (sv_workers s !! w).
Qed.
Lemma quiet_set_sessions (g : SessionManager → SessionManager) :
  quiet (modify (λ s, set_sessions (g (sv_sessions s)) s)).
Proof. apply quiet_modify. intros s. by apply same_conns_refl_fields. Qed.
Lemma quiet_with_ai {A} (f : StreamingAIManager → A * StreamingAIManager) : quiet (with_ai f : M (Server B) A).
Proof.
  intros s. unfold with_ai. destruct (sv_ai s) as [a|]; [|done]. destruct (f a).
  by apply same_conns_refl_fields.
Qed.
Lemma quiet_enqueue t : quiet (enqueue_task t : M (Server B) bool).
Proof.
  intros s. unfold enqueue_task. destruct (sv_pool s) as [q|]; [|done]. destruct (enqueue t q).
  by apply same_conns_refl_fields.
Qed.
Lemma quiet_on_db {A} d (m : M (DBBatchWriter B) A) : quiet (on_db d m).
Proof. intros s. unfold on_db. destruct (m d); try done; by apply same_conns_refl_fields. Qed.

Lemma quiet_queue_functor w f : adds [f] = [] → quiet (queue_functor w f : M (Server B) unit).
Proof.
  intros Hf. apply quiet_bind; [apply quiet_worker_of|]. intros _. apply quiet_mod_worker. intros k.
  split; try done. cbn [set_loop loop_ queue_in_loop wakeup push_functor pending_functors_].
  unfold adds in *. by rewrite omap_app, Hf, app_nil_r.
Qed.
End Same.
Arguments keeps {B} ex {A} m.

#[export] Hint Resolve quiet_ret quiet_bind quiet_try quiet_for_each quiet_ctx_of quiet_worker_of
  quiet_conn_of quiet_get_st quiet_gets quiet_deref quiet_owner_of quiet_mod_ctx quiet_set_sessions
  quiet_with_ai quiet_enqueue quiet_on_db : quiet.

(** Decomposes a [quiet] goal along the code of the operation. *)
Ltac quiet_tac :=
  repeat match goal with
  | |- quiet (_ ≫= _) => apply quiet_bind; [|intros ?]
  | |- quiet (try_catch _ _) => apply quiet_try
  | |- quiet (for_each _ _) => apply quiet_for_each; intros ?
  | |- quiet (mod_ctx _ _) => apply quiet_mod_ctx; intros ?; reflexivity
  | |- quiet (queue_functor _ _) => apply quiet_queue_functor; reflexivity
  | |- quiet (if ?b then _ else _) => destruct b
  | |- quiet (match ?x with _ => _ end) => destruct x
  | |- quiet (let '_ := ?x in _) => destruct x
  | |- quiet _ => solve [auto with quiet nocore]
  end.

Section Ops.
Context {B : Type} {ex : worker_id → list Z}.
Implicit Types (s : Server B).

Lemma quiet_reply c command sequence body : quiet (reply c command sequence body : M (Server B) unit).
Proof. unfold reply, queue_send_packet. quiet_tac. Qed.
Lemma quiet_bind_session u c : quiet (bind u c : M (Server B) unit).
Proof. unfold bind, queue_close_connection. quiet_tac. Qed.
Lemma quiet_touch c : quiet (touch c : M (Server B) unit).
Proof. unfold touch. quiet_tac. Qed.

(** A worker's own fields may change as long as its table, its pool and what
    it watches stay, and its timers stay in step with the table. *)
Lemma worker_update_inv_but (o : option Z) (ex' : worker_id → list Z) s w k k' :
  server_inv ex s → sv_workers s !! w = Some k →
  pool_ k' = pool_ k → connections_ k' = connections_ k →
  (∀ f, snd <$> interest (loop_ k') !! f = snd <$> interest (loop_ k) !! f) →
  (∀ w1, ex' w1 ++ queued_adds (set_workers (<[w := k']> (sv_workers s)) s) w1 ≡ₚ
         ex w1 ++ queued_adds s w1) → timers_ok o k' →
  server_inv_but ((λ f, (w, f)) <$> o) ex' (set_workers (<[w := k']> (sv_workers s)) s).
Proof.
  intros Hi Hk Hp Hc Hw Hq Ht.
  assert (Hl : ∀ w1 k1, <[w := k']> (sv_workers s) !! w1 = Some k1 →
    ∃ k0, sv_workers s !! w1 = Some k0 ∧ pool_ k1 = pool_ k0 ∧ connections_ k1 = connections_ k0 ∧
      (∀ f, snd <$> interest (loop_ k1) !! f = snd <$> interest (loop_ k0) !! f) ∧
      timers_ok (if decide (w1 = w) then o else None) k1).
  { intros w1 k1. destruct (decide (w = w1)) as [->|Hne].
    - rewrite lookup_insert_eq. intros [= <-]. rewrite decide_True by done. eauto 10.
    - rewrite lookup_insert_ne, decide_False by done. intros H1. exists k1. split_ands; try done.
      exact (si_timers None ex s Hi w1 k1 H1). }
  split; try apply Hi; cbn [set_workers sv_workers sv_conns sv_heap].
  - intros p t Hpt. destruct (si_conns None ex s Hi p t Hpt) as (H1 & H2 & H3 & k0 & x & Hk0 & Hin & Hx & Hfd & Hh).
    unfold conn_ok. cbn [sv_workers set_workers sv_open_fds sv_heap]. split_ands; [done..|].
    destruct (decide (w = tc_owner t)) as [->|Hne].
    + simplify_eq. exists k', x. rewrite lookup_insert_eq, Hc. unfold ctx_held. by rewrite Hp.
    + exists k0, x. by rewrite lookup_insert_ne.
  - intros w1 k1 f p (k0 & Hk0 & _ & Hc0 & _)%Hl Hf. rewrite Hc0 in Hf. by eapply (si_table None ex s Hi).
  - intros w1 k1 f (k0 & Hk0 & _ & Hc0 & Hw0 & _)%Hl. rewrite Hw0, Hc0. by eapply (si_watched None ex s Hi).
  - intros w1 k1 (k0 & Hk0 & _ & _ & _ & Ht0)%Hl. destruct o; [done|]. by destruct (decide (w1 = w)).
  - intros w1 k1 (k0 & Hk0 & Hp0 & _)%Hl. rewrite Hp0. by eapply (si_pools None ex s Hi).
  - intros w1 f. rewrite Hq. apply (si_new None ex s Hi).
  - intros w1. rewrite Hq. apply (si_new_nodup None ex s Hi).
  - intros w1 w2 f. rewrite !Hq. apply (si_new_inj None ex s Hi).
Qed.

Lemma worker_update_inv s w k k' :
  server_inv ex s → sv_workers s !! w = Some k →
  pool_ k' = pool_ k → connections_ k' = connections_ k →
  (∀ f, snd <$> interest (loop_ k') !! f = snd <$> interest (loop_ k) !! f) →
  adds (pending_functors_ (loop_ k')) = adds (pending_functors_ (loop_ k)) → timers_ok None k' →
  server_inv ex (set_workers (<[w := k']> (sv_workers s)) s).
Proof.
  intros Hi Hk Hp Hc Hw Ha Ht. apply (worker_update_inv_but None ex s w k); try done.
  intros w1. apply reflexive_eq. f_equal. unfold queued_adds. cbn [set_workers sv_workers].
  destruct (decide (w = w1)) as [<-|Hne]; [by rewrite lookup_insert_eq, Hk|by rewrite lookup_insert_ne].
Qed.

Lemma alter_insert_eq {A} (g : A → A) (w : nat) (m : gmap nat A) (k : A) :
  m !! w = Some k → alter g w m = <[w := g k]> m.
Proof.
  intros Hk. apply map_eq. intros w'. destruct (decide (w = w')) as [->|Hne].
  - by rewrite lookup_alter_eq, lookup_insert_eq, Hk.
  - by rewrite lookup_alter_ne, lookup_insert_ne.
Qed.

Lemma mod_worker_eq s w g k :
  sv_workers s !! w = Some k →
  mod_worker w g s = Ret tt (set_workers (<[w := g k]> (sv_workers s)) s).
Proof. intros Hk. unfold mod_worker. mred. by rewrite (alter_insert_eq _ _ _ k). Qed.

Lemma heartbeat_inv s p t :
  server_inv ex s → sv_conns s !! p = Some t →
  ∃ s', heartbeat (tc_owner t) (tc_fd t) s = Ret tt s' ∧ server_inv ex s' ∧ sv_conns s' = sv_conns s.
Proof.
  intros Hi Ht. destruct (si_conns None ex s Hi p t Ht) as (_ & _ & _ & k & x & Hk & Hin & _).
  unfold heartbeat. mred. rewrite (mod_worker_eq s _ _ k Hk). eexists. split_ands; [done| |done].
  destruct (si_timers None ex s Hi _ k Hk) as [Hb Hd].
  destruct (start_spec (GetTick s) (HEARTBEAT_SEC (sv_env s)) (tc_fd t) k Hb)
    as (Hb' & (b & Hhb & _) & Hl & Hp & Hc).
  apply worker_update_inv with k; try done; [by rewrite Hl|by rewrite Hl|]. split; [done|].
  intros f. rewrite Hhb, Hc. destruct (decide (tc_fd t = f)) as [<-|Hne].
  - rewrite lookup_insert_eq, Hin. split; eauto.
  - rewrite lookup_insert_ne by done. apply Hd.
Qed.

Lemma update_event_inv s p t evs :
  server_inv ex s → sv_conns s !! p = Some t →
  ∃ s', mod_worker (tc_owner t) (λ k, set_loop (update_event (tc_fd t) evs p (loop_ k)) k) s = Ret tt s' ∧
    server_inv ex s' ∧ sv_conns s' = sv_conns s.
Proof.
  intros Hi Ht. destruct (si_conns None ex s Hi p t Ht) as (_ & _ & _ & k & x & Hk & Hin & _).
  rewrite (mod_worker_eq s _ _ k Hk). eexists. split_ands; [done| |done].
  apply worker_update_inv with k; try done; [| |exact (si_timers None ex s Hi _ k Hk)];
    [|cbn; unfold update_event; by case_match].
  intros f. cbn [set_loop loop_]. unfold update_event.
  pose proof (si_watched None ex s Hi _ k (tc_fd t) Hk) as Hw. rewrite Hin in Hw.
  destruct (interest (loop_ k) !! tc_fd t) as [[e q]|] eqn:E; [|done]. cbn in Hw. simplify_eq.
  cbn [interest]. destruct (decide (tc_fd t = f)) as [<-|Hne].
  - by rewrite lookup_insert_eq, E.
  - by rewrite lookup_insert_ne.
Qed.
End Ops.


(** ** Every operation of a worker keeps the invariant *)

Section Worker.
Context {B : Type} {ex : worker_id → list Z}.
Implicit Types (s : Server B) (p : conn_id).

(** As [keeps], for code that runs while connection [p] is live. *)
Definition keeps_live {A} p (t : TcpConnection) (m : M (Server B) A) : Prop := ∀ s,
  server_inv ex s → sv_conns s !! p = Some t →
  match m s with Ret _ s' | Throw s' => server_inv ex s' | Crash _ => True end.

Lemma live_keeps {A} p t (m : M (Server B) A) : keeps ex m → keeps_live p t m.
Proof. intros Hm s Hi _. by apply Hm. Qed.
Lemma live_quiet {A C} p t (m : M (Server B) A) (f : A → M (Server B) C) :
  quiet m → (∀ a, keeps_live p t (f a)) → keeps_live p t (m ≫= f).
Proof.
  intros Hm Hf s Hi Hp. mred. specialize (Hm s). destruct (m s) as [a s'|s'|r]; [|by eapply same_inv|done].
  apply Hf; [by eapply same_inv|]. by rewrite (sc_conns s s' Hm).
Qed.
Lemma live_step {A C} p t (m : M (Server B) A) (f : A → M (Server B) C) :
  (∀ s, server_inv ex s → sv_conns s !! p = Some t →
     ∃ s' a, m s = Ret a s' ∧ server_inv ex s' ∧ sv_conns s' = sv_conns s) →
  (∀ a, keeps_live p t (f a)) → keeps_live p t (m ≫= f).
Proof.
  intros Hm Hf s Hi Hp. mred. destruct (Hm s Hi Hp) as (s' & a & -> & Hi' & Hc).
  apply Hf; [done|]. by rewrite Hc.
Qed.
Lemma live_end {A} p t (m : M (Server B) A) :
  (∀ s, server_inv ex s → sv_conns s !! p = Some t →
     ∃ s' a, m s = Ret a s' ∧ server_inv ex s' ∧ sv_conns s' = sv_conns s) → keeps_live p t m.
Proof. intros Hm s Hi Hp. by destruct (Hm s Hi Hp) as (s' & a & -> & Hi' & Hc). Qed.
Lemma keeps_conn {A} p (f : TcpConnection → M (Server B) A) :
  (∀ t, keeps_live p t (f t)) → keeps ex (conn_of p ≫= f).
Proof.
  intros Hf s Hi. unfold conn_of. mred. destruct (sv_conns s !! p) as [t|] eqn:E; [|done]. by apply Hf.
Qed.

Lemma live_heartbeat p t s :
  server_inv ex s → sv_conns s !! p = Some t →
  ∃ s' a, heartbeat (tc_owner t) (tc_fd t) s = Ret a s' ∧ server_inv ex s' ∧ sv_conns s' = sv_conns s.
Proof. intros Hi Hp. destruct (heartbeat_inv s p t Hi Hp) as (s' & ? & ?). eauto. Qed.
Lemma live_update_event p t evs s :
  server_inv ex s → sv_conns s !! p = Some t →
  ∃ s' a, mod_worker (tc_owner t) (λ k, set_loop (update_event (tc_fd t) evs p (loop_ k)) k) s = Ret a s' ∧
    server_inv ex s' ∧ sv_conns s' = sv_conns s.
Proof. intros Hi Hp. destruct (update_event_inv s p t evs Hi Hp) as (s' & ? & ?). eauto. Qed.

Lemma force_close_keeps w f : keeps ex (force_close_in_loop w f : M (Server B) unit).
Proof.
  intros s Hi. pose proof (force_close_inv None s w f Hi (or_introl eq_refl)) as H.
  by destruct (force_close_in_loop w f s).
Qed.

Lemma send_keeps p data : keeps ex (send p data : M (Server B) unit).
Proof.
  apply keeps_conn. intros t. destruct (tc_closed t); [apply live_keeps, keeps_ret|].
  apply live_quiet; [apply quiet_ctx_of|]. intros x. apply live_quiet; [apply quiet_get_st|]. intros s0.
  destruct (_ >? _)%Z; [apply live_keeps, quiet_keeps; by apply quiet_queue_functor|].
  apply live_quiet; [quiet_tac|]. intros _. destruct (writing x); [apply live_keeps, keeps_ret|].
  apply live_quiet; [quiet_tac|]. intros _. apply live_end, live_update_event.
Qed.

Lemma send_packet_keeps w c command sequence body :
  keeps ex (send_packet_in_loop w c command sequence body : M (Server B) unit).
Proof.
  apply keeps_bind; [apply quiet_keeps, quiet_ctx_of|]. intros x. destruct (fd x <? 0)%Z; [apply keeps_ret|].
  apply keeps_bind; [apply quiet_keeps, quiet_worker_of|]. intros k.
  destruct (connections_ k !! fd x); [apply send_keeps|apply keeps_ret].
Qed.

Lemma read_chunk_keeps p data : keeps ex (read_chunk p data : M (Server B) unit).
Proof.
  apply keeps_conn. intros t. apply live_quiet; [apply quiet_ctx_of|]. intros x.
  apply live_quiet; [quiet_tac|]. intros _. apply live_quiet; [apply quiet_touch|]. intros _.
  apply live_end, live_heartbeat.
Qed.

Lemma handle_write_keeps p answers : keeps ex (handle_write p answers : M (Server B) bytes).
Proof.
  induction answers as [|a rest IH]; cbn [handle_write]; apply keeps_conn; intros t;
    (apply live_quiet; [apply quiet_ctx_of|]; intros x);
    (destruct (send_buf x) as [|b l];
     [apply live_quiet; [quiet_tac|]; intros _; apply live_step; [apply live_update_event|];
      intros _; apply live_keeps, keeps_ret|]).
  - apply live_keeps, keeps_ret.
  - destruct a as [[|n]|]; try (apply live_keeps, keeps_bind; [apply force_close_keeps|intros _; apply keeps_ret]).
    apply live_quiet; [quiet_tac|]. intros _. apply live_keeps, keeps_bind; [done|]. intros out. apply keeps_ret.
Qed.

Lemma handle_read_keeps p chunks e : keeps ex (handle_read p chunks e : M (Server B) unit).
Proof.
  apply keeps_bind; [apply keeps_for_each; intros; apply read_chunk_keeps|]. intros _.
  apply keeps_conn. intros t. destruct e; [|apply live_keeps, force_close_keeps].
  apply live_quiet; [apply quiet_ctx_of|]. intros x.
  destruct (parse_frames (recv_buf x)) as [[frames rest] ok].
  apply live_quiet; [quiet_tac|]. intros _. apply live_quiet; [quiet_tac|]. intros _. apply live_keeps.
  destruct ok; [apply keeps_ret|apply force_close_keeps].
Qed.

Lemma handle_events_keeps p revents io : keeps ex (handle_events p revents io : M (Server B) bytes).
Proof.
  unfold handle_events. destruct (has_event _ _).
  - apply keeps_conn. intros t. apply live_keeps, keeps_bind; [apply force_close_keeps|]. intros _. apply keeps_ret.
  - apply keeps_bind.
    + destruct (has_event revents EPOLLIN); [apply handle_read_keeps|apply keeps_ret].
    + intros _. destruct (has_event revents EPOLLOUT); [apply handle_write_keeps|apply keeps_ret].
Qed.

(** The first timer is taken out to be run. *)
Lemma pop_timer (k : Worker) (n : TimerNode Z) (l : list (TimerNode Z)) :
  timers_ok None k → timermap_ (timer_ k) = n :: l →
  heartbeat_timers_ k !! func n = Some (base n) ∧
  timers_ok (Some (func n)) (set_timers (mkTimer (gid (timer_ k)) l) (heartbeat_timers_ k) k).
Proof.
  intros [[Hw Hg He _] Hd] El.
  assert (Hn : heartbeat_timers_ k !! func n = Some (base n)).
  { apply He; [done|]. rewrite node_eta, El. by apply elem_of_cons; left. }
  assert (Hnew : ∀ m, m ∈ l → base m ≠ base n).
  { intros m Hm Hb. pose proof (wf_nodup _ Hw) as Hnd. rewrite El, fmap_cons in Hnd.
    apply NoDup_cons in Hnd as [Hnd _]. apply Hnd, list_elem_of_fmap. exists m. by rewrite Hb. }
  split; [done|]. split; [|done]. cbn [set_timers timer_ heartbeat_timers_]. split; cbn [gid timermap_].
  - by apply (remove_wf n (timer_ k) [] l).
  - done.
  - intros f b Hne. rewrite He by done. rewrite El, elem_of_cons. split; [|by right].
    intros [<-|?]; [|done]. by destruct Hne.
  - intros f m [= <-] Hm. split.
    + intros Hf. assert (Hin : mkNode (base m) (func m) ∈ timermap_ (timer_ k)).
      { rewrite node_eta, El. by apply elem_of_cons; right. }
      apply He in Hin; [|done]. rewrite Hf, Hn in Hin. injection Hin as Hin. by apply (Hnew m Hm).
    + rewrite Hn. intros [= E]. by apply (Hnew m Hm).
Qed.

Lemma check_timers_keeps w fuel : keeps ex (check_timers fuel w : M (Server B) unit).
Proof.
  induction fuel as [|n IH]; [apply keeps_ret|]. intros s Hi. cbn [check_timers].
  unfold worker_of. mred. destruct (sv_workers s !! w) as [k|] eqn:Hk; [|done].
  unfold CheckTimer. destruct (timermap_ (timer_ k)) as [|nd l] eqn:El; [done|].
  destruct (expire (base nd) <=? GetTick s)%Z; [|done].
  rewrite (mod_worker_eq s w _ k Hk).
  destruct (pop_timer k nd l (si_timers None ex s Hi w k Hk) El) as [Hn Hok].
  assert (Hi' : server_inv_but (Some (w, func nd)) ex (set_workers
    (<[w := set_timers (mkTimer (gid (timer_ k)) l) (heartbeat_timers_ k) k]> (sv_workers s)) s)).
  { apply (worker_update_inv_but (ex := ex) (Some (func nd)) ex s w k); try done. intros w1. apply reflexive_eq. f_equal.
    unfold queued_adds. cbn [set_workers sv_workers].
    destruct (decide (w = w1)) as [<-|Hne]; [by rewrite lookup_insert_eq, Hk|by rewrite lookup_insert_ne]. }
  pose proof (force_close_inv _ _ w (func nd) Hi') as Hf.
  destruct (force_close_in_loop w (func nd) _) as [[] s'|s'|r]; [| |done].
  - apply IH, Hf. right. split; [done|]. eexists. cbn [set_workers sv_workers].
    rewrite lookup_insert_eq. split; [done|]. apply (proj2 (si_timers None ex s Hi w k Hk)). eauto.
  - destruct Hf. right. split; [done|]. eexists. cbn [set_workers sv_workers].
    rewrite lookup_insert_eq. split; [done|]. apply (proj2 (si_timers None ex s Hi w k Hk)). eauto.
Qed.
End Worker.


(** ** Accepting a connection *)

Section Add.
Context {B : Type} {ex : worker_id → list Z}.
Implicit Types (s : Server B).

(** The state after [add_connection_in_loop], for the context [c] that the
    pool handed out, leaving the pool [q] and the heap [h]. *)
Definition added_server (w : worker_id) (k : Worker) (f : Z) (ip : bytes) (port : Z) (c : ctx_id)
    (h : ctx_heap) (q : ContextPool) (x : ClientContext) s : Server B :=
  mkServer (sv_env s) (sv_mono_ns s) (sv_wall_ms s)
    (mkHeap (<[c := update_time (now_sec s) (set_fd f x)]> (ctxs h)) (next_ctx h))
    (<[sv_next_conn s := mkConn w f ip port c false]> (sv_conns s)) (S (sv_next_conn s)) (sv_open_fds s)
    (<[w := start_heartbeat_timer (GetTick s) (HEARTBEAT_SEC (sv_env s)) f
              (mkWorker (add_event f READ_EVENTS (sv_next_conn s) (loop_ k)) q
                 (<[f := sv_next_conn s]> (connections_ k)) (timer_ k) (heartbeat_timers_ k))]>
       (sv_workers s))
    (sv_sessions s) (sv_ai s) (sv_db s) (sv_pool s) (wrap_i32 (sv_conn_count s + 1)).

Lemma add_connection_eq s w k f ip port c h q x :
  sv_workers s !! w = Some k → connections_ k !! f = None →
  acquire (sv_heap s, pool_ k) = Ret c (h, q) → ctxs h !! c = Some x →
  add_connection_in_loop w f ip port s = Ret tt (added_server w k f ip port c h q x s).
Proof.
  destruct s as [env mono wall h0 conns nx ofd ws ss ai db pl cnt]. unfold added_server. sv_red.
  intros Hk Hn Ha Hx. unfold add_connection_in_loop, new_connection, on_pool, touch, mod_ctx. mred.
  sv_red. rewrite Hk, Ha. unfold worker_of, mod_worker. mred. sv_red. rewrite lookup_insert_eq. sv_red.
  rewrite Hn. unfold start_connection, conn_of, heartbeat, mod_worker. mred. sv_red.
  rewrite lookup_insert_eq. mred. sv_red.
  rewrite (upd_ctx_twice c _ _ x h Hx). f_equal.
  rewrite !(alter_insert_eq _ w _ _ (lookup_insert_eq _ _ _)), !insert_insert_eq. reflexivity.
Qed.

(** What [acquire] answers: a context that no connection holds. *)
Lemma acquire_spec s w k :
  server_inv ex s → sv_workers s !! w = Some k →
  ∃ c h q x, acquire (sv_heap s, pool_ k) = Ret c (h, q) ∧ ctxs h !! c = Some x ∧
    (∀ p t, sv_conns s !! p = Some t → tc_ctx t ≠ c) ∧
    (∀ d, next_ctx h ≤ d → ctxs h !! d = None) ∧
    (∀ d y, ctxs (sv_heap s) !! d = Some y → ctxs h !! d = Some y) ∧
    pool_wf w h q ∧ storage_ q = storage_ (pool_ k) ∧ (∀ i, i ∈ free_list_ q → i ∈ free_list_ (pool_ k)) ∧
    (pool_idx x = (-1)%Z ∨ ((0 ≤ pool_idx x)%Z ∧ storage_ q !! Z.to_nat (pool_idx x) = Some c ∧
                            pool_idx x ∉ free_list_ q)).
Proof.
  intros Hi Hk. pose proof (si_pools None ex s Hi w k Hk) as [Hst Hnd Hfr]. unfold acquire.
  destruct (unsnoc (free_list_ (pool_ k))) as [[rest idx]|] eqn:Eu.
  - apply unsnoc_Some in Eu.
    destruct (Hfr idx) as [H0 [c Hc]]; [rewrite Eu; apply elem_of_app; right; by apply list_elem_of_singleton|].
    rewrite Hc. destruct (Hst _ c Hc) as (x & Hx & Hidx & Hown).
    rewrite Eu in Hnd. apply NoDup_app in Hnd as (Hr & Hd & _).
    assert (Hnot : idx ∉ rest) by (intros Hin; apply (Hd idx Hin); by apply list_elem_of_singleton).
    do 4 eexists. split; [done|]. cbn [storage_ free_list_]. split_ands; try done.
    + intros p t Ht <-. destruct (si_conns None ex s Hi p t Ht) as (_ & _ & _ & k' & x' & Hk' & _ & Hx' & _ & Hh).
      simplify_eq. destruct Hh as [?|(_ & Hs' & Hnf)]; [lia|].
      destruct (pw_storage _ _ _ (si_pools None ex s Hi _ k' Hk') _ _ Hs') as (x2 & Hx2 & _ & Hown').
      simplify_eq. apply Hnf. rewrite Eu, Hidx, Z2Nat.id by done. apply elem_of_app. right.
      by apply list_elem_of_singleton.
    + apply (si_fresh_ctx None ex s Hi).
    + split; cbn [storage_ free_list_]; [done|done|]. intros i Hin. apply Hfr. rewrite Eu.
      apply elem_of_app. by left.
    + intros i Hin. rewrite Eu. apply elem_of_app. by left.
    + right. rewrite Hidx, Z2Nat.id by done. done.
  - pose proof (si_fresh_ctx None ex s Hi) as Hf.
    assert (Hold : ∀ d y, ctxs (sv_heap s) !! d = Some y →
      <[next_ctx (sv_heap s) := default_ctx]> (ctxs (sv_heap s)) !! d = Some y).
    { intros d y Hd. rewrite lookup_insert_ne; [done|]. intros <-. by rewrite Hf in Hd. }
    do 4 eexists. split; [done|]. cbn [ctxs next_ctx]. rewrite lookup_insert_eq. split_ands; try done.
    + intros p t Ht E. destruct (si_conns None ex s Hi p t Ht) as (_ & _ & _ & k' & x' & _ & _ & Hx' & _).
      rewrite E, Hf in Hx' by done. done.
    + intros d Hd. rewrite lookup_insert_ne by lia. apply Hf. lia.
    + split; [|done..]. intros i c Hc. destruct (Hst i c Hc) as (x & Hx & ?). exists x.
      cbn [ctxs]. split; [by apply Hold|done].
    + by left.
Qed.

Lemma pool_wf_mono w (h h' : ctx_heap) (q : ContextPool) :
  (∀ d y, ctxs h !! d = Some y → ∃ y', ctxs h' !! d = Some y' ∧ pool_idx y' = pool_idx y ∧
                                      owner_worker y' = owner_worker y) →
  pool_wf w h q → pool_wf w h' q.
Proof.
  intros Hm [Hs Hn Hf]. split; [|done..]. intros i c Hc. destruct (Hs i c Hc) as (x & Hx & Hp & Ho).
  destruct (Hm c x Hx) as (y & Hy & Hp' & Ho'). exists y. by rewrite Hp', Ho'.
Qed.

Section Preserved.
Variables (s : Server B) (w : worker_id) (k : Worker) (f : Z) (ip : bytes) (port : Z) (c : ctx_id)
  (h : ctx_heap) (q : ContextPool) (x : ClientContext).
Hypothesis Hi : server_inv ex s.
Hypothesis Hk : sv_workers s !! w = Some k.
Variable rest : list Z.
Hypothesis Hex : ex w = f :: rest.
Hypothesis Hf : (0 ≤ f)%Z ∧ f ∈ sv_open_fds s.
Hypothesis Hnew : ∀ p t, sv_conns s !! p = Some t → tc_fd t ≠ f.
Hypothesis Hx : ctxs h !! c = Some x.
Hypothesis Hun : ∀ p t, sv_conns s !! p = Some t → tc_ctx t ≠ c.
Hypothesis Hfresh : ∀ d, next_ctx h ≤ d → ctxs h !! d = None.
Hypothesis Hold : ∀ d y, ctxs (sv_heap s) !! d = Some y → ctxs h !! d = Some y.
Hypothesis Hq : pool_wf w h q.
Hypothesis Hst : storage_ q = storage_ (pool_ k).
Hypothesis Hfree : ∀ i, i ∈ free_list_ q → i ∈ free_list_ (pool_ k).
Hypothesis Hheld : pool_idx x = (-1)%Z ∨
  ((0 ≤ pool_idx x)%Z ∧ storage_ q !! Z.to_nat (pool_idx x) = Some c ∧ pool_idx x ∉ free_list_ q).

Local Abbreviation sa := (added_server w k f ip port c h q x s).

Lemma added_no_entry : connections_ k !! f = None.
Proof.
  destruct (connections_ k !! f) as [p|] eqn:E; [|done].
  destruct (si_table None ex s Hi w k f p Hk E) as (t & Ht & _ & Hft). by destruct (Hnew p t Ht).
Qed.

(** The worker that took the connection, and the others. *)
Lemma added_lookup w1 k1 :
  sv_workers sa !! w1 = Some k1 →
  (w1 = w ∧ pool_ k1 = q ∧ connections_ k1 = <[f := sv_next_conn s]> (connections_ k) ∧
   (∀ g, snd <$> interest (loop_ k1) !! g = <[f := sv_next_conn s]> (connections_ k) !! g) ∧
   timers_ok None k1) ∨
  (w1 ≠ w ∧ sv_workers s !! w1 = Some k1).
Proof.
  cbn [added_server sv_workers]. destruct (decide (w1 = w)) as [->|Hne].
  - rewrite lookup_insert_eq. intros [= <-]. left.
    destruct (si_timers None ex s Hi w k Hk) as [Hb Hd].
    match goal with |- context [start_heartbeat_timer ?n ?b f ?k0] =>
      destruct (start_spec n b f k0 Hb) as (Hb' & (bs & Hhb & _) & Hl & Hp & Hc) end.
    split_ands; [done|by rewrite Hp|by rewrite Hc| |].
    + intros g. rewrite Hl. cbn [loop_]. unfold add_event.
      pose proof (si_watched None ex s Hi w k) as Hw.
      pose proof (Hw f Hk) as E. rewrite added_no_entry in E.
      destruct (interest (loop_ k) !! f) as [?|] eqn:Ei; [done|]. cbn [interest].
      destruct (decide (f = g)) as [<-|Hg]; [by rewrite !lookup_insert_eq|].
      rewrite !lookup_insert_ne by done. by apply Hw.
    + split; [done|]. intros g. rewrite Hhb, Hc. cbn [heartbeat_timers_ connections_].
      destruct (decide (f = g)) as [<-|Hg]; [by rewrite !lookup_insert_eq|].
      rewrite !lookup_insert_ne by done. apply Hd.
  - rewrite lookup_insert_ne by done. by right.
Qed.

Lemma added_conn p t : sv_conns sa !! p = Some t → conn_ok sa p t.
Proof.
  intros Hp. unfold conn_ok. cbn [added_server sv_conns sv_open_fds sv_heap ctxs] in *.
  destruct (decide (sv_next_conn s = p)) as [<-|Hne].
  - rewrite lookup_insert_eq in Hp. injection Hp as <-. cbn [tc_closed tc_fd tc_owner tc_ctx].
    split_ands; [done|tauto|tauto|].
    edestruct (added_lookup w) as [(_ & Hp & Hc & _)|[Hw _]];
      [cbn [added_server sv_workers]; by rewrite lookup_insert_eq| |done].
    eexists _, _. cbn [added_server sv_workers]. rewrite !lookup_insert_eq. split; [done|].
    rewrite Hc, lookup_insert_eq. split_ands; try done. unfold ctx_held. rewrite Hp. exact Hheld.
  - rewrite lookup_insert_ne in Hp by done.
    destruct (si_conns None ex s Hi p t Hp) as (H1 & H2 & H3 & k0 & x0 & Hk0 & Hin & Hx0 & Hfd & Hh).
    split_ands; [done..|]. pose proof (Hun p t Hp) as Hct. pose proof (Hnew p t Hp) as Hft.
    destruct (decide (tc_owner t = w)) as [E|E].
    + edestruct (added_lookup w) as [(_ & Hpl & Hc & _)|[Hw _]];
        [cbn [added_server sv_workers]; by rewrite lookup_insert_eq| |done].
      rewrite E in Hk0. simplify_eq. eexists _, x0. cbn [added_server sv_workers].
      rewrite lookup_insert_eq, lookup_insert_ne by done. split; [done|]. rewrite Hc.
      rewrite lookup_insert_ne by done. split_ands; try done; [by apply Hold|].
      unfold ctx_held. rewrite Hpl, Hst. destruct Hh as [?|(? & ? & Hnf)]; [by left|]. right.
      split_ands; try done. intros Hin'. by apply Hnf, Hfree.
    + exists k0, x0. cbn [added_server sv_workers]. rewrite !lookup_insert_ne by done.
      split_ands; try done. by apply Hold.
Qed.

Lemma added_adds w1 : queued_adds sa w1 = queued_adds s w1.
Proof.
  unfold queued_adds. cbn [added_server sv_workers]. destruct (decide (w = w1)) as [<-|Hne].
  - rewrite lookup_insert_eq, Hk. unfold start_heartbeat_timer. cbn [AddTimer].
    unfold cancel_heartbeat_timer, add_event. cbn. by repeat case_match.
  - by rewrite lookup_insert_ne.
Qed.

(** The functor that has run is no longer in the batch. *)
Lemma added_rest w1 g :
  g ∈ (if decide (w1 = w) then rest else ex w1) ++ queued_adds s w1 →
  g ∈ ex w1 ++ queued_adds s w1 ∧ g ≠ f.
Proof.
  assert (Hfw : f ∈ ex w ++ queued_adds s w) by (rewrite Hex; by left).
  pose proof (si_new_nodup None ex s Hi w) as Hnd. rewrite Hex in Hnd. apply NoDup_cons in Hnd as [Hnd _].
  case_decide as E; intros Hg.
  - subst w1. rewrite Hex. split; [by right|]. intros ->. done.
  - split; [done|]. intros ->. apply E. symmetry. by apply (si_new_inj None ex s Hi w w1 f).
Qed.

Lemma added_new_fd g : new_fd s g → g ≠ f → new_fd sa g.
Proof.
  intros (H0 & Ho & Hn) Hne. unfold new_fd. cbn [added_server sv_open_fds sv_conns]. split_ands; [done..|].
  intros p t. rewrite lookup_insert_Some. intros [[_ <-]|[_ Hp]]; [done|by apply (Hn p)].
Qed.

Lemma added_table w1 k1 g p :
  sv_workers sa !! w1 = Some k1 → connections_ k1 !! g = Some p →
  ∃ t, sv_conns sa !! p = Some t ∧ tc_owner t = w1 ∧ tc_fd t = g.
Proof.
  intros [(-> & _ & Hc & _)|[Hne Hk1]]%added_lookup Hp; cbn [added_server sv_conns].
  - rewrite Hc in Hp. destruct (decide (f = g)) as [<-|Hg].
    + rewrite lookup_insert_eq in Hp. injection Hp as <-. rewrite lookup_insert_eq. eauto.
    + rewrite lookup_insert_ne in Hp by done.
      destruct (si_table None ex s Hi w k g p Hk Hp) as (t & Ht & ?). exists t.
      rewrite lookup_insert_ne; [done|]. intros <-. by rewrite (si_fresh_conn None ex s Hi) in Ht.
  - destruct (si_table None ex s Hi w1 k1 g p Hk1 Hp) as (t & Ht & ?). exists t.
    rewrite lookup_insert_ne; [done|]. intros <-. by rewrite (si_fresh_conn None ex s Hi) in Ht.
Qed.

Lemma added_inv : server_inv (λ w1, if decide (w1 = w) then rest else ex w1) sa.
Proof.
  assert (Hpool : ∀ w1 q1, pool_wf w1 h q1 → pool_wf w1 (sv_heap sa) q1).
  { intros w1 q1. apply pool_wf_mono. intros d y Hd. cbn [added_server sv_heap ctxs].
    destruct (decide (c = d)) as [->|Hne]; [rewrite lookup_insert_eq|rewrite lookup_insert_ne by done]; [|eauto].
    simplify_eq. eauto. }
  split.
  - intros p Hp. cbn [added_server sv_conns sv_next_conn] in *.
    rewrite lookup_insert_ne by lia. apply (si_fresh_conn None ex s Hi). lia.
  - intros d Hd. cbn [added_server sv_heap ctxs next_ctx] in *. rewrite lookup_insert_ne; [by apply Hfresh|].
    intros <-. by rewrite Hfresh in Hx.
  - exact added_conn.
  - exact added_table.
  - intros p p' t t'. cbn [added_server sv_conns]. rewrite !lookup_insert_Some.
    intros [[<- <-]|[? H1]] [[<- <-]|[? H2]] E; cbn [tc_ctx] in E; [done| | |].
    + by destruct (Hun p' t' H2).
    + by destruct (Hun p t H1).
    + exact (si_ctx_inj None ex s Hi _ _ _ _ H1 H2 E).
  - intros p p' t t'. cbn [added_server sv_conns]. rewrite !lookup_insert_Some.
    intros [[<- <-]|[? H1]] [[<- <-]|[? H2]] E; cbn [tc_fd] in E; [done| | |].
    + by destruct (Hnew p' t' H2).
    + by destruct (Hnew p t H1).
    + exact (si_fd_inj None ex s Hi _ _ _ _ H1 H2 E).
  - intros w1 k1 g [(-> & _ & Hc & Hw & _)|[Hne Hk1]]%added_lookup; [by rewrite Hw, Hc|].
    by apply (si_watched None ex s Hi w1).
  - intros w1 k1 [(-> & _ & _ & _ & Ht)|[Hne Hk1]]%added_lookup; [done|]. by apply (si_timers None ex s Hi w1).
  - intros w1 k1 [(-> & Hp & _)|[Hne Hk1]]%added_lookup.
    + rewrite Hp. by apply Hpool.
    + apply Hpool. eapply pool_wf_mono; [|by apply (si_pools None ex s Hi w1)]. eauto.
  - cbn [added_server sv_conn_count sv_conns]. rewrite map_size_insert_None.
    + rewrite (si_count None ex s Hi), wrap_i32_add. f_equal. lia.
    + by apply (si_fresh_conn None ex s Hi).
  - intros w1 g. rewrite added_adds. intros [Hg Hne]%added_rest.
    apply added_new_fd; [|done]. by apply (si_new None ex s Hi w1).
  - intros w1. rewrite added_adds. pose proof (si_new_nodup None ex s Hi w1) as Hn.
    case_decide as E; [|done]. subst w1. rewrite Hex in Hn. by apply NoDup_cons in Hn as [_ Hn].
  - intros w1 w2 g. rewrite !added_adds. intros [H1 _]%added_rest [H2 _]%added_rest.
    by apply (si_new_inj None ex s Hi w1 w2 g).
Qed.
End Preserved.

Lemma add_connection_inv s w f ip port rest :
  server_inv ex s → is_Some (sv_workers s !! w) → ex w = f :: rest →
  ∃ s', add_connection_in_loop w f ip port s = Ret tt s' ∧
    server_inv (λ w1, if decide (w1 = w) then rest else ex w1) s' ∧
    (∃ c, sv_conns s' = <[sv_next_conn s := mkConn w f ip port c false]> (sv_conns s)).
Proof.
  intros Hi [k Hk] Hex.
  destruct (si_new None ex s Hi w f) as (H0 & Ho & Hn); [rewrite Hex; by left|].
  destruct (acquire_spec s w k Hi Hk) as (c & h & q & x & Ha & Hx & Hun & Hfr & Hold & Hq & Hst & Hfree & Hh).
  rewrite (add_connection_eq s w k f ip port c h q x); try done.
  - eexists. split_ands; [done| |by exists c]. by apply added_inv.
  - by eapply added_no_entry.
Qed.
End Add.

(** ** The loop *)

Section Loop.
Context {B : Type}.
Implicit Types (s : Server B) (ex : worker_id → list Z).

Lemma server_inv_ext ex ex' s : (∀ w, ex' w = ex w) → server_inv ex s → server_inv ex' s.
Proof.
  intros He []. split; try done.
  - intros w f. rewrite He. apply si_new0.
  - intros w. rewrite He. apply si_new_nodup0.
  - intros w w' f. rewrite !He. apply si_new_inj0.
Qed.

(** The batch [fs] that worker [w] is running. *)
Definition running (w : worker_id) (fs : list functor) (w1 : worker_id) : list Z :=
  if decide (w1 = w) then adds fs else [].

Lemma run_functor_keeps w f fs s :
  server_inv (running w (f :: fs)) s →
  match run_functor w f s with
  | Ret _ s' | Throw s' => server_inv (running w fs) s'
  | Crash _ => True
  end.
Proof.
  intros Hi. destruct f as [d ip port|c command sequence body|d]; cbn [run_functor].
  - destruct (sv_workers s !! w) as [k|] eqn:Hk.
    + destruct (add_connection_inv s w d ip port (adds fs) Hi) as (s' & -> & Hi' & _); [eauto| |].
      * unfold running. by rewrite decide_True.
      * eapply server_inv_ext; [|exact Hi']. intros w1. unfold running. cbn. by repeat case_decide.
    + unfold add_connection_in_loop, new_connection, on_pool. mred. by rewrite Hk.
  - apply (send_packet_keeps w c command sequence body s) in Hi.
    destruct (send_packet_in_loop _ _ _ _ _ s); try done; exact Hi.
  - apply (force_close_keeps w d s) in Hi. destruct (force_close_in_loop w d s); try done; exact Hi.
Qed.

Lemma run_functors_keeps w fs s s' :
  server_inv (running w fs) s → for_each (run_functor w) fs s = Ret tt s' →
  server_inv (λ _, []) s'.
Proof.
  revert s. induction fs as [|f fs IH]; intros s Hi; cbn [for_each].
  - intros [= <-]. eapply server_inv_ext; [|exact Hi]. intros w1. unfold running. by case_decide.
  - mred. pose proof (run_functor_keeps w f fs s Hi) as H1.
    destruct (run_functor w f s) as [[] s1|s1|r]; [|done..]. by apply IH.
Qed.

Lemma pending_keeps w s s' :
  server_inv (λ _, []) s → do_pending_functors w s = Ret tt s' → server_inv (λ _, []) s'.
Proof.
  intros Hi. unfold do_pending_functors, worker_of. mred.
  destruct (sv_workers s !! w) as [k|] eqn:Hk; [|done]. cbn [swap_functors].
  rewrite (mod_worker_eq s w _ k Hk). apply run_functors_keeps.
  apply (worker_update_inv_but (ex := λ _, []) None _ s w k); try done.
  - intros w1. unfold queued_adds, running. cbn [set_workers sv_workers].
    destruct (decide (w1 = w)) as [->|Hne].
    + rewrite lookup_insert_eq, Hk. cbn. by rewrite app_nil_r.
    + by rewrite lookup_insert_ne.
  - exact (si_timers None _ s Hi w k Hk).
Qed.

Lemma dispatch_keeps w e s s' :
  server_inv (λ _, []) s → dispatch w e s = Ret tt s' → server_inv (λ _, []) s'.
Proof.
  intros Hi. destruct e as [|p revents io]; cbn [dispatch].
  - intros E. assert (Hq : quiet (mod_worker (B := B) w (λ k, set_loop (handle_wakeup (loop_ k)) k))).
    { apply quiet_mod_worker. by intros k. }
    specialize (Hq s). rewrite E in Hq. by eapply same_inv.
  - mred. pose proof (handle_events_keeps p revents io s Hi) as H1.
    destruct (handle_events p revents io s) as [out s1|s1|r]; [|done..]. by intros [= <-].
Qed.

Lemma iteration_keeps w events s s' :
  server_inv (λ _, []) s → loop_iteration w events s = Ret tt s' → server_inv (λ _, []) s'.
Proof.
  intros Hi. unfold loop_iteration. mred.
  assert (Hd : ∀ s1, for_each (dispatch w) events s = Ret tt s1 → server_inv (λ _, []) s1).
  { revert s Hi. induction events as [|e es IH]; intros s Hi s1; cbn [for_each].
    - by intros [= <-].
    - mred. destruct (dispatch w e s) as [[] s2|s2|r] eqn:E; [|done..].
      apply IH. by eapply dispatch_keeps. }
  destruct (for_each _ _ _) as [[] s1|s1|r]; [|done..]. specialize (Hd s1 eq_refl).
  unfold on_loop_once, worker_of. mred. destruct (sv_workers s1 !! w) as [k|]; [|done].
  pose proof (check_timers_keeps w (length (timermap_ (timer_ k))) s1 Hd) as Ht.
  destruct (check_timers _ _ _) as [[] s2|s2|r]; [|done..]. by apply pending_keeps.
Qed.

(** ** Starting up and accepting *)

(** [accept4] answered a descriptor that was not open, and the main thread
    queued it for a worker. *)
Definition accept_connection (w : worker_id) (f : Z) (ip : bytes) (port : Z) : M (Server B) unit :=
  modify (λ s, set_open_fds ({[ f ]} ∪ sv_open_fds s) s) ;; queue_add_connection w f ip port.

Lemma open_inv w f s :
  server_inv (λ _, []) s → (0 ≤ f)%Z → f ∉ sv_open_fds s →
  server_inv (λ w1, if decide (w1 = w) then [f] else []) (set_open_fds ({[ f ]} ∪ sv_open_fds s) s).
Proof.
  intros Hi H0 Hf.
  assert (Hold : ∀ w1 g, g ∈ queued_adds s w1 → new_fd s g) by exact (si_new None _ s Hi).
  assert (Hnf : ∀ w1, f ∉ queued_adds s w1) by (intros w1 Hin; by destruct (Hold w1 f Hin) as (_ & ? & _)).
  pose proof (si_new_nodup None _ s Hi) as Hnd. pose proof (si_new_inj None _ s Hi) as Hinj.
  split; try apply Hi.
  - intros p t Hp. destruct (si_conns None _ s Hi p t Hp) as (? & ? & ? & Hk).
    unfold conn_ok. cbn [set_open_fds sv_open_fds]. split_ands; try done. set_solver.
  - intros w1 g. change (queued_adds (set_open_fds _ s) w1) with (queued_adds s w1).
    intros [Hg|Hg]%elem_of_app; unfold new_fd; cbn [set_open_fds sv_open_fds sv_conns].
    + case_decide; [|by apply not_elem_of_nil in Hg]. apply list_elem_of_singleton in Hg as ->.
      split_ands; [done|set_solver|]. intros p t Hp <-.
      by destruct (si_conns None _ s Hi p t Hp) as (_ & _ & ? & _).
    + destruct (Hold w1 g Hg) as (? & ? & ?). split_ands; try done. set_solver.
  - intros w1. change (queued_adds (set_open_fds _ s) w1) with (queued_adds s w1).
    case_decide; [|exact (Hnd w1)]. apply NoDup_cons. split; [apply Hnf|exact (Hnd w1)].
  - intros w1 w2 g. change (queued_adds (set_open_fds _ s) ?u) with (queued_adds s u).
    rewrite !elem_of_app. intros [H1|H1] [H2|H2]; [| | |by apply (Hinj w1 w2 g)];
      repeat case_decide; try (by apply not_elem_of_nil in H1); try (by apply not_elem_of_nil in H2); subst; try done.
    + apply list_elem_of_singleton in H1 as ->. by destruct (Hnf w2).
    + apply list_elem_of_singleton in H2 as ->. by destruct (Hnf w1).
Qed.

Lemma accept_keeps w f ip port s s' :
  server_inv (λ _, []) s → (0 ≤ f)%Z → f ∉ sv_open_fds s →
  accept_connection w f ip port s = Ret tt s' → server_inv (λ _, []) s'.
Proof.
  intros Hi H0 Hf. apply (open_inv w f s Hi H0) in Hf as Hi1.
  unfold accept_connection, queue_add_connection, queue_functor, worker_of. mred. cbn [set_open_fds sv_workers].
  destruct (sv_workers s !! w) as [k|] eqn:Hk; [|done].
  rewrite (mod_worker_eq _ w _ k) by done. intros [= <-].
  apply (worker_update_inv_but (ex := λ w1, if decide (w1 = w) then [f] else []) None (λ _, [])
    (set_open_fds ({[ f ]} ∪ sv_open_fds s) s) w k);
    try done; [|exact (si_timers None _ s Hi w k Hk)].
  intros w1. unfold queued_adds. cbn [set_workers set_open_fds sv_workers].
  destruct (decide (w1 = w)) as [->|Hne].
  - rewrite lookup_insert_eq, Hk. cbn. unfold adds. rewrite omap_app. cbn. by rewrite Permutation_app_comm.
  - by rewrite lookup_insert_ne.
Qed.

(** A server that has just been built: its workers, no connection. *)
Definition fresh_server s : Prop :=
  sv_conns s = ∅ ∧ sv_conn_count s = 0%Z ∧
  (∀ c : ctx_id, next_ctx (sv_heap s) ≤ c → ctxs (sv_heap s) !! c = None) ∧
  ∀ w k, sv_workers s !! w = Some k →
    connections_ k = ∅ ∧ interest (loop_ k) = ∅ ∧ pending_functors_ (loop_ k) = [] ∧
    timer_ k = empty_timer ∧ heartbeat_timers_ k = ∅ ∧ pool_wf w (sv_heap s) (pool_ k).

Lemma fresh_inv s : fresh_server s → server_inv (λ _, []) s.
Proof.
  intros (Hc & Hn & Hf & Hw).
  assert (Hq : ∀ w, queued_adds s w = []).
  { intros w. unfold queued_adds. destruct (sv_workers s !! w) as [k|] eqn:Hk; [|done].
    destruct (Hw w k Hk) as (_ & _ & -> & _). done. }
  split; try done.
  - intros p _. by rewrite Hc.
  - intros p t. by rewrite Hc.
  - intros w k f p Hk. destruct (Hw w k Hk) as (-> & _). done.
  - intros p p' t t'. by rewrite Hc.
  - intros p p' t t'. by rewrite Hc.
  - intros w k f Hk. by destruct (Hw w k Hk) as (-> & -> & _).
  - intros w k Hk. destruct (Hw w k Hk) as (Ec & _ & _ & Et & Eh & _). split; rewrite ?Et, ?Ec, Eh.
    + split; [apply empty_timer_wf|done| |done]. intros f b _. split; [done|]. by intros ?%not_elem_of_nil.
    + intros f. by rewrite !lookup_empty.
  - intros w k Hk. by destruct (Hw w k Hk) as (_ & _ & _ & _ & _ & ?).
  - by rewrite Hn, Hc.
  - intros w f. rewrite Hq. by intros ?%not_elem_of_nil.
  - intros w. rewrite Hq. constructor.
  - intros w w' f. rewrite Hq. by intros ?%not_elem_of_nil.
Qed.
End Loop.

