(* ===== verification/System.v ===== *)
(** * The whole server as a transition system

    The steps its threads can take, in any order: the main thread accepts,
    workers run loop iterations, pool threads run requests and stream
    callbacks, the scheduler and the writer run their rounds, time passes.
    The invariant of ConnTable.v holds in every reachable state. *)

From S2P Require Import Prelude Bytes Config Protocol Framing Timer ThreadPool Context EventLoop.
From S2P Require Import Session Json RefCodec Llama AiManager FileStore DbWriter World Business Stream Worker ConnTable.

(** ** Requests and streams leave the connection table alone *)

Section Quiet.
Context {B : Type} `{Backend B} `{Protobuf} `{JsonText}.
Implicit Types (c : ctx_id) (r : req_id).

Lemma quiet_db_call {A} (m : M B A) : quiet (db_call m).
Proof. unfold db_call. quiet_tac. intros s. done. Qed.
Lemma quiet_has_db : quiet (has_db (B := B)).
Proof. unfold has_db. quiet_tac. Qed.
Lemma quiet_ack c n (rs : Response) : quiet (ack (B := B) c n rs).
Proof. apply quiet_reply. Qed.
Lemma quiet_uid_of c : quiet (uid_of (B := B) c).
Proof. unfold uid_of. quiet_tac. Qed.
Lemma quiet_store_chat a b t d : quiet (store_chat (B := B) a b t d).
Proof. unfold store_chat. quiet_tac. Qed.
Lemma quiet_session_of u : quiet (session_of (B := B) u).
Proof. unfold session_of. quiet_tac. Qed.
Lemma quiet_user_list l : quiet (user_list (B := B) l).
Proof. unfold user_list. quiet_tac. Qed.
Lemma quiet_notify u t : quiet (notify (B := B) u t).
Proof. unfold notify. quiet_tac; [apply quiet_session_of|apply quiet_reply]. Qed.
Lemma quiet_rate_limited c : quiet (rate_limited (B := B) c).
Proof. unfold rate_limited. quiet_tac. Qed.
Lemma quiet_deliver c m : quiet (deliver_offline (B := B) c m).
Proof. unfold deliver_offline. quiet_tac. apply quiet_reply. Qed.
End Quiet.

#[export] Hint Resolve quiet_db_call quiet_has_db quiet_ack quiet_uid_of quiet_store_chat quiet_session_of
  quiet_user_list quiet_notify quiet_rate_limited quiet_deliver quiet_reply quiet_bind_session : quiet.

Section QuietHandlers.
Context {B : Type} `{Backend B} `{Protobuf} `{JsonText}.
Implicit Types (c : ctx_id) (r : req_id).

Lemma quiet_command c hdr body : quiet (handle_command (B := B) c hdr body).
Proof.
  unfold handle_command, handle_login, handle_chat, handle_ai_chat, handle_register, handle_heartbeat,
    handle_add_friend, handle_accept_friend, handle_friend_list, handle_search_user, handle_friend_requests.
  quiet_tac.
Qed.
Lemma quiet_business c hdr body : quiet (process_business (B := B) c hdr body).
Proof. unfold process_business. quiet_tac. apply quiet_command. Qed.

Lemma quiet_request_of r : quiet (request_of (B := B) r).
Proof. unfold request_of. quiet_tac. Qed.
Lemma quiet_take_seq r : quiet (take_seq (B := B) r).
Proof. unfold take_seq. quiet_tac. apply quiet_request_of. Qed.
Lemma quiet_send_stream_chunk u c chunk b1 b2 n : quiet (send_stream_chunk (B := B) u c chunk b1 b2 n).
Proof. unfold send_stream_chunk, queue_send_packet. quiet_tac. Qed.
End QuietHandlers.

#[export] Hint Resolve quiet_business quiet_request_of quiet_take_seq quiet_send_stream_chunk : quiet.

Section QuietStream.
Context {B : Type} `{Backend B} `{Protobuf} `{JsonText}.
Implicit Types (c : ctx_id) (r : req_id).

Lemma quiet_schedule : quiet (schedule_step (B := B)).
Proof. unfold schedule_step, send_error_response. quiet_tac. Qed.
Lemma quiet_on_chunk r u c l t : quiet (on_chunk (B := B) r u c l t).
Proof. unfold on_chunk. quiet_tac. Qed.
Lemma quiet_on_complete r u c l : quiet (on_complete (B := B) r u c l).
Proof. unfold on_complete. quiet_tac. Qed.
Lemma quiet_send_piece r u c p : quiet (send_piece (B := B) r u c p).
Proof. unfold send_piece. quiet_tac. Qed.
Lemma quiet_finish r c : quiet (finish (B := B) r c).
Proof. unfold finish. quiet_tac. Qed.
End QuietStream.

#[export] Hint Resolve quiet_schedule quiet_on_chunk quiet_on_complete quiet_send_piece quiet_finish : quiet.

(** ** Steps *)

Section Steps.
Context {B : Type} `{Backend B} `{Protobuf} `{JsonText}.
Implicit Types (s : Server B).

(** What a pool thread does at one go: a request, or one callback or section
    of [process_stream_request]. *)
Inductive pool_action : Type → Type :=
  | ABusiness (c : ctx_id) (hdr : PacketHeader) (body : bytes) : pool_action unit
  | AChunk (r : req_id) (u : Z) (c : ctx_id) (l : stream_local) (text : bytes) : pool_action stream_local
  | AComplete (r : req_id) (u : Z) (c : ctx_id) (l : stream_local) : pool_action stream_local
  | APiece (r : req_id) (u : Z) (c : ctx_id) (p : bytes * bool) : pool_action unit
  | AFinish (r : req_id) (c : ctx_id) : pool_action unit.

Definition run_action {A} (a : pool_action A) : M (Server B) A :=
  match a in pool_action A' return M (Server B) A' with
  | ABusiness c hdr body => process_business c hdr body
  | AChunk r u c l text => on_chunk r u c l text
  | AComplete r u c l => on_complete r u c l
  | APiece r u c p => send_piece r u c p
  | AFinish r c => finish r c
  end.

Inductive server_step : Server B → Server B → Prop :=
  | st_time mono wall s : server_step s (set_clocks mono wall s)
  | st_accept w f ip port s s' :
      (0 ≤ f)%Z → f ∉ sv_open_fds s → accept_connection w f ip port s = Ret tt s' → server_step s s'
  | st_loop w events s s' : loop_iteration w events s = Ret tt s' → server_step s s'
  | st_pool p s : server_step s (set_pool p s)
  | st_action A (a : pool_action A) r s s' : run_action a s = Ret r s' → server_step s s'
  | st_schedule s s' : schedule_step s = Ret tt s' → server_step s s'
  | st_writer d s : server_step s (set_db d s).

Lemma quiet_action {A} (a : pool_action A) : quiet (run_action a).
Proof. destruct a; cbn [run_action]; auto with quiet. Qed.

Lemma quiet_Ret {A} (m : M (Server B) A) a s s' : quiet m → m s = Ret a s' → same_conns s s'.
Proof. intros Hq E. specialize (Hq s). by rewrite E in Hq. Qed.

Lemma server_step_inv s s' : server_step s s' → server_inv (λ _, []) s → server_inv (λ _, []) s'.
Proof.
  intros Hs Hi. destruct Hs as [mono wall s|w f ip port s s' Hf0 Hf E|w events s s' E|p s|A a r s s' E|s s' E|d s].
  - eapply same_inv; [|exact Hi]. by apply same_conns_refl_fields.
  - by eapply accept_keeps.
  - by eapply iteration_keeps.
  - eapply same_inv; [|exact Hi]. by apply same_conns_refl_fields.
  - eapply same_inv; [|exact Hi]. by eapply quiet_Ret; [apply quiet_action|].
  - eapply same_inv; [|exact Hi]. by eapply quiet_Ret; [apply quiet_schedule|].
  - eapply same_inv; [|exact Hi]. by apply same_conns_refl_fields.
Qed.

Lemma reach_inv s0 s : fresh_server s0 → rtc server_step s0 s → server_inv (λ _, []) s.
Proof.
  intros Hi0%fresh_inv Hr. revert Hi0. induction Hr; eauto using server_step_inv.
Qed.

(** ** Properties *)

(** C4. epoll never reports a dead object: in every reachable state, whatever
    a worker's epoll set holds for a descriptor is a live connection of that
    worker, not closed, with that descriptor, which is open, and whose context
    names the same descriptor; it is also what the worker's table holds for
    it, and no two live connections share a descriptor or a context. *)
Theorem conn_table_consistent s0 s :
  fresh_server s0 → rtc server_step s0 s →
  (∀ w k f ev p, sv_workers s !! w = Some k → interest (loop_ k) !! f = Some (ev, p) →
     ∃ t x, sv_conns s !! p = Some t ∧ tc_owner t = w ∧ tc_fd t = f ∧ tc_closed t = false ∧
       f ∈ sv_open_fds s ∧ connections_ k !! f = Some p ∧
       ctxs (sv_heap s) !! tc_ctx t = Some x ∧ fd x = f) ∧
  (∀ p q t u, sv_conns s !! p = Some t → sv_conns s !! q = Some u →
     tc_fd t = tc_fd u ∨ tc_ctx t = tc_ctx u → p = q).
Proof.
  intros Hf Hr. pose proof (reach_inv s0 s Hf Hr) as Hi. split.
  - intros w k f ev p Hk Hint. pose proof (si_watched _ _ s Hi w k f Hk) as Hw. rewrite Hint in Hw.
    symmetry in Hw. cbn in Hw. destruct (si_table _ _ s Hi w k f p Hk Hw) as (t & Ht & <- & <-).
    destruct (si_conns _ _ s Hi p t Ht) as (? & ? & ? & k' & x & ? & ? & ? & ? & _). eauto 15.
  - intros p q t u Hp Hq [E|E].
    + by eapply (si_fd_inj _ _ s Hi).
    + by eapply (si_ctx_inj _ _ s Hi).
Qed.

(** C24. Every connection has exactly one heartbeat timer and there is no other
    timer: a worker's timers are, in every reachable state, one node per
    connection of its table, the one its heartbeat table records, and the
    number of connections is what [g_conn_count] says. *)
Theorem heartbeat_exact s0 s w k :
  fresh_server s0 → rtc server_step s0 s → sv_workers s !! w = Some k →
  (∀ f, is_Some (connections_ k !! f) ↔ ∃ n, n ∈ timermap_ (timer_ k) ∧ func n = f) ∧
  (∀ n m, n ∈ timermap_ (timer_ k) → m ∈ timermap_ (timer_ k) → func n = func m → n = m) ∧
  (∀ n, n ∈ timermap_ (timer_ k) → heartbeat_timers_ k !! func n = Some (base n)) ∧
  sv_conn_count s = wrap_i32 (Z.of_nat (size (sv_conns s))).
Proof.
  intros Hf Hr Hk. pose proof (reach_inv s0 s Hf Hr) as Hi.
  destruct (si_timers _ _ s Hi w k Hk) as [[Hw _ He _] Hd].
  assert (Hn : ∀ n, n ∈ timermap_ (timer_ k) → heartbeat_timers_ k !! func n = Some (base n)).
  { intros n Hn. apply He; [done|]. by rewrite node_eta. }
  split_ands; [|..|exact Hn|apply (si_count _ _ s Hi)].
  - intros f. rewrite <- Hd. split.
    + intros [b Hb]. exists (mkNode b f). split; [by apply He|done].
    + intros (n & Hin & <-). rewrite (Hn n Hin). eauto.
  - intros n m Hn1 Hn2 E. pose proof (Hn n Hn1) as E1. rewrite E, (Hn m Hn2) in E1.
    eapply wf_base_inj; eauto. congruence.
Qed.
End Steps.

(** ** Starting up *)

(** The globals of [main] before any worker exists. *)
Definition empty_server {B} (env : environment) (ai : StreamingAIManager) (db : DBBatchWriter B)
    (threads : nat) : Server B :=
  mkServer env 0 0 empty_heap ∅ 0 ∅ ∅ new_sessions (Some ai) (Some db) (Some (new_pool threads)) 0.

Lemma pool_ok_wf (h : ctx_heap) (q : ContextPool) : pool_ok h q → pool_wf (Context.owner_ q) h q.
Proof.
  intros [_ Hs Hn Hf]. split; [done..|]. intros i Hi. destruct (Hf i Hi) as (? & c & x & ? & _). eauto.
Qed.

Lemma fill_pool_old (owner : worker_id) (n : nat) : ∀ (i : nat) (h : ctx_heap) (q : ContextPool),
  (∀ c : ctx_id, next_ctx h ≤ c → ctxs h !! c = None) →
  let '(h', _) := fill_pool owner i n h q in
  (∀ c : ctx_id, next_ctx h' ≤ c → ctxs h' !! c = None) ∧
  (∀ d y, ctxs h !! d = Some y → ctxs h' !! d = Some y).
Proof.
  induction n as [|n IH]; intros i h q Hf; cbn [fill_pool alloc_ctx]; [done|].
  match goal with |- context [fill_pool owner (S i) n ?h1 ?q1] => specialize (IH (S i) h1 q1) end.
  destruct (fill_pool _ _ _ _ _) as [h' q']. destruct IH as [Hf' Hold].
  { intros c Hc. cbn in *. rewrite lookup_insert_ne by lia. apply Hf. lia. }
  split; [done|]. intros d y Hd. apply Hold. cbn. rewrite lookup_insert_ne; [done|].
  intros <-. by rewrite Hf in Hd.
Qed.

Lemma new_worker_fresh {B} (w : worker_id) (s : Server B) :
  fresh_server s →
  ∃ s', new_worker w s = Ret tt s' ∧ fresh_server s' ∧
    ∀ w', is_Some (sv_workers s' !! w') ↔ w' = w ∨ is_Some (sv_workers s !! w').
Proof.
  intros (Hc & Hn & Hf & Hw). unfold new_worker. mred.
  pose proof (new_ctx_pool_ok (Z.to_nat (POOL_SIZE (sv_env s))) w (sv_heap s) Hf) as Hp.
  pose proof (fill_pool_old w (Z.to_nat (POOL_SIZE (sv_env s))) 0 (sv_heap s) (mkCtxPool w [] []) Hf) as Hold.
  unfold new_ctx_pool in *. destruct (fill_pool _ _ _ _ _) as [h q].
  destruct Hp as (Hok & Hown & _). destruct Hold as [Hf' Hold]. eexists. split; [done|].
  cbn [set_workers set_heap sv_workers sv_conns sv_conn_count sv_heap]. split.
  - unfold fresh_server. cbn [set_workers set_heap sv_workers sv_conns sv_conn_count sv_heap].
    split_ands; [done..|]. intros w1 k1. destruct (decide (w = w1)) as [<-|Hne].
    + rewrite lookup_insert_eq. intros [= <-]. split_ands; try done. rewrite <- Hown. by apply pool_ok_wf.
    + rewrite lookup_insert_ne by done. intros Hk. destruct (Hw w1 k1 Hk) as (? & ? & ? & ? & ? & Hpw).
      split_ands; try done. eapply pool_wf_mono; [|exact Hpw]. eauto.
  - intros w'. destruct (decide (w = w')) as [->|Hne].
    + rewrite lookup_insert_eq. split; [by left|eauto].
    + rewrite lookup_insert_ne by done. naive_solver.
Qed.

(** [for (i = 0; i < worker_num; ++i) workers.push_back(std::make_unique<Worker>())] *)
Definition start_workers {B} (n : nat) : M (Server B) unit := for_each new_worker (List.seq 0 n).

Lemma start_workers_fresh {B} (n i : nat) (s : Server B) :
  fresh_server s →
  ∃ s', for_each new_worker (List.seq i n) s = Ret tt s' ∧ fresh_server s' ∧
    ∀ w, is_Some (sv_workers s' !! w) ↔ (i ≤ w < i + n) ∨ is_Some (sv_workers s !! w).
Proof.
  revert i s. induction n as [|n IH]; intros i s Hs; cbn [List.seq for_each].
  - exists s. split_ands; [done..|]. intros w. split; [by right|]. intros [?|?]; [lia|done].
  - destruct (new_worker_fresh i s Hs) as (s1 & E1 & Hs1 & Hw1). mred. rewrite E1.
    destruct (IH (S i) s1 Hs1) as (s2 & E2 & Hs2 & Hw2). exists s2. split_ands; [done..|].
    intros w. rewrite Hw2, Hw1. split; [|intros [?|?]; [destruct (decide (w = i))|]]; try tauto; try lia.
    + intros [?|[->|?]]; [left; lia|left; lia|by right].
Qed.

Lemma empty_server_fresh {B} (env : environment) (ai : StreamingAIManager) (db : DBBatchWriter B) (n : nat) :
  fresh_server (empty_server env ai db n).
Proof. unfold fresh_server. split_ands; try done. Qed.

(** ** Witnesses *)

Definition demo_env : environment := λ name,
  if decide (name = str "IM_POOL_SIZE") then Some (str "1") else None.
Definition demo_db : DBBatchWriter (HashedDB len_hash) := mkWriter [] true (mkHashed db_alice).
Definition demo_server : Server (HashedDB len_hash) :=
  match start_workers 1 (empty_server demo_env (new_ai 2) demo_db 2) with Ret _ s => s
  | _ => empty_server demo_env (new_ai 2) demo_db 2 end.

Lemma demo_server_fresh : fresh_server demo_server.
Proof.
  destruct (start_workers_fresh 1 0 (empty_server demo_env (new_ai 2) demo_db 2)) as (s & E & Hs & _);
    [apply empty_server_fresh|].
  unfold demo_server, start_workers. by rewrite E.
Qed.

(** Client 5 connects and its connection is set up. *)
Definition demo_accepted : Server (HashedDB len_hash) :=
  match accept_connection 0 5 (str "10.0.0.1") 4000 demo_server with Ret _ s => s | _ => demo_server end.
Definition demo_connected : Server (HashedDB len_hash) :=
  match loop_iteration 0 [EvWakeup] demo_accepted with Ret _ s => s | _ => demo_server end.

Lemma demo_accepts :
  accept_connection 0 5 (str "10.0.0.1") 4000 demo_server = Ret tt demo_accepted.
Proof.
  destruct (is_ret_unit (accept_connection 0 5 (str "10.0.0.1") 4000 demo_server)) as [s E];
    [vm_compute; reflexivity|].
  unfold demo_accepted. by rewrite E.
Qed.
Lemma demo_connects : loop_iteration 0 [EvWakeup] demo_accepted = Ret tt demo_connected.
Proof.
  destruct (is_ret_unit (loop_iteration 0 [EvWakeup] demo_accepted)) as [s E]; [vm_compute; reflexivity|].
  unfold demo_connected. by rewrite E.
Qed.

Lemma demo_reach : rtc server_step demo_server demo_connected.
Proof.
  eapply rtc_l; [eapply (st_accept 0 5); [lia|apply (bool_decide_unpack _); vm_compute; exact I|exact demo_accepts]|].
  apply rtc_once. exact (st_loop 0 [EvWakeup] _ _ demo_connects).
Qed.

Lemma conn_table_consistent_witness :
  ∃ t, sv_conns demo_connected !! 0 = Some t ∧ tc_fd t = 5%Z ∧ 5%Z ∈ sv_open_fds demo_connected.
Proof.
  destruct (conn_table_consistent demo_server demo_connected demo_server_fresh demo_reach) as [H _].
  destruct (sv_workers demo_connected !! 0) as [k|] eqn:Hk; [|vm_compute in Hk; discriminate Hk].
  assert (Hi : interest (loop_ k) !! 5%Z = Some (READ_EVENTS, 0)).
  { assert (H1 : (λ k, interest (loop_ k) !! 5%Z) <$> sv_workers demo_connected !! 0 =
      Some (Some (READ_EVENTS, 0))) by (vm_compute; reflexivity).
    rewrite Hk in H1. by injection H1. }
  destruct (H 0 k 5%Z _ _ Hk Hi) as (t & x & Ht & _ & Hf & _ & Ho & _). exists t. done.
Defined.

Lemma heartbeat_exact_witness :
  ∃ k, sv_workers demo_connected !! 0 = Some k ∧
    (is_Some (connections_ k !! 5%Z) ↔ ∃ n, n ∈ timermap_ (timer_ k) ∧ func n = 5%Z).
Proof.
  destruct (sv_workers demo_connected !! 0) as [k|] eqn:Hk; [|vm_compute in Hk; discriminate Hk].
  exists k. split; [reflexivity|].
  exact (proj1 (heartbeat_exact demo_server demo_connected 0 k demo_server_fresh demo_reach Hk) 5%Z).
Defined.
