(* ===== verification/Delivery.v ===== *)
(** * From the queue to the socket and back (src/connection.cpp, src/worker.cpp)

    What sending, writing, reading and the heartbeat check do to a live
    connection, and what goes wrong on the paths where the sources use a
    connection, a context or a session that is no longer theirs. *)

From S2P Require Import Prelude Bytes Config Protocol Framing Timer ThreadPool Context EventLoop.
From S2P Require Import Session Json RefCodec Llama AiManager FileStore DbWriter World Business Stream Worker ConnTable System.

Section Live.
Context {B : Type}.
Implicit Types (s : Server B) (p : conn_id) (t : TcpConnection) (x : ClientContext).

(** A live connection and its context. *)
Record live s p t x : Prop := {
  lv_conn : sv_conns s !! p = Some t;
  lv_open : tc_closed t = false;
  lv_ctx : ctxs (sv_heap s) !! tc_ctx t = Some x;
  lv_fd : fd x = tc_fd t ∧ (0 ≤ tc_fd t)%Z;
  lv_worker : ∃ k, sv_workers s !! tc_owner t = Some k ∧ connections_ k !! tc_fd t = Some p
}.

Lemma inv_live ex s p t : server_inv ex s → sv_conns s !! p = Some t → ∃ x, live s p t x.
Proof.
  intros Hi Hp. destruct (si_conns None ex s Hi p t Hp) as (? & ? & ? & k & x & ? & ? & ? & ? & _).
  exists x. split; try done. eauto.
Qed.

(** Changing the context of a live connection, but not its descriptor. *)
Lemma live_mod_ctx s p t x g :
  live s p t x → fd (g x) = fd x →
  ∃ s', mod_ctx (tc_ctx t) g s = Ret tt s' ∧ live s' p t (g x) ∧
    sv_env s' = sv_env s ∧ sv_pool s' = sv_pool s ∧ sv_mono_ns s' = sv_mono_ns s ∧
    sv_workers s' = sv_workers s.
Proof.
  intros [Hc Ho Hx [Hf H0] Hw] Hg. eexists. split; [done|]. split_ands; try done.
  split; try done; cbn [set_heap sv_heap upd_ctx ctxs]; [by rewrite lookup_alter_eq, Hx|]. by rewrite Hg.
Qed.

(** Changing the worker of a live connection, but not its table. *)
Lemma live_mod_worker s p t x g :
  live s p t x → (∀ k, connections_ (g k) = connections_ k) →
  ∃ s', mod_worker (tc_owner t) g s = Ret tt s' ∧ live s' p t x ∧
    sv_env s' = sv_env s ∧ sv_pool s' = sv_pool s ∧ sv_mono_ns s' = sv_mono_ns s.
Proof.
  intros [Hc Ho Hx Hf (k & Hk & Hin)] Hg. rewrite (mod_worker_eq s _ g k Hk). eexists. split; [done|].
  split_ands; try done. split; try done. exists (g k). cbn [set_workers sv_workers].
  rewrite lookup_insert_eq, Hg. done.
Qed.

Lemma live_ctx_of s p t x : live s p t x → ctx_of (tc_ctx t) s = Ret x s.
Proof. intros [_ _ Hx _ _]. unfold ctx_of. by rewrite Hx. Qed.
Lemma live_conn_of s p t x : live s p t x → conn_of p s = Ret t s.
Proof. intros [Hc _ _ _ _]. unfold conn_of. by rewrite Hc. Qed.

(** ** The epoll set *)




(** ** Sending *)


(** Over the limit: nothing is buffered, the connection is queued for closing. *)
Lemma send_over s p t x k data :
  live s p t x → sv_workers s !! tc_owner t = Some k →
  (MAX_SEND_BUF (sv_env s) < Z.of_nat (length (send_buf x) + length data))%Z →
  send p data s = Ret tt (set_workers (<[tc_owner t := set_loop (queue_in_loop (FClose (tc_fd t)) (loop_ k)) k]>
                                         (sv_workers s)) s).
Proof.
  intros Hl Hk Hover. unfold send. mred. rewrite (live_conn_of s p t x Hl), (lv_open s p t x Hl).
  rewrite (live_ctx_of s p t x Hl). rewrite Z.gtb_ltb, (proj2 (Z.ltb_lt _ _)) by lia.
  unfold queue_close_connection, queue_functor, worker_of. mred. rewrite Hk.
  by rewrite (mod_worker_eq s _ _ k Hk).
Qed.


(** ** Writing *)



(** ** Sends and writes in any order *)



End Live.

(** ** Reading *)

Section Reading.
Context {B : Type}.
Implicit Types (s : Server B) (p : conn_id) (t : TcpConnection) (x : ClientContext).

Lemma read_chunk_live s p t x data :
  live s p t x →
  ∃ s' x', read_chunk p data s = Ret tt s' ∧ live s' p t x' ∧ recv_buf x' = recv_buf x ++ data ∧
    sv_pool s' = sv_pool s ∧ sv_mono_ns s' = sv_mono_ns s.
Proof.
  intros Hl. unfold read_chunk. mred. rewrite (live_conn_of s p t x Hl), (live_ctx_of s p t x Hl).
  destruct (live_mod_ctx s p t x (set_recv_buf (recv_buf x ++ data)) Hl eq_refl)
    as (s1 & -> & Hl1 & _ & Hp1 & Hm1 & _). unfold touch. mred.
  destruct (live_mod_ctx s1 p t _ (update_time (now_sec s1)) Hl1 eq_refl) as (s2 & -> & Hl2 & _ & Hp2 & Hm2 & _).
  unfold heartbeat. mred.
  destruct (live_mod_worker s2 p t _ (start_heartbeat_timer (GetTick s2) (HEARTBEAT_SEC (sv_env s2)) (tc_fd t)) Hl2)
    as (s3 & -> & Hl3 & _ & Hp3 & Hm3).
  { intros k. unfold start_heartbeat_timer, cancel_heartbeat_timer. cbn. by case_match. }
  eexists s3, _. split_ands; [done|exact Hl3|done|congruence|congruence].
Qed.

Lemma read_chunks_live s p t x chunks :
  live s p t x →
  ∃ s' x', for_each (read_chunk p) chunks s = Ret tt s' ∧ live s' p t x' ∧
    recv_buf x' = recv_buf x ++ concat chunks ∧ sv_pool s' = sv_pool s.
Proof.
  revert s x. induction chunks as [|d chunks IH]; intros s x Hl; cbn [for_each concat].
  - exists s, x. by rewrite app_nil_r.
  - destruct (read_chunk_live s p t x d Hl) as (s1 & x1 & E1 & Hl1 & Hb1 & Hp1 & _). mred. rewrite E1.
    destruct (IH s1 x1 Hl1) as (s2 & x2 & E2 & Hl2 & Hb2 & Hp2). exists s2, x2.
    rewrite E2, Hb2, Hb1, <- app_assoc. split_ands; try done. congruence.
Qed.

(** The tasks a list of packets becomes. *)
Definition frame_task t (fr : PacketHeader * bytes) : task := TBusiness (tc_ctx t) fr.1 fr.2.

Lemma enqueue_task_eq s (tk : task) (q : ThreadPool task) :
  sv_pool s = Some q → (Z.of_nat (length (tasks_ q)) ≤ MAX_TASKS)%Z →
  enqueue_task tk s =
  Ret true (set_pool (Some (mkPool (tasks_ q ++ [tk]) (stop_ q) (threads_ q) (accepted q ++ [tk]) (started q))) s).
Proof.
  intros Hq Hlen. unfold enqueue_task, enqueue. rewrite Hq, Z.gtb_ltb, (proj2 (Z.ltb_ge _ _)) by lia. done.
Qed.

Lemma enqueue_frames s t (q : ThreadPool task) (frames : list (PacketHeader * bytes)) :
  sv_pool s = Some q →
  (Z.of_nat (length (tasks_ q) + length frames) ≤ MAX_TASKS + 1)%Z →
  ∃ s' q', for_each (λ fr, enqueue_task (TBusiness (tc_ctx t) fr.1 fr.2) ;; mret tt) frames s = Ret tt s' ∧
    s' = set_pool (Some q') s ∧ tasks_ q' = tasks_ q ++ map (frame_task t) frames.
Proof.
  revert s q. induction frames as [|fr frames IH]; intros s q Hq Hlen; cbn [for_each map].
  - exists s, q. rewrite app_nil_r. split_ands; try done. rewrite <- Hq. by destruct s.
  - cbn [length] in Hlen. mred. rewrite (enqueue_task_eq s _ q Hq) by lia.
    match goal with |- context [for_each _ frames (set_pool (Some ?q1) s)] =>
      destruct (IH (set_pool (Some q1) s) q1 eq_refl) as (s2 & q2 & E & -> & Ht) end.
    + cbn. rewrite length_app. cbn. lia.
    + eexists _, q2. split; [exact E|]. split; [done|]. rewrite Ht. cbn. by rewrite <- app_assoc.
Qed.

Lemma live_set_pool s p t x q : live s p t x → live (set_pool q s) p t x.
Proof. by intros []. Qed.
End Reading.

(** ** Properties *)

Section Properties.
Context {B : Type}.
Implicit Types (s : Server B) (p : conn_id) (t : TcpConnection) (x : ClientContext).


(** Every complete packet a client sent becomes one task, in order: after
    [handle_read], the pool's queue has grown by one request per packet in the
    receive buffer and the bytes just read, and the incomplete tail stays in
    the receive buffer. *)
Theorem read_enqueues s p t x (q : ThreadPool task) (chunks : list bytes)
    (frames : list (PacketHeader * bytes)) (tail : bytes) :
  live s p t x → sv_pool s = Some q →
  parse_frames (recv_buf x ++ concat chunks) = (frames, tail, true) →
  (Z.of_nat (length (tasks_ q) + length frames) ≤ MAX_TASKS + 1)%Z →
  ∃ s' x' q', handle_read p chunks RAgain s = Ret tt s' ∧ live s' p t x' ∧ recv_buf x' = tail ∧
    sv_pool s' = Some q' ∧ tasks_ q' = tasks_ q ++ map (frame_task t) frames.
Proof.
  intros Hl Hq Hp Hlen. unfold handle_read. mred.
  destruct (read_chunks_live s p t x chunks Hl) as (s1 & x1 & E1 & Hl1 & Hb1 & Hp1). rewrite E1.
  rewrite (live_conn_of s1 p t x1 Hl1), (live_ctx_of s1 p t x1 Hl1), Hb1, Hp.
  destruct (live_mod_ctx s1 p t x1 (set_recv_buf tail) Hl1 eq_refl) as (s2 & -> & Hl2 & _ & Hp2 & _).
  destruct (enqueue_frames s2 t q frames) as (s3 & q3 & E3 & -> & Ht); [congruence|done|].
  mred. rewrite E3. eexists _, _, q3. split_ands; [done|by apply live_set_pool|done|done|done].
Qed.

(** C26. A flooded or stuck client cannot exhaust memory: data that would take
    the send buffer over the limit is not buffered; the connection is queued
    on its worker's loop to be closed, and the rest of the server (every
    context, connection, session, timer and every other worker) is exactly
    what it was. *)
Theorem send_limit s p t x k data :
  live s p t x → sv_workers s !! tc_owner t = Some k →
  (MAX_SEND_BUF (sv_env s) < Z.of_nat (length (send_buf x) + length data))%Z →
  let e := loop_ k in
  let e' := mkLoop (running_ e) (wakeup_fd_ e + 1) (pending_functors_ e ++ [FClose (tc_fd t)]) (interest e) in
  send p data s = Ret tt (set_workers (<[tc_owner t := set_loop e' k]> (sv_workers s)) s).
Proof. intros Hl Hk Hover. exact (send_over s p t x k data Hl Hk Hover). Qed.
End Properties.

(** ** The heartbeat check *)

Section Heartbeat.
Context {B : Type}.
Implicit Types (s : Server B) (ex : worker_id → list Z).

Lemma DelTimer_length (b : TimerNodeBase) (t : Timer Z) :
  length (timermap_ (DelTimer b t).2) ≤ length (timermap_ t).
Proof.
  unfold DelTimer. destruct (set_erase b (timermap_ t)) as [l|] eqn:E; [|done].
  apply set_erase_Some in E as (n & pre & post & _ & -> & ->). cbn. rewrite !length_app. cbn. lia.
Qed.

(** One expired timer: its connection is closed, its entry is gone. *)
Lemma expire_one ex s w k n l :
  server_inv ex s → sv_workers s !! w = Some k → is_Some (sv_ai s) → timermap_ (timer_ k) = n :: l →
  ∃ s' k', (mod_worker w (set_timers (mkTimer (gid (timer_ k)) l) (heartbeat_timers_ k)) ;;
            force_close_in_loop w (func n)) s = Ret tt s' ∧
    server_inv ex s' ∧ sv_workers s' !! w = Some k' ∧ is_Some (sv_ai s') ∧ GetTick s' = GetTick s ∧
    length (timermap_ (timer_ k')) ≤ length l ∧
    heartbeat_timers_ k' = delete (func n) (heartbeat_timers_ k).
Proof.
  intros Hi Hk [a Ha] El. set (k0 := set_timers (mkTimer (gid (timer_ k)) l) (heartbeat_timers_ k) k).
  destruct (pop_timer k n l (si_timers None ex s Hi w k Hk) El) as [Hn Hok]. fold k0 in Hok.
  set (s1 := set_workers (<[w := k0]> (sv_workers s)) s).
  assert (Hi1 : server_inv_but (Some (w, func n)) ex s1).
  { apply (worker_update_inv_but (ex := ex) (Some (func n)) ex s w k); try done. intros w1.
    apply reflexive_eq. f_equal. unfold queued_adds. cbn [set_workers sv_workers].
    destruct (decide (w = w1)) as [<-|Hne]; [by rewrite lookup_insert_eq, Hk|by rewrite lookup_insert_ne]. }
  assert (Hk1 : sv_workers s1 !! w = Some k0) by (cbn; by rewrite lookup_insert_eq).
  destruct (proj2 (si_timers None ex s Hi w k Hk) (func n)) as [[p Hp] _]; [eauto|].
  destruct (si_table _ _ s1 Hi1 w k0 (func n) p Hk1 Hp) as (t & Ht & Hw & Hf).
  destruct (si_conns _ _ s1 Hi1 p t Ht) as (Hc & _ & _ & k2 & x & Hk2 & _ & Hx & _).
  rewrite Hw, Hk1 in Hk2. injection Hk2 as <-.
  mred. rewrite (mod_worker_eq s w _ k Hk). fold k0 s1.
  rewrite (force_close_eq s1 w k0 (func n) p t x) by done. change (sv_ai s1) with (sv_ai s). rewrite Ha.
  assert (Hinv : server_inv ex (closed_server p t x k0 s1)).
  { eapply closed_inv; [exact Hi1|right; by rewrite Hw, Hf|done|by rewrite Hw|done]. }
  exists (closed_server p t x k0 s1), (closed_worker (func n) x k0).
  destruct (cancel_spec (Some (func n)) (func n) k0 (proj1 Hok) (or_intror eq_refl)) as (_ & Hhb & _).
  split_ands; [by destruct (0 <? uid x)%Z|done|..].
  - cbn [closed_server sv_workers]. by rewrite Hw, Hf, lookup_insert_eq.
  - cbn [closed_server sv_ai]. change (sv_ai s1) with (sv_ai s). rewrite Ha. destruct (0 <? uid x)%Z; cbn; eauto.
  - done.
  - cbn [closed_worker timer_]. unfold cancel_heartbeat_timer. destruct (heartbeat_timers_ k0 !! func n); [|done].
    cbn [set_timers timer_]. apply DelTimer_length.
  - cbn [closed_worker heartbeat_timers_]. exact Hhb.
Qed.

Lemma check_timers_spec ex n : ∀ s w k,
  server_inv ex s → sv_workers s !! w = Some k → is_Some (sv_ai s) → length (timermap_ (timer_ k)) ≤ n →
  ∃ s' k', check_timers n w s = Ret tt s' ∧ server_inv ex s' ∧ sv_workers s' !! w = Some k' ∧
    ∀ f b, heartbeat_timers_ k' !! f = Some b ↔ heartbeat_timers_ k !! f = Some b ∧ (GetTick s < expire b)%Z.
Proof.
  induction n as [|n IH]; intros s w k Hi Hk Ha Hlen; cbn [check_timers].
  - exists s, k. split_ands; try done. destruct (si_timers None ex s Hi w k Hk) as [[_ _ He _] _].
    destruct (timermap_ (timer_ k)) eqn:El; [|simpl in Hlen; lia]. intros f b. rewrite He by done.
    split; [by intros ?%not_elem_of_nil|]. by intros [?%not_elem_of_nil _].
  - unfold worker_of. mred. rewrite Hk. unfold CheckTimer.
    destruct (si_timers None ex s Hi w k Hk) as [[Hw _ He _] _].
    destruct (timermap_ (timer_ k)) as [|nd l] eqn:El.
    + exists s, k. split_ands; try done. intros f b. rewrite He by done.
      split; [by intros ?%not_elem_of_nil|]. by intros [?%not_elem_of_nil _].
    + destruct (expire (base nd) <=? GetTick s)%Z eqn:Ee; zbool.
      * destruct (expire_one ex s w k nd l Hi Hk Ha El) as (s1 & k1 & E1 & Hi1 & Hk1 & Ha1 & Hg1 & Hl1 & Hhb1).
        mred. destruct (mod_worker w _ s) as [[] s0| |]; [|done..]. rewrite E1.
        destruct (IH s1 w k1 Hi1 Hk1 Ha1) as (s2 & k2 & E2 & Hi2 & Hk2 & Hh2); [simpl in Hlen; lia|].
        exists s2, k2. split_ands; try done. intros f b. rewrite Hh2, Hhb1, Hg1, lookup_delete_Some.
        split; [tauto|]. intros [Hb Hlt]. split_ands; try done. intros <-.
        assert (Hnd : heartbeat_timers_ k !! func nd = Some (base nd)).
        { apply He; [done|]. rewrite node_eta. by left. }
        simplify_eq. lia.
      * exists s, k. split_ands; try done. intros f b. split; [|tauto]. intros Hb. split; [done|].
        apply He in Hb; [|done]. pose proof (wf_sorted _ Hw) as Hs. rewrite El in Hs.
        pose proof (sorted_head_min nd (mkNode b f) l Hs Hb). cbn in *. lia.
Qed.

(** C25. Idle clients are dropped, and only those: the timer phase of a loop
    iteration always ends (there is a round for every timer), and afterwards
    the worker's connections are exactly those whose heartbeat deadline lies
    in the future. *)
Theorem idle_connections_closed ex s w k :
  server_inv ex s → sv_workers s !! w = Some k → is_Some (sv_ai s) →
  ∃ s' k', on_loop_once w s = Ret tt s' ∧ sv_workers s' !! w = Some k' ∧
    ∀ f, is_Some (connections_ k' !! f) ↔
         ∃ b, heartbeat_timers_ k !! f = Some b ∧ (GetTick s < expire b)%Z.
Proof.
  intros Hi Hk Ha. unfold on_loop_once, worker_of. mred. rewrite Hk.
  destruct (check_timers_spec ex (length (timermap_ (timer_ k))) s w k Hi Hk Ha (le_n _))
    as (s' & k' & E & Hi' & Hk' & Hh).
  exists s', k'. split_ands; [done..|]. intros f.
  rewrite <- (proj2 (si_timers None ex s' Hi' w k' Hk') f).
  split; [intros [b Hb]; exists b; by apply Hh|]. intros (b & Hb). exists b. by apply Hh.
Qed.

(** A read postpones the deadline: after a chunk was read, the connection's
    heartbeat entry is [HEARTBEAT_SEC] seconds from now, and there is exactly
    one timer for it. *)
Theorem read_renews_heartbeat ex s p t data :
  server_inv ex s → sv_conns s !! p = Some t →
  ∃ s' k' b, read_chunk p data s = Ret tt s' ∧ sv_workers s' !! tc_owner t = Some k' ∧
    heartbeat_timers_ k' !! tc_fd t = Some b ∧
    expire b = (GetTick s + HEARTBEAT_SEC (sv_env s) * 1000)%Z ∧
    ∀ n, n ∈ timermap_ (timer_ k') → func n = tc_fd t → n = mkNode b (tc_fd t).
Proof.
  intros Hi Hp. destruct (inv_live ex s p t Hi Hp) as [x Hl]. unfold read_chunk. mred.
  rewrite (live_conn_of s p t x Hl), (live_ctx_of s p t x Hl).
  destruct (live_mod_ctx s p t x (set_recv_buf (recv_buf x ++ data)) Hl eq_refl)
    as (s1 & -> & Hl1 & He1 & _ & Hm1 & Hw1). unfold touch. mred.
  destruct (live_mod_ctx s1 p t _ (update_time (now_sec s1)) Hl1 eq_refl) as (s2 & -> & Hl2 & He2 & _ & Hm2 & Hw2).
  unfold heartbeat. mred. destruct (lv_worker s p t x Hl) as (k & Hk & _).
  rewrite (mod_worker_eq s2 _ _ k) by congruence.
  destruct (si_timers None ex s Hi _ k Hk) as [Hb _].
  destruct (start_spec (GetTick s2) (HEARTBEAT_SEC (sv_env s2)) (tc_fd t) k Hb) as ([_ _ He _] & (b & Hhb & Hex) & _).
  eexists _, _, b. split; [done|]. cbn [set_workers sv_workers]. rewrite lookup_insert_eq. split; [done|].
  rewrite Hhb, lookup_insert_eq. split_ands; [done| |].
  - rewrite Hex. unfold GetTick. by rewrite Hm2, Hm1, He2, He1.
  - intros n Hn Hf. rewrite <- (node_eta n), Hf in Hn |- *. apply He in Hn; [|done].
    rewrite Hhb, lookup_insert_eq in Hn. congruence.
Qed.
End Heartbeat.

(** ** Objects used after they are gone *)

Section Stale.
Context {B : Type}.
Implicit Types (s : Server B) (ex : worker_id → list Z).

Lemma force_close_gone ex s p t :
  server_inv ex s → sv_conns s !! p = Some t → is_Some (sv_ai s) →
  ∃ s' x, force_close_in_loop (tc_owner t) (tc_fd t) s = Ret tt s' ∧
    ctxs (sv_heap s) !! tc_ctx t = Some x ∧ sv_conns s' = delete p (sv_conns s) ∧
    sv_sessions s' = (if (0 <? uid x)%Z then unbind (uid x) (sv_sessions s) else sv_sessions s).
Proof.
  intros Hi Hp [a Ha]. destruct (si_conns None ex s Hi p t Hp) as (Hc & _ & _ & k & x & Hk & Hin & Hx & _).
  rewrite (force_close_eq s _ k _ p t x) by done. rewrite Ha.
  exists (closed_server p t x k s), x. split_ands; try done. by destruct (0 <? uid x)%Z.
Qed.

(** A peer that sends and closes at once crashes the worker: when epoll
    reports a connection readable and writable and the read meets the end of
    the stream, [handle_read] destroys the connection and [handle_events]
    goes on to call [handle_write] on it. *)
Theorem read_write_event_uaf ex s p t ws :
  server_inv ex s → sv_conns s !! p = Some t → is_Some (sv_ai s) →
  handle_events p (Z.lor EPOLLIN EPOLLOUT) (mkIO [] RClosed ws) s = Crash UseAfterFree.
Proof.
  intros Hi Hp Ha. destruct (force_close_gone ex s p t Hi Hp Ha) as (s' & x & E & _ & Hc & _).
  unfold handle_events. change (has_event (Z.lor EPOLLIN EPOLLOUT) (Z.lor EPOLLHUP (Z.lor EPOLLERR EPOLLRDHUP)))
    with false. change (has_event (Z.lor EPOLLIN EPOLLOUT) EPOLLIN) with true.
  change (has_event (Z.lor EPOLLIN EPOLLOUT) EPOLLOUT) with true.
  unfold handle_read, conn_of. cbn [for_each io_reads io_read_end io_writes]. mred. rewrite Hp, E.
  destruct ws as [|a ws]; cbn [handle_write]; unfold conn_of; mred; by rewrite Hc, lookup_delete_eq.
Qed.

(** C40. Logging in twice logs the user out: closing the connection of an earlier
    login removes the user's session even when the session is by then that of
    a newer connection. *)
Theorem old_close_unbinds ex s p t x (c : ctx_id) :
  server_inv ex s → sv_conns s !! p = Some t → is_Some (sv_ai s) →
  ctxs (sv_heap s) !! tc_ctx t = Some x → (0 < uid x)%Z → length (buckets_ (sv_sessions s)) = NUM_BUCKETS →
  get_session (uid x) (sv_sessions s) = Some c → c ≠ tc_ctx t →
  ∃ s', force_close_in_loop (tc_owner t) (tc_fd t) s = Ret tt s' ∧ get_session (uid x) (sv_sessions s') = None.
Proof.
  intros Hi Hp Ha Hx Hu Hb _ _. destruct (force_close_gone ex s p t Hi Hp Ha) as (s' & x' & E & Hx' & _ & Hs).
  simplify_eq. exists s'. split; [done|]. rewrite Hs, (proj2 (Z.ltb_lt _ _)) by done.
  unfold unbind. rewrite get_upd, decide_True by done. apply lookup_delete_eq.
Qed.
End Stale.

(** A full pool makes a fatal connection: when a worker's context pool is
    empty, the next connection gets a context without an owner, and the first
    request of that client dereferences the null owner. *)
Theorem exhausted_pool_crashes {B} `{Backend B} `{Protobuf} (ex : worker_id → list Z) (s : Server B)
    (w : worker_id) (k : Worker) (f : Z) (ip : bytes) (port sequence : Z) (rest : list Z) :
  server_inv ex s → sv_workers s !! w = Some k → ex w = f :: rest → free_list_ (pool_ k) = [] →
  ∃ s' c, add_connection_in_loop w f ip port s = Ret tt s' ∧
    sv_conns s' !! sv_next_conn s = Some (mkConn w f ip port c false) ∧
    process_business c (mkHeader PROTO_MAGIC 0 (cmd_val HEARTBEAT) sequence) [] s' = Crash NullDeref.
Proof.
  intros Hi Hk Hex Hfree. destruct (si_new None ex s Hi w f) as (Hf0 & Ho & Hn); [rewrite Hex; by left|].
  assert (Hno : connections_ k !! f = None).
  { destruct (connections_ k !! f) as [p|] eqn:E; [|done].
    destruct (si_table None ex s Hi w k f p Hk E) as (t & Ht & _ & Hft). by destruct (Hn p t Ht). }
  assert (Ha : acquire (sv_heap s, pool_ k) = Ret (next_ctx (sv_heap s))
    ((alloc_ctx default_ctx (sv_heap s)).2, pool_ k)).
  { unfold acquire. by rewrite (proj2 (unsnoc_None _) Hfree). }
  rewrite (add_connection_eq s w k f ip port _ _ _ default_ctx Hk Hno Ha)
    by (cbn; by rewrite lookup_insert_eq).
  eexists _, (next_ctx (sv_heap s)). split; [done|]. split; [cbn; by rewrite lookup_insert_eq|].
  unfold process_business, handle_command, handle_heartbeat, ack, reply, owner_of, uid_of, ctx_of.
  cbn [cmd_val cmd seq Z.eqb Pos.eqb]. mred. cbn [added_server sv_heap ctxs].
  rewrite lookup_insert_eq. cbn [added_server sv_heap ctxs]. rewrite lookup_insert_eq. done.
Qed.

(** ** A login that reaches the wrong client *)

(** The login packet of user 1000. *)
Definition login_body : bytes := SerializeToString (mkLogin (str "alice") (str "pw")).
Definition login_packet : bytes := make_packet (cmd_val LOGIN) 7 login_body.
Definition login_header : PacketHeader :=
  mkHeader PROTO_MAGIC (Z.of_nat (length login_body)) (cmd_val LOGIN) 7.

(** Client 5 sends its login and disconnects; client 6 connects and is given
    the same context; then a pool thread gets to the request. *)
Definition hijack_run : M (Server (HashedDB len_hash)) unit :=
  loop_iteration 0 [EvConn 0 EPOLLIN (mkIO [login_packet] RAgain [])] ;;
  loop_iteration 0 [EvConn 0 EPOLLRDHUP (mkIO [] RClosed [])] ;;
  accept_connection 0 6 (str "10.0.0.2") 4001 ;;
  loop_iteration 0 [EvWakeup] ;;
  process_business 0 login_header login_body.

(** A request can act for the wrong client: a request keeps a pointer to a
    pooled context, which is given to the next client when the first one
    leaves, so a login that is processed late logs the new client in as the
    old one (user 1000), although it never sent a password. *)
Theorem stale_login_hijacks :
  ∃ s x t, hijack_run demo_connected = Ret tt s ∧
    sv_conns s !! 1 = Some t ∧ tc_fd t = 6%Z ∧ ctxs (sv_heap s) !! tc_ctx t = Some x ∧
    uid x = 1000%Z ∧ logged_in x = true ∧ get_session 1000 (sv_sessions s) = Some (tc_ctx t).
Proof.
  assert (Hv : match hijack_run demo_connected with
    | Ret _ s => match sv_conns s !! 1 with
        | Some t => (tc_fd t, (λ x, (uid x, logged_in x)) <$> ctxs (sv_heap s) !! tc_ctx t,
                     bool_decide (get_session 1000 (sv_sessions s) = Some (tc_ctx t)))
        | None => (0%Z, None, false) end
    | _ => (0%Z, None, false) end = (6%Z, Some (1000%Z, true), true)) by (vm_compute; reflexivity).
  destruct (hijack_run demo_connected) as [[] s|s|r]; [|done..].
  destruct (sv_conns s !! 1) as [t|] eqn:Et; [|done].
  destruct (ctxs (sv_heap s) !! tc_ctx t) as [x|] eqn:Ex; [|done]. injection Hv as Hf Hu Hl Hs.
  apply bool_decide_eq_true in Hs. exists s, x, t. done.
Qed.

(** ** Witnesses *)

Lemma demo_inv : server_inv (λ _, []) demo_connected.
Proof. exact (reach_inv _ _ demo_server_fresh demo_reach). Qed.

Definition demo_conn : TcpConnection := mkConn 0 5 (str "10.0.0.1") 4000 0 false.
Lemma demo_conn_live : sv_conns demo_connected !! 0 = Some demo_conn.
Proof. vm_compute. reflexivity. Qed.

Definition demo_ctx : ClientContext := mkCtx 5 0 false 0 [] [] false (Some 0) 0 0 0.
Lemma demo_live : live demo_connected 0 demo_conn demo_ctx.
Proof.
  destruct (inv_live _ _ _ _ demo_inv demo_conn_live) as [x Hl].
  assert (Hx : ctxs (sv_heap demo_connected) !! 0 = Some demo_ctx) by (vm_compute; reflexivity).
  assert (Some demo_ctx = Some x) as [= <-]; [|done].
  exact (eq_trans (eq_sym Hx) (lv_ctx _ _ _ _ Hl)).
Qed.

Lemma demo_ai : is_Some (sv_ai demo_connected).
Proof. apply (bool_decide_unpack (is_Some _)). vm_compute. exact I. Qed.




Lemma read_enqueues_witness :
  ∃ s' q', handle_read 0 [take 9 login_packet; drop 9 login_packet ++ [xef]] RAgain demo_connected = Ret tt s' ∧
    sv_pool s' = Some q' ∧ tasks_ q' = [TBusiness 0 login_header login_body].
Proof.
  destruct (read_enqueues demo_connected 0 demo_conn demo_ctx (new_pool 2)
    [take 9 login_packet; drop 9 login_packet ++ [xef]] [(login_header, login_body)] [xef])
    as (s' & x' & q' & E & _ & _ & Hq & Ht).
  - exact demo_live.
  - vm_compute. reflexivity.
  - vm_compute. reflexivity.
  - vm_compute. congruence.
  - exists s', q'. exact (conj E (conj Hq Ht)).
Defined.

Lemma send_limit_witness :
  ∃ k s' k', sv_workers demo_connected !! 0 = Some k ∧
    send 0 (replicate (Z.to_nat 5242881) x00) demo_connected = Ret tt s' ∧
    sv_workers s' !! 0 = Some k' ∧ pending_functors_ (loop_ k') = pending_functors_ (loop_ k) ++ [FClose 5].
Proof.
  destruct (sv_workers demo_connected !! 0) as [k|] eqn:Hk; [|vm_compute in Hk; discriminate Hk].
  eexists k, _, _. split; [reflexivity|]. split; [|split].
  - apply (send_limit demo_connected 0 demo_conn demo_ctx k (replicate (Z.to_nat 5242881) x00)).
    + exact demo_live.
    + exact Hk.
    + rewrite length_replicate. cbn [demo_ctx send_buf length Nat.add]. rewrite Z2Nat.id by lia.
      assert (MAX_SEND_BUF (sv_env demo_connected) = 5242880%Z) as -> by (vm_compute; reflexivity). lia.
  - apply lookup_insert_eq.
  - reflexivity.
Defined.

Lemma idle_connections_closed_witness :
  ∃ s' k', on_loop_once 0 (set_clocks (60 * 10 ^ 9) 0 demo_connected) = Ret tt s' ∧
    sv_workers s' !! 0 = Some k' ∧ connections_ k' !! 5%Z = None.
Proof.
  assert (Hgen : ∀ s : Server (HashedDB len_hash), server_inv (λ _, []) s → is_Some (sv_ai s) →
    (λ k, expire <$> heartbeat_timers_ k !! 5%Z) <$> sv_workers s !! 0 = Some (Some 60000%Z) →
    ∃ s' k', on_loop_once 0 (set_clocks (60 * 10 ^ 9) 0 s) = Ret tt s' ∧
      sv_workers s' !! 0 = Some k' ∧ connections_ k' !! 5%Z = None).
  { intros s Hi Ha He. destruct (sv_workers s !! 0) as [k|] eqn:Hk; [|discriminate He].
    destruct (idle_connections_closed (B := HashedDB len_hash) (λ _, []) (set_clocks (60 * 10 ^ 9) 0 s) 0 k
      (server_step_inv _ _ (st_time (60 * 10 ^ 9) 0 s) Hi) Hk Ha) as (s' & k' & E & Hk' & Hc).
    exists s', k'. split; [exact E|]. split; [exact Hk'|].
    destruct (connections_ k' !! 5%Z) as [p|] eqn:Ep; [|reflexivity]. exfalso.
    destruct (proj1 (Hc 5%Z)) as (b & Hb & Hlt); [eauto|]. cbn in He. rewrite Hb in He.
    injection He as He. rewrite He in Hlt. unfold GetTick in Hlt. cbn [set_clocks sv_mono_ns] in Hlt.
    vm_compute in Hlt. discriminate Hlt. }
  apply Hgen; [exact demo_inv|exact demo_ai|vm_compute; reflexivity].
Defined.

Lemma read_renews_heartbeat_witness :
  ∃ s' k' b, read_chunk 0 [xef] demo_connected = Ret tt s' ∧ sv_workers s' !! 0 = Some k' ∧
    heartbeat_timers_ k' !! 5%Z = Some b ∧ expire b = 60000%Z.
Proof.
  destruct (read_renews_heartbeat (λ _, []) demo_connected 0 demo_conn [xef] demo_inv demo_conn_live)
    as (s' & k' & b & E & Hk & Hb & He & _).
  exists s', k', b. split; [exact E|]. split; [exact Hk|]. split; [exact Hb|]. rewrite He. vm_compute. reflexivity.
Defined.

Lemma read_write_event_uaf_witness :
  handle_events 0 (Z.lor EPOLLIN EPOLLOUT) (mkIO [] RClosed []) demo_connected = Crash UseAfterFree.
Proof.
  apply (read_write_event_uaf (λ _, []) demo_connected 0 demo_conn);
    [exact demo_inv|exact demo_conn_live|exact demo_ai].
Defined.

(** Client 5 logged in; then the session went to another context. *)
Definition demo_logged_in : Server (HashedDB len_hash) :=
  match process_business 0 login_header login_body demo_connected with Ret _ s => s | _ => demo_connected end.
Definition demo_relogged : Server (HashedDB len_hash) :=
  set_sessions (bind_store 1000 1 (sv_sessions demo_logged_in)) demo_logged_in.

Lemma demo_logs_in : process_business 0 login_header login_body demo_connected = Ret tt demo_logged_in.
Proof.
  destruct (is_ret_unit (process_business 0 login_header login_body demo_connected)) as [s E];
    [vm_compute; reflexivity|].
  unfold demo_logged_in. by rewrite E.
Qed.
Lemma set_sessions_same {B} g (s : Server B) : same_conns s (set_sessions g s).
Proof. by apply same_conns_refl_fields. Qed.
Lemma demo_relogged_inv : server_inv (λ _, []) demo_relogged.
Proof.
  unfold demo_relogged.
  refine (same_inv demo_logged_in _ (set_sessions_same (bind_store 1000 1 (sv_sessions demo_logged_in)) _) _).
  eapply same_inv; [|exact demo_inv]. eapply quiet_Ret; [|exact demo_logs_in]. apply quiet_business.
Qed.

Lemma old_close_unbinds_witness :
  ∃ s', force_close_in_loop 0 5 demo_relogged = Ret tt s' ∧ get_session 1000 (sv_sessions s') = None.
Proof.
  destruct (ctxs (sv_heap demo_relogged) !! tc_ctx demo_conn) as [x|] eqn:Ex;
    [|vm_compute in Ex; discriminate Ex].
  assert (Hu : uid <$> ctxs (sv_heap demo_relogged) !! tc_ctx demo_conn = Some 1000%Z) by (vm_compute; reflexivity).
  rewrite Ex in Hu. injection Hu as Hu. rewrite <- Hu.
  apply (old_close_unbinds (λ _, []) demo_relogged 0 demo_conn x 1).
  - exact demo_relogged_inv.
  - vm_compute. reflexivity.
  - apply (bool_decide_unpack (is_Some _)). vm_compute. exact I.
  - exact Ex.
  - rewrite Hu. lia.
  - vm_compute. reflexivity.
  - rewrite Hu. vm_compute. reflexivity.
  - vm_compute. congruence.
Defined.

Lemma exhausted_pool_crashes_witness :
  ∃ s' c, add_connection_in_loop 0 6 (str "10.0.0.2") 4001
            (set_open_fds ({[ 6%Z ]} ∪ sv_open_fds demo_connected) demo_connected) = Ret tt s' ∧
    process_business c (mkHeader PROTO_MAGIC 0 (cmd_val HEARTBEAT) 1) [] s' = Crash NullDeref.
Proof.
  assert (Hgen : ∀ s : Server (HashedDB len_hash), server_inv (λ _, []) s → 6%Z ∉ sv_open_fds s →
    (λ k, free_list_ (pool_ k)) <$> sv_workers s !! 0 = Some [] →
    ∃ s' c, add_connection_in_loop 0 6 (str "10.0.0.2") 4001
              (set_open_fds ({[ 6%Z ]} ∪ sv_open_fds s) s) = Ret tt s' ∧
      process_business c (mkHeader PROTO_MAGIC 0 (cmd_val HEARTBEAT) 1) [] s' = Crash NullDeref).
  { intros s Hi Hf Hp. destruct (sv_workers s !! 0) as [k|] eqn:Hk; [|discriminate Hp].
    injection Hp as Hp.
    destruct (exhausted_pool_crashes _ _ 0 k 6 (str "10.0.0.2") 4001 1 [] (open_inv 0 6 s Hi ltac:(lia) Hf)
      Hk eq_refl Hp) as (s' & c & E & _ & Hc). exists s', c. exact (conj E Hc). }
  apply Hgen; [exact demo_inv|apply (bool_decide_unpack _); vm_compute; exact I|vm_compute; reflexivity].
Defined.
