(* ===== verification/Requests.v ===== *)
(** * What requests do (src/business.cpp)

    Properties of [process_business]: it always returns and answers, it
    cannot be used to forge a sender, it stores what it cannot deliver, it
    limits the message rate, and a login delivers what was stored. *)

From S2P Require Import Prelude Bytes Config Protocol Framing Timer ThreadPool Context EventLoop.
From S2P Require Import Session Json RefCodec Llama AiManager FileStore DbWriter World Business Stream Worker ConnTable System.

(** ** Backends that do not crash *)

Class BackendTotal (B : Type) `{Backend B} := {
  bt_register u p b r : be_register u p b ≠ Crash r;
  bt_verify u p b r : be_verify u p b ≠ Crash r;
  bt_offline u b r : be_offline u b ≠ Crash r;
  bt_search k b r : be_search k b ≠ Crash r;
  bt_add_friend a c m b r : be_add_friend a c m b ≠ Crash r;
  bt_accept i a b r : be_accept i a b ≠ Crash r;
  bt_friends u b r : be_friends u b ≠ Crash r;
  bt_pending u b r : be_pending u b ≠ Crash r;
  bt_mark u n b r : be_mark u n b ≠ Crash r
}.

Lemma write_json_no_crash `{JsonText} path j d r : write_json path j d ≠ Crash r.
Proof. unfold write_json. by repeat case_match. Qed.

#[export] Instance file_backend_total `{JsonText} hasher : BackendTotal (HashedDB hasher).
Proof.
  split; intros; cbn; unfold on_files, register_user, verify_login, query_offline_messages, search_users,
    add_friend_request, accept_friend_request, get_friends, get_pending_requests, mark_delivered,
    save_users_file, save_friends_file, save_friend_reqs_file, save_messages_file; mred; try done;
    repeat match goal with
    | |- context [if ?b then _ else _] => destruct b
    | |- context [let '(_, _) := ?a in _] => destruct a
    | |- context [write_json ?a ?b ?c] => destruct (write_json a b c) eqn:?
    end; mred; try done; try (by edestruct write_json_no_crash);
    repeat match goal with
    | |- context [write_json ?a ?b ?c] => destruct (write_json a b c) eqn:?
    end; try done; by edestruct write_json_no_crash.
Qed.

(** ** Running a request *)

Section Run.
Context {B : Type} `{Backend B} `{Protobuf}.
Implicit Types (s : Server B) (c : ctx_id).

(** The server is up: every context has an owner that exists, sessions name
    contexts that exist, the AI manager and the writer are there. *)
Record world_ok s : Prop := {
  wo_owner : ∀ c x, ctxs (sv_heap s) !! c = Some x →
    ∃ w, owner_worker x = Some w ∧ is_Some (sv_workers s !! w);
  wo_sessions : ∀ u c, get_session u (sv_sessions s) = Some c → is_Some (ctxs (sv_heap s) !! c);
  wo_buckets : length (buckets_ (sv_sessions s)) = NUM_BUCKETS;
  wo_ai : is_Some (sv_ai s);
  wo_db : is_Some (sv_db s);
  wo_fresh : ∀ c : ctx_id, next_ctx (sv_heap s) ≤ c → ctxs (sv_heap s) !! c = None
}.

(** Contexts and workers stay, and workers' queues only grow. *)
Definition pending_of s (w : worker_id) : option (list functor) :=
  (λ k, pending_functors_ (loop_ k)) <$> sv_workers s !! w.
Record grows s s' : Prop := {
  gr_ctx : ∀ c, owner_worker <$> ctxs (sv_heap s') !! c = owner_worker <$> ctxs (sv_heap s) !! c;
  gr_pending : ∀ w q, pending_of s w = Some q → ∃ ext, pending_of s' w = Some (q ++ ext)
}.

#[export] Instance grows_preorder : PreOrder grows.
Proof.
  split.
  - intros s. split; [done|]. intros w q Hq. exists []. by rewrite app_nil_r.
  - intros s1 s2 s3 [H1 H2] [H3 H4]. split; [congruence|]. intros w q Hq.
    destruct (H2 w q Hq) as [e1 He1]. destruct (H4 w _ He1) as [e2 He2].
    exists (e1 ++ e2). by rewrite app_assoc.
Qed.

(** The request with sequence number [n] of context [c] has been answered. *)
Definition replied (c : ctx_id) (n : Z) s : Prop :=
  ∃ x w q command body, ctxs (sv_heap s) !! c = Some x ∧ owner_worker x = Some w ∧
    pending_of s w = Some q ∧ FSend c command n body ∈ q.

Lemma replied_grows c n s s' : grows s s' → replied c n s → replied c n s'.
Proof.
  intros [Hc Hp] (x & w & q & cm & body & Hx & Hw & Hq & Hin).
  specialize (Hc c). rewrite Hx in Hc. destruct (ctxs (sv_heap s') !! c) as [x'|] eqn:Hx'; [|done].
  injection Hc as Hc. destruct (Hp w q Hq) as [ext He]. exists x', w, (q ++ ext), cm, body.
  split_ands; try done; [congruence|]. apply elem_of_app. by left.
Qed.

(** [runs cs m Q]: from a server that is up and has the contexts [cs], [m]
    returns or throws with the server still up; if it returns, [Q] holds. *)
Definition runs {A} (cs : list ctx_id) (m : M (Server B) A) (Q : Server B → Prop) : Prop := ∀ s,
  world_ok s → Forall (λ c, is_Some (ctxs (sv_heap s) !! c)) cs →
  match m s with
  | Ret _ s' => world_ok s' ∧ grows s s' ∧ Q s'
  | Throw s' => world_ok s' ∧ grows s s'
  | Crash _ => False
  end.
Abbreviation safe cs m := (runs cs m (λ _, True)).

Lemma exists_grows s s' cs :
  grows s s' → Forall (λ c, is_Some (ctxs (sv_heap s) !! c)) cs →
  Forall (λ c, is_Some (ctxs (sv_heap s') !! c)) cs.
Proof.
  intros [Hc _] Hf. eapply Forall_impl; [exact Hf|]. intros c [x Hx]. specialize (Hc c).
  rewrite Hx in Hc. destruct (ctxs (sv_heap s') !! c); [eauto|done].
Qed.

Lemma runs_ret {A} cs (a : A) : safe cs (mret a).
Proof. intros s Hw _. mred. split_ands; try done. Qed.
Lemma runs_safe {A} cs (m : M (Server B) A) Q : runs cs m Q → safe cs m.
Proof. intros Hm s Hw Hc. specialize (Hm s Hw Hc). destruct (m s); tauto. Qed.
(** The answer comes later, or came before. *)
Lemma runs_bind {A C} cs (m : M (Server B) A) (f : A → M (Server B) C) Q :
  safe cs m → (∀ a, runs cs (f a) Q) → runs cs (m ≫= f) Q.
Proof.
  intros Hm Hf s Hw Hc. mred. specialize (Hm s Hw Hc). destruct (m s) as [a s1|s1|r]; try done.
  destruct Hm as (Hw1 & Hg1 & _). specialize (Hf a s1 Hw1 (exists_grows s s1 cs Hg1 Hc)).
  destruct (f a s1); try done; split_ands; try tauto; destruct Hf as (? & ? & ?) || destruct Hf; by etrans.
Qed.
Lemma runs_bind_early {A C} cs (m : M (Server B) A) (f : A → M (Server B) C) c n :
  runs cs m (replied c n) → (∀ a, safe cs (f a)) → runs cs (m ≫= f) (replied c n).
Proof.
  intros Hm Hf s Hw Hc. mred. specialize (Hm s Hw Hc). destruct (m s) as [a s1|s1|r]; try done.
  destruct Hm as (Hw1 & Hg1 & Hr). specialize (Hf a s1 Hw1 (exists_grows s s1 cs Hg1 Hc)).
  destruct (f a s1) as [x s2|s2|r]; try done; destruct Hf as (? & Hg2 & ?) || destruct Hf as (? & Hg2);
    split_ands; try done; [by etrans|by eapply replied_grows|by etrans].
Qed.
Lemma runs_try {A} cs (m h : M (Server B) A) Q : runs cs m Q → runs cs h Q → runs cs (try_catch m h) Q.
Proof.
  intros Hm Hh s Hw Hc. mred. specialize (Hm s Hw Hc). destruct (m s) as [a s1|s1|r]; try done.
  destruct Hm as (Hw1 & Hg1). specialize (Hh s1 Hw1 (exists_grows s s1 cs Hg1 Hc)).
  destruct (h s1); try done; split_ands; try tauto; destruct Hh as (? & ? & ?) || destruct Hh; by etrans.
Qed.
Lemma runs_for_each {A} cs (f : A → M (Server B) unit) l : (∀ a, safe cs (f a)) → safe cs (for_each f l).
Proof.
  intros Hf. induction l as [|x l IH]; cbn [for_each]; [apply runs_ret|]. by apply runs_bind.
Qed.

(** Operations that touch neither contexts nor workers nor sessions. *)
Lemma runs_still {A} cs (m : M (Server B) A) :
  (∀ s, world_ok s → Forall (λ c, is_Some (ctxs (sv_heap s) !! c)) cs →
     match m s with
     | Ret _ s' | Throw s' => sv_heap s' = sv_heap s ∧ sv_workers s' = sv_workers s ∧
                              sv_sessions s' = sv_sessions s ∧ is_Some (sv_ai s') ∧ is_Some (sv_db s')
     | Crash _ => False end) → safe cs m.
Proof.
  intros Hm s Hw Hc. specialize (Hm s Hw Hc).
  assert (Hgo : ∀ s', sv_heap s' = sv_heap s ∧ sv_workers s' = sv_workers s ∧
    sv_sessions s' = sv_sessions s ∧ is_Some (sv_ai s') ∧ is_Some (sv_db s') → world_ok s' ∧ grows s s').
  { intros s' (Eh & Ew & Es & Ha & Hd). destruct Hw. split.
    - split; rewrite ?Eh, ?Ew, ?Es; done.
    - split; rewrite ?Eh; [done|]. intros w q. unfold pending_of. rewrite Ew. intros Hq. exists [].
      by rewrite app_nil_r. }
  destruct (m s); try done; split_ands; try done; by apply Hgo.
Qed.
Lemma runs_gets {A} cs (f : Server B → A) : safe cs (gets f).
Proof. apply runs_still. intros s [] _. done. Qed.
Lemma runs_get cs : safe cs (get_st : M (Server B) _).
Proof. apply runs_still. intros s [] _. done. Qed.
Lemma runs_ctx_of cs c : c ∈ cs → safe cs (ctx_of c : M (Server B) _).
Proof.
  intros Hin. apply runs_still. intros s [] Hf. rewrite Forall_forall in Hf. destruct (Hf c Hin) as [x Hx].
  unfold ctx_of. by rewrite Hx.
Qed.
Lemma runs_with_ai {A} cs (f : StreamingAIManager → A * StreamingAIManager) : safe cs (with_ai f).
Proof.
  apply runs_still. intros s [_ _ _ [a Ha] Hd _] _. unfold with_ai. rewrite Ha. destruct (f a). cbn. eauto.
Qed.
Lemma runs_on_db {A} cs d (m : M (DBBatchWriter B) A) :
  (∀ r, m d ≠ Crash r) → safe cs (on_db d m).
Proof.
  intros Hm. apply runs_still. intros s [] _. unfold on_db.
  destruct (m d) eqn:E; [cbn; eauto..|by destruct (Hm why)].
Qed.
Lemma runs_store_chat cs a b t d : safe cs (store_chat (B := B) a b t d).
Proof.
  apply runs_bind; [apply runs_get|]. intros s. destruct (sv_db s); [|apply runs_ret].
  by apply runs_on_db.
Qed.
Lemma runs_db_call {A} cs (m : M B A) : (∀ b r, m b ≠ Crash r) → safe cs (db_call m).
Proof.
  intros Hm s Hw Hc. unfold db_call. mred. destruct (wo_db s Hw) as [d Hd]. rewrite Hd.
  refine (runs_on_db cs d (lift m) _ s Hw Hc). intros r. unfold lift. destruct (m (backend d)) eqn:E; try done.
  by destruct (Hm (backend d) why).
Qed.

Lemma runs_mod_ctx cs c g :
  (∀ x, owner_worker (g x) = owner_worker x) → safe cs (mod_ctx c g : M (Server B) unit).
Proof.
  intros Hg s Hw Hc. unfold mod_ctx. mred. destruct Hw as [Ho Hs Hb Ha Hd Hf].
  assert (Hc2 : ∀ d, owner_worker <$> alter g c (ctxs (sv_heap s)) !! d =
                     owner_worker <$> ctxs (sv_heap s) !! d).
  { intros d. destruct (decide (c = d)) as [<-|Hne]; [|by rewrite lookup_alter_ne].
    rewrite lookup_alter_eq. destruct (ctxs (sv_heap s) !! c); cbn; [|done]. by rewrite Hg. }
  split_ands; try done.
  - split; try done; cbn [set_heap sv_heap upd_ctx ctxs sv_workers sv_sessions].
    + intros d x Hx. specialize (Hc2 d). rewrite Hx in Hc2.
      destruct (ctxs (sv_heap s) !! d) as [y|] eqn:Hy; [|done]. injection Hc2 as Hc2. rewrite Hc2. by eapply Ho.
    + intros u d Hu. destruct (Hs u d Hu) as [y Hy]. specialize (Hc2 d). rewrite Hy in Hc2.
      destruct (alter g c (ctxs (sv_heap s)) !! d); [eauto|done].
    + intros d Hd'. specialize (Hc2 d). rewrite (Hf d Hd') in Hc2. by destruct (alter g c (ctxs (sv_heap s)) !! d).
  - split; [exact Hc2|]. intros w q Hq. exists []. by rewrite app_nil_r.
Qed.

(** Queueing a functor for a worker that exists. *)
Lemma queue_functor_runs s w f :
  world_ok s → is_Some (sv_workers s !! w) →
  ∃ s' q, queue_functor w f s = Ret tt s' ∧ world_ok s' ∧ grows s s' ∧
    sv_heap s' = sv_heap s ∧ pending_of s w = Some q ∧ pending_of s' w = Some (q ++ [f]) ∧
    (∀ w', w' ≠ w → pending_of s' w' = pending_of s w') ∧
    sv_sessions s' = sv_sessions s ∧ sv_db s' = sv_db s ∧ sv_ai s' = sv_ai s ∧ sv_wall_ms s' = sv_wall_ms s.
Proof.
  intros Hw [k Hk]. unfold queue_functor, worker_of. mred. rewrite Hk, (mod_worker_eq s w _ k Hk).
  eexists _, (pending_functors_ (loop_ k)). split; [done|].
  assert (Hp : pending_of s w = Some (pending_functors_ (loop_ k))) by (unfold pending_of; by rewrite Hk).
  assert (Hp' : pending_of (set_workers (<[w := set_loop (queue_in_loop f (loop_ k)) k]> (sv_workers s)) s) w =
    Some (pending_functors_ (loop_ k) ++ [f])) by (unfold pending_of; cbn; by rewrite lookup_insert_eq).
  assert (Hne : ∀ w', w' ≠ w → pending_of (set_workers (<[w := set_loop (queue_in_loop f (loop_ k)) k]>
    (sv_workers s)) s) w' = pending_of s w').
  { intros w' Hne. unfold pending_of. cbn. by rewrite lookup_insert_ne. }
  split_ands; try done.
  - destruct Hw as [Ho Hs Hb Ha Hd Hf]. split; try done. cbn. intros c x Hx.
    destruct (Ho c x Hx) as (w' & Hw' & Hk'). exists w'. split; [done|].
    destruct (decide (w = w')) as [->|Hn]; [rewrite lookup_insert_eq; eauto|by rewrite lookup_insert_ne].
  - split; [done|]. intros w' q Hq. destruct (decide (w' = w)) as [->|Hn].
    + rewrite Hp in Hq. injection Hq as <-. eauto.
    + exists []. by rewrite Hne, app_nil_r.
Qed.

Lemma reply_returns s c command n body :
  world_ok s → is_Some (ctxs (sv_heap s) !! c) →
  ∃ s', reply c command n body s = Ret tt s' ∧ world_ok s' ∧ grows s s' ∧ replied c n s'.
Proof.
  intros Hw [x Hx]. destruct (wo_owner s Hw c x Hx) as (w & Ho & Hk).
  unfold reply, owner_of, ctx_of, queue_send_packet. mred. rewrite Hx. rewrite Ho.
  destruct (queue_functor_runs s w (FSend c (cmd_val command) n body) Hw Hk)
    as (s' & q & -> & Hw' & Hg & Eh & _ & Hq & _).
  exists s'. split_ands; try done.
  exists x, w, (q ++ [FSend c (cmd_val command) n body]), (cmd_val command), body.
  rewrite Eh. split_ands; try done. apply elem_of_app. right. by apply list_elem_of_singleton.
Qed.
Lemma runs_reply cs c command n body : c ∈ cs → runs cs (reply c command n body) (replied c n).
Proof.
  intros Hin s Hw Hc. rewrite Forall_forall in Hc.
  by destruct (reply_returns s c command n body Hw (Hc c Hin)) as (s' & -> & ?).
Qed.

(** A session that is found names a context that exists. *)
Lemma runs_session {A} cs u (f : option ctx_id → M (Server B) A) Q :
  runs cs (f None) Q → (∀ t, runs (t :: cs) (f (Some t)) Q) → runs cs (session_of u ≫= f) Q.
Proof.
  intros Hn Ht s Hw Hc. unfold session_of. mred. destruct (get_session u (sv_sessions s)) as [t|] eqn:E.
  - apply Ht; [done|]. constructor; [|done]. by eapply (wo_sessions s Hw).
  - by apply Hn.
Qed.

(** The two halves of [bind]: the old connection, then the new session. *)
Lemma runs_close_old cs u : safe cs (
  s ← (get_st : M (Server B) _);
  match bind_find u (sv_sessions s) with
  | Some old =>
      x ← ctx_of old;
      if (fd x =? -1)%Z then mret tt
      else w ← deref (owner_worker x) NullDeref; queue_close_connection w (fd x)
  | None => mret tt
  end).
Proof.
  intros s Hw Hc. mred. destruct (bind_find u (sv_sessions s)) as [old|] eqn:Eo; [|split_ands; done].
  destruct (wo_sessions s Hw u old Eo) as [x Hx]. unfold ctx_of. rewrite Hx.
  destruct (fd x =? -1)%Z; [split_ands; done|]. destruct (wo_owner s Hw old x Hx) as (w & -> & Hk).
  destruct (queue_functor_runs s w (FClose (fd x)) Hw Hk) as (s' & q & E & Hw' & Hg & _).
  unfold queue_close_connection. rewrite E. done.
Qed.
Lemma runs_store_session cs u c : c ∈ cs →
  safe cs (modify (λ s : Server B, set_sessions (bind_store u c (sv_sessions s)) s)).
Proof.
  intros Hin s Hw Hc. mred. destruct Hw as [Ho Hs Hb Ha Hd Hf]. split_ands; try done.
  - split; try done; cbn [set_sessions sv_sessions sv_heap].
    + intros v d. unfold bind_store. rewrite get_upd by done. case_decide; [|by apply Hs].
      rewrite lookup_insert_Some. intros [[_ <-]|[_ Hd']].
      * rewrite Forall_forall in Hc. by apply Hc.
      * by apply (Hs v).
    + unfold bind_store, upd_bucket. cbn. by rewrite length_alter.
  - split; [done|]. intros w q Hq. exists []. by rewrite app_nil_r.
Qed.
Lemma runs_bind_session cs u c : c ∈ cs → safe cs (bind u c : M (Server B) unit).
Proof.
  intros Hin s Hw Hc.
  assert (Hrun : safe cs ((s ← (get_st : M (Server B) _);
    match bind_find u (sv_sessions s) with
    | Some old =>
        x ← ctx_of old;
        if (fd x =? -1)%Z then mret tt
        else w ← deref (owner_worker x) NullDeref; queue_close_connection w (fd x)
    | None => mret tt
    end) ;; mod_ctx c (set_session u) ;;
    modify (λ s, set_sessions (bind_store u c (sv_sessions s)) s))).
  { apply runs_bind; [apply runs_close_old|]. intros _.
    apply runs_bind; [by apply runs_mod_ctx|]. intros _. by apply runs_store_session. }
  exact (Hrun s Hw Hc).
Qed.
Lemma runs_rate_limited cs c : c ∈ cs → safe cs (rate_limited (B := B) c).
Proof.
  intros Hin. apply runs_bind; [apply runs_get|]. intros s. apply runs_bind; [by apply runs_ctx_of|].
  intros x. cbn beta zeta. case_if; (apply runs_bind; [by apply runs_mod_ctx|]; intros _; apply runs_ret).
Qed.
Lemma runs_uid_of cs c : c ∈ cs → safe cs (uid_of (B := B) c).
Proof. intros Hin. apply runs_bind; [by apply runs_ctx_of|]. intros x. apply runs_ret. Qed.
Lemma runs_notify cs u text : safe cs (notify (B := B) u text).
Proof.
  apply runs_session; [apply runs_ret|]. intros t. eapply runs_safe, runs_reply. by left.
Qed.
End Run.

Abbreviation safe cs m := (runs cs m (λ _, True)).

Create HintDb runs discriminated.
#[export] Hint Resolve runs_ret runs_gets runs_get runs_ctx_of runs_with_ai runs_store_chat runs_db_call
  runs_bind_session runs_rate_limited runs_uid_of runs_notify runs_mod_ctx : runs.

(** Decomposes a [runs] goal along the code; [ack] and [reply] answer. *)
Ltac runs_tac :=
  repeat match goal with
  | |- _ ∈ _ => set_solver
  | |- runs _ (ack _ _ _) (replied _ _) => apply runs_reply
  | |- runs _ (reply ?c _ ?n _) (replied ?c ?n) => apply runs_reply
  | |- runs _ (ack _ _ _) _ => eapply runs_safe, runs_reply
  | |- runs _ (reply _ _ _ _) _ => eapply runs_safe, runs_reply
  | |- runs _ (ack _ _ _ ≫= _) (replied _ _) => apply runs_bind_early; [|intros ?]
  | |- runs _ (bind _ _) _ => apply runs_bind_session
  | |- runs _ (uid_of _) _ => apply runs_uid_of
  | |- runs _ (ctx_of _) _ => apply runs_ctx_of
  | |- runs _ (rate_limited _) _ => apply runs_rate_limited
  | |- runs _ (deliver_offline _ _) _ => unfold deliver_offline
  | |- runs _ (session_of _ ≫= _) _ => apply runs_session; [|intros ?]
  | |- runs _ (_ ≫= _) _ => first [apply runs_bind; [solve [eauto with runs]|intros ?]|apply runs_bind; [|intros ?]]
  | |- runs _ (for_each _ _) _ => apply runs_for_each; intros ?
  | |- runs _ (if ?b then _ else _) _ => destruct b
  | |- runs _ (match ?x with _ => _ end) _ => destruct x
  | |- runs _ (db_call _) _ => apply runs_db_call; intros
  | |- _ => solve [eauto with runs]
  end.

(** ** Every request is answered *)

Section Answered.
Context {B : Type} `{BackendTotal B} `{Protobuf}.
Implicit Types (s : Server B) (c : ctx_id).

(** Is the packet a request of the protocol: is its command known, and does
    its body parse as the message the command carries? *)
Definition well_formed (hdr : PacketHeader) (body : bytes) : bool :=
  let is_cmd k := (cmd hdr =? cmd_val k)%Z in
  let parses {Msg} `{ProtoCodec Msg} := bool_decide (is_Some (ParseFromString body : option Msg)) in
  if is_cmd LOGIN then parses (Msg := LoginRequest)
  else if is_cmd CHAT then parses (Msg := ChatMessage)
  else if is_cmd REGISTER then parses (Msg := RegisterRequest)
  else if is_cmd HEARTBEAT then true
  else if is_cmd ADD_FRIEND then parses (Msg := AddFriendRequest)
  else if is_cmd ACCEPT_FRIEND then parses (Msg := AcceptFriendRequest)
  else if is_cmd FRIEND_LIST then true
  else if is_cmd SEARCH_USER then parses (Msg := SearchUserRequest)
  else is_cmd FRIEND_REQUESTS.

(** A chat message to the AI: it is refused with an acknowledgement, or taken
    into the AI queue, and then the stream is the answer. *)
Definition to_ai (hdr : PacketHeader) (body : bytes) : option ChatMessage :=
  if (cmd hdr =? cmd_val CHAT)%Z then
    m ← (ParseFromString body : option ChatMessage); if (to_uid m =? AI_UID)%Z then Some m else None
  else None.

(** Ends the cases where the backend is called. *)
Ltac total :=
  first [apply bt_register|apply bt_verify|apply bt_offline|apply bt_search|apply bt_add_friend|apply bt_accept
        |apply bt_friends|apply bt_pending|apply bt_mark].

Lemma runs_login c n body (req : LoginRequest) :
  ParseFromString body = Some req → runs [c] (handle_login (B := B) c n body) (replied c n).
Proof. intros E. unfold handle_login. rewrite E. runs_tac; total. Qed.
Lemma runs_chat c n body (m : ChatMessage) :
  ParseFromString body = Some m → (to_uid m =? AI_UID)%Z = false →
  runs [c] (handle_chat (B := B) c n body) (replied c n).
Proof.
  intros E Eu. unfold handle_chat. rewrite E, Eu. runs_tac.
Qed.
Lemma runs_register c n body (req : RegisterRequest) :
  ParseFromString body = Some req → runs [c] (handle_register (B := B) c n body) (replied c n).
Proof. intros E. unfold handle_register. rewrite E. runs_tac; total. Qed.
Lemma runs_add_friend c n body (req : AddFriendRequest) :
  ParseFromString body = Some req → runs [c] (handle_add_friend (B := B) c n body) (replied c n).
Proof. intros E. unfold handle_add_friend. rewrite E. runs_tac; total. Qed.
Lemma runs_accept c n body (req : AcceptFriendRequest) :
  ParseFromString body = Some req → runs [c] (handle_accept_friend (B := B) c n body) (replied c n).
Proof. intros E. unfold handle_accept_friend. rewrite E. runs_tac; total. Qed.
Lemma runs_search c n body (req : SearchUserRequest) :
  ParseFromString body = Some req → runs [c] (handle_search_user (B := B) c n body) (replied c n).
Proof. intros E. unfold handle_search_user, user_list. rewrite E. runs_tac; total. Qed.

(** Any command, answered or not, runs. *)
Lemma runs_command_safe c hdr body : safe [c] (handle_command (B := B) c hdr body).
Proof.
  unfold handle_command, handle_login, handle_chat, handle_ai_chat, handle_register, handle_heartbeat,
    handle_add_friend, handle_accept_friend, handle_friend_list, handle_search_user, handle_friend_requests,
    user_list.
  runs_tac; total.
Qed.
Lemma runs_command c hdr body :
  well_formed hdr body = true → to_ai hdr body = None →
  runs [c] (handle_command (B := B) c hdr body) (replied c (seq hdr)).
Proof.
  unfold well_formed, to_ai, handle_command.
  repeat (case_if; [intros Ha Hai; zbool|]).
  - destruct Ha as [req Ha]. by eapply runs_login.
  - destruct Ha as [m Em]. rewrite Em in Hai. cbn in Hai. eapply runs_chat; [done|]. by destruct (to_uid m =? AI_UID)%Z.
  - destruct Ha as [req Ha]. by eapply runs_register.
  - unfold handle_heartbeat. runs_tac.
  - destruct Ha as [req Ha]. by eapply runs_add_friend.
  - destruct Ha as [req Ha]. by eapply runs_accept.
  - unfold handle_friend_list, user_list. runs_tac; total.
  - destruct Ha as [req Ha]. by eapply runs_search.
  - unfold handle_friend_requests. runs_tac; total.
  - done.
Qed.

Lemma runs_weaken {A} cs (m : M (Server B) A) (Q Q' : Server B → Prop) :
  runs cs m Q → (∀ s, Q s → Q' s) → runs cs m Q'.
Proof. intros Hm HQ s Hw Hc. specialize (Hm s Hw Hc). destruct (m s); naive_solver. Qed.

(** The body of the [try]. *)
Lemma runs_body c hdr body (Q : Server B → Prop) :
  runs [c] (handle_command (B := B) c hdr body) Q → (∀ s, replied c (seq hdr) s → Q s) →
  runs [c] (limited ← (if (cmd hdr =? cmd_val CHAT)%Z then rate_limited c else mret false);
     if (limited : bool) then ack c (seq hdr) (fail_resp (str "消息发送过快，请稍后再试"))
     else handle_command (B := B) c hdr body) Q.
Proof.
  intros Hcmd HQ. apply runs_bind; [case_if; [apply runs_rate_limited; set_solver|apply runs_ret]|].
  intros [|]; [|done]. eapply runs_weaken; [apply runs_reply; set_solver|exact HQ].
Qed.

(** Every request is processed to the end and answered: from a server that
    is up, [process_business] returns (it neither crashes nor lets an
    exception out, whatever the backend throws), the server stays up, and a
    well-formed request that is not a message to the AI leaves a packet with
    the request's sequence number queued for the client. *)
Theorem request_answered s c hdr body :
  world_ok s → is_Some (ctxs (sv_heap s) !! c) →
  ∃ s', process_business c hdr body s = Ret tt s' ∧ world_ok s' ∧
    (well_formed hdr body = true → to_ai hdr body = None → replied c (seq hdr) s').
Proof.
  intros Hw Hc.
  assert (Hcmd : runs [c] (handle_command (B := B) c hdr body)
    (λ s', well_formed hdr body = true → to_ai hdr body = None → replied c (seq hdr) s')).
  { destruct (well_formed hdr body) eqn:Ea; [destruct (to_ai hdr body) eqn:Et|];
      (eapply runs_weaken; [first [by apply runs_command|apply runs_command_safe]|done]). }
  pose proof (runs_body c hdr body _ Hcmd (λ s' Hr _ _, Hr) s Hw) as Hb. rewrite Forall_singleton in Hb.
  specialize (Hb Hc). unfold process_business, try_catch.
  match type of Hb with match ?m with _ => _ end => destruct m as [[] s1|s1|r] end; [| |done].
  - exists s1. tauto.
  - destruct Hb as [Hw1 Hg1]. destruct (reply_returns s1 c ACK (seq hdr) (SerializeToString internal_error) Hw1)
      as (s2 & E & Hw2 & _ & Hr).
    { destruct Hc as [x Hx]. pose proof (gr_ctx s s1 Hg1 c) as Ho. rewrite Hx in Ho.
      destruct (ctxs (sv_heap s1) !! c); [eauto|done]. }
    exists s2. unfold ack. rewrite E. auto.
Qed.
End Answered.

(** ** Chat messages *)

Section Chat.
Context {B : Type} `{Backend B} `{Protobuf}.
Implicit Types (s : Server B) (c t : ctx_id).

(** What one packet adds to the queue of worker [w']. *)
Definition queued_to (w w' : worker_id) (f : functor) : list functor := if decide (w' = w) then [f] else [].

Lemma reply_exact s c x w k command n body :
  ctxs (sv_heap s) !! c = Some x → owner_worker x = Some w → sv_workers s !! w = Some k →
  ∃ s', reply c command n body s = Ret tt s' ∧
    (∀ w', pending_of s' w' = (λ q, q ++ queued_to w w' (FSend c (cmd_val command) n body)) <$> pending_of s w') ∧
    sv_heap s' = sv_heap s ∧ sv_sessions s' = sv_sessions s ∧ sv_db s' = sv_db s ∧ sv_wall_ms s' = sv_wall_ms s ∧
    (∀ w', is_Some (sv_workers s !! w') → is_Some (sv_workers s' !! w')).
Proof.
  intros Hx Hw Hk. unfold reply, owner_of, ctx_of, queue_send_packet, queue_functor, worker_of. mred.
  rewrite Hx. rewrite Hw, Hk, (mod_worker_eq s w _ k Hk). eexists. split; [done|]. split_ands; try done.
  - intros w'. unfold pending_of, queued_to. cbn [set_workers sv_workers]. case_decide as E.
    + subst w'. by rewrite lookup_insert_eq, Hk.
    + rewrite lookup_insert_ne by done. destruct (sv_workers s !! w'); cbn; [|done]. by rewrite app_nil_r.
  - intros w'. cbn [set_workers sv_workers]. destruct (decide (w = w')) as [<-|Hne].
    + rewrite lookup_insert_eq. eauto.
    + by rewrite lookup_insert_ne.
Qed.

(** The window and the number in it that the rate limit gives to a message,
    and whether the number is over the limit. *)
Definition rate_next s (x : ClientContext) : Z * Z :=
  if (rate_window_start x =? 0)%Z || (now_sec s - rate_window_start x >? RATE_LIMIT_WINDOW (sv_env s))%Z
  then (now_sec s, 1%Z) else (rate_window_start x, wrap_i32 (rate_msg_count x + 1)).
Definition over_rate s (x : ClientContext) : bool := ((rate_next s x).2 >? RATE_LIMIT_MSGS (sv_env s))%Z.

(** The rate limit changes the two numbers of the context and nothing else. *)
Lemma rate_limited_exact s c x :
  ctxs (sv_heap s) !! c = Some x →
  rate_limited c s =
  Ret (over_rate s x) (set_heap (upd_ctx c (set_rate (rate_next s x).1 (rate_next s x).2) (sv_heap s)) s).
Proof.
  intros Hx. unfold rate_limited, ctx_of, mod_ctx, over_rate, rate_next. mred. rewrite Hx. by case_if.
Qed.

(** A chat packet: the refusal when the rate limit is exceeded, otherwise the
    handler. *)
Definition too_fast c (n : Z) : functor :=
  FSend c (cmd_val ACK) n (SerializeToString (fail_resp (str "消息发送过快，请稍后再试"))).
Lemma chat_limited s c x w hdr body :
  cmd hdr = cmd_val CHAT → ctxs (sv_heap s) !! c = Some x → owner_worker x = Some w → is_Some (sv_workers s !! w) →
  over_rate s x = true →
  ∃ s', process_business c hdr body s = Ret tt s' ∧
    (∀ w', pending_of s' w' = (λ q, q ++ queued_to w w' (too_fast c (seq hdr))) <$> pending_of s w') ∧
    sv_sessions s' = sv_sessions s ∧ sv_db s' = sv_db s.
Proof.
  intros Hcmd Hx Hw [k Hk] Hr. unfold process_business, try_catch. rewrite Hcmd. cbn [cmd_val Z.eqb Pos.eqb]. mred.
  rewrite (rate_limited_exact s c x Hx), Hr. unfold ack.
  match goal with |- context [reply c ACK (seq hdr) ?b ?s1] =>
    destruct (reply_exact s1 c (set_rate (rate_next s x).1 (rate_next s x).2 x) w k ACK (seq hdr) b)
      as (s2 & -> & Hp2 & Hh2 & Hs2 & Hd2 & _)
  end; [cbn; by rewrite lookup_alter_eq, Hx|done|done|].
  exists s2. split_ands; [done|exact Hp2|exact Hs2|exact Hd2].
Qed.
Lemma chat_passes s c x hdr body :
  cmd hdr = cmd_val CHAT → ctxs (sv_heap s) !! c = Some x → over_rate s x = false →
  process_business c hdr body s =
  try_catch (handle_chat c (seq hdr) body) (try_catch (ack c (seq hdr) internal_error) (mret tt))
    (set_heap (upd_ctx c (set_rate (rate_next s x).1 (rate_next s x).2) (sv_heap s)) s).
Proof.
  intros Hcmd Hx Hr. unfold process_business, try_catch, handle_command. rewrite Hcmd. cbn [cmd_val Z.eqb Pos.eqb]. mred.
  by rewrite (rate_limited_exact s c x Hx), Hr.
Qed.

(** C7. Messages to a user (not the AI) who is logged in cannot be forged and
    are not lost silently.  Over the rate limit the sender is told that the message was too
    fast, and the message is neither forwarded nor stored.  Otherwise it is
    queued for exactly that user's connection, with the sender's own uid as
    [from_uid] whatever the packet claimed, the sender gets one
    acknowledgement, and the message goes to the writer marked as delivered.
    In both cases nothing else is queued. *)
Theorem chat_online s c t (x y : ClientContext) (w v : worker_id) hdr body (m : ChatMessage)
    (d : DBBatchWriter B) :
  cmd hdr = cmd_val CHAT → ParseFromString body = Some m → to_uid m ≠ AI_UID → sv_db s = Some d →
  ctxs (sv_heap s) !! c = Some x → owner_worker x = Some w → is_Some (sv_workers s !! w) →
  get_session (to_uid m) (sv_sessions s) = Some t →
  ctxs (sv_heap s) !! t = Some y → owner_worker y = Some v → is_Some (sv_workers s !! v) →
  let fwd := FSend t (cmd_val CHAT) 0 (SerializeToString (set_from_uid (uid x) m)) in
  let ok := FSend c (cmd_val ACK) (seq hdr) (SerializeToString
              (mkResponse true (str "消息已发送给用户" ++ to_string (to_uid m)) (uid x))) in
  ∃ s', process_business c hdr body s = Ret tt s' ∧
    if over_rate s x then
      (∀ w', pending_of s' w' = (λ q, q ++ queued_to w w' (too_fast c (seq hdr))) <$> pending_of s w') ∧
      sv_db s' = Some d
    else
      (∀ w', pending_of s' w' = (λ q, q ++ queued_to v w' fwd ++ queued_to w w' ok) <$> pending_of s w') ∧
      sv_db s' = Some (mkWriter (queue_ d ++ [mkDBMsg 0 (uid x) (to_uid m) (content m) (sv_wall_ms s) true])
                                (db_running_ d) (backend d)).
Proof.
  intros Hcmd Hp Hai Hd Hx Hw [k Hk] Hs Hy Hv [k2 Hk2] fwd ok. destruct (over_rate s x) eqn:Hr.
  { destruct (chat_limited s c x w hdr body) as (s' & E & Hq & _ & Hd'); [done..|by eexists|done|].
    exists s'. split_ands; [exact E|exact Hq|by rewrite Hd']. }
  rewrite (chat_passes s c x hdr body Hcmd Hx Hr). set (s0 := set_heap _ s).
  set (x0 := set_rate (rate_next s x).1 (rate_next s x).2 x).
  assert (Hx0 : ctxs (sv_heap s0) !! c = Some x0) by (cbn; by rewrite lookup_alter_eq, Hx).
  assert (Hy0 : ∃ y0, ctxs (sv_heap s0) !! t = Some y0 ∧ owner_worker y0 = Some v).
  { destruct (decide (t = c)) as [->|Htc]; [simplify_eq; eauto|]. cbn. rewrite lookup_alter_ne by done. eauto. }
  destruct Hy0 as (y0 & Hy0 & Hv0). apply Z.eqb_neq in Hai.
  unfold try_catch, handle_chat. rewrite Hp, Hai. unfold session_of, uid_of, ctx_of. mred.
  change (sv_sessions s0) with (sv_sessions s). rewrite Hs, Hx0. cbn [uid set_rate x0].
  destruct (reply_exact s0 t y0 v k2 CHAT 0 (SerializeToString (set_from_uid (uid x) m)) Hy0 Hv0 Hk2)
    as (s1 & -> & Hp1 & Hh1 & Hs1 & Hd1 & Hl1 & Hk1).
  destruct (Hk1 w) as [k1 Hk1']; [cbn; eauto|]. unfold ack.
  destruct (reply_exact s1 c x0 w k1 ACK (seq hdr) (SerializeToString
    (mkResponse true (str "消息已发送给用户" ++ to_string (to_uid m)) (uid x))))
    as (s2 & -> & Hp2 & Hh2 & Hs2 & Hd2 & Hl2 & _); [by rewrite Hh1|done|done|].
  unfold store_chat, on_db, submit. mred. rewrite Hd2, Hd1. change (sv_db s0) with (sv_db s). rewrite Hd.
  eexists. split_ands; [done| |].
  - intros w'. change (pending_of (set_db _ s2) w') with (pending_of s2 w'). rewrite Hp2, Hp1.
    change (pending_of s0 w') with (pending_of s w'). destruct (pending_of s w'); cbn; [|done]. by rewrite <- app_assoc.
  - cbn. by rewrite Hl2, Hl1.
Qed.

(** C8. A message to a user (not the AI) who is away is kept, unless it is over
    the rate limit: then the sender is told that it was too fast and nothing is stored.
    Otherwise it goes to the writer marked as not delivered and the sender is
    told so.  In both cases nothing else is queued. *)
Theorem chat_offline s c (x : ClientContext) (w : worker_id) hdr body (m : ChatMessage)
    (d : DBBatchWriter B) :
  cmd hdr = cmd_val CHAT → ParseFromString body = Some m → to_uid m ≠ AI_UID → sv_db s = Some d →
  ctxs (sv_heap s) !! c = Some x → owner_worker x = Some w → is_Some (sv_workers s !! w) →
  get_session (to_uid m) (sv_sessions s) = None →
  let told := FSend c (cmd_val ACK) (seq hdr) (SerializeToString
    (mkResponse false (str "用户" ++ to_string (to_uid m) ++ str "不在线，消息已存储") (uid x))) in
  ∃ s', process_business c hdr body s = Ret tt s' ∧
    if over_rate s x then
      (∀ w', pending_of s' w' = (λ q, q ++ queued_to w w' (too_fast c (seq hdr))) <$> pending_of s w') ∧
      sv_db s' = Some d
    else
      (∀ w', pending_of s' w' = (λ q, q ++ queued_to w w' told) <$> pending_of s w') ∧
      sv_db s' = Some (mkWriter (queue_ d ++ [mkDBMsg 0 (uid x) (to_uid m) (content m) (sv_wall_ms s) false])
                                (db_running_ d) (backend d)).
Proof.
  intros Hcmd Hp Hai Hd Hx Hw [k Hk] Hs told. destruct (over_rate s x) eqn:Hr.
  { destruct (chat_limited s c x w hdr body) as (s' & E & Hq & _ & Hd'); [done..|by eexists|done|].
    exists s'. split_ands; [exact E|exact Hq|by rewrite Hd']. }
  rewrite (chat_passes s c x hdr body Hcmd Hx Hr). set (s0 := set_heap _ s).
  set (x0 := set_rate (rate_next s x).1 (rate_next s x).2 x).
  assert (Hx0 : ctxs (sv_heap s0) !! c = Some x0) by (cbn; by rewrite lookup_alter_eq, Hx).
  apply Z.eqb_neq in Hai.
  unfold try_catch, handle_chat. rewrite Hp, Hai. unfold session_of, uid_of, ctx_of. mred.
  change (sv_sessions s0) with (sv_sessions s). rewrite Hs, Hx0. cbn [uid set_rate x0].
  unfold store_chat, on_db, submit. mred. change (sv_db s0) with (sv_db s). rewrite Hd. unfold ack.
  match goal with |- context [reply c ACK (seq hdr) ?b ?s1] =>
    destruct (reply_exact s1 c x0 w k ACK (seq hdr) b) as (s2 & -> & Hp2 & Hh2 & Hs2 & Hd2 & Hl2 & _)
  end; [done|done|done|].
  exists s2. split_ands; [done|exact Hp2|by rewrite Hd2].
Qed.
End Chat.

(** ** The rate limit *)

Section Rate.
Context {B : Type}.
Implicit Types (s : Server B) (c : ctx_id).

(** The answers of the limiter to messages at the given times (in seconds). *)
Fixpoint rate_run c (times : list Z) : M (Server B) (list bool) :=
  match times with
  | [] => mret []
  | t :: ts =>
      modify (λ s, set_clocks (t * 1000000000) (sv_wall_ms s) s) ;;
      b ← rate_limited c;
      bs ← rate_run c ts;
      mret (b :: bs)
  end.

(** The reference: a window starts at [start] and has seen [n] messages.  A
    message more than [window] seconds after the start opens a new window; the
    first [limit] messages of a window pass, the others are refused. *)
Fixpoint windows (limit window start n : Z) (times : list Z) : list bool :=
  match times with
  | [] => []
  | t :: ts =>
      if (window <? t - start)%Z then (limit <? 1)%Z :: windows limit window t 1 ts
      else (limit <? n + 1)%Z :: windows limit window start (n + 1) ts
  end.

Lemma now_sec_clock t wall s : now_sec (set_clocks (t * 1000000000) wall s) = t.
Proof. unfold now_sec. cbn. apply Z.quot_mul. lia. Qed.

(** One message at time [t]: the window it falls into and its number there. *)
Lemma rate_limited_at s c x t :
  ctxs (sv_heap s) !! c = Some x →
  let s1 := set_clocks (t * 1000000000) (sv_wall_ms s) s in
  ∃ s2, rate_limited c s1 = Ret (over_rate s1 x) s2 ∧ sv_env s2 = sv_env s ∧
    ctxs (sv_heap s2) !! c = Some (set_rate (rate_next s1 x).1 (rate_next s1 x).2 x).
Proof.
  intros Hx s1. rewrite (rate_limited_exact s1 c x Hx). eexists. split_ands; [done..|]. cbn.
  by rewrite lookup_alter_eq, Hx.
Qed.

Lemma rate_run_windows times : ∀ s c x,
  ctxs (sv_heap s) !! c = Some x → rate_window_start x ≠ 0%Z → (0 ≤ rate_msg_count x)%Z →
  (rate_msg_count x + Z.of_nat (length times) < 2 ^ 31)%Z → Forall (λ t, t ≠ 0%Z) times →
  ∃ s', rate_run c times s =
    Ret (windows (RATE_LIMIT_MSGS (sv_env s)) (RATE_LIMIT_WINDOW (sv_env s))
                 (rate_window_start x) (rate_msg_count x) times) s'.
Proof.
  induction times as [|t ts IH]; intros s c x Hx H0 Hn Hlen Hts; cbn [rate_run windows]; [by eexists|].
  apply Forall_cons in Hts as [Ht Hts]. cbn [length] in Hlen.
  destruct (rate_limited_at s c x t Hx) as (s2 & E & He & Hx2). mred. rewrite E. revert Hx2.
  unfold over_rate, rate_next. rewrite now_sec_clock, (proj2 (Z.eqb_neq _ _) H0). cbn [orb set_clocks sv_env].
  rewrite !Z.gtb_ltb, wrap_i32_id by (unfold is_i32; lia).
  destruct (RATE_LIMIT_WINDOW (sv_env s) <? t - rate_window_start x)%Z; cbn [fst snd]; intros Hx2;
    (destruct (IH s2 c _ Hx2) as [s3 E3]; [done|cbn; lia|cbn; lia|done|]);
    rewrite E3, He; rewrite ?Z.gtb_ltb; by eexists.
Qed.

(** C27. The rate limit is exact, for the messages of a client handled one
    after another (two handled at once may be counted as one): the first
    message opens a window, a message more than [RATE_LIMIT_WINDOW] seconds
    after the start of the window opens the next one, and of the messages of
    each window exactly the first [RATE_LIMIT_MSGS] are let through and every
    further one is refused. *)
Theorem rate_limit_exact s c x t0 times :
  ctxs (sv_heap s) !! c = Some x → rate_window_start x = 0%Z →
  Forall (λ t, t ≠ 0%Z) (t0 :: times) → (Z.of_nat (length times) + 1 < 2 ^ 31)%Z →
  let limit := RATE_LIMIT_MSGS (sv_env s) in
  ∃ s', rate_run c (t0 :: times) s =
    Ret ((limit <? 1)%Z :: windows limit (RATE_LIMIT_WINDOW (sv_env s)) t0 1 times) s'.
Proof.
  intros Hx Hs [H0 Hts]%Forall_cons Hlen limit. cbn [rate_run].
  destruct (rate_limited_at s c x t0 Hx) as (s2 & E & He & Hx2). mred. rewrite E. revert Hx2.
  unfold over_rate, rate_next. rewrite now_sec_clock, Hs. cbn [Z.eqb orb set_clocks sv_env fst snd]. intros Hx2.
  destruct (rate_run_windows times s2 c _ Hx2) as [s3 E3]; [done|cbn; lia|cbn; lia|done|].
  rewrite E3, He, ?Z.gtb_ltb. by eexists.
Qed.
End Rate.

(** ** Login *)

Section Login.
Context {B : Type} `{Backend B} `{Protobuf}.
Implicit Types (s : Server B) (c : ctx_id).

Definition offline_packet c (wall : Z) (m : DBChatMessage) : functor :=
  FSend c (cmd_val CHAT) 0
    (SerializeToString (mkChat (dm_from m) (dm_to m) (dm_content m) wall false false 0)).

Definition queued_all (w w' : worker_id) (fs : list functor) : list functor := if decide (w' = w) then fs else [].

Lemma deliver_one s c m :
  deliver_offline c m s =
  reply c CHAT 0 (SerializeToString (mkChat (dm_from m) (dm_to m) (dm_content m) (sv_wall_ms s) false false 0)) s.
Proof. reflexivity. Qed.

Lemma deliver_exact s c x w k ms :
  ctxs (sv_heap s) !! c = Some x → owner_worker x = Some w → sv_workers s !! w = Some k →
  ∃ s', for_each (deliver_offline c) ms s = Ret tt s' ∧
    (∀ w', pending_of s' w' = (λ q, q ++ queued_all w w' (map (offline_packet c (sv_wall_ms s)) ms)) <$> pending_of s w') ∧
    sv_heap s' = sv_heap s ∧ sv_sessions s' = sv_sessions s ∧ sv_db s' = sv_db s ∧
    is_Some (sv_workers s' !! w).
Proof.
  revert s k. induction ms as [|m ms IH]; intros s k Hx Hw Hk; cbn [for_each map].
  - exists s. split_ands; try done. intros w'. unfold queued_all. destruct (pending_of s w'); [|done].
    cbn. case_decide; by rewrite app_nil_r.
  - mred. rewrite deliver_one.
    destruct (reply_exact s c x w k CHAT 0 (SerializeToString
      (mkChat (dm_from m) (dm_to m) (dm_content m) (sv_wall_ms s) false false 0)) Hx Hw Hk)
      as (s1 & -> & Hp1 & Hh1 & Hs1 & Hd1 & Hl1 & Hk1).
    destruct (Hk1 w) as [k1 Hk1']; [eauto|].
    destruct (IH s1 k1) as (s2 & E2 & Hp2 & Hh2 & Hs2 & Hd2 & Hw2); [by rewrite Hh1|done|done|].
    exists s2. split_ands; [exact E2| |congruence..|done].
    intros w'. rewrite Hp2, Hp1, Hl1. destruct (pending_of s w'); [|done]. cbn. f_equal.
    rewrite <- app_assoc. f_equal. unfold queued_to, queued_all. by case_decide.
Qed.

Lemma db_call_eq {A} s (m : M B A) d a b :
  sv_db s = Some d → m (backend d) = Ret a b →
  db_call m s = Ret a (set_db (Some (mkWriter (queue_ d) (db_running_ d) b)) s).
Proof. intros Hd Hm. unfold db_call. mred. rewrite Hd. unfold on_db, lift. by rewrite Hm. Qed.

(** What [bind] queues for worker [w']: the end of the connection that had the
    session before, if it is open. *)
Definition old_close s (u : Z) (w' : worker_id) : list functor :=
  match get_session u (sv_sessions s) with
  | Some old =>
      match ctxs (sv_heap s) !! old with
      | Some y => if (fd y =? -1)%Z then []
                  else if decide (owner_worker y = Some w') then [FClose (fd y)] else []
      | None => []
      end
  | None => []
  end.

Lemma old_close_none s u (w' : worker_id) : get_session u (sv_sessions s) = None → old_close s u w' = [].
Proof. intros Hn. unfold old_close. by rewrite Hn. Qed.

Lemma bind_exact s u c :
  world_ok s →
  ∃ s', bind u c s = Ret tt s' ∧
    (∀ w', pending_of s' w' = (λ q, q ++ old_close s u w') <$> pending_of s w') ∧
    sv_heap s' = upd_ctx c (set_session u) (sv_heap s) ∧ sv_sessions s' = bind_store u c (sv_sessions s) ∧
    sv_db s' = sv_db s ∧ sv_wall_ms s' = sv_wall_ms s.
Proof.
  intros Hw. unfold bind, old_close. mred. change (bind_find u (sv_sessions s)) with (get_session u (sv_sessions s)).
  assert (Hsame : ∀ w', pending_of s w' = (λ q, q ++ []) <$> pending_of s w').
  { intros w'. destruct (pending_of s w'); cbn; [by rewrite app_nil_r|done]. }
  destruct (get_session u (sv_sessions s)) as [old|] eqn:Eo; [|eexists; split; [done|]; by split_ands].
  destruct (wo_sessions s Hw u old Eo) as [y Hy]. unfold ctx_of. rewrite Hy.
  destruct (fd y =? -1)%Z; [eexists; split; [done|]; by split_ands|].
  destruct (wo_owner s Hw old y Hy) as (w & Ho & Hk). rewrite Ho. unfold queue_close_connection.
  destruct (queue_functor_runs s w (FClose (fd y)) Hw Hk) as (s1 & q & E & _ & _ & Eh & Hq & Hq1 & Hne & Es & Ed & _ & El).
  rewrite E. eexists. split; [done|]. cbn [set_sessions set_heap sv_heap sv_sessions sv_db sv_wall_ms].
  split_ands; [|congruence..]. intros w'.
  match goal with |- pending_of ?s2 w' = _ => change (pending_of s2 w') with (pending_of s1 w') end.
  case_decide as Ew.
  - injection Ew as <-. by rewrite Hq1, Hq.
  - rewrite Hne by congruence. apply Hsame.
Qed.

Lemma bind_stored s u c : length (buckets_ (sv_sessions s)) = NUM_BUCKETS →
  get_session u (bind_store u c (sv_sessions s)) = Some c.
Proof. intros Hb. unfold bind_store. rewrite get_upd, decide_True by done. apply lookup_insert_eq. Qed.

Lemma world_set_db d s : world_ok s → world_ok (set_db (Some d) s).
Proof. intros []. by split; eauto. Qed.

(** The delivery of the stored messages [ms], if there are any. *)
Lemma login_deliver s c x w k d u (b2 b3 : B) ms :
  ctxs (sv_heap s) !! c = Some x → owner_worker x = Some w → sv_workers s !! w = Some k →
  sv_db s = Some d → backend d = b2 → (ms ≠ [] → be_mark u INT64_MAX b2 = Ret tt b3) →
  ∃ s', match ms with
        | [] => mret tt
        | _ => for_each (deliver_offline c) ms ;; db_call (be_mark u INT64_MAX)
        end s = Ret tt s' ∧
    (∀ w', pending_of s' w' = (λ q, q ++ queued_all w w' (map (offline_packet c (sv_wall_ms s)) ms)) <$> pending_of s w') ∧
    sv_heap s' = sv_heap s ∧ sv_sessions s' = sv_sessions s ∧ is_Some (sv_workers s' !! w) ∧
    sv_db s' = Some (mkWriter (queue_ d) (db_running_ d) (if ms is [] then b2 else b3)).
Proof.
  intros Hx Hw Hk Hd Hb Hm.
  destruct (deliver_exact s c x w k ms Hx Hw Hk) as (s1 & E & Hp & Hh & Hs & Hd1 & Hk1).
  destruct ms as [|m ms].
  - injection E as <-. exists s. split_ands; try done. rewrite Hd. subst b2. by destruct d.
  - mred. rewrite E. subst b2. erewrite (db_call_eq s1 (be_mark u INT64_MAX)); [|by rewrite Hd1|by apply Hm].
    eexists. split; [done|]. split_ands; done.
Qed.

(** C9. Logging in delivers what was stored: when the password is right and the
    backend's calls return, the session is bound to the client; an open connection that had the session
    before is told to close; every message stored for the user is queued for
    the client's connection in the order the backend gave them, followed by
    the acknowledgement; nothing else is queued; and if there were messages the
    backend has been told that everything up to [INT64_MAX] is delivered,
    otherwise it is left as the query left it. *)
Theorem login_delivers s c (x : ClientContext) (w : worker_id) hdr body (req : LoginRequest)
    (d : DBBatchWriter B) (u : Z) (b1 b2 b3 : B) (ms : list DBChatMessage) :
  cmd hdr = cmd_val LOGIN → ParseFromString body = Some req → world_ok s → sv_db s = Some d →
  be_verify (login_username req) (login_password req) (backend d) = Ret u b1 → (0 < u)%Z →
  be_offline u b1 = Ret ms b2 → (ms ≠ [] → be_mark u INT64_MAX b2 = Ret tt b3) →
  ctxs (sv_heap s) !! c = Some x → owner_worker x = Some w →
  let ok := FSend c (cmd_val ACK) (seq hdr) (SerializeToString (mkResponse true (str "login success") u)) in
  ∃ s', process_business c hdr body s = Ret tt s' ∧ get_session u (sv_sessions s') = Some c ∧
    uid <$> ctxs (sv_heap s') !! c = Some u ∧
    (∀ w', pending_of s' w' =
       (λ q, q ++ old_close s u w' ++ queued_all w w' (map (offline_packet c (sv_wall_ms s)) ms ++ [ok]))
       <$> pending_of s w') ∧
    sv_db s' = Some (mkWriter (queue_ d) (db_running_ d) (if ms is [] then b2 else b3)).
Proof.
  intros Hcmd Hp Hok Hd Hv Hu Ho Hm Hx Hw ok.
  unfold process_business, try_catch, handle_command. rewrite Hcmd. cbn [cmd_val Z.eqb Pos.eqb]. mred.
  unfold handle_login. rewrite Hp. unfold has_db. mred. rewrite Hd. cbn [bool_decide decide].
  rewrite bool_decide_eq_true_2 by eauto.
  rewrite (db_call_eq s _ d u b1 Hd Hv). rewrite (proj2 (Z.ltb_lt _ _)) by done.
  set (s1 := set_db _ s).
  destruct (bind_exact s1 u c (world_set_db _ s Hok)) as (s2 & E2 & Hp2 & Hh2 & Hs2 & Hd2 & Hl2). rewrite E2.
  rewrite Hd2, bool_decide_eq_true_2 by eauto.
  erewrite (db_call_eq _ (be_offline u)); [|by rewrite Hd2|exact Ho]. lazy beta match.
  destruct (wo_owner s Hok c x Hx) as (w' & Ew & Hk). rewrite Hw in Ew. injection Ew as <-.
  assert (Hk2 : ∃ k, sv_workers s2 !! w = Some k).
  { specialize (Hp2 w). unfold pending_of in Hp2. change (sv_workers s1) with (sv_workers s) in Hp2.
    destruct Hk as [k Hk]. rewrite Hk in Hp2. destruct (sv_workers s2 !! w); [eauto|done]. }
  destruct Hk2 as [k Hk2].
  cbn [queue_ db_running_]. set (s3 := set_db _ s2).
  destruct (login_deliver s3 c (set_session u x) w k (mkWriter (queue_ d) (db_running_ d) b2) u b2 b3 ms)
    as (s4 & E4 & Hp4 & Hh4 & Hs4 & [k4 Hk4] & Hd4);
    [cbn; rewrite Hh2; cbn; by rewrite lookup_alter_eq, Hx|done..|].
  revert E4. mred. intros ->. unfold ack.
  destruct (reply_exact s4 c (set_session u x) w k4 ACK (seq hdr)
    (SerializeToString (mkResponse true (str "login success") u))) as (s6 & -> & Hp6 & Hh6 & Hs6 & Hd6 & _);
    [rewrite Hh4; cbn; rewrite Hh2; cbn; by rewrite lookup_alter_eq, Hx|done|done|].
  exists s6. split_ands; [done|rewrite Hs6, Hs4; cbn; rewrite Hs2; apply bind_stored; apply Hok| | |by rewrite Hd6].
  - rewrite Hh6, Hh4. cbn. rewrite Hh2. cbn. by rewrite lookup_alter_eq, Hx.
  - intros w'. rewrite Hp6, Hp4. change (sv_wall_ms s3) with (sv_wall_ms s2). rewrite Hl2.
    change (pending_of s3 w') with (pending_of s2 w'). rewrite Hp2. change (pending_of s1 w') with (pending_of s w'). destruct (pending_of s w'); cbn; [|done].
    f_equal. rewrite <- !app_assoc. do 2 f_equal. unfold queued_to, queued_all. by case_decide.
Qed.
End Login.

(** ** Witnesses *)

Lemma demo_world : world_ok demo_connected.
Proof.
  assert (Hh : ctxs (sv_heap demo_connected) = {[ 0 := mkCtx 5 0 false 0 [] [] false (Some 0) 0 0 0 ]})
    by (vm_compute; reflexivity).
  assert (Hs : sv_sessions demo_connected = new_sessions) by (vm_compute; reflexivity).
  split.
  - intros c x Hx. rewrite Hh in Hx. apply lookup_singleton_Some in Hx as [_ <-]. exists 0. split; [done|].
    apply (bool_decide_unpack (is_Some _)). vm_compute. exact I.
  - intros u c Hc. rewrite Hs in Hc. pose proof (proj2 shards_empty u) as He. cbn in He.
    unfold st_empty in He. cbn in He. by rewrite He in Hc.
  - rewrite Hs. apply length_replicate.
  - apply (bool_decide_unpack (is_Some _)). vm_compute. exact I.
  - apply (bool_decide_unpack (is_Some _)). vm_compute. exact I.
  - intros c Hc. assert (Hn : next_ctx (sv_heap demo_connected) = 1) by (vm_compute; reflexivity).
    rewrite Hn in Hc. rewrite Hh. apply lookup_singleton_ne. lia.
Qed.

Definition ping_header : PacketHeader := mkHeader PROTO_MAGIC 0 (cmd_val HEARTBEAT) 9.

Lemma request_answered_witness :
  ∃ s', process_business 0 ping_header [] demo_connected = Ret tt s' ∧ replied 0 9 s'.
Proof.
  destruct (request_answered demo_connected 0 ping_header [] demo_world) as (s' & E & _ & Hr).
  - apply (bool_decide_unpack (is_Some _)). vm_compute. exact I.
  - exists s'. split; [exact E|]. apply Hr; reflexivity.
Defined.

Definition demo_chat (to : Z) : ChatMessage := mkChat 42 to (str "hi") 0 false false 0.
Definition chat_header : PacketHeader := mkHeader PROTO_MAGIC 0 (cmd_val CHAT) 3.

Lemma chat_offline_witness :
  ∃ s', process_business 0 chat_header (SerializeToString (demo_chat 2000)) demo_connected = Ret tt s' ∧
    sv_db s' = Some (mkWriter [mkDBMsg 0 0 2000 (str "hi") 0 false] (db_running_ demo_db) (backend demo_db)).
Proof.
  destruct (chat_offline demo_connected 0 (mkCtx 5 0 false 0 [] [] false (Some 0) 0 0 0) 0 chat_header
    (SerializeToString (demo_chat 2000)) (demo_chat 2000) demo_db) as (s' & E & Hres).
  - reflexivity.
  - vm_compute. reflexivity.
  - vm_compute. congruence.
  - vm_compute. reflexivity.
  - vm_compute. reflexivity.
  - reflexivity.
  - apply (bool_decide_unpack (is_Some _)). vm_compute. exact I.
  - vm_compute. reflexivity.
  - exists s'. split; [exact E|].
    assert (Hr : over_rate demo_connected (mkCtx 5 0 false 0 [] [] false (Some 0) 0 0 0) = false) by (vm_compute; reflexivity).
    rewrite Hr in Hres. destruct Hres as [_ Hd]. rewrite Hd. reflexivity.
Defined.

(** User 1000 is logged in on connection 5. *)
Definition demo_session : Server (HashedDB len_hash) :=
  match bind 1000 0 demo_connected with Ret _ s => s | _ => demo_connected end.

Lemma chat_online_witness :
  ∃ s', process_business 0 chat_header (SerializeToString (demo_chat 1000)) demo_session = Ret tt s' ∧
    sv_db s' = Some (mkWriter [mkDBMsg 0 1000 1000 (str "hi") 0 true] (db_running_ demo_db) (backend demo_db)).
Proof.
  pose (x := mkCtx 5 1000 true 0 [] [] false (Some 0) 0 0 0).
  destruct (chat_online demo_session 0 0 x x 0 0 chat_header (SerializeToString (demo_chat 1000))
    (demo_chat 1000) demo_db) as (s' & E & Hres).
  - reflexivity.
  - vm_compute. reflexivity.
  - vm_compute. congruence.
  - vm_compute. reflexivity.
  - vm_compute. reflexivity.
  - reflexivity.
  - apply (bool_decide_unpack (is_Some _)). vm_compute. exact I.
  - vm_compute. reflexivity.
  - vm_compute. reflexivity.
  - reflexivity.
  - apply (bool_decide_unpack (is_Some _)). vm_compute. exact I.
  - exists s'. split; [exact E|].
    assert (Hr : over_rate demo_session x = false) by (vm_compute; reflexivity).
    rewrite Hr in Hres. destruct Hres as [_ Hd]. rewrite Hd. reflexivity.
Defined.

(** Twenty-one messages in the first window, of which the last is refused, and
    one in the next, which passes. *)
Lemma rate_limit_exact_witness :
  ∃ s', rate_run 0 (5%Z :: replicate 20 6%Z ++ [1000%Z]) demo_connected =
        Ret (replicate 20 false ++ [true; false]) s'.
Proof.
  destruct (rate_limit_exact demo_connected 0 (mkCtx 5 0 false 0 [] [] false (Some 0) 0 0 0) 5
    (replicate 20 6%Z ++ [1000%Z])) as [s' E].
  - vm_compute. reflexivity.
  - reflexivity.
  - apply (bool_decide_unpack _). vm_compute. exact I.
  - vm_compute. reflexivity.
  - exists s'. rewrite E.
    assert (RATE_LIMIT_MSGS (sv_env demo_connected) = 20%Z) as -> by (vm_compute; reflexivity).
    assert (RATE_LIMIT_WINDOW (sv_env demo_connected) = 1%Z) as -> by (vm_compute; reflexivity). reflexivity.
Defined.

(** A message waits for user 1000. *)
Definition mail : DBChatMessage := mkDBMsg 0 7 1000 (str "hello") 0 false.
Definition db_mail : FileDB := match store_batch [mail] db_alice with Ret _ d => d | _ => db_alice end.
Definition db_read : FileDB := match mark_delivered 1000 INT64_MAX db_mail with Ret _ d => d | _ => db_mail end.
Definition demo_mail : Server (HashedDB len_hash) :=
  set_db (Some (mkWriter [] true (mkHashed db_mail))) demo_connected.
Definition mail_header : PacketHeader := mkHeader PROTO_MAGIC 0 (cmd_val LOGIN) 4.

Lemma login_delivers_witness :
  ∃ s', process_business 0 mail_header (SerializeToString (mkLogin (str "alice") (str "pw"))) demo_mail = Ret tt s' ∧
    get_session 1000 (sv_sessions s') = Some 0 ∧
    sv_db s' = Some (mkWriter [] true (mkHashed db_read)).
Proof.
  destruct (login_delivers demo_mail 0 (mkCtx 5 0 false 0 [] [] false (Some 0) 0 0 0) 0 mail_header
    (SerializeToString (mkLogin (str "alice") (str "pw"))) (mkLogin (str "alice") (str "pw"))
    (mkWriter [] true (mkHashed db_mail)) 1000 (mkHashed db_mail) (mkHashed db_mail) (mkHashed db_read)
    [mkDBMsg 1 7 1000 (str "hello") 0 false]) as (s' & E & Hs & _ & _ & Hd).
  - reflexivity.
  - vm_compute. reflexivity.
  - exact (world_set_db _ _ demo_world).
  - reflexivity.
  - vm_compute. reflexivity.
  - lia.
  - vm_compute. reflexivity.
  - intros _. vm_compute. reflexivity.
  - vm_compute. reflexivity.
  - reflexivity.
  - exists s'. split; [exact E|]. split; [exact Hs|exact Hd].
Defined.
