(* ===== verification/BusinessSteps.v ===== *)
(** * The request handler, step by step (src/business.cpp)

    The handlers of Business.v again, cut where other threads may run: every
    access to a field of a context, to the session table, to the storage, to
    the AI queue and to a worker's queue is a step of its own.
    [seq_process_business] shows that a request that nobody disturbs is the
    [process_business] of Business.v. *)

From S2P Require Import Prelude Steps Bytes Config Protocol Timer ThreadPool Context EventLoop Session.
From S2P Require Import Json RefCodec AiManager FileStore DbWriter World Business.

Section Fine.
Context {B : Type} `{Backend B} `{Protobuf}.
Implicit Types (c : ctx_id) (sequence : Z) (body : bytes).
#[local] Abbreviation P := (prog (Server B)).

(** ** The calls *)

(** [ctx->owner_worker->queue_send_packet(ctx, cmd, seq, body)]: the pointer
    is read, then the functor is queued. *)
Definition reply_steps c (command : CmdType) sequence body : P unit :=
  w ← atomic (owner_of c);
  atomic (queue_send_packet w c (cmd_val command) sequence body).
Definition ack_steps c sequence (r : Response) : P unit := reply_steps c ACK sequence (SerializeToString r).

(** [ctx->uid.load()] *)
Definition uid_of_steps c : P Z := atomic (uid_of c).
Definition has_db_steps : P bool := atomic has_db.
Definition db_call_steps {A} (m : M B A) : P A := atomic (db_call m).
Definition session_of_steps (u : Z) : P (option ctx_id) := atomic (session_of u).

(** [SessionManager::bind].  Without an old session it is one critical
    section; otherwise the lock is given up while the old connection is
    closed. *)
Definition bind_first (u : Z) c : M (Server B) (option ctx_id) :=
  s ← get_st;
  match bind_find u (sv_sessions s) with
  | Some old => mret (Some old)
  | None =>
      mod_ctx c (set_session u) ;;
      modify (λ s, set_sessions (bind_store u c (sv_sessions s)) s) ;;
      mret None
  end.
Definition bind_steps (u : Z) c : P unit :=
  found ← atomic (bind_first u c);
  match found with
  | None => mret tt
  | Some old =>
      f ← atomic (x ← ctx_of old; mret (fd x));
      (if (f =? -1)%Z then mret tt
       else
         w ← atomic (owner_of old);
         f' ← atomic (x ← ctx_of old; mret (fd x));
         atomic (queue_close_connection w f')) ;;
      atomic (mod_ctx c (set_session u) ;; modify (λ s, set_sessions (bind_store u c (sv_sessions s)) s))
  end.

(** [g_db_writer->submit(m)] *)
Definition submit_message (m : DBChatMessage) : M (Server B) unit :=
  s ← get_st;
  match sv_db s with Some d => on_db d (submit m) | None => crash NullDeref end.
(** [if (g_db_writer) g_db_writer->submit({0, ctx->uid.load(), to, text, now, delivered})] *)
Definition store_chat_steps c (to : Z) (text : bytes) (delivered : bool) : P unit :=
  db ← has_db_steps;
  if (db : bool) then
    u ← uid_of_steps c;
    now ← atomic (gets sv_wall_ms);
    atomic (submit_message (mkDBMsg 0 u to text now delivered))
  else mret tt.

(** The fields of the rate limit are plain integers: they are read and written
    one by one, [++] included. *)
Definition rate_limited_steps c : P bool :=
  now ← atomic (gets now_sec);
  window ← atomic (gets (λ s, RATE_LIMIT_WINDOW (sv_env s)));
  start ← atomic (x ← ctx_of c; mret (rate_window_start x));
  expired ← (if (start =? 0)%Z then mret true
             else start' ← atomic (x ← ctx_of c; mret (rate_window_start x)); mret (now - start' >? window)%Z);
  (if (expired : bool) then
     atomic (mod_ctx c (λ x, set_rate now (rate_msg_count x) x)) ;;
     atomic (mod_ctx c (λ x, set_rate (rate_window_start x) 0 x))
   else mret tt) ;;
  count ← atomic (x ← ctx_of c; mret (rate_msg_count x));
  let n := wrap_i32 (count + 1) in
  atomic (mod_ctx c (λ x, set_rate (rate_window_start x) n x)) ;;
  limit ← atomic (gets (λ s, RATE_LIMIT_MSGS (sv_env s)));
  mret (n >? limit)%Z.

(** ** LOGIN *)

Definition deliver_offline_steps c (m : DBChatMessage) : P unit :=
  now ← atomic (gets sv_wall_ms);
  reply_steps c CHAT 0 (SerializeToString (mkChat (dm_from m) (dm_to m) (dm_content m) now false false 0)).

Definition handle_login_steps c sequence body : P unit :=
  match ParseFromString body : option LoginRequest with
  | None => mret tt
  | Some req =>
      db ← has_db_steps;
      u ← (if (db : bool) then db_call_steps (be_verify (login_username req) (login_password req)) else mret (-1)%Z);
      if (0 <? u)%Z then
        bind_steps u c ;;
        db ← has_db_steps;
        (if (db : bool) then
           offline ← db_call_steps (be_offline u);
           match offline with
           | [] => mret tt
           | _ => pfor (deliver_offline_steps c) offline ;; db_call_steps (be_mark u INT64_MAX)
           end
         else mret tt) ;;
        ack_steps c sequence (mkResponse true (str "login success") u)
      else ack_steps c sequence (fail_resp (str "用户名或密码错误"))
  end.

(** ** CHAT *)

Definition handle_ai_chat_steps c sequence (m : ChatMessage) : P unit :=
  u ← uid_of_steps c;
  owned ← atomic (x ← ctx_of c; mret (bool_decide (is_Some (owner_worker x))));
  f ← atomic (x ← ctx_of c; mret (fd x));
  now ← atomic (gets sv_mono_ns);
  ok ← atomic (with_ai (submit_stream_request owned f u (content m) c now));
  if (ok : bool) then mret tt
  else ack_steps c sequence (mkResponse false (str "AI服务繁忙，请稍后再试") u).

Definition handle_chat_steps c sequence body : P unit :=
  match ParseFromString body : option ChatMessage with
  | None => mret tt
  | Some m =>
      if (to_uid m =? AI_UID)%Z then handle_ai_chat_steps c sequence m
      else
        target ← session_of_steps (to_uid m);
        match target with
        | Some t =>
            u ← uid_of_steps c;
            reply_steps t CHAT 0 (SerializeToString (set_from_uid u m)) ;;
            u' ← uid_of_steps c;
            ack_steps c sequence (mkResponse true (str "消息已发送给用户" ++ to_string (to_uid m)) u') ;;
            store_chat_steps c (to_uid m) (content m) true
        | None =>
            store_chat_steps c (to_uid m) (content m) false ;;
            u ← uid_of_steps c;
            ack_steps c sequence
              (mkResponse false (str "用户" ++ to_string (to_uid m) ++ str "不在线，消息已存储") u)
        end
  end.

(** ** REGISTER *)

Definition handle_register_steps c sequence body : P unit :=
  match ParseFromString body : option RegisterRequest with
  | None => mret tt
  | Some req =>
      if bool_decide (reg_username req = []) || bool_decide (reg_password req = [])
      then ack_steps c sequence (fail_resp (str "用户名和密码不能为空"))
      else
        db ← has_db_steps;
        if negb db then ack_steps c sequence unavailable
        else
          u ← db_call_steps (be_register (reg_username req) (reg_password req));
          if (u =? -2)%Z then ack_steps c sequence (fail_resp (str "用户名已存在"))
          else if (u <? 0)%Z then ack_steps c sequence (fail_resp (str "注册失败，请稍后再试"))
          else
            bind_steps u c ;;
            ack_steps c sequence (mkResponse true (str "注册成功，您的UID是" ++ to_string u) u)
  end.

(** ** HEARTBEAT *)

Definition handle_heartbeat_steps c sequence : P unit :=
  u ← uid_of_steps c; ack_steps c sequence (mkResponse true (str "PONG") u).

(** ** Friends *)

Definition notify_steps (u : Z) (text : bytes) : P unit :=
  target ← session_of_steps u;
  match target with
  | Some t => reply_steps t ACK 0 (SerializeToString (mkResponse true text 0))
  | None => mret tt
  end.

Definition handle_add_friend_steps c sequence body : P unit :=
  match ParseFromString body : option AddFriendRequest with
  | None => mret tt
  | Some req =>
      u ← uid_of_steps c;
      r ← (if (af_to_uid req =? u)%Z then mret (mkResponse false (str "不能添加自己为好友") u)
           else
             db ← has_db_steps;
             if negb db then mret (mkResponse false (str "服务暂不可用") u)
             else
               ret ← db_call_steps (be_add_friend u (af_to_uid req) (af_message req));
               if (ret =? -2)%Z then mret (mkResponse false (str "已经是好友了") u)
               else if (ret =? -3)%Z
               then mret (mkResponse false (str "已发送过好友请求，请等待对方处理") u)
               else if (ret <? 0)%Z then mret (mkResponse false (str "发送失败，请稍后再试") u)
               else notify_steps (af_to_uid req) (str "收到新的好友请求") ;;
                    mret (mkResponse true (str "好友请求已发送") u));
      ack_steps c sequence r
  end.

Definition handle_accept_friend_steps c sequence body : P unit :=
  match ParseFromString body : option AcceptFriendRequest with
  | None => mret tt
  | Some req =>
      u ← uid_of_steps c;
      db ← has_db_steps;
      r ← (if negb db then mret (mkResponse false (str "服务暂不可用") u)
           else
             from ← db_call_steps (be_accept (request_id req) u);
             if (from <? 0)%Z then mret (mkResponse false (str "处理失败，请求可能已过期") u)
             else notify_steps from (str "您的好友请求已被接受") ;;
                  mret (mkResponse true (str "已添加为好友") u));
      ack_steps c sequence r
  end.

(** The rows of a [UserList]; each asks the session table on its own. *)
Fixpoint user_infos (l : list (Z * bytes)) : P (list FriendInfo) :=
  match l with
  | [] => mret []
  | (u, name) :: l' =>
      target ← session_of_steps u;
      rest ← user_infos l';
      mret (mkFriendInfo u name (bool_decide (is_Some target)) :: rest)
  end.

Definition handle_friend_list_steps c sequence : P unit :=
  db ← has_db_steps;
  if negb db then ack_steps c sequence unavailable
  else
    u ← uid_of_steps c;
    friends ← db_call_steps (be_friends u);
    infos ← user_infos friends;
    reply_steps c FRIEND_LIST sequence (SerializeToString (mkUserList infos)).

Definition handle_search_user_steps c sequence body : P unit :=
  match ParseFromString body : option SearchUserRequest with
  | None => mret tt
  | Some req =>
      db ← has_db_steps;
      if negb db then ack_steps c sequence unavailable
      else
        found ← db_call_steps (be_search (keyword req));
        infos ← user_infos found;
        reply_steps c SEARCH_USER sequence (SerializeToString (mkUserList infos))
  end.

Definition handle_friend_requests_steps c sequence : P unit :=
  db ← has_db_steps;
  if negb db then ack_steps c sequence unavailable
  else
    u ← uid_of_steps c;
    pending ← db_call_steps (be_pending u);
    reply_steps c FRIEND_REQUESTS sequence
      (SerializeToString (mkReqList (map (λ '(i, f, name, text), mkReqInfo i f name text) pending))).

(** ** Dispatch *)

Definition handle_command_steps c (hdr : PacketHeader) body : P unit :=
  let is_cmd k := (cmd hdr =? cmd_val k)%Z in
  let sq := seq hdr in
  if is_cmd LOGIN then handle_login_steps c sq body
  else if is_cmd CHAT then handle_chat_steps c sq body
  else if is_cmd REGISTER then handle_register_steps c sq body
  else if is_cmd HEARTBEAT then handle_heartbeat_steps c sq
  else if is_cmd ADD_FRIEND then handle_add_friend_steps c sq body
  else if is_cmd ACCEPT_FRIEND then handle_accept_friend_steps c sq body
  else if is_cmd FRIEND_LIST then handle_friend_list_steps c sq
  else if is_cmd SEARCH_USER then handle_search_user_steps c sq body
  else if is_cmd FRIEND_REQUESTS then handle_friend_requests_steps c sq
  else mret tt.

Definition process_business_steps c (hdr : PacketHeader) body : P unit :=
  ptry
    (limited ← (if (cmd hdr =? cmd_val CHAT)%Z then rate_limited_steps c else mret false);
     if (limited : bool) then ack_steps c (seq hdr) (fail_resp (str "消息发送过快，请稍后再试"))
     else handle_command_steps c hdr body)
    (ptry (ack_steps c (seq hdr) internal_error) (mret tt)).
End Fine.

(** ** Undisturbed, it is the handler of Business.v *)

Create HintDb alone discriminated.
#[export] Hint Resolve seq_atomic : alone.

(** Proves [seq_run p ≈ m] when [p] and [m] have the same shape. *)
Ltac alone :=
  repeat first
    [ solve [eauto with alone]
    | progress (rewrite seq_bind)
    | apply same_bind; [|intros ?]
    | rewrite seq_for; apply same_for_each; intros ?
    | match goal with |- seq_run (match ?x with _ => _ end) ≈ _ => destruct x eqn:? end
    | reflexivity ].

Section Alone.
Context {B : Type} `{Backend B} `{Protobuf}.
Implicit Types (c : ctx_id) (s : Server B).

Lemma seq_reply c cm n body : seq_run (reply_steps (B := B) c cm n body) ≈ reply c cm n body.
Proof. unfold reply_steps. alone. Qed.
Lemma seq_ack c n r : seq_run (ack_steps (B := B) c n r) ≈ ack c n r.
Proof. apply seq_reply. Qed.
Lemma seq_deliver c m : seq_run (deliver_offline_steps (B := B) c m) ≈ deliver_offline c m.
Proof.
  unfold deliver_offline_steps. rewrite seq_bind.
  etransitivity; [apply same_bind; [apply seq_atomic|intros now; apply seq_reply]|done].
Qed.
Lemma seq_notify u t : seq_run (notify_steps (B := B) u t) ≈ notify u t.
Proof. unfold notify_steps, session_of_steps. pose proof seq_reply. alone. Qed.
Lemma seq_user_infos l : seq_run (user_infos (B := B) l) ≈ gets (λ s, users (mkUserList
  (map (λ p, mkFriendInfo p.1 p.2 (bool_decide (is_Some (get_session p.1 (sv_sessions s))))) l))).
Proof.
  induction l as [|[u name] l IH]; [done|]. intros s. cbn [user_infos]. unfold session_of_steps, session_of. sred.
  by rewrite IH.
Qed.

Lemma mod_ctx_twice c f g :
  (mod_ctx c f ;; mod_ctx c g : M (Server B) unit) ≈ mod_ctx c (λ x, g (f x)).
Proof.
  intros s. unfold mod_ctx. mred. f_equal. unfold set_heap, upd_ctx. cbn. do 2 f_equal.
  by rewrite alter_alter_eq.
Qed.

(** The first critical section and the rest of [bind]. *)
Lemma seq_bind_session u c : seq_run (bind_steps (B := B) u c) ≈ bind u c.
Proof.
  intros s. unfold bind_steps, bind_first, bind. sred. destruct (bind_find u (sv_sessions s)) as [old|]; [|done].
  sred. unfold owner_of, ctx_of. sred. destruct (ctxs (sv_heap s) !! old) as [x|] eqn:Hx; [|done].
  sred. destruct (fd x =? -1)%Z; [by sred|]. sred. rewrite Hx. sred.
  destruct (owner_worker x) as [w|]; [|done]. sred. rewrite Hx. sred.
  by destruct (queue_close_connection w (fd x) s) as [[] s1|s1|r].
Qed.

(** The limiter: the window is started and the count cleared, then one more is
    counted. *)
Lemma seq_rate_limited c : seq_run (rate_limited_steps (B := B) c) ≈ rate_limited c.
Proof.
  intros s. unfold rate_limited_steps, rate_limited, ctx_of. sred.
  destruct (ctxs (sv_heap s) !! c) as [x|] eqn:Hx; [|done]. sred.
  assert (E : (rate_window_start x =? 0)%Z || (now_sec s - rate_window_start x >? RATE_LIMIT_WINDOW (sv_env s))%Z =
    if (rate_window_start x =? 0)%Z then true else (now_sec s - rate_window_start x >? RATE_LIMIT_WINDOW (sv_env s))%Z)
    by (by case_if). rewrite E. clear E.
  destruct (rate_window_start x =? 0)%Z; sred; [|rewrite Hx; sred; destruct (now_sec s - _ >? _)%Z];
    unfold mod_ctx; sred; cbn [set_heap upd_ctx ctxs sv_heap sv_env];
    rewrite ?lookup_alter_eq, Hx; sred; f_equal; unfold set_heap, upd_ctx; cbn;
    (let rec go := first [apply map_eq; intros d|f_equal; go] in go);
    (destruct (decide (c = d)) as [<-|Hne]; [by rewrite !lookup_alter_eq, Hx|by rewrite !lookup_alter_ne]).
Qed.

Lemma reply_same_heap c cm n body s s' :
  reply c cm n body s = Ret tt s' → sv_heap s' = sv_heap s.
Proof.
  unfold reply, queue_send_packet, queue_functor, owner_of, ctx_of, worker_of, mod_worker. mred.
  destruct (ctxs (sv_heap s) !! c) as [x|]; [|done]. destruct (owner_worker x) as [w|]; [|done].
  destruct (sv_workers s !! w); [|done]. by intros [= <-].
Qed.

Lemma seq_store_chat c x to text b s :
  ctxs (sv_heap s) !! c = Some x →
  seq_run (store_chat_steps c to text b) s = store_chat (uid x) to text b s.
Proof.
  intros Hx. unfold store_chat_steps, has_db_steps, has_db, uid_of_steps, uid_of, ctx_of, store_chat, submit_message.
  sred. destruct (sv_db s) as [d|] eqn:Hd.
  - rewrite bool_decide_eq_true_2 by eauto. sred. rewrite Hx. sred. by rewrite Hd.
  - by rewrite bool_decide_eq_false_2 by (intros [? [=]]).
Qed.
Lemma store_chat_heap u to text b s s' : store_chat u to text b s = Ret tt s' → sv_heap s' = sv_heap s.
Proof. unfold store_chat, on_db, submit. mred. destruct (sv_db s); by intros [= <-]. Qed.
End Alone.

#[export] Hint Resolve seq_reply seq_ack seq_deliver seq_notify seq_bind_session seq_rate_limited : alone.

Section AloneHandlers.
Context {B : Type} `{Backend B} `{Protobuf}.
Implicit Types (c : ctx_id) (s : Server B).

Lemma seq_login c n body : seq_run (handle_login_steps (B := B) c n body) ≈ handle_login c n body.
Proof. unfold handle_login_steps, handle_login, has_db_steps, db_call_steps. alone. Qed.
Lemma seq_register c n body : seq_run (handle_register_steps (B := B) c n body) ≈ handle_register c n body.
Proof. unfold handle_register_steps, handle_register, has_db_steps, db_call_steps. alone. Qed.
Lemma seq_heartbeat c n : seq_run (handle_heartbeat_steps (B := B) c n) ≈ handle_heartbeat c n.
Proof. unfold handle_heartbeat_steps, handle_heartbeat, uid_of_steps. alone. Qed.
Lemma seq_add_friend c n body : seq_run (handle_add_friend_steps (B := B) c n body) ≈ handle_add_friend c n body.
Proof. unfold handle_add_friend_steps, handle_add_friend, has_db_steps, db_call_steps, uid_of_steps. alone. Qed.
Lemma seq_accept_friend c n body :
  seq_run (handle_accept_friend_steps (B := B) c n body) ≈ handle_accept_friend c n body.
Proof. unfold handle_accept_friend_steps, handle_accept_friend, has_db_steps, db_call_steps, uid_of_steps. alone. Qed.
Lemma seq_friend_requests c n : seq_run (handle_friend_requests_steps (B := B) c n) ≈ handle_friend_requests c n.
Proof. unfold handle_friend_requests_steps, handle_friend_requests, has_db_steps, db_call_steps, uid_of_steps. alone. Qed.

(** A list of users and who is online, then the packet. *)
Lemma seq_user_list c cm n l :
  seq_run (infos ← user_infos (B := B) l; reply_steps c cm n (SerializeToString (mkUserList infos)))
  ≈ (ul ← user_list l; reply c cm n (SerializeToString ul)).
Proof.
  rewrite seq_bind. etransitivity; [apply same_bind; [apply seq_user_infos|intros infos; apply seq_reply]|done].
Qed.
Lemma seq_friend_list c n : seq_run (handle_friend_list_steps (B := B) c n) ≈ handle_friend_list c n.
Proof.
  pose proof seq_user_list. unfold handle_friend_list_steps, handle_friend_list, has_db_steps, db_call_steps, uid_of_steps.
  alone.
Qed.
Lemma seq_search_user c n body : seq_run (handle_search_user_steps (B := B) c n body) ≈ handle_search_user c n body.
Proof.
  pose proof seq_user_list. unfold handle_search_user_steps, handle_search_user, has_db_steps, db_call_steps. alone.
Qed.

Lemma seq_ai_chat c n m : seq_run (handle_ai_chat_steps (B := B) c n m) ≈ handle_ai_chat c n m.
Proof.
  intros s. unfold handle_ai_chat_steps, handle_ai_chat, uid_of_steps, uid_of, ctx_of. sred.
  destruct (ctxs (sv_heap s) !! c) as [x|] eqn:Hx; [|done]. sred. rewrite Hx. sred. rewrite Hx. sred.
  match goal with |- context [with_ai ?f s] => destruct (with_ai f s) as [[] s1|s1|r] end; try done.
  sred. apply seq_ack.
Qed.

(** The sender's number is read three times, but nobody changes it. *)
Lemma seq_chat c n body : seq_run (handle_chat_steps (B := B) c n body) ≈ handle_chat c n body.
Proof.
  intros s. unfold handle_chat_steps, handle_chat. destruct (ParseFromString body) as [m|]; [|done].
  destruct (to_uid m =? AI_UID)%Z; [apply seq_ai_chat|]. unfold session_of_steps, session_of. sred.
  destruct (get_session (to_uid m) (sv_sessions s)) as [t|].
  - unfold uid_of_steps, uid_of, ctx_of. sred. destruct (ctxs (sv_heap s) !! c) as [x|] eqn:Hx; [|done]. sred.
    rewrite seq_reply. destruct (reply t _ _ _ s) as [[] s1|s1|r] eqn:E1; [|done..].
    apply reply_same_heap in E1. sred. rewrite E1, Hx. sred. rewrite seq_ack.
    destruct (ack c n _ s1) as [[] s2|s2|r] eqn:E2; [|done..]. apply reply_same_heap in E2.
    apply seq_store_chat. congruence.
  - unfold uid_of, ctx_of. sred. destruct (ctxs (sv_heap s) !! c) as [x|] eqn:Hx.
    + rewrite (seq_store_chat c x) by done. destruct (store_chat _ _ _ _ s) as [[] s1|s1|r] eqn:E1; [|done..].
      apply store_chat_heap in E1. unfold uid_of_steps, uid_of, ctx_of. sred. rewrite E1, Hx. sred. apply seq_ack.
    + unfold store_chat_steps, has_db_steps, has_db, uid_of_steps, uid_of, ctx_of. sred. case_if; sred; by rewrite Hx.
Qed.

#[local] Hint Resolve seq_login seq_chat seq_register seq_heartbeat seq_add_friend seq_accept_friend
  seq_friend_list seq_search_user seq_friend_requests : alone.

(** Cutting [process_business] into its atomic steps does not change it: a
    request during which no other thread runs does exactly what the handler
    does in one go, from every server state, whatever it ends in. *)
Theorem seq_process_business c hdr body s :
  seq_run (process_business_steps (B := B) c hdr body) s = process_business c hdr body s.
Proof.
  revert s. change (seq_run (process_business_steps (B := B) c hdr body) ≈ process_business c hdr body).
  unfold process_business_steps, process_business. rewrite seq_try. apply same_try; [|rewrite seq_try; apply same_try; alone].
  rewrite seq_bind. apply same_bind; [case_if; alone|]. intros [|]; [alone|].
  unfold handle_command_steps, handle_command. repeat (case_if; [alone|]). done.
Qed.
End AloneHandlers.
