(* ===== verification/Concurrent.v ===== *)
(** * Requests among other threads (src/business.cpp)

    The handlers of BusinessSteps.v under interference: whatever other threads
    do between two steps of a request, as long as the server stays up and
    contexts keep their workers, the request is processed and answered. *)

From S2P Require Import Prelude Steps Bytes Config Protocol Framing Timer ThreadPool Context EventLoop.
From S2P Require Import Session Json RefCodec Llama AiManager FileStore DbWriter World Business Stream Worker.
From S2P Require Import ConnTable System Requests BusinessSteps.

(** ** What threads may do to each other *)

Section Rely.
Context {B : Type}.
Implicit Types (s : Server B) (c : ctx_id).

(** A server that is up stays up, and no context disappears or changes its
    worker.  Queues may grow and shrink, sessions, stored data and the fields
    of contexts may change, connections may come and go. *)
Definition steady s s' : Prop :=
  world_ok s → world_ok s' ∧
  ∀ c x, ctxs (sv_heap s) !! c = Some x →
    ∃ x', ctxs (sv_heap s') !! c = Some x' ∧ owner_worker x' = owner_worker x.

#[export] Instance steady_preorder : PreOrder steady.
Proof.
  split.
  - intros s Hw. split; [done|]. eauto.
  - intros s1 s2 s3 H12 H23 Hw. destruct (H12 Hw) as [Hw2 Hc2]. destruct (H23 Hw2) as [Hw3 Hc3].
    split; [done|]. intros c x Hx. destruct (Hc2 c x Hx) as (x2 & Hx2 & E2).
    destruct (Hc3 c x2 Hx2) as (x3 & Hx3 & E3). exists x3. split; [done|congruence].
Qed.

Lemma grows_steady s s' : world_ok s' → grows s s' → steady s s'.
Proof.
  intros Hw [Hc _] _. split; [done|]. intros c x Hx. specialize (Hc c). rewrite Hx in Hc.
  destruct (ctxs (sv_heap s') !! c) as [x'|]; [|done]. injection Hc as Hc. eauto.
Qed.

Definition present (cs : list ctx_id) s : Prop := Forall (λ c, is_Some (ctxs (sv_heap s) !! c)) cs.

Lemma steady_up s s' : steady s s' → world_ok s → world_ok s'.
Proof. intros Hs Hw. apply (Hs Hw). Qed.
Lemma steady_present cs s s' : steady s s' → world_ok s → present cs s → present cs s'.
Proof.
  intros Hs Hw Hc. destruct (Hs Hw) as [_ Ho]. eapply Forall_impl; [exact Hc|]. intros c [x Hx].
  destruct (Ho c x Hx) as (x' & Hx' & _). eauto.
Qed.

(** A step that queues a packet with number [n] for the client of [c], on the
    worker that owns its connection. *)
Definition answer_step c (n : Z) (p : Server B * Server B) : Prop :=
  ∃ x w q command body, ctxs (sv_heap p.1) !! c = Some x ∧ owner_worker x = Some w ∧
    pending_of p.1 w = Some q ∧ pending_of p.2 w = Some (q ++ [FSend c command n body]).
Definition answered_in c (n : Z) (tr : history (Server B)) : Prop := Exists (answer_step c n) tr.

(** A step that puts the text of the message [m] as a new request of the
    client of [c] at the end of the AI queue, and changes nothing else there. *)
Definition taken_step c (m : ChatMessage) (p : Server B * Server B) : Prop :=
  ∃ a u now, sv_ai p.1 = Some a ∧
    sv_ai p.2 = Some (set_queues (<[next_req a := mkStreamReq u (content m) c now 0]> (ai_reqs a)) (S (next_req a))
                                 (pending_requests_ a ++ [next_req a]) (active_streams_ a) a).
Definition taken_in c (m : ChatMessage) (tr : history (Server B)) : Prop := Exists (taken_step c m) tr.
End Rely.

(** ** Running under interference *)

Section Interfered.
Context {B : Type}.
Implicit Types (s : Server B) (c : ctx_id) (Q : history (Server B) → Prop).

(** A property of a history that further steps, before or after, keep. *)
Definition upward Q : Prop := ∀ l1 l2 l3, Q l2 → Q (l1 ++ l2 ++ l3).

(** [copes cs p Q]: started on a server that is up and has the contexts [cs],
    and disturbed by [steady] changes between its steps, [p] ends by returning
    or throwing with the server up; if it returns, its steps have done [Q]. *)
Definition copes {A} (cs : list ctx_id) (p : prog (Server B) A) Q : Prop := ∀ tr s,
  world_ok s → present cs s →
  wp steady steady p tr s
    (λ _ tr' s', world_ok s' ∧ present cs s' ∧ ∃ ext, tr' = tr ++ ext ∧ Q ext)
    (λ tr' s', world_ok s' ∧ present cs s' ∧ ∃ ext, tr' = tr ++ ext).
Abbreviation endures cs p := (copes cs p (λ _, True)).

Lemma upward_answered c n : upward (answered_in (B := B) c n).
Proof. intros l1 l2 l3 Hl. unfold answered_in. rewrite !Exists_app. auto. Qed.
Lemma upward_taken c n m : upward (λ tr, answered_in (B := B) c n tr ∨ taken_in c m tr).
Proof.
  intros l1 l2 l3 Hl. unfold answered_in, taken_in in *. rewrite !Exists_app. tauto.
Qed.
Lemma upward_true : upward (λ _, True).
Proof. by intros l1 l2 l3. Qed.

Lemma copes_ret {A} cs (a : A) : endures cs (mret a).
Proof. intros tr s Hw Hc. cbn. split_ands; [done..|]. exists []. by rewrite app_nil_r. Qed.
Lemma copes_weaken {A} cs (p : prog (Server B) A) Q Q' : copes cs p Q → (∀ l, Q l → Q' l) → copes cs p Q'.
Proof.
  intros Hp HQ tr s Hw Hc. eapply wp_mono; [by apply Hp| |done]. intros a tr' s' (? & ? & ext & -> & ?). eauto 10.
Qed.
Lemma copes_bind {A C} cs (p : prog (Server B) A) (f : A → prog (Server B) C) Q :
  upward Q → endures cs p → (∀ a, copes cs (f a) Q) → copes cs (p ≫= f) Q.
Proof.
  intros Hup Hp Hf tr s Hw Hc. apply wp_bind. eapply wp_mono; [by apply Hp| |done].
  intros a tr' s' (Hw' & Hc' & ext & -> & _). eapply wp_mono; [by apply Hf|..].
  - intros b tr2 s2 (? & ? & ext2 & -> & HQ). split_ands; [done..|]. exists (ext ++ ext2).
    rewrite app_assoc. split; [done|]. specialize (Hup ext ext2 [] HQ). by rewrite app_nil_r in Hup.
  - intros tr2 s2 (? & ? & ext2 & ->). split_ands; [done..|]. exists (ext ++ ext2). by rewrite app_assoc.
Qed.
Lemma copes_bind_early {A C} cs (p : prog (Server B) A) (f : A → prog (Server B) C) Q :
  upward Q → copes cs p Q → (∀ a, endures cs (f a)) → copes cs (p ≫= f) Q.
Proof.
  intros Hup Hp Hf tr s Hw Hc. apply wp_bind. eapply wp_mono; [by apply Hp| |done].
  intros a tr' s' (Hw' & Hc' & ext & -> & HQ). eapply wp_mono; [by apply Hf|..].
  - intros b tr2 s2 (? & ? & ext2 & -> & _). split_ands; [done..|]. exists (ext ++ ext2).
    rewrite app_assoc. split; [done|]. exact (Hup [] ext ext2 HQ).
  - intros tr2 s2 (? & ? & ext2 & ->). split_ands; [done..|]. exists (ext ++ ext2). by rewrite app_assoc.
Qed.
Lemma copes_try {A} cs (p q : prog (Server B) A) Q :
  upward Q → copes cs p Q → copes cs q Q → copes cs (ptry p q) Q.
Proof.
  intros Hup Hp Hq tr s Hw Hc. apply wp_try. eapply wp_mono; [by apply Hp|done|].
  intros tr' s' (Hw' & Hc' & ext & ->). eapply wp_mono; [by apply Hq|..].
  - intros b tr2 s2 (? & ? & ext2 & -> & HQ). split_ands; [done..|]. exists (ext ++ ext2).
    rewrite app_assoc. split; [done|]. specialize (Hup ext ext2 [] HQ). by rewrite app_nil_r in Hup.
  - intros tr2 s2 (? & ? & ext2 & ->). split_ands; [done..|]. exists (ext ++ ext2). by rewrite app_assoc.
Qed.
Lemma copes_for {A} cs (f : A → prog (Server B) unit) l : (∀ a, endures cs (f a)) → endures cs (pfor f l).
Proof.
  intros Hf. induction l as [|x l IH]; cbn [pfor]; [apply copes_ret|].
  apply copes_bind; [apply upward_true|done|]. by intros _.
Qed.

(** One step that the lemmas of Requests.v cover. *)
Lemma copes_atomic {A} cs (m : M (Server B) A) : safe cs m → endures cs (atomic m).
Proof.
  intros Hm tr s Hw Hc s1 H1. cbn. pose proof (steady_up s s1 H1 Hw) as Hw1.
  pose proof (steady_present cs s s1 H1 Hw Hc) as Hc1. specialize (Hm s1 Hw1 Hc1).
  assert (Hgo : ∀ s2, world_ok s2 → grows s1 s2 → steady s1 s2 ∧ present cs s2).
  { intros s2 Hw2 Hg. pose proof (grows_steady s1 s2 Hw2 Hg). split; [done|]. by eapply steady_present. }
  destruct (m s1) as [a s2|s2|r]; [| |done].
  - destruct Hm as (Hw2 & Hg & _). destruct (Hgo s2 Hw2 Hg). eauto 10.
  - destruct Hm as [Hw2 Hg]. destruct (Hgo s2 Hw2 Hg). eauto 10.
Qed.

(** One step whose value names further contexts. *)
Lemma copes_step {A C} cs (m : M (Server B) A) (new : A → list ctx_id) (f : A → prog (Server B) C) Q :
  upward Q →
  (∀ s, world_ok s → present cs s →
     match m s with
     | Ret a s' => world_ok s' ∧ grows s s' ∧ present (new a) s'
     | Throw s' => world_ok s' ∧ grows s s'
     | Crash _ => False
     end) →
  (∀ a, copes (new a ++ cs) (f a) Q) → copes cs (atomic m ≫= f) Q.
Proof.
  intros Hup Hm Hf tr s Hw Hc s1 H1. pose proof (steady_up s s1 H1 Hw) as Hw1.
  pose proof (steady_present cs s s1 H1 Hw Hc) as Hc1. cbn. specialize (Hm s1 Hw1 Hc1).
  destruct (m s1) as [a s2|s2|r]; [| |done].
  - destruct Hm as (Hw2 & Hg & Hn). pose proof (grows_steady s1 s2 Hw2 Hg) as H2. split; [done|].
    eapply wp_mono; [apply (Hf a (tr ++ [(s1, s2)]) s2 Hw2); apply Forall_app; split; [done|by eapply steady_present]|..].
    + intros b tr2 s3 (? & Hp & ext & -> & HQ). apply Forall_app in Hp as [_ Hp]. split_ands; [done..|].
      exists ([(s1, s2)] ++ ext). rewrite app_assoc. split; [done|].
      specialize (Hup [(s1, s2)] ext [] HQ). by rewrite app_nil_r in Hup.
    + intros tr2 s3 (? & Hp & ext & ->). apply Forall_app in Hp as [_ Hp]. split_ands; [done..|].
      exists ([(s1, s2)] ++ ext). by rewrite app_assoc.
  - destruct Hm as [Hw2 Hg]. pose proof (grows_steady s1 s2 Hw2 Hg) as H2. split; [done|].
    split_ands; [done|by eapply steady_present|]. eauto.
Qed.

(** Looking up a session and using the context it names. *)
Lemma copes_session {A} cs u (f : option ctx_id → prog (Server B) A) Q :
  upward Q → copes cs (f None) Q → (∀ t, copes (t :: cs) (f (Some t)) Q) → copes cs (session_of_steps u ≫= f) Q.
Proof.
  intros Hup Hn Ht. apply (copes_step _ _ option_list); [done| |intros [t|]; [apply Ht|apply Hn]].
  intros s Hw Hc. unfold session_of. mred. split; [done|]. split; [apply grows_preorder|].
  destruct (get_session u (sv_sessions s)) as [t|] eqn:E; [|constructor]. constructor; [|constructor].
  by eapply (wo_sessions s Hw).
Qed.

(** The owner of a context, and a functor for it in the next step. *)
Lemma owner_up s s' c w :
  world_ok s → steady s s' → owner_of c s = Ret w s →
  ∃ x, ctxs (sv_heap s') !! c = Some x ∧ owner_worker x = Some w ∧ is_Some (sv_workers s' !! w).
Proof.
  intros Hw Hs. unfold owner_of, ctx_of. mred. destruct (ctxs (sv_heap s) !! c) as [x|] eqn:Hx; [|done].
  destruct (owner_worker x) as [w'|] eqn:Ho; [|done]. intros [= ->]. destruct (Hs Hw) as [Hw' Hc].
  destruct (Hc c x Hx) as (x' & Hx' & E). exists x'. rewrite E, Ho. split_ands; [done..|].
  destruct (wo_owner s' Hw' c x' Hx') as (w' & E' & Hk). rewrite E, Ho in E'. by injection E' as ->.
Qed.
Lemma owner_runs s c : world_ok s → is_Some (ctxs (sv_heap s) !! c) → ∃ w, owner_of c s = Ret w s.
Proof.
  intros Hw [x Hx]. destruct (wo_owner s Hw c x Hx) as (w & Ho & _). exists w. unfold owner_of, ctx_of. mred.
  by rewrite Hx, Ho.
Qed.

(** A reply never throws: [E] is arbitrary. *)
Lemma wp_reply cs c cm n body tr s E :
  c ∈ cs → world_ok s → present cs s →
  wp steady steady (reply_steps c cm n body) tr s
    (λ _ tr' s', world_ok s' ∧ present cs s' ∧ ∃ ext, tr' = tr ++ ext ∧ answered_in c n ext) E.
Proof.
  intros Hin Hw Hc s1 H1. pose proof (steady_up s s1 H1 Hw) as Hw1.
  pose proof (steady_present cs s s1 H1 Hw Hc) as Hc1.
  destruct (owner_runs s1 c Hw1) as [w Hown]; [by apply (proj1 (Forall_forall _ _) Hc1)|]. rewrite Hown.
  split; [done|]. intros s2 H2. pose proof (steady_up s1 s2 H2 Hw1) as Hw2.
  destruct (owner_up s1 s2 c w Hw1 H2 Hown) as (x & Hx & Ho & Hk). unfold queue_send_packet.
  destruct (queue_functor_runs s2 w (FSend c (cmd_val cm) n body) Hw2 Hk)
    as (s3 & q & -> & Hw3 & Hg & _ & Hq & Hq' & _).
  pose proof (grows_steady s2 s3 Hw3 Hg) as H3. split; [done|]. cbn.
  split_ands; [done|eapply steady_present; [exact H3|done|]; by eapply steady_present|].
  exists ([(s1, s1)] ++ [(s2, s3)]). rewrite app_assoc. split; [done|]. apply Exists_cons_tl, Exists_cons_hd.
  exists x, w, q, (cmd_val cm), body. done.
Qed.
Lemma copes_reply cs c cm n body : c ∈ cs → copes cs (reply_steps c cm n body) (answered_in c n).
Proof. intros Hin tr s Hw Hc. by apply wp_reply. Qed.

(** Closing the old connection of a session. *)
Lemma copes_close_old cs old : old ∈ cs → endures cs (
  w ← atomic (owner_of old);
  f' ← atomic (x ← ctx_of old; mret (fd x));
  atomic (queue_close_connection w f') : prog (Server B) unit).
Proof.
  intros Hin tr s Hw Hc s1 H1. pose proof (steady_up s s1 H1 Hw) as Hw1.
  pose proof (steady_present cs s s1 H1 Hw Hc) as Hc1.
  destruct (owner_runs s1 old Hw1) as [w Hown]; [by apply (proj1 (Forall_forall _ _) Hc1)|]. rewrite Hown.
  split; [done|]. intros s2 H2. pose proof (steady_up s1 s2 H2 Hw1) as Hw2. unfold ctx_of. mred.
  destruct (owner_up s1 s2 old w Hw1 H2 Hown) as (x & Hx & _). rewrite Hx. split; [done|].
  intros s3 H3. pose proof (steady_up s2 s3 H3 Hw2) as Hw3.
  assert (H13 : steady s1 s3) by by etrans.
  destruct (owner_up s1 s3 old w Hw1 H13 Hown) as (_ & _ & _ & Hk). unfold queue_close_connection.
  destruct (queue_functor_runs s3 w (FClose (fd x)) Hw3 Hk) as (s4 & q & -> & Hw4 & Hg & _).
  pose proof (grows_steady s3 s4 Hw4 Hg) as H4. split; [done|]. cbn. split_ands; [done| |].
  - eapply steady_present; [exact H4|done|]. by eapply steady_present.
  - eexists. split; [by rewrite <- !app_assoc|done].
Qed.

Lemma copes_bind_session cs u c : c ∈ cs → endures cs (bind_steps u c : prog (Server B) unit).
Proof.
  intros Hin. apply (copes_step _ _ option_list); [apply upward_true| |].
  - intros s Hw Hc. unfold bind_first. mred. destruct (bind_find u (sv_sessions s)) as [old|] eqn:E.
    + split; [done|]. split; [apply grows_preorder|]. constructor; [|constructor]. by eapply (wo_sessions s Hw).
    + assert (Hs : safe cs (mod_ctx c (set_session u) ;; modify (λ s : Server B, set_sessions (bind_store u c (sv_sessions s)) s)))
        by (apply runs_bind; [by apply runs_mod_ctx|intros _; by apply runs_store_session]).
      specialize (Hs s Hw Hc). mred. unfold mod_ctx, modify in *. destruct Hs as (? & ? & _).
      split_ands; [done..|constructor].
  - intros [old|]; [|apply copes_ret]. apply copes_bind; [apply upward_true| |].
    { apply copes_atomic, runs_bind; [apply runs_ctx_of; by left|]. intros x. apply runs_ret. }
    intros f. apply copes_bind; [apply upward_true| |].
    { case_if; [apply copes_ret|apply copes_close_old; by left]. }
    intros _. apply copes_atomic, runs_bind; [by apply runs_mod_ctx|]. intros _. apply runs_store_session. by right.
Qed.
End Interfered.

Abbreviation endures cs p := (copes cs p (λ _, True)).

Create HintDb copes discriminated.
#[export] Hint Resolve copes_ret copes_atomic copes_bind_session upward_answered upward_taken upward_true
  runs_ret runs_gets runs_get runs_ctx_of runs_with_ai runs_db_call runs_uid_of runs_mod_ctx runs_bind : copes.

(** Decomposes a [copes] goal along the code, as [runs_tac] does for [runs]. *)
Ltac copes_tac :=
  repeat match goal with
  | |- _ ∈ _ => set_solver
  | |- upward _ => solve [auto with copes]
  | |- copes _ (ack_steps _ _ _) (answered_in _ _) => apply copes_reply
  | |- copes _ (reply_steps ?c _ ?n _) (answered_in ?c ?n) => apply copes_reply
  | |- copes _ (ack_steps _ _ _) _ => eapply copes_weaken; [apply copes_reply|done]
  | |- copes _ (reply_steps _ _ _ _) _ => eapply copes_weaken; [apply copes_reply|done]
  | |- copes _ (ack_steps _ _ _ ≫= _) (answered_in _ _) => apply copes_bind_early; [| |intros ?]
  | |- copes _ (session_of_steps _ ≫= _) _ => apply copes_session; [| |intros ?]
  | |- copes _ (bind_steps _ _) _ => apply copes_bind_session
  | |- copes _ (uid_of_steps _) _ => apply copes_atomic, runs_uid_of
  | |- copes _ has_db_steps _ => apply copes_atomic, runs_gets
  | |- copes _ (db_call_steps _) _ => apply copes_atomic, runs_db_call; intros
  | |- copes _ (atomic (ctx_of _ ≫= _)) _ =>
      apply copes_atomic, runs_bind; [apply runs_ctx_of|intros ?]
  | |- runs _ (mod_ctx _ _ ≫= _) _ => apply runs_bind; [by apply runs_mod_ctx|intros ?]
  | |- copes _ (atomic (mod_ctx _ _)) _ => apply copes_atomic, runs_mod_ctx; intros ?; reflexivity
  | |- copes _ (atomic (gets _)) _ => apply copes_atomic, runs_gets
  | |- copes _ (atomic (with_ai _)) _ => apply copes_atomic, runs_with_ai
  | |- copes _ (_ ≫= _) _ => apply copes_bind; [| |intros ?]
  | |- copes _ (pfor _ _) _ => apply copes_for; intros ?
  | |- copes _ (mret _) _ => apply copes_ret
  | |- copes _ (if ?b then _ else _) _ => destruct b
  | |- copes _ (match ?x with _ => _ end) _ => destruct x
  | |- runs _ (mret _) _ => apply runs_ret
  | |- ∀ _, _ => intros ?
  end.

Section Answered.
Context {B : Type} `{BackendTotal B} `{Protobuf}.
Implicit Types (s : Server B) (c : ctx_id).

Ltac total :=
  first [apply bt_register|apply bt_verify|apply bt_offline|apply bt_search|apply bt_add_friend|apply bt_accept
        |apply bt_friends|apply bt_pending|apply bt_mark].

Lemma runs_submit_message cs m : safe cs (submit_message (B := B) m).
Proof.
  intros s Hw Hc. unfold submit_message. mred. destruct (wo_db s Hw) as [d ->].
  by apply (runs_on_db cs d (submit m)).
Qed.
Lemma copes_store_chat cs c to text b : c ∈ cs → endures cs (store_chat_steps (B := B) c to text b).
Proof. intros Hin. unfold store_chat_steps. copes_tac. apply copes_atomic, runs_submit_message. Qed.
Lemma copes_rate_limited cs c : c ∈ cs → endures cs (rate_limited_steps (B := B) c).
Proof. intros Hin. unfold rate_limited_steps. copes_tac. Qed.
Lemma copes_notify cs u text : endures cs (notify_steps (B := B) u text).
Proof. unfold notify_steps. copes_tac. Qed.
Lemma copes_user_infos l : ∀ cs, endures cs (user_infos (B := B) l).
Proof. induction l as [|[u name] l IH]; intros cs; cbn [user_infos]; copes_tac; apply IH. Qed.

(** A message to the AI is taken into the queue or refused. *)
Lemma copes_submit c n m o f u now (r : Response) :
  copes [c] (ok ← atomic (with_ai (submit_stream_request o f u (content m) c now));
             if (ok : bool) then mret tt else ack_steps (B := B) c n r)
    (λ tr, answered_in c n tr ∨ taken_in c m tr).
Proof.
  intros tr s Hw Hc s1 Hs1. pose proof (steady_up s s1 Hs1 Hw) as Hw1.
  pose proof (steady_present [c] s s1 Hs1 Hw Hc) as Hc1.
  pose proof (runs_with_ai [c] (submit_stream_request o f u (content m) c now) s1 Hw1 Hc1) as Hrun. revert Hrun.
  unfold with_ai. destruct (wo_ai s1 Hw1) as [a Ha]. rewrite Ha.
  destruct (submit_stream_request o f u (content m) c now a) as [ok a'] eqn:E. intros (Hw2 & Hg & _).
  pose proof (grows_steady s1 _ Hw2 Hg) as Hs2. split; [exact Hs2|].
  pose proof (steady_present [c] s1 _ Hs2 Hw1 Hc1) as Hc2. destruct ok.
  - cbn. split_ands; [done..|]. exists [(s1, set_ai (Some a') s1)]. split; [done|]. right. apply Exists_cons_hd.
    revert E. unfold submit_stream_request. repeat (case_if; [intros [=]|]). intros [= <-]. by exists a, u, now.
  - eapply wp_mono; [apply (wp_reply [c]); [by left|exact Hw2|exact Hc2]| |intros tr' s' HE; exact HE].
    intros _ tr' s' (? & ? & ext & -> & HQ). split_ands; [done..|].
    exists ([(s1, set_ai (Some a') s1)] ++ ext). rewrite app_assoc. split; [done|]. left. apply Exists_app. by right.
Qed.
Lemma copes_ai_chat c n m :
  copes [c] (handle_ai_chat_steps (B := B) c n m) (λ tr, answered_in c n tr ∨ taken_in c m tr).
Proof.
  unfold handle_ai_chat_steps. do 4 (apply copes_bind; [apply upward_taken|copes_tac|intros ?]). apply copes_submit.
Qed.

(** What is done about a request: it is answered, or it goes to the AI. *)
Definition handled_in c hdr body (tr : history (Server B)) : Prop :=
  answered_in c (seq hdr) tr ∨ ∃ m, to_ai hdr body = Some m ∧ taken_in c m tr.
Lemma upward_handled c hdr body : upward (handled_in c hdr body).
Proof.
  intros l1 l2 l3 [Ha|(m & Hm & Ht)]; [left; by apply upward_answered|]. right. exists m. split; [done|].
  unfold taken_in in *. rewrite !Exists_app. tauto.
Qed.

(** Any command, well formed or not. *)
Lemma copes_command_safe c hdr body : endures [c] (handle_command_steps (B := B) c hdr body).
Proof.
  unfold handle_command_steps, handle_login_steps, handle_chat_steps, handle_ai_chat_steps, handle_register_steps,
    handle_heartbeat_steps, handle_add_friend_steps, handle_accept_friend_steps, handle_friend_list_steps,
    handle_search_user_steps, handle_friend_requests_steps, deliver_offline_steps.
  copes_tac; first [total|apply copes_notify|apply copes_user_infos|apply copes_store_chat; set_solver].
Qed.
Lemma copes_chat c hdr body :
  cmd hdr = cmd_val CHAT → is_Some (ParseFromString body : option ChatMessage) →
  copes [c] (handle_chat_steps (B := B) c (seq hdr) body) (handled_in c hdr body).
Proof.
  intros Hc [m Hm]. unfold handle_chat_steps. rewrite Hm. destruct (to_uid m =? AI_UID)%Z eqn:E.
  - eapply copes_weaken; [apply (copes_ai_chat c (seq hdr) m)|]. intros tr [Ha|Ht]; [by left|]. right. exists m.
    split; [|done]. unfold to_ai. rewrite Hc, Z.eqb_refl, Hm. cbn. by rewrite E.
  - eapply copes_weaken; [|intros tr Ha; left; exact Ha].
    copes_tac; apply copes_store_chat; set_solver.
Qed.
Lemma copes_command c hdr body :
  well_formed hdr body = true → copes [c] (handle_command_steps (B := B) c hdr body) (handled_in c hdr body).
Proof.
  unfold well_formed, handle_command_steps.
  repeat (case_if; [intros Ha; zbool|]); try done; try (by apply copes_chat);
    (eapply copes_weaken; [|intros tr Hans; left; exact Hans]);
    unfold handle_login_steps, handle_register_steps,
      handle_heartbeat_steps, handle_add_friend_steps, handle_accept_friend_steps, handle_friend_list_steps,
      handle_search_user_steps, handle_friend_requests_steps, deliver_offline_steps;
    try match goal with Hp : is_Some _ |- _ => destruct Hp as [? ->] end;
    copes_tac; first [total|apply copes_notify|apply copes_user_infos].
Qed.

(** The [try] with its body: answered, or an exception is on its way. *)
Lemma copes_body c hdr body :
  copes [c]
    (limited ← (if (cmd hdr =? cmd_val CHAT)%Z then rate_limited_steps c else mret false);
     if (limited : bool) then ack_steps c (seq hdr) (fail_resp (str "消息发送过快，请稍后再试"))
     else handle_command_steps (B := B) c hdr body)
    (λ tr, well_formed hdr body = true → handled_in c hdr body tr).
Proof.
  assert (Hup : upward (λ tr, well_formed hdr body = true → handled_in c hdr body tr)).
  { intros l1 l2 l3 Hl Ha. by apply upward_handled, Hl. }
  apply copes_bind; [done|case_if; [apply copes_rate_limited; by left|apply copes_ret]|].
  intros [|]; [eapply copes_weaken; [apply copes_reply; by left|intros tr Ha _; by left]|].
  destruct (well_formed hdr body) eqn:Ea.
  - eapply copes_weaken; [by apply copes_command|done].
  - eapply copes_weaken; [apply copes_command_safe|done].
Qed.

(** The whole request: it ends without an exception. *)
Lemma wp_business c hdr body s :
  world_ok s → is_Some (ctxs (sv_heap s) !! c) →
  wp steady steady (process_business_steps (B := B) c hdr body) [] s
    (λ _ tr s', world_ok s' ∧ (well_formed hdr body = true → handled_in c hdr body tr)) (λ _ _, False).
Proof.
  intros Hw Hc. unfold process_business_steps. apply wp_try.
  assert (Hp : present [c] s) by (constructor; [done|constructor]).
  eapply wp_mono; [by apply copes_body| |].
  - intros _ tr s' (Hw' & _ & ext & -> & HQ). done.
  - intros tr s' (Hw' & Hp' & ext & ->). apply wp_try. eapply wp_mono; [apply (wp_reply [c]); [by left|done..]| |].
    + intros _ tr2 s2 (Hw2 & _ & ext2 & -> & HQ). split; [done|]. intros _. left. apply Exists_app. by right.
    + intros tr2 s2 HE. exact HE.
Qed.
End Answered.

(** ** Properties *)

Section Interleaved.
Context {B : Type} `{BackendTotal B} `{Protobuf}.
Implicit Types (s : Server B) (c : ctx_id).

(** C1. Every request is processed to the end and answered, whatever the other
    threads do meanwhile: between any two atomic steps of [process_business]
    the rest of the server may do anything that keeps it up, and still the
    handler returns (it neither crashes nor lets an exception out, whatever
    the backend throws), the server is up, and for a well-formed request (a
    known command whose body parses) one of its own steps has queued a packet
    with the request's sequence number on the worker that owns the client's
    connection, or, if the request is a chat message to the AI, one of its own
    steps has put its text at the end of the AI queue for this client. *)
Theorem request_answered_among_others (env : nat → Server B → Server B) s c hdr body :
  (∀ i s, steady s (env i s)) → world_ok s → is_Some (ctxs (sv_heap s) !! c) →
  ∃ tr s', exec env 0 (process_business_steps c hdr body) s = (tr, Ret tt s') ∧ world_ok s' ∧
    (well_formed hdr body = true → handled_in c hdr body tr).
Proof.
  intros Henv Hw Hc.
  pose proof (wp_exec steady steady env _ _ _ Henv 0 [] s (wp_business c hdr body s Hw Hc)) as He.
  destruct (exec env 0 _ s) as [tr [[] s'|s'|r]]; [|done..]. exists tr, s'. tauto.
Qed.

End Interleaved.

(** ** Witness *)

(** Between the steps the clocks run. *)
Definition ticking {B} (i : nat) (s : Server B) : Server B := set_clocks (Z.of_nat i * 1000000000) (Z.of_nat i * 1000) s.
Lemma ticking_steady {B} i (s : Server B) : steady s (ticking i s).
Proof. intros [W1 W2 W3 W4 W5 W6]. split; [by split|]. intros c x Hx. by exists x. Qed.

(** A message to the AI. *)
Definition ask_header : PacketHeader := mkHeader PROTO_MAGIC 0 (cmd_val CHAT) 5.
Definition ask_body : bytes := SerializeToString (mkChat 42 AI_UID (str "hi") 0 false false 0).

Lemma request_answered_among_others_witness :
  (∃ tr s', exec ticking 0 (process_business_steps 0 ping_header []) demo_connected = (tr, Ret tt s') ∧
     answered_in 0 9 tr) ∧
  (∃ tr s', exec ticking 0 (process_business_steps 0 ask_header ask_body) demo_connected = (tr, Ret tt s') ∧
     handled_in 0 ask_header ask_body tr).
Proof.
  split.
  - destruct (request_answered_among_others ticking demo_connected 0 ping_header []) as (tr & s' & E & _ & Ha).
    + exact ticking_steady.
    + exact demo_world.
    + apply (bool_decide_unpack (is_Some _)). vm_compute. exact I.
    + exists tr, s'. split; [exact E|]. destruct (Ha eq_refl) as [Hans|(m & Hm & _)]; [exact Hans|discriminate Hm].
  - destruct (request_answered_among_others ticking demo_connected 0 ask_header ask_body) as (tr & s' & E & _ & Ha).
    + exact ticking_steady.
    + exact demo_world.
    + apply (bool_decide_unpack (is_Some _)). vm_compute. exact I.
    + exists tr, s'. split; [exact E|]. apply Ha. vm_compute. reflexivity.
Defined.
