(* ===== verification/Interference.v ===== *)
(** * What the other threads do to a request (src/worker.cpp, src/connection.cpp, src/ai_manager.cpp)

    The loops of the workers, the accepting thread, the AI streams, the
    scheduler, the writer and the clocks only make changes that a request
    tolerates ([steady]): they neither free contexts nor change their worker,
    and leave no session that names a missing context.  The exception is a
    worker whose context pool is exhausted: it makes a context without owner. *)

From S2P Require Import Prelude Steps Bytes Config Protocol Framing Timer ThreadPool Context EventLoop.
From S2P Require Import Session Json RefCodec Llama AiManager FileStore DbWriter World Business Stream Worker.
From S2P Require Import ConnTable System Requests BusinessSteps Concurrent.

(** ** The frame *)

Section Frame.
Context {B : Type}.
Implicit Types (s : Server B) (c : ctx_id) (w : worker_id).

Definition heap_fresh (h : ctx_heap) : Prop := ∀ c : ctx_id, next_ctx h ≤ c → ctxs h !! c = None.

(** No context disappears or changes its worker, a new one has none; workers,
    the AI manager and the writer stay; sessions are at most dropped. *)
Record frame_ok s s' : Prop := {
  fr_fresh : heap_fresh (sv_heap s');
  fr_ctx : ∀ c x, ctxs (sv_heap s) !! c = Some x →
    ∃ x', ctxs (sv_heap s') !! c = Some x' ∧ owner_worker x' = owner_worker x;
  fr_new : ∀ c x, ctxs (sv_heap s') !! c = Some x → ctxs (sv_heap s) !! c = None → owner_worker x = None;
  fr_workers : ∀ w, is_Some (sv_workers s !! w) → is_Some (sv_workers s' !! w);
  fr_sessions : length (buckets_ (sv_sessions s)) = NUM_BUCKETS →
    length (buckets_ (sv_sessions s')) = NUM_BUCKETS ∧
    ∀ u c, get_session u (sv_sessions s') = Some c → get_session u (sv_sessions s) = Some c;
  fr_ai : is_Some (sv_ai s) → is_Some (sv_ai s');
  fr_db : is_Some (sv_db s) → is_Some (sv_db s')
}.
Definition frame s s' : Prop := heap_fresh (sv_heap s) → frame_ok s s'.

#[export] Instance frame_preorder : PreOrder frame.
Proof.
  split.
  - intros s Hf. split; eauto. congruence.
  - intros s1 s2 s3 H12 H23 Hf1. destruct (H12 Hf1) as [Hf2 A1 A2 A3 A4 A5 A6].
    destruct (H23 Hf2) as [Hf3 B1 B2 B3 B4 B5 B6]. split; eauto.
    + intros c x Hx. destruct (A1 c x Hx) as (x2 & Hx2 & E2). destruct (B1 c x2 Hx2) as (x3 & ? & ?).
      exists x3. split; [done|congruence].
    + intros c x Hx Hn. destruct (ctxs (sv_heap s2) !! c) as [x2|] eqn:Hx2; [|by eapply B2].
      destruct (B1 c x2 Hx2) as (x3 & Hx3 & E3). rewrite Hx in Hx3. injection Hx3 as <-. rewrite E3. by eapply A2.
    + intros Hl. destruct (A4 Hl) as [Hl2 G2]. destruct (B4 Hl2) as [Hl3 G3]. eauto.
Qed.

(** Every context has an owner. *)
Definition owned s : Prop := ∀ c x, ctxs (sv_heap s) !! c = Some x → is_Some (owner_worker x).

Lemma frame_steady s s' : frame s s' → owned s' → steady s s'.
Proof.
  intros Hf Ho [W1 W2 W3 W4 W5 W6]. destruct (Hf W6) as [F0 F1 F2 F3 F4 F5 F6]. split; [|done]. destruct (F4 W3) as [Hl Hg]. split; eauto.
  - intros c x Hx. destruct (ctxs (sv_heap s) !! c) as [x0|] eqn:Hx0.
    + destruct (W1 c x0 Hx0) as (w & Hw & Hk). destruct (F1 c x0 Hx0) as (x' & Hx' & E). simplify_eq.
      exists w. split; [congruence|eauto].
    + destruct (Ho c x Hx) as [w Hw]. by rewrite (F2 c x Hx Hx0) in Hw.
  - intros u c Hu. destruct (W2 u c (Hg u c Hu)) as [x Hx]. destruct (F1 c x Hx) as (x' & ? & _). eauto.
Qed.

Lemma owned_world s : world_ok s → owned s.
Proof. intros Hw c x Hx. destruct (wo_owner s Hw c x Hx) as (w & -> & _). eauto. Qed.
Lemma frame_owned s s' : frame s s' → (∀ c, is_Some (ctxs (sv_heap s') !! c) → is_Some (ctxs (sv_heap s) !! c)) →
  world_ok s → owned s'.
Proof.
  intros Hf Hd Hw c x Hx. destruct (Hf (wo_fresh s Hw)) as [_ F1 _ _ _ _ _]. destruct (Hd c) as [x0 Hx0]; [eauto|].
  destruct (F1 c x0 Hx0) as (x' & Hx' & E). simplify_eq. rewrite E. by eapply owned_world.
Qed.

(** Nothing of all that changes. *)
Lemma frame_fields s s' :
  sv_heap s' = sv_heap s → sv_workers s' = sv_workers s → sv_sessions s' = sv_sessions s →
  (is_Some (sv_ai s) → is_Some (sv_ai s')) → (is_Some (sv_db s) → is_Some (sv_db s')) → frame s s'.
Proof. intros Hh Hw Hs Ha Hd Hf. split; rewrite ?Hh, ?Hw, ?Hs; eauto. congruence. Qed.

Lemma frame_mod_ctx c g : (∀ x, owner_worker (g x) = owner_worker x) → respects frame (mod_ctx c g).
Proof.
  intros Hg. apply respects_modify. intros s Hf. split; cbn [set_heap sv_heap upd_ctx ctxs]; eauto.
  - intros d Hd. destruct (decide (c = d)) as [<-|Hne].
    + cbn. by rewrite lookup_alter_eq, (Hf c Hd).
    + cbn. rewrite lookup_alter_ne by done. by apply Hf.
  - intros d x Hx. destruct (decide (c = d)) as [<-|Hne].
    + rewrite lookup_alter_eq, Hx. cbn. eauto.
    + rewrite lookup_alter_ne by done. eauto.
  - intros d x Hx Hn. destruct (decide (c = d)) as [<-|Hne].
    + by rewrite lookup_alter_eq, Hn in Hx.
    + rewrite lookup_alter_ne in Hx by done. congruence.
Qed.
Lemma frame_mod_worker w g : respects frame (mod_worker w g : M (Server B) unit).
Proof.
  apply respects_modify. intros s Hf. split; cbn [set_workers sv_workers sv_heap sv_sessions]; eauto; try congruence.
  intros w' [k Hk]. destruct (decide (w = w')) as [<-|Hne].
  - rewrite lookup_alter_eq, Hk. eauto.
  - rewrite lookup_alter_ne by done. eauto.
Qed.
Lemma frame_with_ai {A} (f : StreamingAIManager → A * StreamingAIManager) : respects frame (with_ai f : M (Server B) A).
Proof.
  intros s. unfold with_ai. destruct (sv_ai s) as [a|]; [|done]. destruct (f a). apply frame_fields; eauto.
Qed.
Lemma frame_enqueue t : respects frame (enqueue_task t : M (Server B) bool).
Proof.
  intros s. unfold enqueue_task. destruct (sv_pool s) as [p|]; [|done]. destruct (enqueue t p). by apply frame_fields.
Qed.
Lemma frame_unbind u : respects frame (unbind_session u : M (Server B) unit).
Proof.
  apply respects_modify. intros s Hf. split; cbn [set_sessions sv_workers sv_heap sv_sessions]; eauto; try congruence.
  intros Hl. split; [unfold unbind, upd_bucket; cbn; by rewrite length_alter|]. intros v c. unfold unbind.
  rewrite get_upd by done. case_decide; [|done]. rewrite lookup_delete_Some. by intros [_ ?].
Qed.
Lemma frame_sys_close f : respects frame (sys_close f : M (Server B) unit).
Proof.
  apply respects_modify. intros s Hf. split; cbn; eauto; try congruence. intros w [k Hk]. rewrite lookup_fmap, Hk. eauto.
Qed.
Lemma frame_conns g n : respects frame (modify (λ s : Server B, set_conns (g s) (n s) s)).
Proof. apply respects_modify. intros s. by apply frame_fields. Qed.
Lemma frame_count g : respects frame (modify (λ s : Server B, set_count (g s) s)).
Proof. apply respects_modify. intros s. by apply frame_fields. Qed.

(** The context pool: [acquire] may make a context, [release] resets one. *)
Lemma frame_on_pool {A} w (m : M (ctx_heap * ContextPool) A) :
  (∀ h p, heap_fresh h → match m (h, p) with
    | Ret _ (h', _) =>
        heap_fresh h' ∧
        (∀ c x, ctxs h !! c = Some x → ∃ x', ctxs h' !! c = Some x' ∧ owner_worker x' = owner_worker x) ∧
        (∀ c x, ctxs h' !! c = Some x → ctxs h !! c = None → owner_worker x = None)
    | _ => True end) → respects frame (on_pool w m : M (Server B) A).
Proof.
  intros Hm s. unfold on_pool. destruct (sv_workers s !! w) as [k|] eqn:Hk; [|done].
  destruct (m (sv_heap s, pool_ k)) as [a [h q]|[h q]|r] eqn:E; [|done..]. intros Hf.
  specialize (Hm (sv_heap s) (pool_ k) Hf). rewrite E in Hm. destruct Hm as (H0 & H1 & H2). split; cbn; eauto. intros w' Hw'. destruct (decide (w = w')) as [<-|Hne].
  - rewrite lookup_insert_eq. eauto.
  - by rewrite lookup_insert_ne.
Qed.

Lemma frame_acquire w : respects frame (on_pool w acquire : M (Server B) ctx_id).
Proof.
  apply frame_on_pool. intros h p Hf. unfold acquire. destruct (unsnoc (free_list_ p)) as [[rest i]|].
  - destruct (storage_ p !! Z.to_nat i); [|done]. split_ands; eauto. congruence.
  - cbn. split_ands.
    + intros c Hc. cbn in *. rewrite lookup_insert_ne by lia. apply Hf. lia.
    + intros c x Hx. exists x. split; [|done]. rewrite lookup_insert_ne; [done|]. intros <-. by rewrite Hf in Hx.
    + intros c x. rewrite lookup_insert_Some. intros [[_ <-]|[_ Hx]]; [done|congruence].
Qed.
Lemma frame_release w c : respects frame (on_pool w (release (Some c)) : M (Server B) unit).
Proof.
  apply frame_on_pool. intros h p Hf. unfold release. destruct (ctxs h !! c) as [y|] eqn:Hy; [|done].
  case_if; [split_ands; eauto; congruence|]. cbn. split_ands.
  - intros d Hd. cbn in *. destruct (decide (c = d)) as [<-|Hne]; [by rewrite Hf in Hy|].
    rewrite lookup_alter_ne by done. by apply Hf.
  - intros d x Hx. destruct (decide (c = d)) as [<-|Hne]; [rewrite lookup_alter_eq, Hx; cbn; eauto|].
    rewrite lookup_alter_ne by done. eauto.
  - intros d x Hx Hn. destruct (decide (c = d)) as [<-|Hne]; [congruence|].
    rewrite lookup_alter_ne in Hx by done. congruence.
Qed.
End Frame.

Create HintDb frame discriminated.
#[export] Hint Resolve frame_mod_worker frame_with_ai frame_enqueue frame_unbind frame_sys_close frame_conns
  frame_count frame_acquire frame_release : frame.

(** Decomposes a [respects] goal along the code; [leaf] does the calls. *)
Ltac walk leaf :=
  repeat match goal with
  | |- respects _ (_ ≫= _) => apply respects_bind; [apply _| |intros ?]
  | |- respects _ (for_each _ _) => apply respects_for_each; [apply _|]; intros ?
  | |- respects _ (mret _) => apply respects_ret, _
  | |- respects _ (ctx_of _) => apply respects_read; [apply _|]; intros ?; unfold ctx_of; by destruct (_ !! _)
  | |- respects _ (worker_of _) => apply respects_read; [apply _|]; intros ?; unfold worker_of; by destruct (_ !! _)
  | |- respects _ (conn_of _) => apply respects_read; [apply _|]; intros ?; unfold conn_of; by destruct (_ !! _)
  | |- respects _ (deref ?o _) => apply respects_read; [apply _|]; intros ?; by destruct o
  | |- respects _ get_st => apply respects_read; [apply _|done]
  | |- respects _ (if ?b then _ else _) => destruct b
  | |- respects _ (match ?x with _ => _ end) => destruct x
  | |- respects _ (let '_ := ?x in _) => destruct x
  | |- respects _ _ => leaf ()
  end.
Ltac frame_tac :=
  walk ltac:(fun _ => first [apply frame_mod_ctx; intros ?; reflexivity|solve [auto with frame nocore]]).

Section Loops.
Context {B : Type} `{Backend B} `{Protobuf} `{JsonText}.
Implicit Types (s : Server B) (c : ctx_id) (w : worker_id) (p : conn_id) (r : req_id).

Lemma frame_queue_functor w f : respects frame (queue_functor w f : M (Server B) unit).
Proof. unfold queue_functor. frame_tac. Qed.
Lemma frame_heartbeat w f : respects frame (heartbeat w f : M (Server B) unit).
Proof. unfold heartbeat. frame_tac. Qed.
Lemma frame_touch c : respects frame (touch c : M (Server B) unit).
Proof. unfold touch. frame_tac. Qed.
#[local] Hint Resolve frame_queue_functor frame_heartbeat frame_touch : frame.

Lemma frame_new_connection w f ip port : respects frame (new_connection w f ip port : M (Server B) conn_id).
Proof.
  unfold new_connection. apply respects_bind; [apply _|frame_tac|]. intros c.
  apply respects_bind; [apply _|frame_tac|]. intros _. apply respects_bind; [apply _|frame_tac|]. intros _.
  intros s. mred. by apply frame_fields.
Qed.
Lemma frame_destroy p : respects frame (destroy_connection p : M (Server B) unit).
Proof. unfold destroy_connection. frame_tac. Qed.
Lemma frame_start p : respects frame (start_connection p : M (Server B) unit).
Proof. unfold start_connection. frame_tac. Qed.
Lemma frame_force_close p : respects frame (do_force_close p : M (Server B) unit).
Proof. unfold do_force_close, close_impl. frame_tac. Qed.
#[local] Hint Resolve frame_new_connection frame_destroy frame_start frame_force_close : frame.

Lemma frame_close_in_loop w f : respects frame (force_close_in_loop w f : M (Server B) unit).
Proof. unfold force_close_in_loop. frame_tac. Qed.
Lemma frame_add w f ip port : respects frame (add_connection_in_loop w f ip port : M (Server B) unit).
Proof. unfold add_connection_in_loop. frame_tac. Qed.
Lemma frame_send_packet w c cm n body : respects frame (send_packet_in_loop w c cm n body : M (Server B) unit).
Proof. unfold send_packet_in_loop, send, queue_close_connection. frame_tac. Qed.
#[local] Hint Resolve frame_close_in_loop frame_add frame_send_packet : frame.

Lemma frame_read p chunks e : respects frame (handle_read p chunks e : M (Server B) unit).
Proof. unfold handle_read, read_chunk. frame_tac. Qed.
Lemma frame_write p answers : respects frame (handle_write p answers : M (Server B) bytes).
Proof. induction answers as [|[[|n]|] answers IH]; cbn [handle_write]; frame_tac; exact IH. Qed.
#[local] Hint Resolve frame_read frame_write : frame.

Lemma frame_timers n w : respects frame (check_timers n w : M (Server B) unit).
Proof. induction n as [|n IH]; cbn [check_timers]; frame_tac. Qed.
#[local] Hint Resolve frame_timers : frame.

Lemma frame_iteration w events : respects frame (loop_iteration w events : M (Server B) unit).
Proof.
  unfold loop_iteration, on_loop_once, do_pending_functors, dispatch, handle_events, run_functor. frame_tac.
Qed.

Lemma frame_accept w f ip port : respects frame (accept_connection w f ip port : M (Server B) unit).
Proof.
  unfold accept_connection, queue_add_connection. apply respects_bind; [apply _| |intros _; frame_tac].
  apply respects_modify. intros s. by apply frame_fields.
Qed.

Lemma frame_chunk u c t b1 b2 n : respects frame (send_stream_chunk u c t b1 b2 n : M (Server B) unit).
Proof. unfold send_stream_chunk, queue_send_packet. frame_tac. Qed.
#[local] Hint Resolve frame_chunk : frame.
Lemma frame_schedule : respects frame (schedule_step (B := B)).
Proof. unfold schedule_step, send_error_response, take_seq, request_of. frame_tac. Qed.
(** The stream that a section of [process_stream_request] belongs to. *)
Definition stream_id {A} (a : pool_action A) : option req_id :=
  match a with
  | ABusiness _ _ _ => None
  | AChunk r _ _ _ _ | AComplete r _ _ _ | APiece r _ _ _ | AFinish r _ => Some r
  end.
Lemma frame_stream {A} (a : pool_action A) r : stream_id a = Some r → respects frame (run_action a : M (Server B) A).
Proof.
  destruct a; intros Ha; [done|..]; cbn [run_action];
    unfold on_chunk, on_complete, send_piece, finish, take_seq, request_of; frame_tac.
Qed.

(** ** The steps of the other threads *)

(** Everything that can happen besides requests: time, an accepted connection,
    a loop iteration of a worker that has a free context for every connection
    it adds, the pool's queue, a section of a stream that is not one of [ids],
    the scheduler, the writer. *)
Inductive other_step (ids : list req_id) : Server B → Server B → Prop :=
  | ot_time mono wall s : other_step ids s (set_clocks mono wall s)
  | ot_accept w f ip port s s' : accept_connection w f ip port s = Ret tt s' → other_step ids s s'
  | ot_loop w events s s' : loop_iteration w events s = Ret tt s' → owned s' → other_step ids s s'
  | ot_pool q s : other_step ids s (set_pool q s)
  | ot_stream A (a : pool_action A) r v s s' : stream_id a = Some r → r ∉ ids → run_action a s = Ret v s' → other_step ids s s'
  | ot_schedule s s' : schedule_step s = Ret tt s' → other_step ids s s'
  | ot_writer d s : other_step ids s (set_db (Some d) s).

Lemma same_conns_owned s s' : same_conns s s' → frame s s' → world_ok s → owned s'.
Proof.
  intros Hs Hf. apply frame_owned; [done|]. intros c [x Hx]. pose proof (sc_ctxs s s' Hs c) as E. rewrite Hx in E.
  destruct (ctxs (sv_heap s) !! c); [eauto|done].
Qed.

Lemma quiet_steady {A} (m : M (Server B) A) a s s' : quiet m → respects frame m → m s = Ret a s' → steady s s'.
Proof.
  intros Hq Hm E. pose proof (respects_Ret _ m a s s' Hm E) as Hf. intros Hw.
  apply frame_steady; [done| |done]. eapply same_conns_owned; [by eapply quiet_Ret|done..].
Qed.
Lemma fields_steady s s' :
  sv_heap s' = sv_heap s → sv_workers s' = sv_workers s → sv_sessions s' = sv_sessions s →
  sv_ai s' = sv_ai s → (is_Some (sv_db s) → is_Some (sv_db s')) → steady s s'.
Proof.
  intros Eh Ek Es Ea Ed Hw. apply frame_steady; [|by intros c x; rewrite Eh; apply owned_world|done].
  apply frame_fields; [done..| |done]. by rewrite Ea.
Qed.

Lemma other_steady ids s s' : other_step ids s s' → steady s s'.
Proof.
  intros Hs. destruct Hs as [mono wall s|w f ip port s s' E|w events s s' E Ho|q s|A a r v s s' Ha Hr E|s s' E|d s].
  - by apply fields_steady.
  - intros Hw. apply frame_steady; [by eapply respects_Ret; [apply frame_accept|]| |done].
    revert E. unfold accept_connection, queue_add_connection, queue_functor, worker_of, mod_worker. mred.
    destruct (sv_workers _ !! w); [|done]. intros [= <-]. exact (owned_world s Hw).
  - apply frame_steady; [by eapply respects_Ret; [apply frame_iteration|]|done].
  - by apply fields_steady.
  - eapply quiet_steady; [apply (quiet_action a)|by eapply frame_stream|done].
  - eapply quiet_steady; [apply quiet_schedule|apply frame_schedule|done].
  - by apply fields_steady.
Qed.
End Loops.

(** ** Requests as threads *)

(** A packet that became a task of the pool. *)
Record request := mkRequest { rq_ctx : ctx_id; rq_hdr : PacketHeader; rq_body : bytes }.

Section Threads.
Context {B : Type} `{Backend B} `{Protobuf}.

Definition request_thread (r : request) : thread (Server B) :=
  mkThread (process_business_steps (rq_ctx r) (rq_hdr r) (rq_body r)) [].
End Threads.
