(* ===== verification/StreamProps.v ===== *)
(** * What a client receives from an AI stream (src/ai_manager.cpp)

    The packets [process_stream_request] queues: the text of the service, cut
    into numbered chunks of which only the last is marked last, or the canned
    answer when the service fails. *)

From S2P Require Import Prelude Bytes Config Protocol Framing Timer ThreadPool Context EventLoop.
From S2P Require Import Session Json RefCodec Llama AiManager FileStore DbWriter World Business Stream Worker ConnTable System.
From S2P Require Import Delivery Requests.

Section Chunks.
Context {B : Type} `{Protobuf} `{JsonText}.
Implicit Types (s : Server B) (c : ctx_id) (r : req_id).

(** A chunk that was sent: its text, whether it was marked last, and when. *)
Record sent := mkSent { sn_text : bytes; sn_last : bool; sn_wall : Z }.

Definition chunk_packet c (u n : Z) (e : sent) : functor :=
  FSend c (cmd_val CHAT) 0 (SerializeToString
    (mkChat AI_UID u (sn_text e) (sn_wall e) (negb (sn_last e) || negb (bool_decide (sn_text e = [])))
            (sn_last e) n)).

(** Packets numbered from [n] on. *)
Fixpoint chunk_packets c (u n : Z) (es : list sent) : list functor :=
  match es with
  | [] => []
  | e :: es' => chunk_packet c u n e :: chunk_packets c u (wrap_i32 (n + 1)) es'
  end.
Fixpoint seq_after (n : Z) (es : list sent) : Z :=
  match es with [] => n | _ :: es' => seq_after (wrap_i32 (n + 1)) es' end.

Lemma chunk_packets_app c u n es es' :
  chunk_packets c u n (es ++ es') = chunk_packets c u n es ++ chunk_packets c u (seq_after n es) es'.
Proof. revert n. induction es as [|e es IH]; intros n; cbn; [done|]. by rewrite IH. Qed.
Lemma seq_after_app n es es' : seq_after n (es ++ es') = seq_after (seq_after n es) es'.
Proof. revert n. induction es as [|e es IH]; intros n; cbn; [done|]. by rewrite IH. Qed.

(** The request [r] of user [u], whose next number is [n], and its connected
    client: context [c] of worker [w]. *)
Record ready s r (u : Z) c (w : worker_id) (n : Z) : Prop := {
  rd_req : ∃ a q, sv_ai s = Some a ∧ ai_reqs a !! r = Some q ∧ sr_stream_seq q = n ∧ sr_uid q = u ∧ sr_ctx q = c;
  rd_ctx : ∃ x, ctxs (sv_heap s) !! c = Some x ∧ (0 ≤ fd x)%Z ∧ owner_worker x = Some w;
  rd_worker : is_Some (sv_workers s !! w)
}.

(** What sending leaves alone. *)
Record sends s s' (w : worker_id) (fs : list functor) : Prop := {
  se_pending : ∀ w', pending_of s' w' = (λ q, q ++ queued_all w w' fs) <$> pending_of s w';
  se_heap : sv_heap s' = sv_heap s;
  se_active : active_streams_ <$> sv_ai s' = active_streams_ <$> sv_ai s
}.

Lemma sends_nil s w : sends s s w [].
Proof.
  split; try done. intros w'. destruct (pending_of s w'); [|done]. cbn. unfold queued_all.
  case_decide; by rewrite app_nil_r.
Qed.
Lemma sends_app s1 s2 s3 w fs gs : sends s1 s2 w fs → sends s2 s3 w gs → sends s1 s3 w (fs ++ gs).
Proof.
  intros [H1 H2 H3] [H4 H5 H6]. split; [|congruence..]. intros w'. rewrite H4, H1.
  destruct (pending_of s1 w'); [|done]. cbn. f_equal. rewrite <- app_assoc. f_equal.
  unfold queued_all. by case_decide.
Qed.

(** [send_stream_chunk(uid, ctx, chunk, false, last, req->stream_seq++)] *)
Lemma emit s r u c w n chunk b :
  ready s r u c w n → chunk ≠ [] ∨ b = true →
  ∃ s', (k ← take_seq r; send_stream_chunk u c chunk false b k) s = Ret tt s' ∧
    ready s' r u c w (wrap_i32 (n + 1)) ∧ sends s s' w [chunk_packet c u n (mkSent chunk b (sv_wall_ms s))] ∧
    sv_mono_ns s' = sv_mono_ns s ∧ sv_wall_ms s' = sv_wall_ms s.
Proof.
  intros [(a & q & Ha & Hq & Hn & Hu & Hc) (x & Hx & Hf & Hw) [k Hk]] Hne.
  unfold take_seq, request_of, with_ai. mred. rewrite Ha, Hq. cbn [set_ai sv_ai].
  unfold send_stream_chunk, ctx_of. mred. cbn [set_ai sv_heap]. rewrite Hx, Hw.
  assert (Hb : bool_decide (chunk = []) && negb b = false).
  { destruct Hne as [Hne| ->]; [by rewrite bool_decide_eq_false_2|by rewrite andb_false_r]. }
  rewrite Hb. unfold queue_send_packet, queue_functor, worker_of. mred. cbn [set_ai sv_workers]. rewrite Hk.
  rewrite (mod_worker_eq _ w _ k) by done. eexists. split; [done|]. split_ands; try done.
  - split; cbn [set_workers set_ai sv_ai sv_heap sv_workers].
    + eexists _, (bump_seq q). split; [done|]. cbn. rewrite lookup_alter_eq, Hq. cbn. by rewrite Hn.
    + eauto.
    + rewrite lookup_insert_eq. eauto.
  - split; try done; [|cbn; by rewrite Ha]. intros w'. unfold pending_of, queued_all.
    cbn [set_workers set_ai sv_workers sv_wall_ms]. case_decide as E.
    + subst w'. rewrite lookup_insert_eq, Hk. cbn. unfold chunk_packet. cbn. by rewrite Hn.
    + rewrite lookup_insert_ne by done. destruct (sv_workers s !! w'); [|done]. cbn. by rewrite app_nil_r.
Qed.

(** Only the clocks move between two callbacks. *)
Definition clock_pause (pause : nat → Server B → Server B) : Prop :=
  ∀ i s, ∃ mono wall, pause i s = set_clocks mono wall s.

Lemma ready_clock s r u c w n mono wall : ready s r u c w n → ready (set_clocks mono wall s) r u c w n.
Proof. intros []. by split. Qed.
Lemma sends_clock s s' w fs mono wall : sends (set_clocks mono wall s) s' w fs → sends s s' w fs.
Proof. intros []. by split. Qed.

(** Chunks in the middle of a stream: not empty, not last. *)
Definition middle (e : sent) : Prop := sn_text e ≠ [] ∧ sn_last e = false.

Lemma on_chunk_spec s r u c w n l t :
  ready s r u c w n →
  ∃ s' l' es, on_chunk r u c l t s = Ret l' s' ∧ ready s' r u c w (seq_after n es) ∧
    sends s s' w (chunk_packets c u n es) ∧ Forall middle es ∧ conn_lost l' = conn_lost l ∧
    buffer l ++ t = concat (map sn_text es) ++ buffer l'.
Proof.
  intros Hr. destruct (rd_ctx _ _ _ _ _ _ Hr) as (x & Hx & Hf & Hw).
  unfold on_chunk, ctx_of. mred. rewrite Hx. rewrite (proj2 (Z.ltb_ge _ _)) by lia.
  destruct (_ || contains nl t).
  - destruct (buffer l ++ t) as [|b bs] eqn:Eb.
    + exists s, (mkLocal [] (last_flush l) (conn_lost l)), []. split_ands; try done. apply sends_nil.
    + destruct (emit s r u c w n (b :: bs) false Hr) as (s1 & E & Hr1 & Hs1 & _); [by left|].
      mred. destruct (take_seq r s) as [k s0|s0|?]; [|done..]. rewrite E.
      exists s1, (mkLocal [] (sv_mono_ns s) (conn_lost l)), [mkSent (b :: bs) false (sv_wall_ms s)].
      split_ands; try done; cbn; [by repeat constructor|]. by rewrite !app_nil_r.
  - exists s, (mkLocal (buffer l ++ t) (last_flush l) (conn_lost l)), []. split_ands; try done. apply sends_nil.
Qed.

Lemma run_chunks_spec pause r u c w : clock_pause pause → ∀ texts i s l n,
  ready s r u c w n →
  ∃ s' l' es, run_chunks r u c pause i l texts s = Ret l' s' ∧ ready s' r u c w (seq_after n es) ∧
    sends s s' w (chunk_packets c u n es) ∧ Forall middle es ∧ conn_lost l' = conn_lost l ∧
    buffer l ++ concat texts = concat (map sn_text es) ++ buffer l'.
Proof.
  intros Hp. induction texts as [|t ts IH]; intros i s l n Hr; cbn [run_chunks concat].
  - exists s, l, []. rewrite app_nil_r. split_ands; try done. apply sends_nil.
  - destruct (Hp i s) as (mono & wall & Ep). mred. rewrite Ep.
    destruct (on_chunk_spec (set_clocks mono wall s) r u c w n l t) as (s1 & l1 & es1 & E1 & Hr1 & Hs1 & Hm1 & Hc1 & Hb1).
    { by apply ready_clock. }
    rewrite E1. destruct (IH (S i) s1 l1 _ Hr1) as (s2 & l2 & es2 & E2 & Hr2 & Hs2 & Hm2 & Hc2 & Hb2).
    exists s2, l2, (es1 ++ es2). split_ands; [done|by rewrite seq_after_app| |by apply Forall_app|congruence|].
    + rewrite chunk_packets_app. apply sends_clock in Hs1. by eapply sends_app.
    + rewrite map_app, concat_app, <- app_assoc, <- Hb2, !app_assoc. by rewrite Hb1.
Qed.

(** The piece of the canned answer that [e] carries. *)
Definition is_piece (p : bytes * bool) (e : sent) : Prop := sn_text e = p.1 ∧ sn_last e = p.2.

Lemma run_pieces_spec pause r u c w : clock_pause pause → ∀ ps i s n,
  Forall (λ p, p.1 ≠ []) ps → ready s r u c w n →
  ∃ s' es, run_pieces r u c pause i ps s = Ret tt s' ∧ ready s' r u c w (seq_after n es) ∧
    sends s s' w (chunk_packets c u n es) ∧ Forall2 is_piece ps es.
Proof.
  intros Hp. induction ps as [|[t b] ps IH]; intros i s n Hne Hr; cbn [run_pieces].
  - exists s, []. split_ands; try done. apply sends_nil.
  - apply Forall_cons in Hne as [Ht Hne]. destruct (rd_ctx _ _ _ _ _ _ Hr) as (x & Hx & Hf & _).
    destruct (emit s r u c w n t b Hr) as (s1 & E & Hr1 & Hs1 & _); [by left|].
    unfold send_piece, ctx_of. mred. rewrite Hx, (proj2 (Z.ltb_ge _ _)) by lia. cbn [fst snd].
    mred. destruct (take_seq r s) as [k s0|s0|?]; [|done..]. rewrite E.
    destruct (Hp i s1) as (mono & wall & Ep). rewrite Ep.
    destruct (IH (S i) (set_clocks mono wall s1) _ Hne (ready_clock _ _ _ _ _ _ _ _ Hr1))
      as (s2 & es & E2 & Hr2 & Hs2 & Hps).
    exists s2, (mkSent t b (sv_wall_ms s) :: es). split_ands; try done; [|by constructor].
    cbn [chunk_packets]. apply (sends_app s s1 s2 w [_]); [done|]. by apply sends_clock in Hs2.
Qed.
End Chunks.

(** The pieces of a text: nothing lost, none empty, the last and only the last marked. *)
Lemma pieces_spec (n : nat) (t : bytes) :
  length t ≤ n →
  concat (pieces n t).*1 = t ∧ Forall (λ p, p.1 ≠ []) (pieces n t) ∧
  (t ≠ [] → ∃ ps q, pieces n t = ps ++ [(q, true)] ∧ Forall (λ p, p.2 = false) ps).
Proof.
  revert t. induction n as [|n IH]; intros t Hn.
  { destruct t; [|simpl in Hn; lia]. cbn. done. }
  destruct t as [|b t]; [done|]. cbn [pieces]. remember (b :: t) as bt eqn:Eb.
  assert (Hl : length bt = S (length t)) by (by subst).
  destruct (IH (drop PIECE bt)) as (Hc & Hne & Hlast); [rewrite length_drop; unfold PIECE; lia|].
  split_ands.
  - rewrite fmap_cons. cbn [concat fst]. rewrite Hc. apply take_drop.
  - constructor; [|done]. subst bt. done.
  - intros _. destruct (length bt <=? PIECE)%nat eqn:Ele.
    + apply Nat.leb_le in Ele. rewrite drop_ge by done. rewrite take_ge by done.
      exists [], bt. destruct n; done.
    + apply Nat.leb_gt in Ele. destruct Hlast as (ps & q & E & Hps).
      { intros E%(f_equal length). rewrite length_drop in E. simpl in E. lia. }
      rewrite E. exists ((take PIECE bt, false) :: ps), q. split; [done|]. by constructor.
Qed.

Section Outcome.
Context {B : Type} `{Protobuf} `{JsonText}.
Implicit Types (s : Server B) (c : ctx_id) (r : req_id).

Lemma on_complete_spec s r u c w n l :
  ready s r u c w n →
  ∃ s' l', on_complete r u c l s = Ret l' s' ∧ ready s' r u c w (wrap_i32 (n + 1)) ∧
    sends s s' w [chunk_packet c u n (mkSent (buffer l) true (sv_wall_ms s))] ∧ conn_lost l' = conn_lost l.
Proof.
  intros Hr. destruct (rd_ctx _ _ _ _ _ _ Hr) as (x & Hx & Hf & _).
  destruct (emit s r u c w n (buffer l) true Hr) as (s1 & E & Hr1 & Hs1 & _); [by right|].
  unfold on_complete, ctx_of. mred. rewrite Hx, (proj2 (Z.ltb_ge _ _)) by lia.
  mred. destruct (take_seq r s) as [k s0|s0|?]; [|done..]. rewrite E.
  exists s1, (mkLocal [] (last_flush l) (conn_lost l)). done.
Qed.

Lemma finish_spec s r c x :
  ctxs (sv_heap s) !! c = Some x → (0 ≤ fd x)%Z → is_Some (sv_ai s) →
  ∃ s', finish r c s = Ret tt s' ∧ (∀ w, pending_of s' w = pending_of s w) ∧
    active_streams_ <$> sv_ai s' = delete (fd x) ∘ active_streams_ <$> sv_ai s.
Proof.
  intros Hx Hf [a Ha]. unfold finish, ctx_of, with_ai. mred. rewrite Hx, Ha.
  eexists. split; [done|]. cbn. unfold finish_stream.
  by rewrite (proj2 (Z.leb_le _ _)).
Qed.

(** What the client of a request gets, and what remains of the request. *)
Record answered s s' (w : worker_id) (x : ClientContext) (fs : list functor) : Prop := {
  an_pending : ∀ w', pending_of s' w' = (λ q, q ++ queued_all w w' fs) <$> pending_of s w';
  an_active : active_streams_ <$> sv_ai s' = delete (fd x) ∘ active_streams_ <$> sv_ai s
}.

Lemma finish_answers s s1 r u c w n x fs :
  ctxs (sv_heap s) !! c = Some x → (0 ≤ fd x)%Z → ready s1 r u c w n → sends s s1 w fs →
  ∃ s', finish r c s1 = Ret tt s' ∧ answered s s' w x fs.
Proof.
  intros Hx Hf Hr [H1 H2 H3]. destruct (rd_req _ _ _ _ _ _ Hr) as (a & q & Ha & _).
  destruct (finish_spec s1 r c x) as (s' & E & Hp & Ht); [by rewrite H2|done|eauto|].
  exists s'. split; [done|]. split.
  - intros w'. by rewrite Hp, H1.
  - rewrite Ht. destruct (sv_ai s1), (sv_ai s); try done. cbn in *. congruence.
Qed.

(** The part of [process_stream_request] before its outcome is known. *)
Lemma pick_spec s r u c w n :
  ready s r u c w n → (∃ a, sv_ai s = Some a ∧ ai_clients_ a ≠ 0) →
  ∃ s' i, with_ai pick_client s = Ret (Some i) s' ∧ ready s' r u c w n ∧ sends s s' w [].
Proof.
  intros [(a & q & Ha & Hq) Hx Hw] (a' & Ha' & Hn). simplify_eq.
  unfold with_ai. mred. rewrite Ha. unfold pick_client. destruct (ai_clients_ a) eqn:E; [done|].
  eexists _, _. split; [done|]. split; [split; cbn [set_ai sv_ai sv_heap sv_workers]; eauto|].
  destruct (sends_nil s w) as [H1 H2 H3]. split; [exact H1|done|]. cbn. by rewrite Ha.
Qed.
Lemma in_use_spec s r u c w n (b : bool) (f : StreamingAIManager → list nat) :
  ready s r u c w n →
  ∃ s', (if b then with_ai (λ a, (tt, set_in_use (f a) a)) else mret tt) s = Ret tt s' ∧
    ready s' r u c w n ∧ sends s s' w [] ∧ sv_mono_ns s' = sv_mono_ns s.
Proof.
  intros Hr. destruct b; [|exists s; split_ands; try done; apply sends_nil].
  destruct Hr as [(a & q & Ha & Hq) Hx Hw]. unfold with_ai. mred. rewrite Ha. eexists. split; [done|].
  split_ands; [split; cbn [set_ai sv_ai sv_heap sv_workers]; eauto| |done].
  destruct (sends_nil s w) as [H1 H2 H3]. split; [exact H1|done|]. cbn. by rewrite Ha.
Qed.
End Outcome.

Section Answers.
Context {B : Type} `{Protobuf} `{JsonText}.
Implicit Types (s : Server B) (c : ctx_id) (r : req_id).

(** Entering [process_stream_request] for a connected client. *)
Lemma process_enter s r u c w n q x handle ok blocks time_text pause :
  ready s r u c w n → (∃ a, sv_ai s = Some a ∧ ai_reqs a !! r = Some q ∧ ai_clients_ a ≠ 0) →
  clock_pause pause → ctxs (sv_heap s) !! c = Some x →
  let '(texts, success) := stream_chat handle ok blocks in
  ∃ s1 l es,
    process_stream_request r handle ok blocks time_text pause s =
      (l' ← (if (success : bool) then on_complete r u c l else mret l);
       (if negb success && negb (conn_lost l')
        then let fallback := generate_fallback_response time_text (sr_prompt q) in
             run_pieces r u c pause (S (length texts)) (pieces (length fallback) fallback)
        else mret tt) ;;
       finish r c) s1 ∧
    ready s1 r u c w (seq_after n es) ∧ sends s s1 w (chunk_packets c u n es) ∧ Forall middle es ∧
    conn_lost l = false ∧ concat texts = concat (map sn_text es) ++ buffer l.
Proof.
  intros Hr (a & Ha & Hq & Hn) Hp Hx. destruct (stream_chat handle ok blocks) as [texts success] eqn:Es.
  pose proof (rd_req _ _ _ _ _ _ Hr) as (a' & q' & Ha' & Hq' & _ & Hu & Hc).
  assert (a' = a) as -> by congruence. assert (q' = q) as -> by congruence.
  destruct (rd_ctx _ _ _ _ _ _ Hr) as (x' & Hx' & Hf & _). assert (x' = x) as -> by congruence.
  destruct (pick_spec s r u c w n Hr) as (s0 & i & Ep & Hr0 & Hs0); [eauto|].
  destruct (in_use_spec s0 r u c w n handle (λ a, i :: ai_in_use a) Hr0) as (s1 & E1 & Hr1 & Hs1 & Hm1).
  destruct (run_chunks_spec pause r u c w Hp texts 0 s1 (mkLocal [] (sv_mono_ns s0) false) n Hr1)
    as (s2 & l & es & E2 & Hr2 & Hs2 & Hm & Hl & Hb).
  destruct (Hp (length texts) s2) as (mono & wall & Ew).
  destruct (in_use_spec (set_clocks mono wall s2) r u c w (seq_after n es) handle (λ a, remove_one i (ai_in_use a)))
    as (s3 & E3 & Hr3 & Hs3 & _); [by apply ready_clock|].
  exists s3, l, es. split_ands; try done.
  - unfold process_stream_request, request_of, use_handle, drop_handle, hold_handle, release_handle. rewrite Es.
    assert (Ew0 : with_ai (λ a, (ai_reqs a !! r, a)) s = Ret (Some q) s).
    { unfold with_ai. mred. rewrite Ha. rewrite Hq. f_equal. destruct s; cbn in *. by subst. }
    mred. rewrite Ew0. lazy beta match. rewrite Hu, Hc. unfold ctx_of. mred. rewrite Hx.
    rewrite (proj2 (Z.ltb_ge _ _)) by lia. rewrite Ep. lazy beta match. mred. rewrite E1. mred. rewrite E2.
    rewrite Ew. mred. by rewrite E3.
  - pose proof (sends_app _ _ _ _ _ _ Hs0 Hs1) as H01. pose proof (sends_app _ _ _ _ _ _ H01 Hs2) as H02.
    assert (Hc2 : sends s2 (set_clocks mono wall s2) w []) by (destruct (sends_nil s2 w); by split).
    pose proof (sends_app _ _ _ _ _ _ H02 (sends_app _ _ _ _ _ _ Hc2 Hs3)) as H03.
    by rewrite !app_nil_r in H03.
Qed.

Lemma pieces_sent (ps : list (bytes * bool)) (t : bytes) (es : list sent) (fb : bytes) :
  Forall2 is_piece (ps ++ [(t, true)]) es → concat (ps ++ [(t, true)]).*1 = fb →
  Forall (λ p, p.1 ≠ []) (ps ++ [(t, true)]) → Forall (λ p, p.2 = false) ps →
  ∃ es' e, es = es' ++ [e] ∧ Forall middle es' ∧ sn_last e = true ∧ concat (map sn_text (es' ++ [e])) = fb.
Proof.
  intros H2 Hc Hne Hf.
  apply Forall2_app_inv_l in H2 as (es' & l & Hes & Hl & ->).
  apply Forall2_cons_inv_l in Hl as (e & l' & [Ht He] & Hn & ->). apply Forall2_nil_inv_l in Hn as ->.
  exists es', e. split_ands; try done.
  - apply Forall_app in Hne as [Hne _]. clear Hc. induction Hes as [|p e' ps es' [E1 E2] _ IH]; [done|].
    decompose_Forall_hyps. constructor; [|by apply IH]. split; congruence.
  - subst fb. f_equal. rewrite map_app, fmap_app. f_equal; [|cbn; by rewrite Ht].
    clear Hne Hf. induction Hes as [|p e' ps es' [E1 E2] _ IH]; [done|]. cbn. rewrite E1. f_equal. exact IH.
Qed.

Lemma fallback_nonempty time_text prompt : generate_fallback_response time_text prompt ≠ [].
Proof. unfold generate_fallback_response. repeat case_match; done. Qed.

(** C10. A stream that succeeds is delivered whole: for a connected client and
    a transfer that ends well, the server queues for that client, and for
    nobody else, packets with consecutive numbers whose texts concatenate to
    exactly the text of the service; all but the last are non-empty and not
    marked last, the last is marked; and the descriptor's entry in the table
    of active streams is gone. *)
Theorem stream_complete s r u c w n x blocks time_text pause :
  ready s r u c w n → ctxs (sv_heap s) !! c = Some x →
  (∃ a, sv_ai s = Some a ∧ ai_clients_ a ≠ 0) → clock_pause pause →
  ∃ s' es e, process_stream_request r true true blocks time_text pause s = Ret tt s' ∧
    answered s s' w x (chunk_packets c u n (es ++ [e])) ∧ Forall middle es ∧ sn_last e = true ∧
    concat (map sn_text (es ++ [e])) = concat (stream_blocks [] blocks).1.
Proof.
  intros Hr Hx (a & Ha & Hn) Hp. destruct (rd_req _ _ _ _ _ _ Hr) as (a' & q & Ha' & Hq & _).
  assert (a' = a) as -> by congruence.
  destruct (rd_ctx _ _ _ _ _ _ Hr) as (x' & Hx' & Hf & _). assert (x' = x) as -> by congruence.
  pose proof (process_enter s r u c w n q x true true blocks time_text pause Hr ltac:(eauto) Hp Hx) as He.
  cbn [stream_chat] in He. destruct He as (s1 & l & es & E & Hr1 & Hs1 & Hm & Hl & Hb).
  destruct (on_complete_spec s1 r u c w _ l Hr1) as (s2 & l2 & E2 & Hr2 & Hs2 & Hl2).
  pose proof (sends_app _ _ _ _ _ _ Hs1 Hs2) as Hs.
  destruct (finish_answers s s2 r u c w _ x _ Hx Hf Hr2 Hs) as (s' & E3 & Han).
  exists s', es, (mkSent (buffer l) true (sv_wall_ms s1)). split_ands; try done.
  - rewrite E. mred. rewrite E2. cbn [negb andb]. exact E3.
  - by rewrite chunk_packets_app.
  - rewrite map_app, concat_app, Hb. cbn. by rewrite app_nil_r.
Qed.

(** C23. A failed service still ends in an answer: when no handle could be made
    or the transfer failed, the client gets whatever had been flushed (a
    prefix of the service's text, in non-empty chunks not marked last) and
    then the canned answer for its prompt, complete, in pieces of which
    exactly the last one is marked, all numbered consecutively; the active
    entry of its descriptor is gone. *)
Theorem stream_fallback s r u c w n q x handle ok blocks time_text pause :
  ready s r u c w n → ctxs (sv_heap s) !! c = Some x →
  (∃ a, sv_ai s = Some a ∧ ai_reqs a !! r = Some q ∧ ai_clients_ a ≠ 0) → clock_pause pause →
  handle && ok = false →
  ∃ s' es ps e, process_stream_request r handle ok blocks time_text pause s = Ret tt s' ∧
    answered s s' w x (chunk_packets c u n (es ++ ps ++ [e])) ∧
    Forall middle es ∧ concat (map sn_text es) `prefix_of` concat (stream_chat handle ok blocks).1 ∧
    Forall middle ps ∧ sn_last e = true ∧
    concat (map sn_text (ps ++ [e])) = generate_fallback_response time_text (sr_prompt q).
Proof.
  intros Hr Hx Ha Hp Hho.
  destruct (rd_ctx _ _ _ _ _ _ Hr) as (x' & Hx' & Hf & _). assert (x' = x) as -> by congruence.
  pose proof (process_enter s r u c w n q x handle ok blocks time_text pause Hr Ha Hp Hx) as He.
  assert (Hsc : ∃ texts, stream_chat handle ok blocks = (texts, false)).
  { destruct handle, ok; try done; eexists; reflexivity. }
  destruct Hsc as [texts Hsc]. rewrite Hsc in He |- *.
  destruct He as (s1 & l & es & E & Hr1 & Hs1 & Hm & Hl & Hb).
  remember (generate_fallback_response time_text (sr_prompt q)) as fb eqn:Efb.
  destruct (pieces_spec (length fb) fb) as (Hcat & Hne & Hlast); [done|].
  destruct (run_pieces_spec pause r u c w Hp (pieces (length fb) fb) (S (length texts)) s1 _ Hne Hr1)
    as (s2 & es2 & E2 & Hr2 & Hs2 & Hpc).
  destruct (finish_answers s s2 r u c w _ x _ Hx Hf Hr2 (sends_app _ _ _ _ _ _ Hs1 Hs2)) as (s' & E3 & Han).
  destruct Hlast as (ps & t & Eps & Hps); [subst fb; apply fallback_nonempty|].
  rewrite Eps in Hpc, Hcat, Hne. destruct (pieces_sent ps t es2 fb Hpc Hcat Hne Hps) as (es3 & e & -> & Hm3 & Hle & Hc3).
  exists s', es, es3, e. split_ands; try done.
  - rewrite E. mred. rewrite Hl. cbn [negb andb]. rewrite E2. exact E3.
  - by rewrite chunk_packets_app.
  - exists (buffer l). exact Hb.
Qed.
End Answers.

(** ** Witnesses *)

(** The connected client's request number 0, "hi", is active. *)
Definition demo_request : StreamRequest := mkStreamReq 1000 (str "hi") 0 0 0.
Definition demo_streaming : Server (HashedDB len_hash) :=
  set_ai (Some (schedule_round 0 (λ _, 5%Z)
                 (submit_stream_request true 5 1000 (str "hi") 0 0 (new_ai 2)).2).2) demo_connected.

Lemma demo_stream_ctx : ctxs (sv_heap demo_streaming) !! 0 = Some demo_ctx.
Proof. vm_compute. reflexivity. Qed.
Lemma demo_stream_ready : ready demo_streaming 0 1000 0 0 0.
Proof.
  split.
  - eexists _, demo_request. split; [reflexivity|]. vm_compute. done.
  - exists demo_ctx. split; [exact demo_stream_ctx|]. vm_compute. done.
  - apply (bool_decide_unpack _). vm_compute. exact I.
Qed.

Lemma stream_complete_witness :
  ∃ s' es e, process_stream_request 0 true true [str "data: [DONE]" ++ nl] [] (λ _, set_clocks 7 9) demo_streaming
      = Ret tt s' ∧
    answered demo_streaming s' 0 demo_ctx (chunk_packets 0 1000 0 (es ++ [e])) ∧ Forall middle es ∧
    sn_last e = true ∧ concat (map sn_text (es ++ [e])) = [].
Proof.
  apply (stream_complete demo_streaming 0 1000 0 0 0 demo_ctx [str "data: [DONE]" ++ nl]).
  - exact demo_stream_ready.
  - exact demo_stream_ctx.
  - eexists. split; [reflexivity|]. vm_compute. discriminate.
  - intros i s. eauto.
Defined.

Lemma stream_fallback_witness :
  ∃ s' es ps e, process_stream_request 0 true false [] [] (λ _, set_clocks 7 9) demo_streaming = Ret tt s' ∧
    answered demo_streaming s' 0 demo_ctx (chunk_packets 0 1000 0 (es ++ ps ++ [e])) ∧
    Forall middle es ∧ concat (map sn_text es) `prefix_of` concat (stream_chat true false []).1 ∧
    Forall middle ps ∧ sn_last e = true ∧
    concat (map sn_text (ps ++ [e])) = generate_fallback_response [] (str "hi").
Proof.
  apply (stream_fallback demo_streaming 0 1000 0 0 0 demo_request demo_ctx true false []).
  - exact demo_stream_ready.
  - exact demo_stream_ctx.
  - eexists. split; [reflexivity|]. split; [reflexivity|]. vm_compute. discriminate.
  - intros i s. eauto.
  - reflexivity.
Defined.
