(* ===== verification/StreamSteps.v ===== *)
(** * AI streams among other threads (src/ai_manager.cpp)

    [process_stream_request] cut at the points where other threads may run,
    among them the worker that closes the client's connection and gives its
    context to another client.  Alone it is the definition of Stream.v; among
    others it still ends, and what it queues goes to its context only, as
    consecutively numbered chunks whose text is, in order, the service's. *)

From S2P Require Import Prelude Steps Bytes Config Protocol Framing Timer ThreadPool Context EventLoop.
From S2P Require Import Session Json RefCodec Llama AiManager FileStore DbWriter World Business Stream Worker.
From S2P Require Import ConnTable System Delivery Requests BusinessSteps Concurrent Interference StreamProps.

Section Steps.
Context {B : Type} `{Protobuf} `{JsonText}.
Implicit Types (r : req_id) (c : ctx_id).
#[local] Abbreviation P := (prog (Server B)).

(** [ctx->fd.load()] *)
Definition fd_steps c : P Z := atomic (x ← ctx_of c; mret (fd x)).

Definition send_stream_chunk_steps (u : Z) c (chunk : bytes) (is_last : bool) (n : Z) : P unit :=
  owned ← atomic (x ← ctx_of c; mret (owner_worker x));
  match owned with
  | None => mret tt
  | Some _ =>
      if bool_decide (chunk = []) && negb is_last then mret tt
      else
        now ← atomic (gets sv_wall_ms);
        w ← atomic (owner_of c);
        atomic (queue_send_packet w c (cmd_val CHAT) 0 (SerializeToString
          (mkChat AI_UID u chunk now (negb is_last || negb (bool_decide (chunk = []))) is_last n)))
  end.

(** [send_stream_chunk(uid, ctx, chunk, false, last, req->stream_seq++)] *)
Definition emit_steps r (u : Z) c (chunk : bytes) (is_last : bool) : P unit :=
  n ← atomic (take_seq r); send_stream_chunk_steps u c chunk is_last n.

Definition on_chunk_steps r (u : Z) c (l : stream_local) (text : bytes) : P stream_local :=
  let buf := buffer l ++ text in
  now ← atomic (gets sv_mono_ns);
  f ← fd_steps c;
  if (f <? 0)%Z then mret (mkLocal buf (last_flush l) true)
  else if (MAX_CHUNK_SIZE <=? length buf)%nat || (FLUSH_INTERVAL <=? now - last_flush l)%Z || contains nl text
  then
    match buf with
    | [] => mret (mkLocal buf (last_flush l) (conn_lost l))
    | _ => emit_steps r u c buf false ;; mret (mkLocal [] now (conn_lost l))
    end
  else mret (mkLocal buf (last_flush l) (conn_lost l)).

Definition on_complete_steps r (u : Z) c (l : stream_local) : P stream_local :=
  f ← fd_steps c;
  if (f <? 0)%Z then mret (mkLocal (buffer l) (last_flush l) true)
  else emit_steps r u c (buffer l) true ;; mret (mkLocal [] (last_flush l) (conn_lost l)).

Fixpoint chunks_steps r (u : Z) c (l : stream_local) (texts : list bytes) : P stream_local :=
  match texts with
  | [] => mret l
  | t :: ts => l' ← on_chunk_steps r u c l t; chunks_steps r u c l' ts
  end.

Definition send_piece_steps r (u : Z) c (p : bytes * bool) : P unit :=
  f ← fd_steps c;
  if (f <? 0)%Z then mret tt else emit_steps r u c p.1 p.2.

Definition process_stream_steps r (handle transfer_ok : bool) (blocks : list bytes) (time_text : bytes) : P unit :=
  q ← atomic (request_of r);
  let c := sr_ctx q in
  let u := sr_uid q in
  f ← fd_steps c;
  if (f <? 0)%Z then atomic (finish r c)
  else
    idx ← atomic (with_ai pick_client);
    client ← atomic (deref idx DivByZero);
    now ← atomic (gets sv_mono_ns);
    atomic (use_handle handle client) ;;
    let '(texts, success) := stream_chat handle transfer_ok blocks in
    l ← chunks_steps r u c (mkLocal [] now false) texts;
    atomic (drop_handle handle client) ;;
    l' ← (if (success : bool) then on_complete_steps r u c l else mret l);
    (if negb success && negb (conn_lost l')
     then let fallback := generate_fallback_response time_text (sr_prompt q) in
          pfor (send_piece_steps r u c) (pieces (length fallback) fallback)
     else mret tt) ;;
    atomic (finish r c).
End Steps.

(** ** Undisturbed, it is [process_stream_request] *)

Section Alone.
Context {B : Type} `{Protobuf} `{JsonText}.
Implicit Types (r : req_id) (c : ctx_id) (s : Server B).
#[local] Abbreviation idle := (λ (_ : nat) (s : Server B), s).

Lemma seq_send_chunk u c chunk b1 b n :
  seq_run (send_stream_chunk_steps (B := B) u c chunk b n) ≈ send_stream_chunk u c chunk b1 b n.
Proof.
  intros s. unfold send_stream_chunk_steps, send_stream_chunk, ctx_of, owner_of, ctx_of. sred.
  destruct (ctxs (sv_heap s) !! c) as [x|] eqn:Hx; [|done]. sred. destruct (owner_worker x) as [w|] eqn:Hw; [|done].
  case_if; [done|]. sred. rewrite Hx. sred. rewrite Hw. by sred.
Qed.
Lemma seq_emit r u c chunk b1 b :
  seq_run (emit_steps (B := B) r u c chunk b) ≈ (n ← take_seq r; send_stream_chunk u c chunk b1 b n).
Proof.
  unfold emit_steps. rewrite seq_bind. apply same_bind; [apply seq_atomic|]. intros n. apply seq_send_chunk.
Qed.
Lemma seq_on_chunk r u c l t : seq_run (on_chunk_steps (B := B) r u c l t) ≈ on_chunk r u c l t.
Proof.
  intros s. unfold on_chunk_steps, fd_steps, on_chunk, ctx_of. sred.
  destruct (ctxs (sv_heap s) !! c) as [x|] eqn:Hx; [|done]. sred. case_if; [done|]. case_if; [|done].
  destruct (buffer l ++ t) as [|b bs]; [done|]. sred. rewrite (seq_emit r u c (b :: bs) false false s). mred.
  destruct (take_seq r s) as [n s1|s1|e]; [|done..].
  by destruct (send_stream_chunk u c (b :: bs) false false n s1) as [[] s2|s2|e].
Qed.
Lemma seq_on_complete r u c l : seq_run (on_complete_steps (B := B) r u c l) ≈ on_complete r u c l.
Proof.
  intros s. unfold on_complete_steps, fd_steps, on_complete, ctx_of. sred.
  destruct (ctxs (sv_heap s) !! c) as [x|] eqn:Hx; [|done]. sred. case_if; [done|]. sred.
  rewrite (seq_emit r u c (buffer l) false true s). mred. destruct (take_seq r s) as [n s1|s1|e]; [|done..].
  by destruct (send_stream_chunk u c (buffer l) false true n s1) as [[] s2|s2|e].
Qed.
Lemma seq_chunks r u c texts : ∀ l i,
  seq_run (chunks_steps (B := B) r u c l texts) ≈ run_chunks r u c idle i l texts.
Proof.
  induction texts as [|t ts IH]; intros l i; cbn [chunks_steps run_chunks]; [done|].
  rewrite seq_bind. intros s. mred. rewrite seq_on_chunk. destruct (on_chunk r u c l t s); [apply IH|done..].
Qed.
Lemma seq_send_piece r u c p : seq_run (send_piece_steps (B := B) r u c p) ≈ send_piece r u c p.
Proof.
  intros s. unfold send_piece_steps, fd_steps, send_piece, ctx_of. sred.
  destruct (ctxs (sv_heap s) !! c) as [x|] eqn:Hx; [|done]. sred. case_if; [done|]. apply (seq_emit r u c p.1 false p.2 s).
Qed.
Lemma seq_pieces r u c ps : ∀ i,
  seq_run (pfor (send_piece_steps (B := B) r u c) ps) ≈ run_pieces r u c idle i ps.
Proof.
  induction ps as [|p ps IH]; intros i; cbn [pfor run_pieces]; [done|]. rewrite seq_bind. intros s. mred.
  rewrite seq_send_piece. destruct (send_piece r u c p s) as [[] s1|s1|e]; [apply IH|done..].
Qed.

(** Cutting [process_stream_request] into its atomic steps does not change
    it: run without a break it is the definition of Stream.v when nothing
    happens in its pauses. *)
Theorem seq_process_stream r handle ok blocks time_text s :
  seq_run (process_stream_steps (B := B) r handle ok blocks time_text) s =
  process_stream_request r handle ok blocks time_text idle s.
Proof.
  unfold process_stream_steps, process_stream_request, fd_steps. sred.
  destruct (request_of r s) as [q s1|s1|e]; [|done..]. sred. unfold ctx_of. sred.
  destruct (ctxs (sv_heap s1) !! sr_ctx q) as [x|]; [|done]. sred. case_if; [by sred|]. sred.
  destruct (with_ai pick_client s1) as [idx s2|s2|e]; [|done..]. sred. destruct idx as [idx|]; [|done]. sred.
  destruct (use_handle handle idx s2) as [[] s2'|s2'|e]; [|done..]. sred.
  destruct (stream_chat handle ok blocks) as [texts success]. sred. rewrite (seq_chunks _ _ _ texts _ 0).
  destruct (run_chunks _ _ _ _ 0 _ texts s2') as [l s2''|s2''|e]; [|done..]. sred.
  destruct (drop_handle handle idx s2'') as [[] s3|s3|e]; [|done..]. sred.
  assert (Hc : seq_run (if success then on_complete_steps r (sr_uid q) (sr_ctx q) l else PRet l) s3 =
               (if success then on_complete r (sr_uid q) (sr_ctx q) l else λ s, Ret l s) s3)
    by (destruct success; [apply seq_on_complete|done]).
  rewrite Hc. destruct ((if success then on_complete r (sr_uid q) (sr_ctx q) l else λ s, Ret l s) s3) as [l' s4|s4|e];
    [|done..]. sred.
  destruct (negb success && negb (conn_lost l')); sred; [|done].
  rewrite (seq_pieces _ _ _ _ (S (length texts))). destruct (run_pieces _ _ _ _ _ _ s4) as [[] s5|s5|e]; by sred.
Qed.
End Alone.

(** ** Among other threads *)

(** The functors that the steps of a history queue, in order. *)
Inductive queued_in {B} : history (Server B) → list functor → Prop :=
  | qi_nil : queued_in [] []
  | qi_quiet s s' tr fs : (∀ w, pending_of s' w = pending_of s w) → queued_in tr fs → queued_in ((s, s') :: tr) fs
  | qi_send s s' w q f tr fs : pending_of s w = Some q → pending_of s' w = Some (q ++ [f]) →
      (∀ w', w' ≠ w → pending_of s' w' = pending_of s w') → queued_in tr fs → queued_in ((s, s') :: tr) (f :: fs).

Lemma queued_in_app {B} (tr tr' : history (Server B)) fs fs' :
  queued_in tr fs → queued_in tr' fs' → queued_in (tr ++ tr') (fs ++ fs').
Proof. intros Hq Hq'. induction Hq; cbn; [done|by apply qi_quiet|by eapply qi_send]. Qed.

Section Among.
Context {B : Type} `{Protobuf} `{JsonText}.
Context (r : req_id) (u : Z) (c : ctx_id) (prompt : bytes).
Implicit Types (s : Server B) (n : Z).

(** The server is up and knows the request, which has left the queue and whose
    next number is [n]. *)
Record streaming_ok s n : Prop := {
  so_world : world_ok s;
  so_ctx : is_Some (ctxs (sv_heap s) !! c);
  so_req : ∃ a q, sv_ai s = Some a ∧ settled a r q ∧ ai_clients_ a ≠ 0 ∧
             sr_uid q = u ∧ sr_ctx q = c ∧ sr_prompt q = prompt ∧ sr_stream_seq q = n
}.

(** What the other threads may do: keep the server up and leave this request
    alone.  They may close the connection and give the context away. *)
Definition tolerates s s' : Prop :=
  steady s s' ∧
  ∀ a q, sv_ai s = Some a → settled a r q →
    ∃ a', sv_ai s' = Some a' ∧ settled a' r q ∧ ai_clients_ a' = ai_clients_ a.

#[export] Instance tolerates_preorder : PreOrder tolerates.
Proof.
  split; [split; [reflexivity|eauto]|]. intros s1 s2 s3 [H12 A12] [H23 A23]. split; [by etrans|].
  intros a q Ha Hq. destruct (A12 a q Ha Hq) as (b & Hb & Hq2 & E2). destruct (A23 b q Hb Hq2) as (d & Hd & Hq3 & E3).
  exists d. split_ands; [done..|congruence].
Qed.

Lemma streaming_stable s s' n : streaming_ok s n → tolerates s s' → streaming_ok s' n.
Proof.
  intros [Hw [x Hx] (a & q & Ha & Hq & Hcl & Hu & Hc & Hp & Hn)] [Hs Hr]. destruct (Hs Hw) as [Hw' Hc'].
  destruct (Hc' c x Hx) as (x' & Hx' & _). destruct (Hr a q Ha Hq) as (a' & Ha' & Hq' & Hcl').
  split; [done|eauto|]. exists a', q. split_ands; try done. congruence.
Qed.

(** [emits p n Ψ]: started when the next number is [n], and disturbed between
    its steps, [p] ends; its steps queue the functors [fs], the next number is
    [n'] and its value is [a], with [Ψ a n' fs]. *)
Definition anything s s' : Prop := True.
Definition emits {A} (p : prog (Server B) A) n (Ψ : A → Z → list functor → Prop) : Prop := ∀ tr s,
  streaming_ok s n →
  wp tolerates anything p tr s
    (λ a tr' s', ∃ ext fs n', tr' = tr ++ ext ∧ queued_in ext fs ∧ streaming_ok s' n' ∧ Ψ a n' fs)
    (λ _ _, False).

Lemma emits_ret {A} (a : A) n (Ψ : A → Z → list functor → Prop) : Ψ a n [] → emits (mret a) n Ψ.
Proof. intros Ha tr s Hs. exists [], [], n. split_ands; try done; [by rewrite app_nil_r|constructor]. Qed.
Lemma emits_weaken {A} (p : prog (Server B) A) n (Ψ Ψ' : A → Z → list functor → Prop) :
  emits p n Ψ → (∀ a n' fs, Ψ a n' fs → Ψ' a n' fs) → emits p n Ψ'.
Proof.
  intros Hp HΨ tr s Hs. eapply wp_mono; [by apply Hp| |done]. intros a tr' s' (ext & fs & n' & -> & Hq & Hs' & Ha).
  exists ext, fs, n'. auto.
Qed.
Lemma emits_bind {A C} (p : prog (Server B) A) (f : A → prog (Server B) C) n Ψ Ψ' :
  emits p n Ψ → (∀ a n' fs, Ψ a n' fs → emits (f a) n' (λ b n'' fs', Ψ' b n'' (fs ++ fs'))) → emits (p ≫= f) n Ψ'.
Proof.
  intros Hp Hf tr s Hs. apply wp_bind. eapply wp_mono; [by apply Hp| |done].
  intros a tr' s' (ext & fs & n' & -> & Hq & Hs' & Ha). eapply wp_mono; [by apply (Hf a n' fs Ha)| |done].
  intros b tr2 s2 (ext2 & fs2 & n2 & -> & Hq2 & Hs2 & Hb). exists (ext ++ ext2), (fs ++ fs2), n2.
  split_ands; try done; [by rewrite app_assoc|by apply queued_in_app].
Qed.

(** One step that queues nothing. *)
Lemma emits_quiet {A} (m : M (Server B) A) n (φ : A → Z → Prop) :
  (∀ s, streaming_ok s n → ∃ a s' n', m s = Ret a s' ∧ streaming_ok s' n' ∧ φ a n' ∧
     ∀ w, pending_of s' w = pending_of s w) →
  emits (atomic m) n (λ a n' fs, fs = [] ∧ φ a n').
Proof.
  intros Hm tr s Hs s1 H1. pose proof (streaming_stable s s1 n Hs H1) as Hs1.
  destruct (Hm s1 Hs1) as (a & s2 & n' & -> & Hs2 & Ha & Hp). split; [done|].
  exists [(s1, s2)], [], n'. split_ands; try done. apply qi_quiet; [done|constructor].
Qed.
Lemma emits_read {A} (m : M (Server B) A) n (φ : A → Prop) :
  (∀ s, streaming_ok s n → ∃ a, m s = Ret a s ∧ φ a) → emits (atomic m) n (λ a n' fs, fs = [] ∧ φ a ∧ n' = n).
Proof.
  intros Hm. eapply emits_weaken; [apply (emits_quiet m n (λ a n', φ a ∧ n' = n))|done].
  intros s Hs. destruct (Hm s Hs) as (a & E & Ha). exists a, s, n. auto.
Qed.

Lemma world_set_ai s a : world_ok s → world_ok (set_ai (Some a) s).
Proof. intros []. by split. Qed.

(** A critical section of the AI manager that leaves the request alone. *)
Lemma emits_with_ai {A} (f : StreamingAIManager → A * StreamingAIManager) n (φ : A → Prop) :
  (∀ a, ai_clients_ a ≠ 0 → φ (f a).1 ∧ calm (λ _, False) a (f a).2) →
  emits (atomic (with_ai f)) n (λ v n' fs, fs = [] ∧ φ v ∧ n' = n).
Proof.
  intros Hf. eapply emits_weaken; [apply (emits_quiet _ n (λ a n', φ a ∧ n' = n))|done].
  intros s [Hw Hc (a & q & Ha & Hq & Hcl & Hq')]. unfold with_ai. rewrite Ha. destruct (Hf a Hcl) as (Hφ & Hcl2 & Hr).
  destruct (f a) as [v a'] eqn:E. cbn in *. exists v, (set_ai (Some a') s), n. split_ands; try done.
  split; [by apply world_set_ai|done|]. exists a', q. cbn. rewrite Hcl2. auto.
Qed.

Lemma emits_take_seq n : emits (atomic (take_seq r)) n (λ k n' fs, fs = [] ∧ k = n ∧ n' = wrap_i32 (n + 1)).
Proof.
  eapply emits_weaken; [apply (emits_quiet _ n (λ k n', k = n ∧ n' = wrap_i32 (n + 1)))|done].
  intros s [Hw Hc (a & q & Ha & (Hq & Hl & Hpe) & Hcl & Hu & Hcx & Hp & Hn)].
  unfold take_seq, request_of, with_ai. mred. rewrite Ha, Hq. cbn [set_ai sv_ai].
  eexists _, _, _. split; [reflexivity|]. split_ands; try done.
  split; [by apply world_set_ai, world_set_ai|done|]. eexists _, (bump_seq q). split; [done|].
  unfold settled. cbn. rewrite lookup_alter_eq, Hq. cbn. by rewrite Hn.
Qed.

Lemma emits_fd n : emits (fd_steps c) n (λ f n' fs, fs = [] ∧ True ∧ n' = n).
Proof.
  apply emits_read. intros s [_ [x Hx] _]. unfold ctx_of. mred. rewrite Hx. eauto.
Qed.

(** The last two steps of [send_stream_chunk]: the worker is read, then the
    packet is queued there. *)
Lemma emits_queue n body :
  emits (w ← atomic (owner_of c); atomic (queue_send_packet w c (cmd_val CHAT) 0 body)) n
    (λ _ n' fs, n' = n ∧ fs = [FSend c (cmd_val CHAT) 0 body]).
Proof.
  intros tr s Hs s1 H1. pose proof (streaming_stable s s1 n Hs H1) as Hs1. destruct Hs1 as [Hw1 Hc1 Hr1].
  destruct (owner_runs s1 c Hw1 Hc1) as [w Hown]. rewrite Hown. split; [done|]. intros s2 H2.
  pose proof (streaming_stable s1 s2 n (Build_streaming_ok s1 n Hw1 Hc1 Hr1) H2) as [Hw2 Hc2 Hr2].
  destruct (owner_up s1 s2 c w Hw1 (proj1 H2) Hown) as (x & Hx & Ho & Hk). unfold queue_send_packet.
  destruct (queue_functor_runs s2 w (FSend c (cmd_val CHAT) 0 body) Hw2 Hk)
    as (s3 & q & -> & Hw3 & Hg & Hh & Hq & Hq' & Hne & _ & _ & Hai & _).
  split; [done|]. exists [(s1, s1); (s2, s3)], [FSend c (cmd_val CHAT) 0 body], n. split_ands; try done.
  - by rewrite <- app_assoc.
  - apply qi_quiet; [done|]. eapply qi_send; [done..|constructor].
  - split; [done|by rewrite Hh|by rewrite Hai].
Qed.

Lemma emits_emit n chunk b :
  chunk ≠ [] ∨ b = true →
  emits (emit_steps r u c chunk b) n (λ _ n' fs, ∃ wall, n' = wrap_i32 (n + 1) ∧ fs = [chunk_packet c u n (mkSent chunk b wall)]).
Proof.
  intros Hne. eapply emits_bind; [apply emits_take_seq|]. intros k n1 fs1 (-> & -> & ->).
  eapply emits_bind; [apply (emits_read _ _ is_Some)|].
  { intros s [Hw [x Hx] _]. destruct (wo_owner s Hw c x Hx) as (w & Ho & _). unfold ctx_of. mred. rewrite Hx, Ho. eauto. }
  intros o n2 fs2 (-> & [w ->] & ->).
  assert (Hb : bool_decide (chunk = []) && negb b = false).
  { destruct Hne as [Hne| ->]; [by rewrite bool_decide_eq_false_2|by rewrite andb_false_r]. }
  rewrite Hb. eapply emits_bind; [apply (emits_read _ _ (λ _, True)); intros s Hs; unfold gets; eauto|].
  intros wall n3 fs3 (-> & _ & ->). eapply emits_weaken; [apply emits_queue|].
  intros a n4 fs4 [-> ->]. exists wall. split; [done|]. done.
Qed.

(** ** The chunks of a stream *)

(** What [es] says was sent is what was queued, under consecutive numbers. *)
Definition numbered_from n n' (fs : list functor) (es : list sent) : Prop :=
  fs = chunk_packets c u n es ∧ n' = seq_after n es.
Lemma numbered_app n n' n'' fs fs' es es' :
  numbered_from n n' fs es → numbered_from n' n'' fs' es' → numbered_from n n'' (fs ++ fs') (es ++ es').
Proof. intros [-> ->] [-> ->]. split; [by rewrite chunk_packets_app|by rewrite seq_after_app]. Qed.

Lemma emits_on_chunk n l t :
  emits (on_chunk_steps r u c l t) n (λ l' n' fs, ∃ es, numbered_from n n' fs es ∧ Forall middle es ∧
    buffer l ++ t = concat (map sn_text es) ++ buffer l').
Proof.
  unfold on_chunk_steps. cbv zeta.
  eapply emits_bind; [apply (emits_read _ _ (λ _, True)); intros s Hs; unfold gets; eauto|].
  intros now n1 fs1 (-> & _ & ->). eapply emits_bind; [apply emits_fd|]. intros f n2 fs2 (-> & _ & ->). cbn [app].
  assert (Hkeep : ∀ lf b, emits (mret (mkLocal (buffer l ++ t) lf b)) n (λ l' n' fs, ∃ es,
    numbered_from n n' fs es ∧ Forall middle es ∧ buffer l ++ t = concat (map sn_text es) ++ buffer l')).
  { intros lf b. apply emits_ret. exists []. split_ands; [done|constructor|done]. }
  case_if; [apply Hkeep|]. case_if; [|apply Hkeep].
  destruct (buffer l ++ t) as [|b bs] eqn:Eb; [apply emits_ret; exists []; split_ands; [done|constructor|done]|].
  eapply emits_bind; [apply emits_emit; by left|]. intros _ n3 fs3 (wall & -> & ->). apply emits_ret.
  exists [mkSent (b :: bs) false wall]. split_ands; [done|by repeat constructor|]. cbn. by rewrite !app_nil_r.
Qed.

Lemma emits_chunks texts : ∀ n l,
  emits (chunks_steps r u c l texts) n (λ l' n' fs, ∃ es, numbered_from n n' fs es ∧ Forall middle es ∧
    buffer l ++ concat texts = concat (map sn_text es) ++ buffer l').
Proof.
  induction texts as [|t texts IH]; intros n l; cbn [chunks_steps concat].
  - apply emits_ret. exists []. split_ands; [done|constructor|]. by rewrite app_nil_r.
  - eapply emits_bind; [apply emits_on_chunk|]. intros l1 n1 fs1 (es1 & Hn1 & Hm1 & Hb1).
    eapply emits_weaken; [apply IH|]. intros l2 n2 fs2 (es2 & Hn2 & Hm2 & Hb2). exists (es1 ++ es2).
    split_ands; [by eapply numbered_app|by apply Forall_app|].
    rewrite map_app, concat_app, <- app_assoc, <- Hb2, !app_assoc. by rewrite Hb1.
Qed.

Lemma emits_pieces ps : ∀ n, Forall (λ p : bytes * bool, p.1 ≠ []) ps →
  emits (pfor (send_piece_steps r u c) ps) n (λ _ n' fs, ∃ es, numbered_from n n' fs es ∧
    map (λ e, (sn_text e, sn_last e)) es `sublist_of` ps).
Proof.
  induction ps as [|p ps IH]; intros n Hps; cbn [pfor].
  - apply emits_ret. exists []. split; [done|constructor].
  - apply Forall_cons in Hps as [Hp Hps]. eapply (emits_bind _ _ _ (λ _ n' fs, ∃ es, numbered_from n n' fs es ∧
      (es = [] ∨ ∃ wall, es = [mkSent p.1 p.2 wall]))).
    + unfold send_piece_steps. eapply emits_bind; [apply emits_fd|]. intros f n1 fs1 (-> & _ & ->). cbn [app].
      case_if; [apply emits_ret; exists []; split; [done|by left]|].
      eapply emits_weaken; [apply emits_emit; by left|]. intros _ n2 fs2 (wall & -> & ->).
      exists [mkSent p.1 p.2 wall]. split; [done|eauto].
    + intros _ n1 fs1 (es1 & Hn1 & Hes). eapply emits_weaken; [by apply IH|]. intros _ n2 fs2 (es2 & Hn2 & Hs).
      exists (es1 ++ es2). split; [by eapply numbered_app|]. rewrite map_app.
      destruct Hes as [->|[wall ->]]; cbn; [by apply sublist_cons|]. destruct p. by apply sublist_skip.
Qed.

(** What a stream has sent when it ends: first chunks not marked last, a prefix
    of the service's text; then, if the service succeeded, at most one chunk
    marked last that completes the text; otherwise some pieces of the canned
    answer, in order. *)
Definition stream_sent (texts : list bytes) (success : bool) (fallback : bytes) (es : list sent) : Prop :=
  ∃ es1 es2, es = es1 ++ es2 ∧ Forall middle es1 ∧ concat (map sn_text es1) `prefix_of` concat texts ∧
    if success then es2 = [] ∨ ∃ e, es2 = [e] ∧ sn_last e = true ∧ concat (map sn_text es) = concat texts
    else map (λ e, (sn_text e, sn_last e)) es2 `sublist_of` pieces (length fallback) fallback.

Lemma emits_request n :
  emits (atomic (request_of r)) n (λ q n' fs, fs = [] ∧ (sr_ctx q = c ∧ sr_uid q = u ∧ sr_prompt q = prompt) ∧ n' = n).
Proof.
  eapply emits_weaken; [apply (emits_quiet _ n (λ q n', (sr_ctx q = c ∧ sr_uid q = u ∧ sr_prompt q = prompt) ∧ n' = n))|done].
  intros s [Hw Hc (a & q & Ha & Hq & Hcl & Hu & Hcx & Hp & Hn)]. unfold request_of, with_ai. mred. rewrite Ha, (proj1 Hq).
  exists q, (set_ai (Some a) s), n. split_ands; try done. split; [by apply world_set_ai|done|]. exists a, q. done.
Qed.
Lemma emits_finish n : emits (atomic (finish r c)) n (λ _ n' fs, fs = [] ∧ True ∧ n' = n).
Proof.
  eapply emits_weaken; [apply (emits_quiet _ n (λ _ n', n' = n))|by intros _ n' fs [-> ->]].
  intros s [Hw [x Hx] (a & q & Ha & Hq & Hrest)]. unfold finish, ctx_of, with_ai. mred. rewrite Hx, Ha.
  eexists tt, _, n. split; [done|]. split_ands; try done. split; [by apply world_set_ai|cbn; eauto|].
  exists (finish_stream (fd x) a), q. split; [done|]. destruct (calm_finish (λ _, False) (fd x) a) as [-> Hs]. auto.
Qed.
Lemma emits_pick n : emits (idx ← atomic (with_ai pick_client); atomic (deref idx DivByZero)) n (λ _ n' fs, fs = [] ∧ n' = n).
Proof.
  eapply emits_bind; [apply (emits_with_ai pick_client n is_Some)|].
  { intros a Ha. split; [|apply calm_pick]. unfold pick_client. destruct (ai_clients_ a) eqn:E; [done|]. cbn. eauto. }
  intros idx n1 fs1 (-> & [k ->] & ->). cbn [app].
  eapply emits_weaken; [apply (emits_read _ _ (λ _, True))|by intros a n2 fs2 (-> & _ & ->)].
  intros s Hs. eauto.
Qed.
Lemma emits_in_use n (b : bool) (f : StreamingAIManager → list nat) :
  emits (atomic (if b then with_ai (λ a, (tt, set_in_use (f a) a)) else mret tt)) n (λ _ n' fs, fs = [] ∧ n' = n).
Proof.
  destruct b.
  - eapply emits_weaken; [apply (emits_with_ai _ n (λ _, True))|by intros a n2 fs2 (-> & _ & ->)].
    intros a Ha. split; [done|apply calm_in_use].
  - eapply emits_weaken; [apply (emits_read _ _ (λ _, True))|by intros a n2 fs2 (-> & _ & ->)].
    intros s Hs. eauto.
Qed.

Lemma emits_end n l success texts es fallback :
  Forall middle es → concat texts = concat (map sn_text es) ++ buffer l →
  emits (l' ← (if (success : bool) then on_complete_steps r u c l else mret l);
         (if negb success && negb (conn_lost l')
          then pfor (send_piece_steps r u c) (pieces (length fallback) fallback) else mret tt) ;;
         atomic (finish r c)) n
    (λ _ n' fs, ∃ es2, numbered_from n n' fs es2 ∧ stream_sent texts success fallback (es ++ es2)).
Proof.
  intros Hm Hb. pose proof (pieces_spec (length fallback) fallback) as Hps.
  assert (Hpre : concat (map sn_text es) `prefix_of` concat texts) by (rewrite Hb; by eexists).
  destruct success; cbn [negb andb].
  - eapply (emits_bind _ _ _ (λ _ n' fs, ∃ es2, numbered_from n n' fs es2 ∧ stream_sent texts true fallback (es ++ es2))).
    + unfold on_complete_steps. eapply emits_bind; [apply emits_fd|]. intros f n1 fs1 (-> & _ & ->). cbn [app]. case_if.
      * apply emits_ret. exists []. split; [done|]. exists es, []. split_ands; try done. by left.
      * eapply emits_bind; [apply emits_emit; by right|]. intros _ n2 fs2 (wall & -> & ->). apply emits_ret.
        exists [mkSent (buffer l) true wall]. split; [done|]. exists es, [mkSent (buffer l) true wall].
        split_ands; try done. right. eexists. split_ands; [done..|]. rewrite map_app, concat_app, Hb. cbn. by rewrite app_nil_r.
    + intros l' n1 fs1 (es2 & Hn & Hs). cbn [mbind]. eapply emits_weaken; [apply emits_finish|].
      intros _ n2 fs2 (-> & _ & ->). exists es2. by rewrite app_nil_r.
  - eapply emits_bind; [apply (emits_ret l n (λ l' n' fs, l' = l ∧ n' = n ∧ fs = [])); done|].
    intros l' n1 fs1 (-> & -> & ->). cbn [app].
    eapply (emits_bind _ _ _ (λ _ n' fs, ∃ es2, numbered_from n n' fs es2 ∧
      map (λ e, (sn_text e, sn_last e)) es2 `sublist_of` pieces (length fallback) fallback)).
    + case_if; [apply emits_pieces; apply Hps; lia|]. apply emits_ret. exists []. split; [done|apply sublist_nil_l].
    + intros _ n2 fs2 (es2 & Hn & Hs). eapply emits_weaken; [apply emits_finish|]. intros _ n3 fs3 (-> & _ & ->).
      exists es2. rewrite app_nil_r. split; [done|]. exists es, es2. done.
Qed.

(** The whole stream. *)
Lemma emits_process n handle ok blocks time_text :
  let '(texts, success) := stream_chat handle ok blocks in
  emits (process_stream_steps r handle ok blocks time_text) n (λ _ n' fs,
    ∃ es, numbered_from n n' fs es ∧ stream_sent texts success (generate_fallback_response time_text prompt) es).
Proof.
  destruct (stream_chat handle ok blocks) as [texts success] eqn:Ec. unfold process_stream_steps. rewrite Ec.
  eapply emits_bind; [apply emits_request|]. intros q n1 fs1 (-> & (-> & -> & ->) & ->). cbn [app].
  eapply emits_bind; [apply emits_fd|]. intros f n2 fs2 (-> & _ & ->). cbn [app]. case_if.
  - eapply emits_weaken; [apply emits_finish|]. intros _ n3 fs3 (-> & _ & ->). exists []. split; [done|].
    exists [], []. split_ands; [done|constructor|apply prefix_nil|]. destruct success; [by left|apply sublist_nil_l].
  - assert (Hgo : ∀ k, emits (atomic (gets sv_mono_ns) ≫= λ now,
      atomic (use_handle handle k) ;;
      l ← chunks_steps r u c (mkLocal [] now false) texts;
      atomic (drop_handle handle k) ;;
      l' ← (if (success : bool) then on_complete_steps r u c l else mret l);
      (if negb success && negb (conn_lost l')
       then pfor (send_piece_steps r u c) (pieces (length (generate_fallback_response time_text prompt))
              (generate_fallback_response time_text prompt)) else mret tt) ;;
      atomic (finish r c)) n (λ _ n' fs, ∃ es, numbered_from n n' fs es ∧
        stream_sent texts success (generate_fallback_response time_text prompt) es)).
    { intros k. eapply emits_bind; [apply (emits_read _ _ (λ _, True)); intros s Hs; unfold gets; eauto|].
      intros now n3 fs3 (-> & _ & ->). cbn [app].
      eapply emits_bind; [apply (emits_in_use n handle (λ a, k :: ai_in_use a))|].
      intros _ n3 fs3 [-> ->]. cbn [app]. eapply emits_bind; [apply emits_chunks|].
      intros l n4 fs4 (es & Hn & Hm & Hb).
      eapply emits_bind; [apply (emits_in_use n4 handle (λ a, remove_one k (ai_in_use a)))|].
      intros _ n5 fs5 [-> ->]. cbn [app].
      eapply emits_weaken; [apply (emits_end n4 l success texts es); [done|exact Hb]|].
      intros _ n5 fs5 (es2 & Hn2 & Hs). exists (es ++ es2). split; [by eapply numbered_app|done]. }
    assert (Hassoc : ∀ (k : nat → prog (Server B) unit) Ψ,
      emits ((idx ← atomic (with_ai pick_client); atomic (deref idx DivByZero)) ≫= k) n Ψ →
      emits (idx ← atomic (with_ai pick_client); atomic (deref idx DivByZero) ≫= k) n Ψ) by done.
    apply Hassoc.
    eapply emits_bind; [apply emits_pick|]. intros k n3 fs3 [-> ->]. exact (Hgo k).
Qed.
End Among.

(** ** Property *)

Section Property.
Context {B : Type} `{Protobuf} `{JsonText}.
Implicit Types (s : Server B).

(** C12. An AI stream survives whatever the other threads do, the end of its
    client's connection included: as long as they keep the server up and leave
    the request's own record alone, the stream returns, the server is up, and
    all it has queued are chunks for its own context under consecutive
    numbers: first chunks not marked last whose text is a prefix of what the
    service sent; then, if the service succeeded, at most one chunk marked
    last, and only if with it the whole text has been sent; if it failed, some
    pieces of the canned answer, in order. *)
Theorem stream_among_others (env : nat → Server B → Server B) r u c prompt s n handle ok blocks time_text :
  (∀ i s, tolerates r s (env i s)) → streaming_ok r u c prompt s n →
  let '(texts, success) := stream_chat handle ok blocks in
  ∃ tr s' fs es, exec env 0 (process_stream_steps r handle ok blocks time_text) s = (tr, Ret tt s') ∧ world_ok s' ∧
    queued_in tr fs ∧ fs = chunk_packets c u n es ∧
    stream_sent texts success (generate_fallback_response time_text prompt) es.
Proof.
  intros Henv Hs. pose proof (emits_process r u c prompt n handle ok blocks time_text (B := B)) as He.
  destruct (stream_chat handle ok blocks) as [texts success].
  pose proof (wp_exec _ _ env _ _ _ Henv 0 [] s (He [] s Hs)) as Hx.
  destruct (exec env 0 _ s) as [tr [[] s'|s'|e]]; [|done..].
  destruct Hx as (ext & fs & n' & E & Hq & Hs' & es & [Hfs _] & Hsent). cbn in E. subst ext. exists tr, s', fs, es. split_ands; try done.
  by destruct Hs'.
Qed.
End Property.

(** ** Witness *)

(** The client hangs up before step [k] of the stream. *)
Definition hang_up (k i : nat) (s : Server (HashedDB len_hash)) : Server (HashedDB len_hash) :=
  if (i =? k)%nat then set_heap (upd_ctx 0 (set_fd (-1)) (sv_heap s)) s else s.
Lemma hang_up_tolerated r k i s : tolerates r s (hang_up k i s).
Proof.
  unfold hang_up. destruct (i =? k)%nat; [|split; [reflexivity|eauto]]. split; [|cbn; eauto].
  intros Hw. pose proof (runs_mod_ctx (B := HashedDB len_hash) [] 0 (set_fd (-1)) (λ _, eq_refl) s Hw (Forall_nil_2 _)) as Hr.
  unfold mod_ctx in Hr. mred. destruct Hr as (Hw' & Hg & _). by apply grows_steady.
Qed.

Lemma demo_known :
  let a := (schedule_round 0 (λ _, 5%Z) (submit_stream_request true 5 1000 (str "hi") 0 0 (new_ai 2)).2).2 in
  settled a 0 demo_request ∧ ai_clients_ a ≠ 0 ∧ sr_uid demo_request = 1000%Z ∧ sr_ctx demo_request = 0 ∧
  sr_prompt demo_request = str "hi" ∧ sr_stream_seq demo_request = 0%Z.
Proof.
  cbv zeta. unfold settled. split_ands; try (vm_compute; reflexivity).
  - apply (bool_decide_unpack _). vm_compute. exact I.
  - vm_compute. discriminate.
Qed.

Lemma stream_among_others_witness :
  ∃ tr s' fs es, exec (hang_up 4) 0 (process_stream_steps 0 true true [str "data: [DONE]" ++ nl] []) demo_streaming = (tr, Ret tt s') ∧
    queued_in tr fs ∧ fs = chunk_packets 0 1000 0 es.
Proof.
  destruct (stream_among_others (hang_up 4) 0 1000 0 (str "hi") demo_streaming 0 true true [str "data: [DONE]" ++ nl] [])
    as (tr & s' & fs & es & E & _ & Hq & Hf & _).
  - exact (hang_up_tolerated 0 4).
  - split.
    + exact (world_set_ai _ _ demo_world).
    + exists demo_ctx. exact demo_stream_ctx.
    + exact (ex_intro _ _ (ex_intro _ demo_request (conj eq_refl demo_known))).
  - exists tr, s', fs, es. split; [exact E|]. split; [exact Hq|exact Hf].
Defined.
