(* ===== verification/Within.v ===== *)
(** * What the threads do to the AI manager

    The steps of requests, of the loops, of the scheduler and of streams, each
    within a relation [K] of the AI manager's states that contains its routine
    work ([Routine] of AiManager.v).  Used for the records of running streams
    ([calm]) and for the CURL handles ([same_handles]). *)

From S2P Require Import Prelude Steps Bytes Config Protocol Framing Timer ThreadPool Context EventLoop.
From S2P Require Import Session Json RefCodec Llama AiManager FileStore DbWriter World Business Stream Worker.
From S2P Require Import ConnTable System Delivery Requests BusinessSteps Concurrent Interference StreamProps StreamSteps.

(** ** Steps that keep to a relation of the AI manager *)

Section Within.
Context {B : Type} (K : StreamingAIManager → StreamingAIManager → Prop) `{!PreOrder K}.
Implicit Types (s : Server B).

(** The AI manager stays, and changes within [K]. *)
Definition within s s' : Prop := ∀ a, sv_ai s = Some a → ∃ a', sv_ai s' = Some a' ∧ K a a'.

#[export] Instance within_preorder : PreOrder within.
Proof.
  split; [intros s a Ha; by exists a|]. intros s1 s2 s3 H12 H23 a Ha. destruct (H12 a Ha) as (b & Hb & Hab).
  destruct (H23 b Hb) as (d & Hd & Hbd). exists d. split; [done|]. by etrans.
Qed.

Lemma within_same {A} (m : M (Server B) A) :
  (∀ s, match m s with Ret _ s' | Throw s' => sv_ai s' = sv_ai s | Crash _ => True end) → respects within m.
Proof.
  intros Hm s. specialize (Hm s).
  destruct (m s) as [v s'|s'|r]; [..|done]; intros a Ha; exists a; (split; [congruence|done]).
Qed.
Lemma within_with_ai {A} (f : StreamingAIManager → A * StreamingAIManager) :
  (∀ a, K a (f a).2) → respects within (with_ai f : M (Server B) A).
Proof.
  intros Hf s. unfold with_ai. destruct (sv_ai s) as [a|] eqn:Ha; [|done]. specialize (Hf a).
  destruct (f a) as [v a']. intros b Hb. cbn in *. simplify_eq. eauto.
Qed.
Lemma within_mod_ctx c g : respects within (mod_ctx c g : M (Server B) unit).
Proof. by apply within_same. Qed.
Lemma within_mod_worker w g : respects within (mod_worker w g : M (Server B) unit).
Proof. by apply within_same. Qed.
Lemma within_enqueue t : respects within (enqueue_task t : M (Server B) bool).
Proof. apply within_same. intros s. unfold enqueue_task. destruct (sv_pool s) as [p|]; [|done]. by destruct (enqueue t p). Qed.
Lemma within_unbind u : respects within (unbind_session u : M (Server B) unit).
Proof. by apply within_same. Qed.
Lemma within_sys_close f : respects within (sys_close f : M (Server B) unit).
Proof. by apply within_same. Qed.
Lemma within_conns g n : respects within (modify (λ s : Server B, set_conns (g s) (n s) s)).
Proof. by apply within_same. Qed.
Lemma within_count g : respects within (modify (λ s : Server B, set_count (g s) s)).
Proof. by apply within_same. Qed.
Lemma within_on_pool {A} w (m : M (ctx_heap * ContextPool) A) : respects within (on_pool w m : M (Server B) A).
Proof.
  apply within_same. intros s. unfold on_pool. destruct (sv_workers s !! w) as [k|]; [|done].
  by destruct (m (sv_heap s, pool_ k)) as [a [h q]|[h q]|r].
Qed.
End Within.

Create HintDb within discriminated.
#[export] Hint Extern 0 (PreOrder _) => apply _ : within.
#[export] Hint Extern 0 (Routine _) => apply _ : within.
#[export] Hint Resolve within_mod_ctx within_mod_worker within_enqueue within_unbind within_sys_close within_conns
  within_count within_on_pool : within.

Ltac within_tac := walk ltac:(fun _ => solve [auto with within nocore]).

Section Loops.
Context {B : Type} `{Backend B} `{Protobuf} `{JsonText} (K : StreamingAIManager → StreamingAIManager → Prop) `{!Routine K}.
Implicit Types (s : Server B) (c : ctx_id) (w : worker_id) (p : conn_id) (r : req_id).
#[local] Abbreviation L := (respects (within (B := B) K)).

Lemma within_cancel u : L (with_ai (λ a, (tt, cancel_request u a))).
Proof. apply within_with_ai. intros a. apply rt_cancel. Qed.
Lemma within_queue_functor w f : L (queue_functor w f).
Proof. unfold queue_functor. within_tac. Qed.
Lemma within_heartbeat w f : L (heartbeat w f).
Proof. unfold heartbeat. within_tac. Qed.
Lemma within_touch c : L (touch c).
Proof. unfold touch. within_tac. Qed.
#[local] Hint Resolve within_cancel within_queue_functor within_heartbeat within_touch : within.

Lemma within_new_connection w f ip port : L (new_connection w f ip port).
Proof.
  unfold new_connection. apply respects_bind; [apply _|within_tac|]. intros c.
  apply respects_bind; [apply _|within_tac|]. intros _. apply respects_bind; [apply _|within_tac|]. intros _.
  apply within_same; [apply _|done].
Qed.
Lemma within_destroy p : L (destroy_connection p).
Proof. unfold destroy_connection. within_tac. Qed.
Lemma within_start p : L (start_connection p).
Proof. unfold start_connection. within_tac. Qed.
Lemma within_force_close p : L (do_force_close p).
Proof. unfold do_force_close, close_impl. within_tac. Qed.
#[local] Hint Resolve within_new_connection within_destroy within_start within_force_close : within.

Lemma within_close_in_loop w f : L (force_close_in_loop w f).
Proof. unfold force_close_in_loop. within_tac. Qed.
Lemma within_add w f ip port : L (add_connection_in_loop w f ip port).
Proof. unfold add_connection_in_loop. within_tac. Qed.
Lemma within_send_packet w c cm n body : L (send_packet_in_loop w c cm n body).
Proof. unfold send_packet_in_loop, send, queue_close_connection. within_tac. Qed.
#[local] Hint Resolve within_close_in_loop within_add within_send_packet : within.

Lemma within_read p chunks e : L (handle_read p chunks e).
Proof. unfold handle_read, read_chunk. within_tac. Qed.
Lemma within_write p answers : L (handle_write p answers).
Proof. induction answers as [|[[|n]|] answers IH]; cbn [handle_write]; within_tac; exact IH. Qed.
#[local] Hint Resolve within_read within_write : within.

Lemma within_timers n w : L (check_timers n w).
Proof. induction n as [|n IH]; cbn [check_timers]; within_tac. Qed.
#[local] Hint Resolve within_timers : within.

Lemma within_iteration w events : L (loop_iteration w events).
Proof.
  unfold loop_iteration, on_loop_once, do_pending_functors, dispatch, handle_events, run_functor. within_tac.
Qed.
Lemma within_accept w f ip port : L (accept_connection w f ip port).
Proof.
  unfold accept_connection, queue_add_connection. apply respects_bind; [apply _| |intros _; within_tac].
  apply within_same; [apply _|done].
Qed.
End Loops.

(** ** Requests *)

Ltac steps_tac leaf :=
  repeat match goal with
  | |- steps_respect _ (_ ≫= _) => apply steps_bind; [|intros ?]
  | |- steps_respect _ (ptry _ _) => apply steps_try
  | |- steps_respect _ (pfor _ _) => apply steps_for; intros ?
  | |- steps_respect _ (mret _) => apply steps_ret
  | |- steps_respect _ (atomic _) => apply steps_atomic
  | |- steps_respect _ (if ?b then _ else _) => destruct b
  | |- steps_respect _ (match ?x with _ => _ end) => destruct x
  | |- steps_respect _ (let '_ := ?x in _) => destruct x
  | |- respects _ _ => leaf ()
  | |- _ => fail 1
  end.

Section Requests.
Context {B : Type} `{Backend B} `{Protobuf} (K : StreamingAIManager → StreamingAIManager → Prop) `{!Routine K}.
Implicit Types (s : Server B) (c : ctx_id).
#[local] Abbreviation L := (respects (within (B := B) K)).
#[local] Abbreviation LS := (steps_respect (within (B := B) K)).

Lemma within_gets {A} (f : Server B → A) : L (gets f).
Proof. apply within_same; [apply _|done]. Qed.
Lemma within_owner c : L (owner_of c).
Proof. unfold owner_of. within_tac. Qed.
Lemma within_uid_of c : L (uid_of c).
Proof. unfold uid_of. within_tac. Qed.
Lemma within_on_db {A} (d : DBBatchWriter B) (m : M (DBBatchWriter B) A) : L (on_db d m).
Proof. apply within_same; [apply _|]. intros s. unfold on_db. by destruct (m d). Qed.
Lemma within_crash {A} r : L (crash r : M (Server B) A).
Proof. apply within_same; [apply _|done]. Qed.
Lemma within_submit o f u p c now : L (with_ai (submit_stream_request o f u p c now)).
Proof. apply within_with_ai. intros a. apply rt_submit. Qed.
Lemma within_sessions g : L (modify (λ s, set_sessions (g s) s)).
Proof. apply within_same; [apply _|done]. Qed.
#[local] Hint Resolve within_gets within_on_db within_crash within_submit within_sessions within_queue_functor : within.

Lemma within_db_call {A} (m : M B A) : L (db_call m).
Proof. unfold db_call. within_tac. Qed.
Lemma within_bind_first u c : L (bind_first u c).
Proof. unfold bind_first. within_tac. Qed.
Lemma within_submit_message m : L (submit_message m).
Proof. unfold submit_message. within_tac. Qed.
#[local] Hint Resolve within_db_call within_bind_first within_submit_message within_owner within_uid_of : within.

Lemma within_user_infos l : LS (user_infos l).
Proof.
  induction l as [|[u name] l IH]; cbn [user_infos]; unfold session_of_steps, session_of;
    steps_tac ltac:(fun _ => within_tac); exact IH.
Qed.

(** No step of a request touches the record of a running stream. *)
Lemma within_business c hdr body : LS (process_business_steps c hdr body).
Proof.
  unfold process_business_steps, handle_command_steps, rate_limited_steps, handle_login_steps, handle_chat_steps,
    handle_ai_chat_steps, handle_register_steps, handle_heartbeat_steps, handle_add_friend_steps,
    handle_accept_friend_steps, handle_friend_list_steps, handle_search_user_steps, handle_friend_requests_steps,
    deliver_offline_steps, notify_steps, store_chat_steps, bind_steps, session_of_steps, session_of, db_call_steps, has_db_steps,
    has_db, uid_of_steps, ack_steps, reply_steps, queue_send_packet, queue_close_connection; cbv zeta.
  steps_tac ltac:(fun _ => within_tac); apply within_user_infos.
Qed.
End Requests.

(** ** Streams *)

Section Streams.
Context {B : Type} `{Backend B} `{Protobuf} `{JsonText} (K : StreamingAIManager → StreamingAIManager → Prop) `{!Routine K}.
Context (r : req_id) (Kseq : ∀ a, K a (next_seq r a)).
Implicit Types (s : Server B) (c : ctx_id).
#[local] Abbreviation L := (respects (within (B := B) K)).
#[local] Abbreviation LS := (steps_respect (within (B := B) K)).

Lemma within_request : L (request_of r).
Proof. unfold request_of. within_tac. by apply within_with_ai. Qed.
Lemma within_next_seq : L (with_ai (λ a, (tt, next_seq r a))).
Proof. by apply within_with_ai. Qed.
Lemma within_finish c : L (finish r c).
Proof. unfold finish. within_tac. apply within_with_ai. intros a'. apply rt_finish. Qed.
#[local] Hint Resolve within_request within_next_seq within_finish within_queue_functor within_gets within_owner : within.
Lemma within_take_seq : L (take_seq r).
Proof. unfold take_seq. within_tac. Qed.
Lemma within_chunk u c t b1 b2 n : L (send_stream_chunk u c t b1 b2 n).
Proof. unfold send_stream_chunk, queue_send_packet. within_tac. Qed.
#[local] Hint Resolve within_take_seq within_chunk : within.

Lemma within_fd c : LS (fd_steps c).
Proof. unfold fd_steps. steps_tac ltac:(fun _ => within_tac). Qed.
Lemma within_emit u c t b : LS (emit_steps r u c t b).
Proof. unfold emit_steps, send_stream_chunk_steps, queue_send_packet. steps_tac ltac:(fun _ => within_tac). Qed.
Lemma within_chunks u c texts : ∀ l, LS (chunks_steps r u c l texts).
Proof.
  induction texts as [|t texts IH]; intros l; cbn [chunks_steps]; [done|]. apply steps_bind; [|done].
  unfold on_chunk_steps; cbv zeta. steps_tac ltac:(fun _ => within_tac); first [apply within_fd|apply within_emit].
Qed.
Lemma within_complete u c l : LS (on_complete_steps r u c l).
Proof. unfold on_complete_steps. steps_tac ltac:(fun _ => within_tac); first [apply within_fd|apply within_emit]. Qed.
Lemma within_pieces u c ps : LS (pfor (send_piece_steps r u c) ps).
Proof.
  unfold send_piece_steps. steps_tac ltac:(fun _ => within_tac); first [apply within_fd|apply within_emit].
Qed.
Lemma within_stream handle ok blocks time_text :
  (∀ a, K a (pick_client a).2) → (∀ l a, K a (set_in_use l a)) →
  LS (process_stream_steps r handle ok blocks time_text).
Proof.
  intros Hpick Huse. unfold process_stream_steps, use_handle, drop_handle, hold_handle, release_handle; cbv zeta.
  repeat first [apply steps_bind; [|intros ?]|done|apply within_fd|apply within_chunks|apply within_complete
               |apply within_pieces|apply steps_atomic; within_tac; apply within_with_ai; intros ?; first [apply Hpick|apply Huse]
               |match goal with |- context [stream_chat ?h ?o ?l] => destruct (stream_chat h o l) end|case_if].
Qed.
Lemma within_section {A} (a : pool_action A) : stream_id a = Some r → L (run_action a).
Proof.
  destruct a; cbn; intros E; simplify_eq; unfold on_chunk, on_complete, send_piece; within_tac.
Qed.
End Streams.
