(* ===== verification/Handles.v ===== *)
(** * The CURL handles of the streams (src/ai_manager.cpp, include/llama_client.h)

    A stream draws a number from [rr_counter], which names one of the clients,
    and uses that client's CURL handle during its transfer.  Nothing reserves
    the handle.  As long as no more streams draw than there are clients, no
    handle is used by two at once: the invariant here follows each thread
    through the phases of its stream. *)

From S2P Require Import Prelude Steps Bytes Config Protocol Framing Timer ThreadPool Context EventLoop.
From S2P Require Import Session Json RefCodec Llama AiManager FileStore DbWriter World Business Stream Worker.
From S2P Require Import ConnTable System Delivery Requests BusinessSteps Concurrent Interference StreamProps StreamSteps Within.

(** ** Phases *)

(** Where a stream stands; [z] is the number it drew. *)
Inductive phase :=
  | Before
  | Drawn (z : Z)
  | Holding (z : Z)
  | Over.

Definition handle_of (n : nat) (z : Z) : nat := Z.to_nat (z `mod` Z.of_nat n).

(** What a step of a stream may do to the counter and the handles, of which
    there are [n]. *)
Inductive phase_step (n : nat) (a a' : StreamingAIManager) : phase → phase → Prop :=
  | ph_keep st : same_handles a a' → phase_step n a a' st st
  | ph_draw :
      ai_clients_ a' = ai_clients_ a → rr_counter a' = wrap_u64 (rr_counter a + 1) → ai_in_use a' = ai_in_use a →
      phase_step n a a' Before (Drawn (rr_counter a))
  | ph_hold z :
      ai_clients_ a' = ai_clients_ a → rr_counter a' = rr_counter a → ai_in_use a' = handle_of n z :: ai_in_use a →
      phase_step n a a' (Drawn z) (Holding z)
  | ph_release z :
      ai_clients_ a' = ai_clients_ a → rr_counter a' = rr_counter a →
      ai_in_use a' = remove_one (handle_of n z) (ai_in_use a) →
      phase_step n a a' (Holding z) Over.

Section Phases.
Context {B : Type} (n : nat).
Implicit Types (s : Server B) (st : phase).

(** From phase [st] the program goes through the phases in their order; [Φ] is
    the phase and the value it ends with. *)
Fixpoint handles {A} st (p : prog (Server B) A) (Φ : phase → A → Prop) : Prop :=
  match p with
  | PRet a => Φ st a
  | PThrow => True
  | PStep m k h => ∀ s a, sv_ai s = Some a → ai_clients_ a = n →
      match m s with
      | Ret x s' => ∃ a' st', sv_ai s' = Some a' ∧ phase_step n a a' st st' ∧ handles st' (k x) Φ
      | Throw s' => ∃ a' st', sv_ai s' = Some a' ∧ phase_step n a a' st st' ∧ handles st' h Φ
      | Crash _ => True
      end
  end.

Lemma handles_bind {A C} (p : prog (Server B) A) (f : A → prog (Server B) C) Φ : ∀ st,
  handles st p (λ st' a, handles st' (f a) Φ) → handles st (p ≫= f) Φ.
Proof.
  induction p as [a| |X m k IHk h IHh]; intros st Hp; cbn in *; [done..|].
  intros s a Ha Hn. specialize (Hp s a Ha Hn). destruct (m s) as [x s'|s'|e]; [..|done];
    destruct Hp as (a' & st' & Ha' & Hs & Hp); exists a', st'; auto.
Qed.
(** Programs that leave the handles alone stay in their phase. *)
Lemma handles_keep {A} (p : prog (Server B) A) (Φ : phase → A → Prop) st :
  steps_respect (within same_handles) p → (∀ a, Φ st a) → handles st p Φ.
Proof.
  intros Hp HΦ. induction p as [a| |X m k IHk h IHh]; cbn in *; [done..|]. destruct Hp as (Hm & Hk & Hh).
  intros s a Ha Hn. specialize (Hm s). destruct (m s) as [x s'|s'|e]; [..|done];
    destruct (Hm a Ha) as (a' & Ha' & Hs); exists a', st; (split_ands; [done|by constructor|auto]).
Qed.
Lemma handles_keep_bind {A C} (p : prog (Server B) A) (f : A → prog (Server B) C) Φ st :
  steps_respect (within same_handles) p → (∀ a, handles st (f a) Φ) → handles st (p ≫= f) Φ.
Proof. intros Hp Hf. apply handles_bind. by apply handles_keep. Qed.
End Phases.

Section StreamPhases.
Context {B : Type} `{Backend B} `{Protobuf} `{JsonText} (n : nat) (r : req_id).
Implicit Types (s : Server B).

Lemma handles_pick : handles n Before (idx ← atomic (with_ai pick_client); atomic (deref idx DivByZero) : prog (Server B) nat)
  (λ st k, ∃ z, st = Drawn z ∧ k = handle_of n z).
Proof.
  intros s a Ha Hn. unfold with_ai. rewrite Ha. destruct (pick_client a) as [idx a'] eqn:E.
  exists a', (Drawn (rr_counter a)). split; [done|]. revert E. unfold pick_client.
  destruct (ai_clients_ a) as [|m] eqn:Em; intros [= <- <-]; (split; [by constructor|]).
  - by intros s2 a2 Ha2 Hn2.
  - intros s2 a2 Ha2 Hn2. mred. exists a2, (Drawn (rr_counter a)). split_ands; [done|by constructor|].
    exists (rr_counter a). split; [done|]. by subst n.
Qed.
Lemma handles_use (b : bool) z : handles n (Drawn z) (atomic (use_handle (B := B) b (handle_of n z)))
  (λ st _, st = if b then Holding z else Drawn z).
Proof.
  intros s a Ha Hn. unfold use_handle, with_ai. destruct b; mred; rewrite ?Ha.
  - exists (hold_handle (handle_of n z) a), (Holding z). split_ands; [done|by constructor|done].
  - exists a, (Drawn z). split_ands; [done|by constructor|done].
Qed.
Lemma handles_drop (b : bool) z :
  handles n (if b then Holding z else Drawn z) (atomic (drop_handle (B := B) b (handle_of n z))) (λ _ _, True).
Proof.
  intros s a Ha Hn. unfold drop_handle, with_ai. destruct b; mred; rewrite ?Ha.
  - exists (release_handle (handle_of n z) a), Over. split_ands; [done|by constructor|done].
  - exists a, (Drawn z). split_ands; [done|by constructor|done].
Qed.

Let Kseq : ∀ a, same_handles a (next_seq r a) := λ a, conj eq_refl (conj eq_refl eq_refl).

Lemma handles_stream handle ok blocks time_text :
  handles n Before (process_stream_steps (B := B) r handle ok blocks time_text) (λ _ _, True).
Proof.
  unfold process_stream_steps; cbv zeta.
  apply handles_keep_bind; [apply steps_atomic, within_request, _|]. intros q.
  apply handles_keep_bind; [apply within_fd, _|]. intros f. case_if.
  { apply handles_keep; [apply steps_atomic, within_finish, _|done]. }
  assert (Hassoc : ∀ (k : nat → prog (Server B) unit) Φ,
    handles n Before ((idx ← atomic (with_ai pick_client); atomic (deref idx DivByZero)) ≫= k) Φ →
    handles n Before (idx ← atomic (with_ai pick_client); atomic (deref idx DivByZero) ≫= k) Φ) by done.
  apply Hassoc, handles_bind. clear Hassoc.
  assert (Hmono : ∀ {A} (p : prog (Server B) A) (Φ Ψ : phase → A → Prop), (∀ st a, Φ st a → Ψ st a) →
    ∀ st, handles n st p Φ → handles n st p Ψ).
  { intros A p Φ Ψ HΦ. induction p as [a| |X m k IHk h IHh]; intros st Hp; cbn in *; [auto..|].
    intros s a Ha Hn. specialize (Hp s a Ha Hn). destruct (m s) as [x s'|s'|e]; [..|done];
      destruct Hp as (a' & st' & ? & ? & Hp); exists a', st'; auto. }
  eapply Hmono; [|apply handles_pick]. intros st k (z & -> & ->).
  apply handles_keep_bind; [apply steps_atomic, within_gets, _|]. intros now.
  apply handles_bind. eapply Hmono; [|apply handles_use]. intros st _ ->.
  destruct (stream_chat handle ok blocks) as [texts success].
  apply handles_keep_bind; [by apply within_chunks; [apply _|]|]. intros l.
  apply handles_bind. eapply Hmono; [|apply handles_drop]. intros st _ _.
  apply handles_keep_bind; [case_if; [by apply within_complete; [apply _|]|done]|]. intros l'.
  apply handles_keep_bind; [case_if; [by apply within_pieces; [apply _|]|done]|]. intros _.
  apply handles_keep; [apply steps_atomic, within_finish, _|done].
Qed.
End StreamPhases.

(** ** All threads *)

Definition ticket (st : phase) : option Z := match st with Drawn z | Holding z => Some z | _ => None end.
Definition held (st : phase) : option Z := match st with Holding z => Some z | _ => None end.
Definition waits (st : phase) : option unit := match st with Before => Some tt | _ => None end.

(** The numbers drawn are distinct and lie between the first, [z0], and the
    counter; those still to be drawn fit below [z0 + n]; and the handles in use
    are those of the streams that hold one. *)
Record assigned (n : nat) (z0 : Z) (ps : list phase) (a : StreamingAIManager) : Prop := {
  as_distinct : NoDup (omap ticket ps);
  as_between : Forall (λ z, z0 ≤ z < rr_counter a)%Z (omap ticket ps);
  as_counter : (z0 ≤ rr_counter a ∧ rr_counter a + Z.of_nat (length (omap waits ps)) ≤ z0 + Z.of_nat n)%Z;
  as_in_use : ai_in_use a ≡ₚ map (handle_of n) (omap held ps)
}.

Lemma handle_of_inj (n : nat) (z0 x y : Z) :
  (z0 ≤ x < z0 + Z.of_nat n)%Z → (z0 ≤ y < z0 + Z.of_nat n)%Z → handle_of n x = handle_of n y → x = y.
Proof.
  intros Hx Hy E. unfold handle_of in E. assert (Hn : (0 < Z.of_nat n)%Z) by lia.
  pose proof (Z.mod_pos_bound x _ Hn). pose proof (Z.mod_pos_bound y _ Hn).
  pose proof (Z.div_mod x (Z.of_nat n) ltac:(lia)). pose proof (Z.div_mod y (Z.of_nat n) ltac:(lia)).
  assert (Em : (x `mod` Z.of_nat n = y `mod` Z.of_nat n)%Z) by lia.
  destruct (Z.lt_trichotomy (x / Z.of_nat n) (y / Z.of_nat n)) as [Hq|[Hq|Hq]]; [nia| |nia].
  rewrite Hq in *. lia.
Qed.

Lemma held_ticket (ps : list phase) (z : Z) : z ∈ omap held ps → z ∈ omap ticket ps.
Proof.
  rewrite !list_elem_of_omap. intros (st & Hin & E). exists st. split; [done|]. by destruct st.
Qed.
Lemma held_distinct (ps : list phase) : NoDup (omap ticket ps) → NoDup (omap held ps).
Proof.
  induction ps as [|st ps IH]; [done|]. destruct st as [|z|z|]; cbn; try done.
  - intros [_ Hn]%NoDup_cons. auto.
  - intros [Hz Hn]%NoDup_cons. apply NoDup_cons. split; [|auto]. by intros Hin%held_ticket.
Qed.

Lemma assigned_distinct n z0 ps a : assigned n z0 ps a → NoDup (ai_in_use a).
Proof.
  intros [Hd Hb Hc Hu]. rewrite Hu. apply NoDup_fmap_2_strong; [|by apply held_distinct].
  rewrite Forall_forall in Hb.
  intros x y Hx%held_ticket%Hb Hy%held_ticket%Hb. apply (handle_of_inj n z0); lia.
Qed.

Lemma assigned_same n z0 ps a a' : same_handles a a' → assigned n z0 ps a → assigned n z0 ps a'.
Proof. intros (_ & Er & Eu) [Hd Hb Hc Hu]. split; rewrite ?Er, ?Eu; done. Qed.

(** One thread's phase advances. *)
Lemma assigned_step n z0 l1 l2 st st' a a' :
  (0 ≤ z0)%Z → (z0 + Z.of_nat n < 2 ^ 64)%Z →
  phase_step n a a' st st' → assigned n z0 (l1 ++ st :: l2) a → assigned n z0 (l1 ++ st' :: l2) a'.
Proof.
  intros H0 Hn Hs Has. destruct Hs as [st Hk|Hcl Hr Hu|z Hcl Hr Hu|z Hcl Hr Hu]; [by eapply assigned_same|..];
    destruct Has as [Hd Hb Hc Hi]; revert Hd Hb Hc Hi; rewrite !omap_app; cbn; rewrite ?length_app; cbn [length];
    intros Hd Hb Hc Hi.
  - rewrite wrap_u64_id in Hr by (unfold is_u64; lia). split; rewrite ?omap_app; cbn; rewrite ?length_app, ?Hr.
    + rewrite <- Permutation_middle. apply NoDup_cons. split; [|done]. rewrite Forall_forall in Hb.
      intros Hin. specialize (Hb _ Hin). lia.
    + rewrite <- Permutation_middle. constructor; [lia|]. eapply Forall_impl; [exact Hb|]. cbn. lia.
    + lia.
    + by rewrite Hu.
  - split; rewrite ?omap_app; cbn; rewrite ?length_app, ?Hr; [done..|].
    rewrite Hu, <- Permutation_middle. cbn. by rewrite Hi.
  - split; rewrite ?omap_app; cbn; rewrite ?length_app, ?Hr.
    + rewrite <- Permutation_middle in Hd. by apply NoDup_cons in Hd as [_ Hd].
    + rewrite <- Permutation_middle in Hb. by apply Forall_cons in Hb as [_ Hb].
    + lia.
    + rewrite Hu. apply remove_one_perm. rewrite Hi, <- Permutation_middle. done.
Qed.

Section Threads.
Context {B : Type} (n : nat) (z0 : Z) (Hz0 : (0 ≤ z0)%Z) (Hn : (z0 + Z.of_nat n < 2 ^ 64)%Z).
Context (Env : Server B → Server B → Prop) (HE : ∀ s s', Env s s' → within same_handles s s').

(** Every thread is in some phase, and together they keep to the rules. *)
Definition in_phases (c : Server B * list (thread (Server B))) : Prop :=
  ∃ a ps, sv_ai c.1 = Some a ∧ ai_clients_ a = n ∧
    Forall2 (λ st t, handles n st (th_code t) (λ _ _, True)) ps c.2 ∧ assigned n z0 ps a.

Lemma in_phases_step (s s' : Server B) ts i p t ps st st' a a' :
  sv_ai s' = Some a' → ai_clients_ a = n → ps !! i = Some st → phase_step n a a' st st' →
  Forall2 (λ st t, handles n st (th_code t) (λ _ _, True)) ps ts → assigned n z0 ps a →
  th_code t = p → handles n st' p (λ _ _, True) → in_phases (s', <[i := t]> ts).
Proof.
  intros Ha' Hcl Hi Hs Hps Has <- Hp. exists a', (<[i := st']> ps). split_ands; [done| | |].
  - destruct Hs as [st (E & _)|E|z E|z E]; congruence.
  - by apply Forall2_insert.
  - rewrite <- (take_drop_middle ps i st Hi) in Has. rewrite insert_take_drop by by eapply lookup_lt_Some.
    by eapply assigned_step.
Qed.

Lemma in_phases_reach c c' : rtc (threads_step Env) c c' → in_phases c → in_phases c'.
Proof.
  induction 1 as [c|c1 c2 c3 Hs _ IH]; [done|]. intros (a & ps & Ha & Hcl & Hps & Has). apply IH. clear IH.
  destruct Hs as [i X m k h tr x s s' ts Hi Hm|i X m k h tr s s' ts Hi Hm|s s' ts Henv].
  - destruct (Forall2_lookup_r _ _ _ _ _ Hps Hi) as (st & Hst & Hh). specialize (Hh s a Ha Hcl). rewrite Hm in Hh.
    destruct Hh as (a' & st' & Ha' & Hs & Hh). by eapply in_phases_step.
  - destruct (Forall2_lookup_r _ _ _ _ _ Hps Hi) as (st & Hst & Hh). specialize (Hh s a Ha Hcl). rewrite Hm in Hh.
    destruct Hh as (a' & st' & Ha' & Hs & Hh). by eapply in_phases_step.
  - destruct (HE s s' Henv a Ha) as (a' & Ha' & Hs). exists a', ps. split_ands; [done| |done|by eapply assigned_same].
    destruct Hs. cbn in *. congruence.
Qed.
End Threads.
