(* ===== verification/Interplay.v ===== *)
(** * Requests and streams side by side

    The steps of requests leave the records of running streams alone, those of
    a stream touch its own record only, and so do the loops, the scheduler and
    the rest of the server.  With the rely-guarantee rule of Steps.v this
    composes Concurrent.v and StreamSteps.v: any number of requests and streams
    at once. *)

From S2P Require Import Prelude Steps Bytes Config Protocol Framing Timer ThreadPool Context EventLoop.
From S2P Require Import Session Json RefCodec Llama AiManager FileStore DbWriter World Business Stream Worker.
From S2P Require Import ConnTable System Delivery Requests BusinessSteps Concurrent Interference StreamProps StreamSteps Within Handles.

(** ** Steps that leave streams alone *)

(** The requests that have left the queue are as they were, except perhaps
    those in [X]. *)
Abbreviation leaves X := (within (calm X)).



(** ** The rest of the server *)

Section Rest.
Context {B : Type} `{BackendTotal B} `{Protobuf} `{JsonText}.
Implicit Types (s : Server B) (c : ctx_id).



(** The steps of a stream keep the server up. *)
Lemma steady_read {A} (m : M (Server B) A) :
  (∀ s, match m s with Ret _ s' | Throw s' => s' = s | Crash _ => True end) → respects steady m.
Proof. apply respects_read, _. Qed.
Lemma steady_with_ai {A} (f : StreamingAIManager → A * StreamingAIManager) : respects steady (with_ai f : M (Server B) A).
Proof.
  intros s. unfold with_ai. destruct (sv_ai s) as [a|]; [|done]. destruct (f a) as [v a']. intros Hw.
  split; [by apply world_set_ai|]. eauto.
Qed.
Lemma steady_queue w c cm n body : respects steady (queue_send_packet w c cm n body : M (Server B) unit).
Proof.
  intros s. unfold queue_send_packet. destruct (queue_functor w _ s) as [[] s'|s'|e] eqn:E; [|exfalso|done].
  - eapply quiet_steady; [apply (quiet_queue_functor w (FSend c cm n body)); reflexivity|apply frame_queue_functor|exact E].
  - revert E. unfold queue_functor, worker_of, mod_worker. mred. by destruct (sv_workers s !! w).
Qed.
Lemma steady_gets {A} (f : Server B → A) : respects steady (gets f).
Proof. by apply steady_read. Qed.
End Rest.

Create HintDb steady discriminated.
#[export] Hint Resolve steady_with_ai steady_queue steady_gets : steady.

Section StreamSteady.
Context {B : Type} `{BackendTotal B} `{Protobuf} `{JsonText} (r : req_id).
Implicit Types (s : Server B) (c : ctx_id).

End StreamSteady.

(** ** Any number of requests and streams *)

(** A task of the thread pool: a packet's, or the stream of request [r], whose
    record is [q], with what the AI service will do. *)
Inductive job :=
  | JRequest (q : request)
  | JStream (r : req_id) (q : StreamRequest) (handle transfer_ok : bool) (blocks : list bytes) (time_text : bytes).
Definition job_stream (j : job) : option req_id := match j with JStream r _ _ _ _ _ => Some r | JRequest _ => None end.


Section Jobs.
Context {B : Type} `{BackendTotal B} `{Protobuf} `{JsonText}.
Implicit Types (s : Server B).


(** What a job copes with, and what it does. *)
Definition relies (j : option job) : Server B → Server B → Prop :=
  match j ≫= job_stream with Some r => tolerates r | None => steady end.

#[local] Instance relies_preorder j : PreOrder (relies j).
Proof. unfold relies. destruct (j ≫= job_stream); apply _. Qed.




End Jobs.

(** ** Witness *)


