(* ===== verification/Races.v ===== *)
(** * Races (src/business.cpp, include/session_manager.h, src/ai_manager.cpp)

    Interleavings of atomic steps that go wrong, all of them runs of the steps
    of BusinessSteps.v and StreamSteps.v. *)

From S2P Require Import Prelude Steps Bytes Config Protocol Framing Timer ThreadPool Context EventLoop.
From S2P Require Import Session Json RefCodec Llama AiManager FileStore DbWriter World Business Stream Worker.
From S2P Require Import ConnTable System Delivery Requests BusinessSteps Concurrent Interference StreamProps StreamSteps.

Abbreviation DemoServer := (Server (HashedDB len_hash)).

(** ** A message that arrives while its addressee logs in *)

(** Alice's login, while the writer stores one more message for her before
    its step number [k]. *)
Definition late_mail : DBChatMessage := mkDBMsg 0 8 1000 (str "late") 0 false.
Definition store_late (s : DemoServer) : DemoServer :=
  match sv_db s with
  | Some d =>
      match store_batch [late_mail] (hashed_db (backend d)) with
      | Ret _ f => set_db (Some (mkWriter (queue_ d) (db_running_ d) (mkHashed f))) s
      | _ => s
      end
  | None => s
  end.
Definition late_env (k i : nat) (s : DemoServer) : DemoServer := if (i =? k)%nat then store_late s else s.

Definition login_prog : prog DemoServer unit :=
  process_business_steps 0 mail_header (SerializeToString (mkLogin (str "alice") (str "pw"))).

Lemma late_env_steady k i s : steady s (late_env k i s).
Proof.
  unfold late_env, store_late. destruct (i =? k)%nat; [|reflexivity]. destruct (sv_db s) as [d|] eqn:Hd; [|reflexivity].
  destruct (store_batch _ _); [|reflexivity..]. apply (other_steady []), ot_writer.
Qed.

(** The packets that wait for the client of context [c]. *)
Definition packets_for (c : ctx_id) (s : DemoServer) : list (Z * bytes) :=
  match sv_workers s !! 0 with
  | Some k => omap (λ f, match f with FSend d cm _ body => if decide (d = c) then Some (cm, body) else None
                                    | _ => None end) (pending_functors_ (loop_ k))
  | None => []
  end.
(** Is [text] among the contents of the chat messages? *)
Definition tells (text : bytes) (l : list (Z * bytes)) : bool :=
  existsb (λ p, match ParseFromString p.2 : option ChatMessage with
                | Some m => (p.1 =? cmd_val CHAT)%Z && bool_decide (content m = text)
                | None => false end) l.
Definition undelivered (u : Z) (s : DemoServer) : list bytes :=
  match sv_db s with
  | Some d => omap (λ m, if (fm_to m =? u)%Z && negb (fm_delivered m) then Some (fm_content m) else None)
                   (file_messages_ (hashed_db (backend d)))
  | None => []
  end.

(** A message for Alice that the writer stores after her login has asked for
    her stored messages and before it marks them is lost: she is told of the
    first one only, and nothing is left to deliver. *)
Theorem login_loses_late_mail :
  let '(tr, r) := exec (late_env 7) 0 login_prog demo_mail in
  (∀ i s, steady s (late_env 7 i s)) ∧
  ∃ s', r = Ret tt s' ∧ tells (str "hello") (packets_for 0 s') = true ∧
    tells (str "late") (packets_for 0 s') = false ∧ undelivered 1000 s' = [].
Proof.
  pose (q := λ s', tells (str "hello") (packets_for 0 s') && negb (tells (str "late") (packets_for 0 s')) &&
                   bool_decide (undelivered 1000 s' = [])).
  assert (E : match (exec (late_env 7) 0 login_prog demo_mail).2 with Ret tt s' => q s' | _ => false end = true)
    by (vm_compute; reflexivity).
  destruct (exec (late_env 7) 0 login_prog demo_mail) as [tr [[] s'|s'|r]]; cbn [snd] in E; [|done..].
  split; [apply late_env_steady|]. exists s'. unfold q in E. zbool. done.
Qed.

(** ** Two logins of one user at once *)

(** Three clients on one worker; the first is logged in as Alice. *)
Definition race_env : environment := λ name,
  if decide (name = str "IM_POOL_SIZE") then Some (str "3") else None.
Definition race_setup : M DemoServer unit :=
  start_workers 1 ;;
  accept_connection 0 5 (str "10.0.0.1") 4000 ;;
  accept_connection 0 6 (str "10.0.0.2") 4000 ;;
  accept_connection 0 7 (str "10.0.0.3") 4000 ;;
  loop_iteration 0 [EvWakeup] ;;
  process_business 2 mail_header (SerializeToString (mkLogin (str "alice") (str "pw"))).
Definition race_server : DemoServer :=
  match race_setup (empty_server race_env (new_ai 2) demo_db 2) with Ret _ s => s | _ => demo_server end.

Definition alice_login (c : ctx_id) : request :=
  mkRequest c mail_header (SerializeToString (mkLogin (str "alice") (str "pw"))).
Definition closing (f : Z) (s : DemoServer) : bool :=
  match sv_workers s !! 0 with
  | Some k => existsb (λ g, match g with FClose d => (d =? f)%Z | _ => false end) (pending_functors_ (loop_ k))
  | None => false
  end.

(** Both requests look the old session up before either stores its own. *)
Definition race_schedule : list nat := replicate 3 0 ++ replicate 3 1 ++ replicate 20 0 ++ replicate 20 1.

(** Alice logs in from two further connections at once.  [bind] gives up its
    lock to close the old session's connection, so both requests can find the
    same old session: then the session table names the second, and the first
    stays open and logged in as Alice although nobody will close it and no
    message reaches it. *)
Theorem two_logins_leave_orphan :
  ∃ s' ts' x, rtc (threads_step (other_step [])) (race_server, map request_thread [alice_login 0; alice_login 1]) (s', ts') ∧
    forallb ended ts' = true ∧ get_session 1000 (sv_sessions s') = Some 1 ∧
    ctxs (sv_heap s') !! 0 = Some x ∧ fd x = 7%Z ∧ uid x = 1000%Z ∧ logged_in x = true ∧ closing 7 s' = false.
Proof.
  pose (q := λ (s' : DemoServer) (ts' : list (thread DemoServer)), forallb ended ts' && bool_decide (get_session 1000 (sv_sessions s') = Some 1) &&
    bool_decide ((λ x, (fd x, uid x, logged_in x)) <$> ctxs (sv_heap s') !! 0 = Some (7%Z, 1000%Z, true)) &&
    negb (closing 7 s')).
  assert (E : match run_schedule race_schedule race_server (map request_thread [alice_login 0; alice_login 1]) with
              | Some (s', ts') => q s' ts' | None => false end = true) by (vm_compute; reflexivity).
  destruct (run_schedule race_schedule race_server _) as [[s' ts']|] eqn:Er; [|done].
  apply (run_schedule_steps (other_step [])) in Er. unfold q in E. zbool.
  destruct (ctxs (sv_heap s') !! 0) as [x|] eqn:Hx; [|done]. exists s', ts', x. cbn in *. simplify_eq. eauto 10.
Qed.

(** ** Two messages of one client at once *)

(** One message per window; the window has not begun. *)
Definition limit_env : environment := λ name,
  if decide (name = str "IM_RATE_LIMIT_MSGS") then Some (str "1")
  else if decide (name = str "IM_POOL_SIZE") then Some (str "3") else None.
Definition limit_setup : M DemoServer unit :=
  start_workers 1 ;;
  accept_connection 0 5 (str "10.0.0.1") 4000 ;;
  loop_iteration 0 [EvWakeup] ;;
  modify (set_clocks 1000000000%Z 1000%Z).
Definition limit_server : DemoServer :=
  match limit_setup (empty_server limit_env (new_ai 2) demo_db 2) with Ret _ s => s | _ => demo_server end.
Definition hello : request :=
  mkRequest 0 chat_header (SerializeToString (mkChat 0 1000 (str "hi") 0 false false 0)).
(** How many messages wait for the writer. *)
Definition accepted (s : DemoServer) : nat := match sv_db s with Some d => length (queue_ d) | None => 0 end.
(** The first thread stops before it writes the counter back. *)
Definition limit_schedule : list nat := replicate 6 0 ++ replicate 20 1 ++ replicate 20 0.

(** The counter of the rate limit is a plain [int] and the requests of one
    client run on several threads.  With a limit of one message, two messages
    handled one after the other are one accepted and one refused; handled at
    once both are accepted, and the counter says one. *)
Theorem rate_limit_races :
  ∃ s' ts' s1 s2 x,
    rtc (threads_step (other_step [])) (limit_server, map request_thread [hello; hello]) (s', ts') ∧
    forallb ended ts' = true ∧ accepted s' = 2 ∧ ctxs (sv_heap s') !! 0 = Some x ∧ rate_msg_count x = 1%Z ∧
    process_business 0 (rq_hdr hello) (rq_body hello) limit_server = Ret tt s1 ∧
    process_business 0 (rq_hdr hello) (rq_body hello) s1 = Ret tt s2 ∧ accepted s2 = 1.
Proof.
  pose (q := λ (s' : DemoServer) (ts' : list (thread DemoServer)), forallb ended ts' && (accepted s' =? 2)%nat &&
    bool_decide (rate_msg_count <$> ctxs (sv_heap s') !! 0 = Some 1%Z)).
  assert (E : match run_schedule limit_schedule limit_server (map request_thread [hello; hello]) with
              | Some (s', ts') => q s' ts' | None => false end = true) by (vm_compute; reflexivity).
  assert (E1 : match process_business 0 (rq_hdr hello) (rq_body hello) limit_server with
    | Ret tt s1 => match process_business 0 (rq_hdr hello) (rq_body hello) s1 with
                   | Ret tt s2 => (accepted s2 =? 1)%nat | _ => false end
    | _ => false end = true) by (vm_compute; reflexivity).
  destruct (run_schedule limit_schedule limit_server _) as [[s' ts']|] eqn:Er; [|done].
  destruct (process_business 0 _ _ limit_server) as [[] s1|s1|r]; [|discriminate E1..].
  destruct (process_business 0 _ _ s1) as [[] s2|s2|r] eqn:P2; [|discriminate E1..].
  apply (run_schedule_steps (other_step [])) in Er. unfold q in E. apply andb_true_iff in E as [[E2 E3]%andb_true_iff E4].
  apply Nat.eqb_eq in E1, E3. apply bool_decide_eq_true in E4. apply fmap_Some in E4 as (x & Hx & Hc).
  exists s', ts', s1, s2, x. split_ands; first [exact Er|exact E2|exact E3|exact Hx|symmetry; exact Hc|exact E1|exact P2|reflexivity].
Qed.

(** ** A stream whose client goes away *)

(** Client 5 has asked the AI something; its stream is about to start. *)
Definition question : bytes := str "几点".
Definition answer : bytes := str "现在是 12:00".
Definition ask_ai : M DemoServer unit :=
  process_business 0 chat_header (SerializeToString (mkChat 0 AI_UID question 0 false false 0)) ;; schedule_step.
Definition asking : DemoServer := match ask_ai demo_connected with Ret _ s => s | _ => demo_connected end.

(** Before step [k] of the stream client 5 hangs up and client 6 connects; the
    worker gives it the context that became free. *)
Definition replace_client : M DemoServer unit :=
  loop_iteration 0 [EvConn 0 EPOLLRDHUP (mkIO [] RClosed [])] ;;
  accept_connection 0 6 (str "10.0.0.2") 4000 ;;
  loop_iteration 0 [EvWakeup].
Definition replacing (k i : nat) (s : DemoServer) : DemoServer :=
  if (i =? k)%nat then match replace_client s with Ret _ s' => s' | _ => s end else s.
Definition run_demo : history DemoServer * result DemoServer unit :=
  exec (replacing 5) 0 (process_stream_steps 0 true false [] (str "12:00")) asking.
(** The texts of the chat messages that wait to be written to descriptor [f]. *)
Definition outgoing (f : Z) (s : DemoServer) : bytes :=
  match sv_workers s !! 0 with
  | Some k =>
      match connections_ k !! f with
      | Some p =>
          match sv_conns s !! p with
          | Some t =>
              match ctxs (sv_heap s) !! tc_ctx t with
              | Some x => concat (map (λ fr, match ParseFromString fr.2 : option ChatMessage with
                                             | Some m => content m | None => [] end) (parse_frames (send_buf x)).1.1)
              | None => []
              end
          | None => []
          end
      | None => []
      end
  | None => []
  end.
(** Has the AI manager an active stream for descriptor [f]? *)
Definition streaming_to (f : Z) (s : DemoServer) : bool :=
  match sv_ai s with Some a => bool_decide (is_Some (active_streams_ a !! f)) | None => false end.

(** A stream holds its context, not its connection.  When the client hangs up
    while its answer is being made and the context goes to the next client,
    that client is sent the answer to the other one's question; and because
    the stream ends under the new descriptor, its slot under the old one is
    never given back. *)
Theorem stream_reaches_stranger :
  ∃ s1 s2, run_demo.2 = Ret tt s1 ∧ loop_iteration 0 [EvWakeup] s1 = Ret tt s2 ∧
    outgoing 6 s2 = answer ∧ streaming_to 5 s2 = true ∧ streaming_to 6 s2 = false.
Proof.
  pose (q := λ s2, bool_decide (outgoing 6 s2 = answer) && streaming_to 5 s2 && negb (streaming_to 6 s2)).
  assert (E : match run_demo.2 with
              | Ret tt s1 => match loop_iteration 0 [EvWakeup] s1 with Ret tt s2 => q s2 | _ => false end
              | _ => false end = true) by (vm_compute; reflexivity).
  destruct run_demo.2 as [[] s1|s1|r]; [|done..].
  destruct (loop_iteration 0 [EvWakeup] s1) as [[] s2|s2|r] eqn:E2; [|done..].
  exists s1, s2. unfold q in E. zbool. done.
Qed.

(** ** More streams than handles *)

(** With two AI clients, client 5 asks three times before the scheduler gets to
    run.  The table of active streams has one entry per descriptor, so the
    scheduler then starts all three. *)
Definition ask_thrice : M DemoServer unit :=
  for_each (λ n, process_business 0 (mkHeader PROTO_MAGIC 0 (cmd_val CHAT) n)
                   (SerializeToString (mkChat 0 AI_UID question 0 false false 0))) [3; 4; 5]%Z ;;
  for_each (λ _ : nat, schedule_step) [0; 1; 2].
Definition asking_thrice : DemoServer :=
  match ask_thrice (set_ai (Some (new_ai 2)) demo_connected) with Ret _ s => s | _ => demo_connected end.
Definition three_streams : list (thread DemoServer) :=
  map (λ r, mkThread (process_stream_steps r true true [str "data: [DONE]" ++ nl] []) []) [0; 1; 2].
(** Each stream is run into its transfer, one after the other. *)
Definition into_transfer : list nat := concat (map (replicate 6) [0; 1; 2]).
Definition in_use (s : DemoServer) : list nat := match sv_ai s with Some a => ai_in_use a | None => [] end.

(** Nothing reserves a CURL handle: the third stream uses the one that the
    first is still using, which libcurl forbids.  All it takes is one user who
    asks once more than there are clients. *)
Theorem handle_shared :
  ∃ s', ask_thrice (set_ai (Some (new_ai 2)) demo_connected) = Ret tt asking_thrice ∧
    ∃ ts', rtc (threads_step (other_step [0; 1; 2])) (asking_thrice, three_streams) (s', ts') ∧
    in_use s' = [0; 1; 0] ∧ ¬ NoDup (in_use s').
Proof.
  assert (E : match run_schedule into_transfer asking_thrice three_streams with
              | Some (s', _) => bool_decide (in_use s' = [0; 1; 0]) | None => false end = true) by (vm_compute; reflexivity).
  assert (Ea : match ask_thrice (set_ai (Some (new_ai 2)) demo_connected) with Ret tt _ => true | _ => false end = true)
    by (vm_compute; reflexivity).
  destruct (run_schedule into_transfer asking_thrice three_streams) as [[s' ts]|] eqn:Er; [|discriminate E].
  apply (run_schedule_steps (other_step [0; 1; 2])) in Er. apply bool_decide_eq_true in E.
  exists s'. split.
  - unfold asking_thrice. destruct (ask_thrice _) as [[] s1|s1|r]; [reflexivity|discriminate Ea..].
  - exists ts. split_ands; [exact Er|exact E|]. rewrite E.
    clear. intros [Hn _]%NoDup_cons. apply Hn. right. left.
Qed.
