(* ===== verification/ClientNet.v ===== *)
(** * The terminal client's packets (chat_client.cpp)

    How [receive_loop] cuts the bytes of the socket into packets, skipping
    bytes until the magic number, and that it undoes what the server sends. *)

From S2P Require Import Prelude Bytes Config Protocol Framing.

(** ** The packet loop of [receive_loop] *)

Inductive recv_step :=
  | RWait
  | RSkip                              (* not at a packet: one byte is dropped *)
  | RBroken                            (* [full_len] wrapped: the body's range is reversed *)
  | RPacket (command : Z) (body rest : bytes).

(** One round for a buffer; [full_len] is a [uint32_t]. *)
Definition recv_one (buffer : bytes) : recv_step :=
  if (length buffer <? sizeof_PacketHeader)%nat then RWait
  else
    let hdr := header_at buffer in
    if negb (magic hdr =? PROTO_MAGIC)%Z then RSkip
    else
      let full_len := wrap_u32 (Z.of_nat sizeof_PacketHeader + body_len hdr) in
      if (Z.of_nat (length buffer) <? full_len)%Z then RWait
      else if (full_len <? Z.of_nat sizeof_PacketHeader)%Z then RBroken
      else RPacket (cmd hdr) (drop sizeof_PacketHeader (take (Z.to_nat full_len) buffer))
                   (drop (Z.to_nat full_len) buffer).

(** The loop: commands and bodies in order, what stays in the buffer, and
    whether it went well ([false]: the process dies).  Every round that goes
    on drops at least one byte. *)
Fixpoint recv_loop (fuel : nat) (buffer : bytes) : list (Z * bytes) * bytes * bool :=
  match fuel with
  | O => ([], buffer, true)
  | S f =>
      match recv_one buffer with
      | RWait => ([], buffer, true)
      | RBroken => ([], buffer, false)
      | RSkip => recv_loop f (drop 1 buffer)
      | RPacket command body rest =>
          let '(ps, r, ok) := recv_loop f rest in ((command, body) :: ps, r, ok)
      end
  end.
Definition recv_packets (buffer : bytes) : list (Z * bytes) * bytes * bool :=
  recv_loop (length buffer) buffer.

(** Successive answers of [recv]. *)
Fixpoint recv_feed (buffer : bytes) (pieces : list bytes) : list (Z * bytes) * bytes * bool :=
  match pieces with
  | [] => ([], buffer, true)
  | p :: ps =>
      let '(fs, r, ok) := recv_packets (buffer ++ p) in
      if ok then let '(fs', r', ok') := recv_feed r ps in (fs ++ fs', r', ok') else (fs, r, false)
  end.

(** ** Lemmas *)

Lemma recv_one_skip (buffer : bytes) : recv_one buffer = RSkip → length (drop 1 buffer) < length buffer.
Proof.
  unfold recv_one. case_if; [done|]. zbool. rewrite length_drop. unfold sizeof_PacketHeader in *. lia.
Qed.

Lemma RPacket_inj c c' b b' r r' : RPacket c b r = RPacket c' b' r' → c = c' ∧ b = b' ∧ r = r'.
Proof. by intros [= -> -> ->]. Qed.

Lemma recv_one_packet (buffer : bytes) command body rest :
  recv_one buffer = RPacket command body rest →
  length rest < length buffer ∧
  buffer = header_bytes (header_at buffer) ++ body ++ rest ∧ command = cmd (header_at buffer).
Proof.
  unfold recv_one. case_if; [done|]. case_if; [done|]. case_if; [done|]. case_if; [done|].
  intros (<- & <- & <-)%RPacket_inj. zbool. split_ands; [|..|done].
  - rewrite length_drop. unfold sizeof_PacketHeader in *. lia.
  - rewrite header_at_inv by done. set (n := Z.to_nat (wrap_u32 _)).
    assert (sizeof_PacketHeader ≤ n) by lia.
    replace (take sizeof_PacketHeader buffer) with (take sizeof_PacketHeader (take n buffer))
      by (rewrite take_take; f_equal; lia).
    by rewrite app_assoc, take_drop, take_drop.
Qed.

Lemma recv_loop_fuel (f g : nat) (b : bytes) :
  length b ≤ f → length b ≤ g → recv_loop f b = recv_loop g b.
Proof.
  revert g b. induction f as [|f IH]; intros [|g] b Hf Hg; cbn [recv_loop].
  - done.
  - assert (b = []) as -> by (destruct b; simpl in *; [done|lia]). done.
  - assert (b = []) as -> by (destruct b; simpl in *; [done|lia]). done.
  - destruct (recv_one b) as [| | |c body rest] eqn:E; [done| |done|].
    + apply recv_one_skip in E. by rewrite (IH g) by lia.
    + apply recv_one_packet in E as [E _]. by rewrite (IH g) by lia.
Qed.

(** The equation of the loop, without fuel. *)
Lemma recv_packets_unfold (b : bytes) :
  recv_packets b =
  match recv_one b with
  | RWait => ([], b, true)
  | RBroken => ([], b, false)
  | RSkip => recv_packets (drop 1 b)
  | RPacket command body rest => let '(ps, r, ok) := recv_packets rest in ((command, body) :: ps, r, ok)
  end.
Proof.
  unfold recv_packets. destruct (length b) as [|n] eqn:En.
  - destruct b; [done|discriminate].
  - cbn [recv_loop]. destruct (recv_one b) as [| | |c body rest] eqn:E; [done| |done|].
    + apply recv_one_skip in E. by rewrite (recv_loop_fuel n (length (drop 1 b))) by lia.
    + apply recv_one_packet in E as [E _]. by rewrite (recv_loop_fuel n (length rest)) by lia.
Qed.

Lemma recv_ind (P : bytes → Prop) :
  (∀ b, (recv_one b = RSkip → P (drop 1 b)) → (∀ c body rest, recv_one b = RPacket c body rest → P rest) → P b) →
  ∀ b, P b.
Proof.
  intros HP b. remember (length b) as n eqn:En. revert b En. induction n as [n IH] using lt_wf_ind.
  intros b ->. apply HP.
  - intros E%recv_one_skip. by eapply IH.
  - intros c body rest [E _]%recv_one_packet. by eapply IH.
Qed.

(** What is left cannot make progress. *)
Lemma recv_rest (b r : bytes) ps : recv_packets b = (ps, r, true) → recv_one r = RWait.
Proof.
  revert ps. induction b as [b IHs IHp] using recv_ind. intros ps. rewrite recv_packets_unfold.
  destruct (recv_one b) as [| | |c body rest] eqn:E; [by intros [= _ <-]|by apply IHs|done|].
  destruct (recv_packets rest) as [[ps' r'] ok] eqn:Er. intros [= _ -> ->]. by eapply IHp.
Qed.

Lemma recv_stuck (b r : bytes) ps : recv_packets b = (ps, r, false) → recv_one r = RBroken.
Proof.
  revert ps. induction b as [b IHs IHp] using recv_ind. intros ps. rewrite recv_packets_unfold.
  destruct (recv_one b) as [| | |c body rest] eqn:E; [done|by apply IHs|by intros [= _ <-]|].
  destruct (recv_packets rest) as [[ps' r'] ok] eqn:Er. intros [= _ -> ->]. by eapply IHp.
Qed.

(** A decision other than waiting is not changed by more bytes. *)
Lemma recv_one_more (b more : bytes) :
  match recv_one b with
  | RWait => True
  | RSkip => recv_one (b ++ more) = RSkip
  | RBroken => recv_one (b ++ more) = RBroken
  | RPacket c body rest => recv_one (b ++ more) = RPacket c body (rest ++ more)
  end.
Proof.
  unfold recv_one. destruct (length b <? _)%nat eqn:E1; [done|]. zbool.
  rewrite length_app, (proj2 (Nat.ltb_ge (length b + length more) _)) by lia.
  rewrite header_at_app by done. case_if; [done|].
  destruct (Z.of_nat (length b) <? _)%Z eqn:E2; [done|]. zbool.
  rewrite (proj2 (Z.ltb_ge (Z.of_nat (length b + length more)) _)) by lia.
  case_if; [done|]. zbool. f_equal.
  - by rewrite take_app_le by lia.
  - by rewrite drop_app_le by lia.
Qed.

Lemma recv_packets_app (b more : bytes) :
  recv_packets (b ++ more) =
  let '(ps, r, ok) := recv_packets b in
  if ok then let '(ps', r', ok') := recv_packets (r ++ more) in (ps ++ ps', r', ok')
  else (ps, r ++ more, false).
Proof.
  induction b as [b IHs IHp] using recv_ind. pose proof (recv_one_more b more) as Hm.
  rewrite (recv_packets_unfold b). destruct (recv_one b) as [| | |c body rest] eqn:E.
  - by destruct (recv_packets (b ++ more)) as [[ps r] ok].
  - rewrite recv_packets_unfold, Hm. rewrite <- (IHs eq_refl). f_equal.
    rewrite drop_app_le; [done|]. apply recv_one_skip in E. lia.
  - by rewrite recv_packets_unfold, Hm.
  - rewrite recv_packets_unfold, Hm, (IHp _ _ _ eq_refl).
    destruct (recv_packets rest) as [[ps r] ok]. destruct ok; [|done].
    by destruct (recv_packets (r ++ more)) as [[ps' r'] ok'].
Qed.

(** Cutting the stream does not matter. *)
Lemma recv_feed_concat (pieces : list bytes) : ∀ b ps r,
  recv_one b = RWait → recv_packets (b ++ concat pieces) = (ps, r, true) →
  recv_feed b pieces = (ps, r, true).
Proof.
  induction pieces as [|p pieces IH]; intros b ps r Hb; cbn [recv_feed concat].
  - rewrite app_nil_r, recv_packets_unfold, Hb. done.
  - rewrite app_assoc, recv_packets_app. destruct (recv_packets (b ++ p)) as [[ps1 r1] ok1] eqn:E1.
    destruct ok1; [|done]. destruct (recv_packets (r1 ++ concat pieces)) as [[ps2 r2] ok2] eqn:E2.
    intros [= <- <- ->]. by rewrite (IH r1 ps2 r2 (recv_rest _ _ _ E1) E2).
Qed.

(** A packet the server can send: command, sequence number, body. *)
Definition sendable (q : Z * Z * bytes) : Prop :=
  is_u32 q.1.1 ∧ is_u32 q.1.2 ∧ (Z.of_nat (length q.2) < 2 ^ 32 - 16)%Z.

Lemma recv_one_sent (q : Z * Z * bytes) (rest : bytes) :
  sendable q → recv_one (packet_bytes q ++ rest) = RPacket q.1.1 q.2 rest.
Proof.
  destruct q as [[c n] body]. unfold sendable, packet_bytes, make_packet. cbn [fst snd]. intros (Hc & Hn & Hl).
  set (h := mkHeader _ _ _ _).
  assert (Hb : wrap_u32 (Z.of_nat (length body)) = Z.of_nat (length body)) by (apply wrap_u32_id; unfold is_u32; lia).
  assert (Hh : header_wf h).
  { unfold header_wf. cbn. split_ands; try done. apply wrap_u32_range. }
  unfold recv_one. rewrite <- app_assoc, header_at_bytes by done.
  change (magic h) with PROTO_MAGIC. change (cmd h) with c.
  change (body_len h) with (wrap_u32 (Z.of_nat (length body))).
  rewrite !length_app, header_bytes_length, Hb. rewrite (proj2 (Nat.ltb_ge _ _)) by lia.
  rewrite Z.eqb_refl. cbn [negb]. unfold sizeof_PacketHeader.
  rewrite wrap_u32_id by (unfold is_u32; lia). rewrite !(proj2 (Z.ltb_ge _ _)) by lia.
  replace (Z.to_nat (Z.of_nat 16 + Z.of_nat (length body))) with (16 + length body) by lia.
  assert (Hlen : length (header_bytes h ++ body) = 16 + length body) by (rewrite length_app; done).
  rewrite (app_assoc (header_bytes h)), take_app_length', drop_app_length' by done.
  by rewrite drop_app_length' by done.
Qed.

Lemma recv_packets_sent (ps : list (Z * Z * bytes)) (tail : bytes) :
  Forall sendable ps → recv_one tail = RWait →
  recv_packets (concat (map packet_bytes ps) ++ tail) = (map (λ q, (q.1.1, q.2)) ps, tail, true).
Proof.
  intros Hps Ht. induction Hps as [|q ps Hq _ IH]; cbn [map concat app].
  - by rewrite recv_packets_unfold, Ht.
  - by rewrite <- app_assoc, recv_packets_unfold, recv_one_sent, IH.
Qed.

(** Bytes at no position of which the magic number begins. *)
Definition junk_before (junk rest : bytes) : Prop :=
  ∀ i, i < length junk → of_le32 (drop i (junk ++ rest)) ≠ PROTO_MAGIC.

Lemma recv_skips (junk rest : bytes) :
  sizeof_PacketHeader ≤ length rest → junk_before junk rest → recv_packets (junk ++ rest) = recv_packets rest.
Proof.
  intros Hl. induction junk as [|b junk IH]; intros Hj; [done|]. cbn [app].
  rewrite recv_packets_unfold. unfold recv_one. cbn [length]. rewrite length_app.
  rewrite (proj2 (Nat.ltb_ge _ _)) by lia.
  assert (Hm : (magic (header_at (b :: junk ++ rest)) =? PROTO_MAGIC)%Z = false).
  { apply Z.eqb_neq. apply (Hj 0). simpl. lia. }
  rewrite Hm. cbn [negb drop]. rewrite drop_0. apply IH. intros i Hi. apply (Hj (S i)). simpl. lia.
Qed.

(** ** Properties *)

(** C18. The client hears what the server says: packets of the server, cut by
    the network into any pieces, after any bytes in which the magic number
    does not occur and before an incomplete packet, are handed over as
    exactly those commands and bodies, in order; the foreign bytes are skipped
    and the incomplete packet stays in the buffer. *)
Theorem client_receives (junk tail : bytes) (q : Z * Z * bytes) (ps : list (Z * Z * bytes)) (pieces : list bytes) :
  Forall sendable (q :: ps) → recv_one tail = RWait →
  junk_before junk (concat (map packet_bytes (q :: ps)) ++ tail) →
  concat pieces = junk ++ concat (map packet_bytes (q :: ps)) ++ tail →
  recv_feed [] pieces = (map (λ q, (q.1.1, q.2)) (q :: ps), tail, true).
Proof.
  intros Hps Ht Hj Hc. apply recv_feed_concat; [done|]. cbn [app]. rewrite Hc.
  rewrite recv_skips; [by apply recv_packets_sent| |done].
  unfold packet_bytes, make_packet. cbn [map concat]. rewrite !length_app, header_bytes_length. lia.
Qed.

Lemma client_receives_witness :
  recv_feed [] [[x41; xef]; [x42] ++ take 7 (make_packet 3 1 (str "ok")); drop 7 (make_packet 3 1 (str "ok")) ++ [xef]]
  = ([(3%Z, str "ok")], [xef], true).
Proof.
  apply (client_receives [x41; xef; x42] [xef] (3%Z, 1%Z, str "ok") []).
  - repeat constructor; cbn; unfold is_u32; lia.
  - reflexivity.
  - intros i Hi. cbn in Hi. do 3 (destruct i as [|i]; [vm_compute; discriminate|]). lia.
  - reflexivity.
Defined.
