(* ===== verification/Client.v ===== *)
(** * The terminal client (chat_client.cpp)

    The state of [AIChatClient] and its methods.  What other threads and the
    server do while a method waits is an argument ([pause], [wakes]); so are
    the answers of the socket and the lines typed by the user.  [std::cout]
    and [std::cerr] are one field, [screen]. *)

From S2P Require Import Prelude Bytes Config Scan Protocol Framing ClientNet.

(** ** State *)

Record PendingAuth := mkPending { pa_active : bool; pa_uid : Z; pa_msg : bytes }.

Record AIChatClient := mkClient {
  uid_ : Z;
  sock_ : Z;
  running_ : bool;
  recv_thread_ : bool;                  (* joinable *)
  seq_ : Z;
  in_stream_ : bool;
  last_ai_chunk_time_ : Z;              (* ns of the steady clock *)
  stream_completed_ : bool;
  stream_started_ : bool;
  pending_response_ : PendingAuth;
  chat_target_ : Z;
  recent_contacts_ : list Z;
  heartbeat_thread_ : bool;             (* joinable *)
  recv_buffer : bytes;                  (* buffer of receive_loop *)
  screen : bytes;                       (* written to cout and cerr *)
  wire : bytes;                         (* what the kernel took from ::send *)
  send_answers : list (option nat);     (* of the coming ::send calls; none left: all is taken *)
  steady_ns : Z;
  system_ms : Z
}.

Definition set_uid (v0 : Z) (c : AIChatClient) : AIChatClient :=
  mkClient v0 (sock_ c) (running_ c) (recv_thread_ c) (seq_ c) (in_stream_ c)
    (last_ai_chunk_time_ c) (stream_completed_ c) (stream_started_ c) (pending_response_ c)
    (chat_target_ c) (recent_contacts_ c) (heartbeat_thread_ c) (recv_buffer c) (screen c)
    (wire c) (send_answers c) (steady_ns c) (system_ms c).
Definition set_sock (v0 : Z) (c : AIChatClient) : AIChatClient :=
  mkClient (uid_ c) v0 (running_ c) (recv_thread_ c) (seq_ c) (in_stream_ c)
    (last_ai_chunk_time_ c) (stream_completed_ c) (stream_started_ c) (pending_response_ c)
    (chat_target_ c) (recent_contacts_ c) (heartbeat_thread_ c) (recv_buffer c) (screen c)
    (wire c) (send_answers c) (steady_ns c) (system_ms c).
Definition set_running (v0 : bool) (c : AIChatClient) : AIChatClient :=
  mkClient (uid_ c) (sock_ c) v0 (recv_thread_ c) (seq_ c) (in_stream_ c) (last_ai_chunk_time_ c)
    (stream_completed_ c) (stream_started_ c) (pending_response_ c) (chat_target_ c)
    (recent_contacts_ c) (heartbeat_thread_ c) (recv_buffer c) (screen c) (wire c)
    (send_answers c) (steady_ns c) (system_ms c).
Definition set_recv_thread (v0 : bool) (c : AIChatClient) : AIChatClient :=
  mkClient (uid_ c) (sock_ c) (running_ c) v0 (seq_ c) (in_stream_ c) (last_ai_chunk_time_ c)
    (stream_completed_ c) (stream_started_ c) (pending_response_ c) (chat_target_ c)
    (recent_contacts_ c) (heartbeat_thread_ c) (recv_buffer c) (screen c) (wire c)
    (send_answers c) (steady_ns c) (system_ms c).
Definition set_seq (v0 : Z) (c : AIChatClient) : AIChatClient :=
  mkClient (uid_ c) (sock_ c) (running_ c) (recv_thread_ c) v0 (in_stream_ c)
    (last_ai_chunk_time_ c) (stream_completed_ c) (stream_started_ c) (pending_response_ c)
    (chat_target_ c) (recent_contacts_ c) (heartbeat_thread_ c) (recv_buffer c) (screen c)
    (wire c) (send_answers c) (steady_ns c) (system_ms c).
Definition set_in_stream (v0 : bool) (c : AIChatClient) : AIChatClient :=
  mkClient (uid_ c) (sock_ c) (running_ c) (recv_thread_ c) (seq_ c) v0 (last_ai_chunk_time_ c)
    (stream_completed_ c) (stream_started_ c) (pending_response_ c) (chat_target_ c)
    (recent_contacts_ c) (heartbeat_thread_ c) (recv_buffer c) (screen c) (wire c)
    (send_answers c) (steady_ns c) (system_ms c).
Definition set_last_chunk (v0 : Z) (c : AIChatClient) : AIChatClient :=
  mkClient (uid_ c) (sock_ c) (running_ c) (recv_thread_ c) (seq_ c) (in_stream_ c) v0
    (stream_completed_ c) (stream_started_ c) (pending_response_ c) (chat_target_ c)
    (recent_contacts_ c) (heartbeat_thread_ c) (recv_buffer c) (screen c) (wire c)
    (send_answers c) (steady_ns c) (system_ms c).
Definition set_completed (v0 : bool) (c : AIChatClient) : AIChatClient :=
  mkClient (uid_ c) (sock_ c) (running_ c) (recv_thread_ c) (seq_ c) (in_stream_ c)
    (last_ai_chunk_time_ c) v0 (stream_started_ c) (pending_response_ c) (chat_target_ c)
    (recent_contacts_ c) (heartbeat_thread_ c) (recv_buffer c) (screen c) (wire c)
    (send_answers c) (steady_ns c) (system_ms c).
Definition set_started (v0 : bool) (c : AIChatClient) : AIChatClient :=
  mkClient (uid_ c) (sock_ c) (running_ c) (recv_thread_ c) (seq_ c) (in_stream_ c)
    (last_ai_chunk_time_ c) (stream_completed_ c) v0 (pending_response_ c) (chat_target_ c)
    (recent_contacts_ c) (heartbeat_thread_ c) (recv_buffer c) (screen c) (wire c)
    (send_answers c) (steady_ns c) (system_ms c).
Definition set_pending (v0 : PendingAuth) (c : AIChatClient) : AIChatClient :=
  mkClient (uid_ c) (sock_ c) (running_ c) (recv_thread_ c) (seq_ c) (in_stream_ c)
    (last_ai_chunk_time_ c) (stream_completed_ c) (stream_started_ c) v0 (chat_target_ c)
    (recent_contacts_ c) (heartbeat_thread_ c) (recv_buffer c) (screen c) (wire c)
    (send_answers c) (steady_ns c) (system_ms c).
Definition set_target (v0 : Z) (c : AIChatClient) : AIChatClient :=
  mkClient (uid_ c) (sock_ c) (running_ c) (recv_thread_ c) (seq_ c) (in_stream_ c)
    (last_ai_chunk_time_ c) (stream_completed_ c) (stream_started_ c) (pending_response_ c) v0
    (recent_contacts_ c) (heartbeat_thread_ c) (recv_buffer c) (screen c) (wire c)
    (send_answers c) (steady_ns c) (system_ms c).
Definition set_recent (v0 : list Z) (c : AIChatClient) : AIChatClient :=
  mkClient (uid_ c) (sock_ c) (running_ c) (recv_thread_ c) (seq_ c) (in_stream_ c)
    (last_ai_chunk_time_ c) (stream_completed_ c) (stream_started_ c) (pending_response_ c)
    (chat_target_ c) v0 (heartbeat_thread_ c) (recv_buffer c) (screen c) (wire c) (send_answers c)
    (steady_ns c) (system_ms c).
Definition set_hb_thread (v0 : bool) (c : AIChatClient) : AIChatClient :=
  mkClient (uid_ c) (sock_ c) (running_ c) (recv_thread_ c) (seq_ c) (in_stream_ c)
    (last_ai_chunk_time_ c) (stream_completed_ c) (stream_started_ c) (pending_response_ c)
    (chat_target_ c) (recent_contacts_ c) v0 (recv_buffer c) (screen c) (wire c) (send_answers c)
    (steady_ns c) (system_ms c).
Definition set_buffer (v0 : bytes) (c : AIChatClient) : AIChatClient :=
  mkClient (uid_ c) (sock_ c) (running_ c) (recv_thread_ c) (seq_ c) (in_stream_ c)
    (last_ai_chunk_time_ c) (stream_completed_ c) (stream_started_ c) (pending_response_ c)
    (chat_target_ c) (recent_contacts_ c) (heartbeat_thread_ c) v0 (screen c) (wire c)
    (send_answers c) (steady_ns c) (system_ms c).
Definition set_screen (v0 : bytes) (c : AIChatClient) : AIChatClient :=
  mkClient (uid_ c) (sock_ c) (running_ c) (recv_thread_ c) (seq_ c) (in_stream_ c)
    (last_ai_chunk_time_ c) (stream_completed_ c) (stream_started_ c) (pending_response_ c)
    (chat_target_ c) (recent_contacts_ c) (heartbeat_thread_ c) (recv_buffer c) v0 (wire c)
    (send_answers c) (steady_ns c) (system_ms c).
Definition set_wire (v0 : bytes) (v1 : list (option nat)) (c : AIChatClient) : AIChatClient :=
  mkClient (uid_ c) (sock_ c) (running_ c) (recv_thread_ c) (seq_ c) (in_stream_ c)
    (last_ai_chunk_time_ c) (stream_completed_ c) (stream_started_ c) (pending_response_ c)
    (chat_target_ c) (recent_contacts_ c) (heartbeat_thread_ c) (recv_buffer c) (screen c) v0 v1
    (steady_ns c) (system_ms c).
Definition set_time (v0 : Z) (v1 : Z) (c : AIChatClient) : AIChatClient :=
  mkClient (uid_ c) (sock_ c) (running_ c) (recv_thread_ c) (seq_ c) (in_stream_ c)
    (last_ai_chunk_time_ c) (stream_completed_ c) (stream_started_ c) (pending_response_ c)
    (chat_target_ c) (recent_contacts_ c) (heartbeat_thread_ c) (recv_buffer c) (screen c)
    (wire c) (send_answers c) v0 v1.

(** ** Output *)

Definition endl : bytes := [x0a].
Definition say (t : bytes) : M AIChatClient unit := modify (λ c, set_screen (screen c ++ t) c).
Definition say_line (t : bytes) : M AIChatClient unit := say (t ++ endl).
(** ["\r\033[K"] *)
Definition clear_line : bytes := [x0d; x1b; x5b; x4b].

Definition rule : string := "========================================".
Definition print_welcome : M AIChatClient unit :=
  for_each (λ t, say_line (str t))
    [rule; "🔌 已连接到 IM 服务器"; rule; "📝 请先注册或登录:";
     "  /register <用户名> <密码>  — 注册新账号"; "  /login <用户名> <密码>     — 登录已有账号"; rule;
     "💡 登录后可用命令:"; "  /ai              — 切换到 AI 对话"; "  /chat <uid>      — 切换到私聊";
     "  /to <uid> <消息>  — 快速发送给指定用户"; "  /list            — 最近联系人";
     "  /status          — 当前状态"; "  /quit            — 退出"; rule]%string.

(** ** Sending *)

(** [::send(sock_, data, size, MSG_NOSIGNAL) >= 0]; the kernel may take less
    than [size]. *)
Definition sock_send (data : bytes) : M AIChatClient bool :=
  c ← get_st;
  if (sock_ c <? 0)%Z then mret false
  else
    match send_answers c with
    | [] => put_st (set_wire (wire c ++ data) [] c) ;; mret true
    | Some n :: rest => put_st (set_wire (wire c ++ take n data) rest c) ;; mret true
    | None :: rest => put_st (set_wire (wire c) rest c) ;; mret false
    end.

Definition client_send_packet (command : Z) (body : bytes) : M AIChatClient bool :=
  c ← get_st;
  let s := wrap_u32 (seq_ c + 1) in
  put_st (set_seq s c) ;;
  ok ← sock_send (header_bytes (mkHeader PROTO_MAGIC (wrap_u32 (Z.of_nat (length body))) command s));
  if negb ok then mret false
  else if bool_decide (body = []) then mret true
  else sock_send body.

Section Client.
Context `{Protobuf}.

Definition is_logged_in (c : AIChatClient) : bool := (0 <? uid_ c)%Z.

Definition send_message (to_uid : Z) (text : bytes) : M AIChatClient bool :=
  c ← get_st;
  if negb (is_logged_in c) then say_line (str "❌ 请先登录") ;; mret false
  else
    client_send_packet (cmd_val CHAT)
      (SerializeToString (mkChat (uid_ c) to_uid text (system_ms c) false false 0)).

(** ** Registration and login *)

(** [start_heartbeat], and what its thread does after each sleep of 30 s. *)
Definition start_heartbeat : M AIChatClient unit := modify (set_hb_thread true).
Definition heartbeat_tick : M AIChatClient unit :=
  c ← get_st;
  if running_ c && (0 <? uid_ c)%Z then
    client_send_packet (cmd_val HEARTBEAT)
      (SerializeToString (mkChat (uid_ c) 0 (str "PING") 0 false false 0)) ;; mret tt
  else mret tt.

(** [wait_auth_result]; [pause] is what happens until the answer or the
    timeout. *)
Definition wait_auth_result (action : bytes) (pause : AIChatClient → AIChatClient) : M AIChatClient bool :=
  modify pause ;;
  c ← get_st;
  let p := pending_response_ c in
  if pa_active p then
    say_line (str "⏰ " ++ action ++ str "超时") ;;
    modify (set_pending (mkPending false (pa_uid p) (pa_msg p))) ;;
    mret false
  else if (0 <? pa_uid p)%Z then
    modify (set_uid (pa_uid p)) ;;
    say_line (str "✅ " ++ action ++ str "成功! UID: " ++ to_string (pa_uid p)) ;;
    start_heartbeat ;;
    mret true
  else
    say_line (str "❌ " ++ action ++ str "失败: " ++ pa_msg p) ;;
    mret false.

Definition no_answer : PendingAuth := mkPending true (-1) [].

Definition do_register (username password : bytes) (pause : AIChatClient → AIChatClient) : M AIChatClient bool :=
  if bool_decide (username = []) || bool_decide (password = []) then
    say_line (str "❌ 用户名和密码不能为空") ;; mret false
  else
    modify (set_pending no_answer) ;;
    ok ← client_send_packet (cmd_val REGISTER) (SerializeToString (mkRegister username password));
    if negb ok then mret false else wait_auth_result (str "注册") pause.

Definition do_login (username password : bytes) (pause : AIChatClient → AIChatClient) : M AIChatClient bool :=
  if bool_decide (username = []) || bool_decide (password = []) then
    say_line (str "❌ 用户名和密码不能为空") ;; mret false
  else
    modify (set_pending no_answer) ;;
    ok ← client_send_packet (cmd_val LOGIN) (SerializeToString (mkLogin username password));
    if negb ok then mret false else wait_auth_result (str "登录") pause.

(** ** Commands *)

Definition MAX_CONTACTS : nat := 10.
Definition recent_after (u : Z) (l : list Z) : list Z :=
  let l' := u :: filter (λ v, v ≠ u) l in
  if (MAX_CONTACTS <? length l')%nat then removelast l' else l'.
Definition add_recent_contact (u : Z) : M AIChatClient unit :=
  modify (λ c, set_recent (recent_after u (recent_contacts_ c)) c).

Definition usage (t : string) : M AIChatClient bool := say_line (str t) ;; mret true.

Definition contact_line (target u : Z) : bytes :=
  str "  👤 用户" ++ to_string u ++ (if (u =? target)%Z then str " ← 当前" else []).
Definition print_contacts (c : AIChatClient) : M AIChatClient unit :=
  match recent_contacts_ c with
  | [] => say_line (str "📋 暂无最近联系人")
  | l => say_line (str "📋 最近联系人:") ;; for_each (λ u, say_line (contact_line (chat_target_ c) u)) l
  end.
Definition target_name (u : Z) : bytes :=
  if (u =? 9999)%Z then str "AI助手" else str "用户" ++ to_string u.
Definition print_status (c : AIChatClient) : M AIChatClient unit :=
  say_line (str "📊 当前状态:") ;;
  say_line (str "  👤 我的 UID: " ++ to_string (uid_ c)) ;;
  say_line (str "  🎯 当前目标: " ++ target_name (chat_target_ c)) ;;
  say_line (str "  📡 连接: " ++ (if running_ c then str "在线" else str "离线")).

(** [if (!m.empty() && m[0] == ' ') m = m.substr(1)] *)
Definition drop_blank (m : bytes) : bytes := match m with x20 :: m' => m' | _ => m end.

Definition two_words (s : bytes) : option (bytes * bytes) :=
  '(u, r) ← get_word s; '(p, _) ← get_word r; Some (u, p).

(** [handle_command]: [true] when the line was dealt with. *)
Definition handle_command_line (line : bytes) (pause : AIChatClient → AIChatClient) : M AIChatClient bool :=
  match line with
  | x2f :: _ =>
      let '(name, iss) := default ([], []) (get_word line) in
      if decide (name = str "/register") then
        match two_words iss with
        | Some (u, p) => do_register u p pause
        | None => usage "❌ 用法: /register <用户名> <密码>"
        end
      else if decide (name = str "/login") then
        match two_words iss with
        | Some (u, p) => do_login u p pause
        | None => usage "❌ 用法: /login <用户名> <密码>"
        end
      else
        c ← get_st;
        if negb (is_logged_in c) then usage "❌ 请先注册或登录"
        else if decide (name = str "/ai") then
          modify (set_target 9999) ;; usage "✅ 已切换到 AI 对话模式"
        else if decide (name = str "/chat") then
          match get_int iss with
          | Some (t, _) =>
              if (t =? uid_ c)%Z then usage "❌ 不能和自己私聊"
              else
                modify (set_target t) ;; add_recent_contact t ;;
                say_line (str "✅ 已切换到与用户" ++ to_string t ++ str "的私聊模式") ;; mret true
          | None => usage "❌ 用法: /chat <uid>"
          end
        else if decide (name = str "/to") then
          match get_int iss with
          | Some (t, r) =>
              let m := drop_blank (get_line r) in
              if bool_decide (m = []) then usage "❌ 用法: /to <uid> <消息>"
              else
                add_recent_contact t ;;
                say_line (str "📤 发送给用户" ++ to_string t ++ str ": " ++ m) ;;
                send_message t m
          | None => usage "❌ 用法: /to <uid> <消息>"
          end
        else if decide (name = str "/list") then print_contacts c ;; mret true
        else if decide (name = str "/status") then print_status c ;; mret true
        else if decide (name = str "/help") then print_welcome ;; mret true
        else if decide (name = str "/quit") then modify (set_running false) ;; mret true
        else say_line (str "❌ 未知命令: " ++ name ++ str " (输入 /help 查看帮助)") ;; mret true
  | _ => mret false
  end.

(** ** Waiting for an AI answer *)

Definition SEC : Z := 1000000000.

(** The [while] of [wait_for_stream_completion]: each element of [wakes] is
    what happens during one [cv_.wait_for]; after them nothing arrives. *)
Fixpoint wait_chunks (wakes : list (AIChatClient → AIChatClient)) : M AIChatClient unit :=
  c ← get_st;
  if negb (running_ c && negb (stream_completed_ c)) then mret tt
  else
    let step := match wakes with
                | w :: _ => w
                | [] => λ c, set_time (Z.max (steady_ns c) (last_ai_chunk_time_ c + 31 * SEC)) (system_ms c) c
                end in
    modify step ;;
    c' ← get_st;
    if (30 <? Z.quot (steady_ns c' - last_ai_chunk_time_ c') SEC)%Z
    then say_line (endl ++ str "⏰ AI 响应中断")
    else match wakes with [] => mret tt | _ :: ws => wait_chunks ws end.

Definition wait_for_stream_completion (pause : AIChatClient → AIChatClient)
    (wakes : list (AIChatClient → AIChatClient)) : M AIChatClient unit :=
  modify pause ;;
  c ← get_st;
  if negb (negb (running_ c) || stream_started_ c) then say_line (endl ++ str "⏰ AI 响应超时")
  else
    wait_chunks wakes ;;
    modify (set_in_stream false) ;;
    say endl.

(** ** [chat_loop] *)

Record typed := mkTyped {
  ty_line : bytes;
  ty_pause : AIChatClient → AIChatClient;           (* while the line's first wait lasts *)
  ty_wakes : list (AIChatClient → AIChatClient)     (* the later waits *)
}.

Definition print_prompt : M AIChatClient unit :=
  c ← get_st;
  if negb (in_stream_ c) && is_logged_in c then
    if (chat_target_ c =? 9999)%Z then say ([x0d] ++ str "[🤖 AI] >>> ")
    else say ([x0d] ++ str "[👤 用户" ++ to_string (chat_target_ c) ++ str "] >>> ")
  else if negb (is_logged_in c) then say ([x0d] ++ str "[未登录] >>> ")
  else mret tt.

(** One line; [false] leaves the loop. *)
Definition chat_line (t : typed) : M AIChatClient bool :=
  if bool_decide (ty_line t = []) then mret true
  else
    handled ← handle_command_line (ty_line t) (ty_pause t);
    if (handled : bool) then mret true
    else
      c ← get_st;
      if negb (is_logged_in c) then
        say_line (str "❌ 请先注册或登录: /register <用户名> <密码>  或  /login <用户名> <密码>") ;; mret true
      else if (chat_target_ c =? 9999)%Z then
        modify (λ c, set_last_chunk (steady_ns c) (set_started false (set_completed false c))) ;;
        ok ← send_message 9999 (ty_line t);
        if negb ok then say_line (endl ++ str "发送失败") ;; mret false
        else wait_for_stream_completion (ty_pause t) (ty_wakes t) ;; mret true
      else
        say_line (str "📤 发送给用户" ++ to_string (chat_target_ c) ++ str ": " ++ ty_line t) ;;
        ok ← send_message (chat_target_ c) (ty_line t);
        (if negb ok then say_line (endl ++ str "发送失败") else mret tt) ;;
        mret true.

Fixpoint chat_loop (input : list typed) : M AIChatClient unit :=
  c ← get_st;
  if negb (running_ c) then mret tt
  else
    print_prompt ;;
    match input with
    | [] => mret tt
    | t :: rest => go ← chat_line t; if (go : bool) then chat_loop rest else mret tt
    end.

(** ** The receiving thread *)

Definition handle_chat_message (m : ChatMessage) : M AIChatClient unit :=
  modify (λ c, set_last_chunk (steady_ns c) c) ;;
  c ← get_st;
  if negb (from_uid m =? 9999)%Z then
    if in_stream_ c then mret tt
    else
      say (clear_line ++ str "📩 ") ;;
      (if (from_uid m =? chat_target_ c)%Z then say (str "【当前聊天】") else mret tt) ;;
      say_line (str "用户" ++ to_string (from_uid m) ++ str ": " ++ content m)
  else if is_last_chunk m then modify (λ c, set_completed true (set_in_stream false c))
  else if bool_decide (content m = []) then mret tt
  else
    (if in_stream_ c then mret tt
     else modify (λ c, set_started true (set_in_stream true c)) ;; say (clear_line ++ str "🤖 AI: ")) ;;
    say (content m).

Definition handle_ack_response (r : Response) : M AIChatClient unit :=
  if decide (msg r = str "PONG") then mret tt
  else
    c ← get_st;
    if pa_active (pending_response_ c) then modify (set_pending (mkPending false (resp_uid r) (msg r)))
    else
      say clear_line ;;
      if success r then say_line (str "[系统] " ++ msg r)
      else say_line (str "[系统] 错误: " ++ msg r).

Definition handle_packet (p : Z * bytes) : M AIChatClient unit :=
  if (p.1 =? cmd_val CHAT)%Z then
    match ParseFromString p.2 : option ChatMessage with Some m => handle_chat_message m | None => mret tt end
  else if (p.1 =? cmd_val ACK)%Z then
    match ParseFromString p.2 : option Response with Some r => handle_ack_response r | None => mret tt end
  else mret tt.

(** What [recv] answers. *)
Inductive recv_answer := GotData (d : bytes) | GotEnd | GotAgain | GotError (text : bytes).

(** One round of [receive_loop]. *)
Definition receive (a : recv_answer) : M AIChatClient unit :=
  match a with
  | GotAgain => mret tt
  | GotEnd => say_line (endl ++ str "⚠️ 服务器已关闭连接") ;; modify (set_running false)
  | GotError text =>
      c ← get_st;
      (if running_ c then say_line (endl ++ str "⚠️ 接收错误: " ++ text) else mret tt) ;;
      modify (set_running false)
  | GotData d =>
      c ← get_st;
      let '(ps, rest, ok) := recv_packets (recv_buffer c ++ d) in
      put_st (set_buffer rest c) ;;
      for_each handle_packet ps ;;
      if ok then mret tt else crash Terminate
  end.
Fixpoint receive_loop (answers : list recv_answer) : M AIChatClient unit :=
  match answers with
  | [] => mret tt
  | a :: rest => c ← get_st; if running_ c then receive a ;; receive_loop rest else mret tt
  end.

(** ** Life of the client *)

(** [AIChatClient(host, port)], [connect] with the answers of [socket] and
    [::connect], [disconnect] with its two joins. *)
Definition new_client (now wall : Z) (answers : list (option nat)) : AIChatClient :=
  mkClient (-1) (-1) false false 0 false 0 false false (mkPending false (-1) []) 9999 [] false [] [] [] answers now wall.
Definition connect (socket_fd : Z) (connected : option bytes) : M AIChatClient bool :=
  modify (set_sock socket_fd) ;;
  if (socket_fd <? 0)%Z then say_line (str "创建 socket 失败") ;; mret false
  else
    match connected with
    | Some err => say_line (str "连接服务器失败: " ++ err) ;; mret false
    | None => modify (set_running true) ;; modify (set_recv_thread true) ;; print_welcome ;; mret true
    end.
Definition disconnect : M AIChatClient unit :=
  modify (set_running false) ;;
  modify (λ c, if (0 <=? sock_ c)%Z then set_sock (-1) c else c) ;;
  modify (set_recv_thread false) ;;
  modify (set_hb_thread false).
End Client.
