(* ===== verification/ClientProps.v ===== *)
(** * What the client sends and shows (chat_client.cpp)

    Its packets reach the server whole, with consecutive sequence numbers; the
    contact list is the last ten partners; a login follows the server's
    answer; what of an AI answer appears on the screen. *)

From S2P Require Import Prelude Bytes Config Scan Protocol Framing Json RefCodec ClientNet Client.

(** ** Sending *)

(** A client whose socket takes everything. *)
Record online (c : AIChatClient) : Prop := {
  on_sock : (0 ≤ sock_ c)%Z;
  on_sends : send_answers c = []
}.

Lemma sock_send_all c data : online c → sock_send data c = Ret true (set_wire (wire c ++ data) [] c).
Proof.
  intros [Hs Ha]. unfold sock_send. mred. by rewrite (proj2 (Z.ltb_ge _ _)), Ha by lia.
Qed.

(** The client after a packet went out. *)
Definition after_send (command : Z) (body : bytes) (c : AIChatClient) : AIChatClient :=
  let s := wrap_u32 (seq_ c + 1) in
  set_wire (wire c ++ make_packet command s body) [] (set_seq s c).

Lemma send_packet_all c command body :
  online c → client_send_packet command body c = Ret true (after_send command body c).
Proof.
  intros Ho. unfold client_send_packet. mred.
  rewrite sock_send_all by (destruct Ho; by split). cbn [negb]. unfold after_send, make_packet.
  destruct body as [|b body]; cbn [bool_decide].
  - rewrite bool_decide_eq_true_2 by done. by rewrite app_nil_r.
  - rewrite bool_decide_eq_false_2 by done. rewrite sock_send_all by (destruct Ho; by split).
    cbn [wire set_wire set_seq]. by rewrite <- app_assoc.
Qed.
Lemma after_send_online command body c : online c → online (after_send command body c).
Proof. intros []. by split. Qed.

(** A command and body the server accepts. *)
Definition fits (q : Z * bytes) : Prop := is_u32 q.1 ∧ (Z.of_nat (length q.2) ≤ MAX_BODY_LEN)%Z.

(** The packets the server must see, numbered after [n]. *)
Fixpoint numbered (n : Z) (qs : list (Z * bytes)) : list (PacketHeader * bytes) :=
  match qs with
  | [] => []
  | q :: qs' =>
      packet_frame (q.1, wrap_u32 (n + 1), q.2) :: numbered (wrap_u32 (n + 1)) qs'
  end.

Definition send_all (qs : list (Z * bytes)) : M AIChatClient unit :=
  for_each (λ q, client_send_packet q.1 q.2 ;; mret tt) qs.

(** The sequence number after them, and their bytes. *)
Definition seq_after_all (n : Z) (qs : list (Z * bytes)) : Z := foldl (λ n _, wrap_u32 (n + 1)) n qs.
Fixpoint sent_bytes (n : Z) (qs : list (Z * bytes)) : bytes :=
  match qs with
  | [] => []
  | q :: qs' => make_packet q.1 (wrap_u32 (n + 1)) q.2 ++ sent_bytes (wrap_u32 (n + 1)) qs'
  end.
Lemma sent_bytes_app n qs qs' : sent_bytes n (qs ++ qs') = sent_bytes n qs ++ sent_bytes (seq_after_all n qs) qs'.
Proof. revert n. induction qs as [|q qs IH]; intros n; cbn; [done|]. by rewrite IH, <- app_assoc. Qed.

Lemma send_all_spec qs : ∀ c,
  online c → ∃ c', send_all qs c = Ret tt c' ∧ wire c' = wire c ++ sent_bytes (seq_ c) qs.
Proof.
  induction qs as [|q qs IH]; intros c Ho; unfold send_all; cbn [for_each sent_bytes].
  - exists c. by rewrite app_nil_r.
  - mred. rewrite send_packet_all by done.
    destruct (IH (after_send q.1 q.2 c)) as (c' & E & Hc'); [by apply after_send_online|].
    exists c'. split; [exact E|]. rewrite Hc'. unfold after_send at 1. cbn [wire set_wire set_seq]. by rewrite <- app_assoc.
Qed.

Lemma sent_frames n qs :
  Forall fits qs → sent_bytes n qs = concat (map frame_bytes (numbered n qs)) ∧ Forall frame_wf (numbered n qs).
Proof.
  intros Hq. revert n. induction Hq as [|q qs Hq _ IH]; intros n; cbn [sent_bytes numbered map concat]; [done|].
  destruct (packet_frame_wf (q.1, wrap_u32 (n + 1), q.2)) as [Hw Hb].
  { destruct Hq. unfold packet_ok. cbn [fst snd]. split_ands; try done. apply wrap_u32_range. }
  destruct (IH (wrap_u32 (n + 1))) as [E Hf]. split; [|by constructor]. by rewrite E, <- Hb.
Qed.

(** A body over the limit makes the header a bad one. *)
Lemma parse_one_too_long command n body rest :
  is_u32 command → is_u32 n → (MAX_BODY_LEN < Z.of_nat (length body) < 2 ^ 32)%Z →
  parse_one (make_packet command n body ++ rest) = BadFrame.
Proof.
  intros Hc Hn Hb. unfold make_packet. rewrite wrap_u32_id by (unfold is_u32; unfold MAX_BODY_LEN in *; lia).
  assert (Hw : header_wf (mkHeader PROTO_MAGIC (Z.of_nat (length body)) command n)).
  { unfold header_wf. cbn. split_ands; try done; unfold is_u32, MAX_BODY_LEN in *; lia. }
  rewrite <- app_assoc. unfold parse_one. rewrite header_at_bytes by done.
  rewrite length_app, header_bytes_length, (proj2 (Nat.ltb_ge _ _)) by lia. cbn [magic body_len].
  rewrite Z.eqb_refl, Z.gtb_ltb, (proj2 (Z.ltb_lt _ _)) by lia. done.
Qed.

(** C19. What the client sends, the server gets, up to the first body that is
    too long.  Let the client send packets (commands and lengths of 32 bits) in
    a row over a socket that takes them.  If every body has at most 65535
    bytes, they arrive, however the network cuts them, as exactly those
    commands and bodies, in order, with consecutive sequence numbers, and no
    byte is left over.  The client does not check the length: at the first
    longer body the server closes the connection, having got exactly the
    packets before it. *)
Theorem client_packets_reach (qs : list (Z * bytes)) c :
  online c → wire c = [] → Forall (λ q, is_u32 q.1 ∧ (Z.of_nat (length q.2) < 2 ^ 32)%Z) qs →
  ∃ c', send_all qs c = Ret tt c' ∧ ∀ pieces, concat pieces = wire c' →
    (Forall (λ q, (Z.of_nat (length q.2) ≤ MAX_BODY_LEN)%Z) qs → feed [] pieces = (numbered (seq_ c) qs, [], true)) ∧
    (∀ qs1 q qs2, qs = qs1 ++ q :: qs2 → Forall (λ q, (Z.of_nat (length q.2) ≤ MAX_BODY_LEN)%Z) qs1 →
       (MAX_BODY_LEN < Z.of_nat (length q.2))%Z → ∃ r, feed [] pieces = (numbered (seq_ c) qs1, r, false)).
Proof.
  intros Ho Hw Hq. destruct (send_all_spec qs c Ho) as (c' & E & Hc'). rewrite Hw in Hc'. cbn [app] in Hc'.
  exists c'. split; [done|]. intros pieces Hp. rewrite Hc' in Hp. split.
  - intros Hl. destruct (sent_frames (seq_ c) qs) as [Hb Hf].
    { apply Forall_forall. intros q Hin. rewrite Forall_forall in Hq, Hl. destruct (Hq q Hin). by split; [|apply Hl]. }
    apply feed_concat; [done|]. cbn [app]. rewrite Hp, Hb, <- (app_nil_r (concat _)). by apply parse_frames_concat.
  - intros qs1 q qs2 -> Hl Hlong. apply Forall_app in Hq as [Hq1 [[Hu Hlen] _]%Forall_cons].
    destruct (sent_frames (seq_ c) qs1) as [Hb Hf].
    { apply Forall_forall. intros q' Hin. rewrite Forall_forall in Hq1, Hl. destruct (Hq1 q' Hin). by split; [|apply Hl]. }
    rewrite sent_bytes_app, Hb in Hp. cbn [sent_bytes] in Hp.
    eapply feed_bad; [done|]. cbn [app]. rewrite Hp. apply parse_frames_then_bad; [done|].
    apply parse_one_too_long; [done|apply wrap_u32_range|lia].
Qed.

Definition demo_client : AIChatClient := set_running true (set_sock 4 (new_client 0 0 [])).

Lemma client_packets_reach_witness :
  (∃ c', send_all [(4%Z, str "PING"); (2%Z, [])] demo_client = Ret tt c' ∧
     ∀ pieces, concat pieces = wire c' →
       feed [] pieces = (numbered 0 [(4%Z, str "PING"); (2%Z, [])], [], true)) ∧
  (∃ c', send_all [(4%Z, str "PING"); (2%Z, replicate (Z.to_nat 65536) x00)] demo_client = Ret tt c' ∧
     ∀ pieces, concat pieces = wire c' → ∃ r, feed [] pieces = (numbered 0 [(4%Z, str "PING")], r, false)).
Proof.
  split.
  - destruct (client_packets_reach [(4%Z, str "PING"); (2%Z, [])] demo_client) as (c' & E & Hf).
    + by split.
    + reflexivity.
    + repeat constructor; cbn; unfold is_u32; try lia.
    + exists c'. split; [exact E|]. intros pieces Hp. apply (Hf pieces Hp).
      repeat constructor; vm_compute; discriminate.
  - destruct (client_packets_reach [(4%Z, str "PING"); (2%Z, replicate (Z.to_nat 65536) x00)] demo_client) as (c' & E & Hf).
    + by split.
    + reflexivity.
    + constructor; [|constructor; [|constructor]]; cbn [fst snd]; (split; [unfold is_u32; lia|]).
      * vm_compute. reflexivity.
      * rewrite length_replicate, Z2Nat.id by lia. lia.
    + exists c'. split; [exact E|]. intros pieces Hp.
      apply (proj2 (Hf pieces Hp) [(4%Z, str "PING")] (2%Z, replicate (Z.to_nat 65536) x00) [] eq_refl).
      * repeat constructor; vm_compute; discriminate.
      * cbn [snd]. rewrite length_replicate, Z2Nat.id by lia. unfold MAX_BODY_LEN. lia.
Defined.

(** ** Recent contacts *)

Lemma filter_ne_take (u : Z) (n : nat) (l : list Z) :
  NoDup l → take n (filter (λ v, v ≠ u) (take (S n) l)) = take n (filter (λ v, v ≠ u) l).
Proof.
  revert n. induction l as [|v l IH]; intros n Hnd; [done|].
  apply NoDup_cons in Hnd as [Hv Hnd]. rewrite firstn_cons, !filter_cons.
  destruct (decide (v ≠ u)) as [Hne|He].
  - destruct n as [|n]; [done|]. cbn [take]. f_equal. by apply IH.
  - apply dec_stable in He as ->.
    assert (Hf : ∀ k : list Z, u ∉ k → filter (λ v, v ≠ u) k = k).
    { intros k Hk. induction k as [|w k IHk]; [done|]. apply not_elem_of_cons in Hk as [? Hk].
      rewrite filter_cons_True by congruence. f_equal. by apply IHk. }
    rewrite !Hf; [by rewrite take_take, Nat.min_id|done|].
    intros Hin. apply Hv. by eapply elem_of_take in Hin as (? & ?%list_elem_of_lookup_2 & _).
Qed.

Lemma remove_dups_snoc (us : list Z) (u : Z) :
  remove_dups (us ++ [u]) = filter (λ v, v ≠ u) (remove_dups us) ++ [u].
Proof.
  induction us as [|v us IH]; [done|]. cbn [app remove_dups]. repeat case_decide.
  - done.
  - apply elem_of_app in H as [?| ->%list_elem_of_singleton]; [done|].
    by rewrite IH, filter_cons_False by (intros []; done).
  - destruct H. apply elem_of_app. by left.
  - rewrite filter_cons_True; [by rewrite IH|]. intros ->. destruct H. apply elem_of_app. right.
    by apply list_elem_of_singleton.
Qed.

Lemma recent_after_take (u : Z) (l : list Z) :
  NoDup l → recent_after u (take MAX_CONTACTS l) = take MAX_CONTACTS (u :: filter (λ v, v ≠ u) l).
Proof.
  intros Hnd. unfold recent_after.
  assert (Hle : length (filter (λ v, v ≠ u) (take MAX_CONTACTS l)) ≤ MAX_CONTACTS).
  { etrans; [apply length_filter|]. rewrite length_take. lia. }
  change (take MAX_CONTACTS (u :: filter (λ v, v ≠ u) l)) with (u :: take 9 (filter (λ v, v ≠ u) l)).
  rewrite <- (filter_ne_take u 9 l Hnd). change (S 9) with MAX_CONTACTS.
  set (k := filter _ (take MAX_CONTACTS l)) in *. cbn [length]. case_if; zbool.
  - unfold MAX_CONTACTS in *. rewrite removelast_firstn_len. cbn [length Nat.pred].
    replace (length k) with (S 9) by lia. done.
  - f_equal. rewrite take_ge; [done|]. unfold MAX_CONTACTS in *. lia.
Qed.

(** The contact list is the last ten partners: after any sequence of
    contacts, [recent_contacts_] holds, most recent first and without
    repetitions, the ten distinct users contacted last. *)
Theorem recent_contacts_exact (us : list Z) (c : AIChatClient) :
  recent_contacts_ c = [] →
  ∃ c', for_each add_recent_contact us c = Ret tt c' ∧
    recent_contacts_ c' = take MAX_CONTACTS (reverse (remove_dups us)).
Proof.
  intros Hc. induction us as [|u us IH] using rev_ind; [by exists c|].
  destruct IH as (c' & E & Hc'). rewrite for_each_app. mred. rewrite E. eexists. split; [done|].
  cbn [recent_contacts_ set_recent for_each]. rewrite Hc', remove_dups_snoc, reverse_snoc.
  rewrite recent_after_take by (rewrite reverse_Permutation; apply NoDup_remove_dups).
  by rewrite filter_reverse.
Qed.

Lemma recent_contacts_exact_witness :
  ∃ c', for_each add_recent_contact [5; 7; 5]%Z demo_client = Ret tt c' ∧ recent_contacts_ c' = [5; 7]%Z.
Proof. apply (recent_contacts_exact [5; 7; 5]%Z demo_client). reflexivity. Defined.

(** ** Hearing the server *)

Section Hearing.
Context `{Protobuf}.

(** What the receiving thread makes of packets of the server. *)
Definition hears (ps : list (Z * Z * bytes)) (c : AIChatClient) : AIChatClient :=
  match receive_loop (map (GotData ∘ packet_bytes) ps) c with Ret _ c' => c' | _ => c end.

(** A client whose receiving thread runs and is between two packets. *)
Record listening (c : AIChatClient) : Prop := {
  li_running : running_ c = true;
  li_buffer : recv_buffer c = []
}.

Lemma receive_packet c q :
  listening c → sendable q → receive (GotData (packet_bytes q)) c = handle_packet (q.1.1, q.2) c.
Proof.
  intros [_ Hb] Hq. unfold receive. mred. rewrite Hb. cbn [app].
  rewrite <- (app_nil_r (packet_bytes q)), recv_packets_unfold, recv_one_sent by done.
  rewrite recv_packets_unfold. cbn [recv_one length Nat.ltb Nat.leb sizeof_PacketHeader for_each]. mred.
  assert (Hc : set_buffer [] c = c) by (destruct c; cbn in *; by subst). rewrite Hc.
  by destruct (handle_packet _ c) as [[] c'|c'|r].
Qed.

Lemma hears_ack c n r `{!ProtobufLaws} :
  listening c → response_wf r → msg r ≠ str "PONG" → pa_active (pending_response_ c) = true →
  sendable (cmd_val ACK, n, SerializeToString r) →
  hears [(cmd_val ACK, n, SerializeToString r)] c = set_pending (mkPending false (resp_uid r) (msg r)) c.
Proof.
  intros Hl Hr Hp Ha Hs. unfold hears. cbn [map compose receive_loop]. mred. rewrite (li_running c Hl).
  unfold compose. rewrite receive_packet by done. unfold handle_packet. cbn [fst snd].
  change (cmd_val ACK =? cmd_val CHAT)%Z with false. rewrite Z.eqb_refl, response_parse_serialize by done.
  unfold handle_ack_response. rewrite decide_False by done. mred. by rewrite Ha.
Qed.

End Hearing.


(** ** Words of a line *)

Definition word (w : bytes) : Prop := w ≠ [] ∧ Forall (λ b, isspace b = false) w.

Lemma until_space_word (w rest : bytes) :
  Forall (λ b, isspace b = false) w → until_space (w ++ x20 :: rest) = (w, x20 :: rest).
Proof. induction 1 as [|b w Hb _ IH]; [done|]. cbn [app until_space]. by rewrite Hb, IH. Qed.
Lemma until_space_end (w : bytes) : Forall (λ b, isspace b = false) w → until_space w = (w, []).
Proof. induction 1 as [|b w Hb _ IH]; [done|]. cbn [until_space]. by rewrite Hb, IH. Qed.

Lemma get_word_first (w rest : bytes) : word w → get_word (x20 :: w ++ rest) = Some (until_space (w ++ rest)).
Proof.
  intros [Hw Ww]. unfold get_word. destruct w as [|a w]; [done|]. apply Forall_cons in Ww as [Ha _].
  change (skipws (x20 :: (a :: w) ++ rest)) with (if isspace a then skipws (w ++ rest) else (a :: w) ++ rest).
  by rewrite Ha.
Qed.

Lemma two_words_eq (u p : bytes) : word u → word p → two_words (x20 :: u ++ x20 :: p) = Some (u, p).
Proof.
  intros Hu Hp. unfold two_words. rewrite (get_word_first u (x20 :: p) Hu), until_space_word by apply Hu.
  cbn [mbind option_bind]. pose proof (get_word_first p [] Hp) as E. rewrite app_nil_r in E.
  by rewrite E, until_space_end by apply Hp.
Qed.

Section Leak.
Context `{Protobuf} `{!ProtobufLaws}.

Definition login_line (u p : bytes) : bytes := str "/login" ++ x20 :: u ++ x20 :: p.

Lemma login_line_command u p pause : word u → word p → handle_command_line (login_line u p) pause = do_login u p pause.
Proof.
  intros Hu Hp. unfold handle_command_line, login_line. cbn [str app list_byte_of_string].
  assert (E : get_word (str "/login" ++ x20 :: u ++ x20 :: p) = Some (str "/login", x20 :: u ++ x20 :: p)) by done.
  change (get_word _) with (get_word (str "/login" ++ x20 :: u ++ x20 :: p)). rewrite E. cbv beta iota zeta delta [default from_option id].
  rewrite decide_False by done. rewrite decide_True by done. by rewrite two_words_eq.
Qed.

(** A password is sent to the chat partner: when a user who is logged in and
    chats with user [t] types [/login name password] and the login fails, the
    line itself, password included, goes out as a chat message to [t]. *)
Theorem failed_login_is_sent c u p n r :
  online c → listening c → word u → word p → (0 < uid_ c)%Z → chat_target_ c ≠ 9999%Z →
  response_wf r → msg r ≠ str "PONG" → (resp_uid r ≤ 0)%Z → sendable (cmd_val ACK, n, SerializeToString r) →
  ∃ c', chat_line (mkTyped (login_line u p) (hears [(cmd_val ACK, n, SerializeToString r)]) []) c = Ret true c' ∧
    wire c' = wire c ++
      make_packet (cmd_val LOGIN) (wrap_u32 (seq_ c + 1)) (SerializeToString (mkLogin u p)) ++
      make_packet (cmd_val CHAT) (wrap_u32 (wrap_u32 (seq_ c + 1) + 1))
        (SerializeToString (mkChat (uid_ c) (chat_target_ c) (login_line u p) (system_ms c) false false 0)).
Proof.
  intros Ho Hl Hu Hp Huid Ht Hr Hm Hneg Hs. unfold chat_line. cbn [ty_line ty_pause ty_wakes].
  rewrite bool_decide_eq_false_2 by done. rewrite login_line_command by done.
  unfold do_login. rewrite !bool_decide_eq_false_2 by (by destruct Hu, Hp). cbn [orb]. mred.
  rewrite send_packet_all by (destruct Ho; by split). cbn [negb]. unfold wait_auth_result. mred.
  rewrite hears_ack; try done; [|destruct Hl; by split].
  cbn [pending_response_ set_pending pa_active pa_uid pa_msg].
  rewrite (proj2 (Z.ltb_ge _ _)) by lia. unfold say_line, say, is_logged_in. mred.
  cbn [set_screen set_pending after_send set_wire set_seq uid_ chat_target_].
  rewrite (proj2 (Z.ltb_lt _ _)), (proj2 (Z.eqb_neq _ _)) by done. cbn [negb].
  unfold send_message, is_logged_in. mred. cbn [set_screen set_pending after_send set_wire set_seq uid_].
  rewrite (proj2 (Z.ltb_lt _ _)) by done. cbn [negb].
  rewrite send_packet_all by (destruct Ho; by split). eexists. split; [reflexivity|].
  cbn [after_send wire set_wire set_seq set_screen set_pending]. by rewrite <- app_assoc.
Qed.
End Leak.

(** The reply of the server to a wrong password. *)
Definition wrong_password : Response := mkResponse false (str "用户名或密码错误") 0.
Definition demo_chatting : AIChatClient := set_target 1001 (set_uid 1000 demo_client).

Lemma failed_login_is_sent_witness :
  ∃ c', chat_line (mkTyped (login_line (str "bob") (str "secret"))
                    (hears [(cmd_val ACK, 1%Z, SerializeToString wrong_password)]) []) demo_chatting = Ret true c' ∧
    wire c' = make_packet 1 1 (SerializeToString (mkLogin (str "bob") (str "secret"))) ++
      make_packet 2 2 (SerializeToString (mkChat 1000 1001 (str "/login bob secret") 0 false false 0)).
Proof.
  apply (failed_login_is_sent demo_chatting (str "bob") (str "secret") 1 wrong_password);
    try done; split; try done; by repeat constructor.
Defined.
