(* ===== verification/EndToEnd.v ===== *)
(** * From the AI service to the user's screen

    The packets of a stream (StreamProps.v) as the terminal client shows them
    (Client.v). *)

From S2P Require Import Prelude Bytes Config Protocol Framing Timer ThreadPool Context EventLoop.
From S2P Require Import Session Json RefCodec Llama AiManager FileStore DbWriter World Business Stream Worker.
From S2P Require Import ConnTable System Delivery Requests StreamProps ClientNet Client ClientProps.

(** The packet that [send_packet_in_loop] writes for a queued reply. *)
Definition as_packet (f : functor) : option (Z * Z * bytes) :=
  match f with FSend _ command sequence body => Some (command, sequence, body) | _ => None end.

Section Screen.
Context `{Protobuf} `{!ProtobufLaws}.
Implicit Types (c : AIChatClient) (x : ctx_id).

(** The client's receiving thread gets the packets [ps]. *)
Definition listen_to (ps : list (Z * Z * bytes)) : M AIChatClient unit :=
  receive_loop (map (GotData ∘ packet_bytes) ps).

Lemma listen_cons c c1 q ps :
  listening c → sendable q → handle_packet (q.1.1, q.2) c = Ret tt c1 →
  listen_to (q :: ps) c = listen_to ps c1.
Proof.
  intros Hl Hq E. unfold listen_to. cbn [map receive_loop]. mred. rewrite (li_running c Hl).
  unfold compose at 1. by rewrite receive_packet, E by done.
Qed.

(** A chunk with values that fit their fields, in a packet that fits. *)
Definition chunk_fits x (u n : Z) (e : sent) : Prop :=
  is_i32 u ∧ is_i32 n ∧ is_i64 (sn_wall e) ∧
  match chunk_packet x u n e with FSend _ k m body => sendable (k, m, body) | _ => False end.
Fixpoint chunks_fit x (u n : Z) (es : list sent) : Prop :=
  match es with
  | [] => True
  | e :: es' => chunk_fits x u n e ∧ chunks_fit x u (wrap_i32 (n + 1)) es'
  end.

Definition ai_tag : bytes := clear_line ++ str "🤖 AI: ".

(** What the chunks in the middle of a stream put on the screen. *)
Definition shown (in_stream : bool) (es : list sent) : bytes :=
  match es with
  | [] => []
  | _ => (if in_stream then [] else ai_tag) ++ concat (map sn_text es)
  end.

(** The fields a chunk can change. *)
Record heard c c' (out : bytes) (streaming started completed : bool) : Prop := {
  he_screen : screen c' = screen c ++ out;
  he_in_stream : in_stream_ c' = streaming;
  he_started : stream_started_ c' = started;
  he_completed : stream_completed_ c' = completed;
  he_listening : listening c'
}.

Lemma hear_chunk c x u n e ps :
  listening c → chunk_fits x u n e → (sn_text e ≠ [] ∨ sn_last e = true) →
  ∃ c', listen_to (omap as_packet [chunk_packet x u n e] ++ ps) c = listen_to ps c' ∧
    heard c c' (if sn_last e then [] else shown (in_stream_ c) [e]) (negb (sn_last e))
      (if sn_last e then stream_started_ c else if in_stream_ c then stream_started_ c else true)
      (if sn_last e then true else stream_completed_ c).
Proof.
  intros Hl (Hu & Hn & Hw & Hs) Hne. unfold chunk_packet in *. cbn [omap list_omap as_packet app].
  set (m := mkChat _ _ _ _ _ _ _) in *.
  assert (Hm : chat_wf m) by (unfold chat_wf; cbn; split_ands; done).
  assert (E : handle_packet (cmd_val CHAT, SerializeToString m) c = handle_chat_message m c).
  { unfold handle_packet. cbn [fst snd]. by rewrite Z.eqb_refl, chat_parse_serialize. }
  destruct (handle_chat_message m c) as [[] c1|c1|r] eqn:E1.
  - exists c1. split; [by apply listen_cons; [done..|exact E]|].
    unfold handle_chat_message in E1. mred. change (from_uid m =? 9999)%Z with true in E1. cbn [negb] in E1.
    change (is_last_chunk m) with (sn_last e) in E1. change (content m) with (sn_text e) in E1.
    destruct Hl as [Hr Hb]. destruct (sn_last e) eqn:El.
    + injection E1 as <-. split; cbn; try done. by rewrite app_nil_r.
    + destruct Hne as [Hne|?]; [|done]. rewrite bool_decide_eq_false_2 in E1 by done.
      unfold say, shown, ai_tag in *. cbn [map concat]. rewrite app_nil_r. mred.
      cbn [in_stream_ set_last_chunk] in E1. destruct (in_stream_ c) eqn:Ei; injection E1 as <-; split; cbn; try done.
      by rewrite <- !app_assoc.
  - exfalso. unfold handle_chat_message in E1. mred. repeat case_match; done.
  - exfalso. unfold handle_chat_message in E1. mred. repeat case_match; done.
Qed.

Lemma hear_middle x u es : ∀ n c ps,
  listening c → chunks_fit x u n es → Forall middle es →
  ∃ c', listen_to (omap as_packet (chunk_packets x u n es) ++ ps) c = listen_to ps c' ∧
    heard c c' (shown (in_stream_ c) es) (if es is [] then in_stream_ c else true)
      (if es is [] then stream_started_ c else if in_stream_ c then stream_started_ c else true)
      (stream_completed_ c).
Proof.
  induction es as [|e es IH]; intros n c ps Hl Hf Hm.
  - exists c. split; [done|]. split; try done. cbn. by rewrite app_nil_r.
  - destruct Hf as [Hf Hfs]. apply Forall_cons in Hm as [[Ht Hlast] Hms].
    cbn [chunk_packets]. change (omap as_packet (?a :: ?l) ++ ps) with (omap as_packet [a] ++ (omap as_packet l ++ ps)).
    destruct (hear_chunk c x u n e (omap as_packet (chunk_packets x u (wrap_i32 (n + 1)) es) ++ ps) Hl Hf)
      as (c1 & E1 & [H1 H2 H3 H4 H5]); [by left|]. rewrite Hlast in *. rewrite E1.
    destruct (IH (wrap_i32 (n + 1)) c1 ps H5 Hfs Hms) as (c2 & E2 & [J1 J2 J3 J4 J5]).
    exists c2. split; [done|]. cbn [negb] in H2. rewrite H2 in *. split; [|..|done].
    + rewrite J1, H1, <- app_assoc. f_equal. unfold shown. cbn [map concat]. rewrite app_nil_r, <- app_assoc.
      do 2 f_equal. by destruct es.
    + rewrite J2. by destruct es.
    + rewrite J3, H3. by destruct es.
    + by rewrite J4, H4.
Qed.

(** C38. What the user sees of an AI answer: of the packets of a stream, the
    client shows the texts of all but the last, in order and once each, after
    one tag, and then considers the answer complete; the text of the last
    packet, which carries the end of every answer, is not shown, and when the
    last packet is the only one the client does not even learn that the answer
    has begun. *)
Theorem answer_on_screen x u n es e c :
  listening c → in_stream_ c = false → chunks_fit x u n (es ++ [e]) → Forall middle es → sn_last e = true →
  ∃ c', listen_to (omap as_packet (chunk_packets x u n (es ++ [e]))) c = Ret tt c' ∧
    screen c' = screen c ++ shown false es ∧ in_stream_ c' = false ∧ stream_completed_ c' = true ∧
    stream_started_ c' = (if es is [] then stream_started_ c else true).
Proof.
  intros Hl Hi Hf Hm He.
  assert (Hfs : chunks_fit x u n es ∧ chunk_fits x u (seq_after n es) e).
  { clear -Hf. revert n Hf. induction es as [|a es IH]; intros n Hf; cbn in *; [tauto|].
    destruct Hf as [? Hf]. apply IH in Hf. tauto. }
  destruct Hfs as [Hfs Hfe]. rewrite chunk_packets_app, omap_app.
  destruct (hear_middle x u es n c (omap as_packet (chunk_packets x u (seq_after n es) [e])) Hl Hfs Hm)
    as (c1 & E1 & [H1 H2 H3 H4 H5]). rewrite E1. cbn [chunk_packets].
  destruct (hear_chunk c1 x u (seq_after n es) e [] H5 Hfe) as (c2 & E2 & [J1 J2 J3 J4 J5]); [by right|].
  rewrite app_nil_r in E2. rewrite E2. exists c2. rewrite He, Hi in *. split; [done|].
  rewrite J1, H1, app_nil_r. split_ands; try done. by rewrite J3, H3.
Qed.
End Screen.

Lemma answer_on_screen_witness :
  ∃ c', listen_to (omap as_packet (chunk_packets 0 1000 0 [mkSent (str "Hello ") false 5; mkSent (str "world") true 6]))
          demo_client = Ret tt c' ∧
    screen c' = ai_tag ++ str "Hello " ∧ in_stream_ c' = false ∧ stream_completed_ c' = true ∧ stream_started_ c' = true.
Proof.
  apply (answer_on_screen 0 1000 0 [mkSent (str "Hello ") false 5] (mkSent (str "world") true 6) demo_client);
    try done; by repeat constructor.
Defined.
