(* ===== verification/MainLoop.v ===== *)
(** * Accepting and shutting down (src/main.cpp, src/acceptor.cpp)

    The accept loop of [main] with its round robin over the workers, and the
    order in which [main] takes the server apart. *)

From S2P Require Import Prelude Bytes Config Protocol Framing Timer ThreadPool Context EventLoop.
From S2P Require Import Session Json RefCodec Llama AiManager FileStore DbWriter World Business Stream Worker.
From S2P Require Import ConnTable System Delivery Requests.

Section Main.
Context {B : Type} `{Backend B} `{Protobuf}.
Implicit Types (s : Server B) (w : worker_id).

(** A connection [accept4] answered: descriptor, address, port. *)
Definition accepted_conn : Type := Z * bytes * Z.

(** The callback of [main]: [workers[rr++ % worker_num]->queue_add_connection(...)];
    both operands of [%] are unsigned. *)
Definition on_accept (worker_num rr : Z) (a : accepted_conn) : M (Server B) Z :=
  let k := wrap_u32 worker_num in
  (if (k =? 0)%Z then crash DivByZero else accept_connection (Z.to_nat (rr `mod` k)) a.1.1 a.1.2 a.2) ;;
  mret (wrap_u32 (rr + 1)).

(** [Acceptor::handle_accept] until [accept4] fails. *)
Fixpoint handle_accept (worker_num rr : Z) (answers : list accepted_conn) : M (Server B) Z :=
  match answers with
  | [] => mret rr
  | a :: rest => rr' ← on_accept worker_num rr a; handle_accept worker_num rr' rest
  end.

(** [workers.clear()]: every loop is stopped and joined, and the worker is
    destroyed with its connections. *)
Definition destroy_workers : M (Server B) unit :=
  s ← get_st;
  for_each destroy_connection (map_to_list (sv_conns s)).*1 ;;
  modify (set_workers ∅).

(** One task of the pool, on the thread that took it.  [streams] runs the AI
    requests. *)
Definition run_task (streams : req_id → M (Server B) unit) (t : task) : M (Server B) unit :=
  match t with
  | TBusiness c head body => process_business c head body
  | TStream r => streams r
  end.

(** [g_workers.reset()]: the pool's destructor joins its threads, which first
    run what is queued. *)
Definition drain_pool (streams : req_id → M (Server B) unit) : M (Server B) unit :=
  s ← get_st;
  match sv_pool s with
  | Some p => for_each (run_task streams) (tasks_ p) ;; modify (set_pool None)
  | None => mret tt
  end.

(** The end of [main]; [meanwhile i] is what the threads that still run do
    before the next object is destroyed. *)
Definition shutdown_server (meanwhile : nat → Server B → Server B) (streams : req_id → M (Server B) unit)
    (writing : bool) : M (Server B) unit :=
  destroy_workers ;;
  modify (meanwhile 0) ;;
  modify (set_ai None) ;;
  modify (meanwhile 1) ;;
  s ← get_st;
  (match sv_db s with Some d => on_db d (DbWriter.shutdown writing) | None => mret tt end) ;;
  modify (set_db None) ;;
  modify (meanwhile 2) ;;
  drain_pool streams.
End Main.

(** ** Round robin *)

(** The connections that worker [w] of [k] is given, the counter being at [rr]. *)
Fixpoint share (k rr : Z) (w : nat) (l : list accepted_conn) : list functor :=
  match l with
  | [] => []
  | a :: l' => (if (rr `mod` k =? Z.of_nat w)%Z then [FAdd a.1.1 a.1.2 a.2] else [])
               ++ share k (wrap_u32 (rr + 1)) w l'
  end.

(** How many of the numbers below [n] leave the remainder [w]. *)
Definition hits (k : Z) (w : nat) (n : Z) : Z := (n / k + if (Z.of_nat w <? n `mod` k)%Z then 1 else 0)%Z.

Lemma hits_succ (k : Z) (w : nat) (n : Z) :
  (0 < k)%Z → (Z.of_nat w < k)%Z →
  (hits k w (n + 1) = hits k w n + if n `mod` k =? Z.of_nat w then 1 else 0)%Z.
Proof.
  intros Hk Hw. unfold hits. pose proof (Z.div_mod n k ltac:(lia)) as Hn. pose proof (Z.mod_pos_bound n k Hk) as Hb.
  destruct (decide (n `mod` k = k - 1)%Z) as [E|E].
  - rewrite <- (Z.div_unique (n + 1) k (n / k + 1) 0), <- (Z.mod_unique (n + 1) k (n / k + 1) 0) by lia.
    destruct (Z.of_nat w <? 0)%Z eqn:E1, (Z.of_nat w <? n `mod` k)%Z eqn:E2, (n `mod` k =? Z.of_nat w)%Z eqn:E3;
      zbool; lia.
  - rewrite <- (Z.div_unique (n + 1) k (n / k) (n `mod` k + 1)), <- (Z.mod_unique (n + 1) k (n / k) (n `mod` k + 1)) by lia.
    destruct (Z.of_nat w <? n `mod` k + 1)%Z eqn:E1, (Z.of_nat w <? n `mod` k)%Z eqn:E2, (n `mod` k =? Z.of_nat w)%Z eqn:E3;
      zbool; lia.
Qed.

Lemma share_length (k : Z) (w : nat) (l : list accepted_conn) : ∀ rr,
  (0 < k)%Z → (Z.of_nat w < k)%Z → (0 ≤ rr)%Z → (rr + Z.of_nat (length l) < 2 ^ 32)%Z →
  Z.of_nat (length (share k rr w l)) = (hits k w (rr + Z.of_nat (length l)) - hits k w rr)%Z.
Proof.
  induction l as [|a l IH]; intros rr Hk Hw Hr Hl; cbn [share length] in *.
  - rewrite Z.add_0_r. lia.
  - rewrite length_app, Nat2Z.inj_add, (wrap_u32_id (rr + 1)) by (unfold is_u32; lia). rewrite IH by lia.
    replace (rr + 1 + Z.of_nat (length l))%Z with (rr + Z.of_nat (S (length l)))%Z by lia.
    rewrite (hits_succ k w rr) by done. case_if; cbn [length]; lia.
Qed.

Lemma share_balanced (k rr : Z) (w1 w2 : nat) (l : list accepted_conn) :
  (0 < k)%Z → (Z.of_nat w1 < k)%Z → (Z.of_nat w2 < k)%Z → (0 ≤ rr)%Z → (rr + Z.of_nat (length l) < 2 ^ 32)%Z →
  length (share k rr w1 l) ≤ S (length (share k rr w2 l)).
Proof.
  intros Hk H1 H2 Hr Hl. apply Nat2Z.inj_le. rewrite Nat2Z.inj_succ, !share_length by done. unfold hits.
  set (a := ((rr + _) `mod` k)%Z). set (b := (rr `mod` k)%Z).
  destruct (Z.of_nat w1 <? a)%Z eqn:E1, (Z.of_nat w1 <? b)%Z eqn:E2, (Z.of_nat w2 <? a)%Z eqn:E3,
    (Z.of_nat w2 <? b)%Z eqn:E4; zbool; lia.
Qed.

Section Accepting.
Context {B : Type}.
Implicit Types (s : Server B).

Lemma accept_queues w f ip port s :
  is_Some (sv_workers s !! w) →
  ∃ s', accept_connection w f ip port s = Ret tt s' ∧
    (∀ w', pending_of s' w' = (λ q, q ++ queued_to w w' (FAdd f ip port)) <$> pending_of s w') ∧
    (∀ w', is_Some (sv_workers s' !! w') ↔ is_Some (sv_workers s !! w')).
Proof.
  intros [k Hk]. unfold accept_connection, queue_add_connection, queue_functor, worker_of. mred.
  cbn [set_open_fds sv_workers]. rewrite Hk, (mod_worker_eq _ w _ k) by done. eexists. split; [done|].
  split; intros w'; unfold pending_of, queued_to; cbn [set_workers set_open_fds sv_workers].
  - destruct (decide (w = w')) as [<-|Hne].
    + rewrite lookup_insert_eq, Hk, decide_True by done. done.
    + rewrite lookup_insert_ne, decide_False by done. destruct (sv_workers s !! w'); [|done]. cbn.
      by rewrite app_nil_r.
  - destruct (decide (w = w')) as [<-|Hne]; [rewrite lookup_insert_eq, Hk|rewrite lookup_insert_ne by done]; naive_solver.
Qed.

(** C37. New connections are spread evenly: with [k] workers, every connection
    the main thread accepts is queued for the worker whose turn it is and for
    no other, and after any number of connections (before the 32-bit counter
    wraps) no worker has been given two more than another. *)
Theorem round_robin_balanced (k : nat) (rr : Z) (l : list accepted_conn) s :
  0 < k → (Z.of_nat k < 2 ^ 32)%Z → (∀ w, w < k → is_Some (sv_workers s !! w)) →
  (0 ≤ rr)%Z → (rr + Z.of_nat (length l) < 2 ^ 32)%Z →
  ∃ s', handle_accept (Z.of_nat k) rr l s = Ret (rr + Z.of_nat (length l))%Z s' ∧
    (∀ w, pending_of s' w = (λ q, q ++ share (Z.of_nat k) rr w l) <$> pending_of s w) ∧
    (∀ w1 w2, w1 < k → w2 < k → length (share (Z.of_nat k) rr w1 l) ≤ S (length (share (Z.of_nat k) rr w2 l))).
Proof.
  intros Hk Hk2 Hw Hr Hl.
  assert (Hq : ∃ s', handle_accept (Z.of_nat k) rr l s = Ret (rr + Z.of_nat (length l))%Z s' ∧
    ∀ w, pending_of s' w = (λ q, q ++ share (Z.of_nat k) rr w l) <$> pending_of s w).
  { revert rr s Hw Hr Hl. induction l as [|a l IH]; intros rr s Hw Hr Hl; cbn [handle_accept share length] in *.
    - exists s. rewrite Z.add_0_r. split; [done|]. intros w. destruct (pending_of s w); [|done]. cbn.
      by rewrite app_nil_r.
    - unfold on_accept. rewrite (wrap_u32_id (Z.of_nat k)) by (unfold is_u32; lia).
      rewrite (proj2 (Z.eqb_neq _ _)) by lia.
      pose proof (Z.mod_pos_bound rr (Z.of_nat k) ltac:(lia)) as Hb.
      destruct (accept_queues (Z.to_nat (rr `mod` Z.of_nat k)) a.1.1 a.1.2 a.2 s) as (s1 & E & Hp & Hs); [apply Hw; lia|].
      mred. rewrite E. rewrite (wrap_u32_id (rr + 1)) by (unfold is_u32; lia).
      destruct (IH (rr + 1)%Z s1) as (s2 & E2 & Hp2); [intros w ?; by apply Hs, Hw|lia|lia|].
      exists s2. split; [rewrite E2; f_equal; lia|]. intros w. rewrite Hp2, Hp.
      destruct (pending_of s w); [|done]. cbn. f_equal. rewrite <- app_assoc. f_equal. f_equal.
      unfold queued_to. destruct (decide (w = _)) as [->|Hne].
      + by rewrite (proj2 (Z.eqb_eq _ _)) by lia.
      + by rewrite (proj2 (Z.eqb_neq _ _)) by lia. }
  destruct Hq as (s' & E & Hp). exists s'. split_ands; [done..|]. intros w1 w2 H1 H2. apply share_balanced; lia.
Qed.
End Accepting.

(** ** Taking the server apart *)

Section Shutdown.
Context {B : Type} `{Backend B} `{Protobuf}.
Implicit Types (s : Server B).

Lemma destroy_returns p s :
  is_Some (sv_conns s !! p) →
  ∃ s', destroy_connection p s = Ret tt s' ∧ sv_heap s' = sv_heap s ∧ sv_pool s' = sv_pool s ∧
    sv_db s' = sv_db s ∧ ∀ q, q ≠ p → sv_conns s' !! q = sv_conns s !! q.
Proof.
  intros [t Ht]. unfold destroy_connection, conn_of, sys_close. mred. rewrite Ht.
  repeat case_if; eexists; (split; [reflexivity|]); split_ands; try done;
    intros q Hq; cbn; by rewrite lookup_delete_ne.
Qed.

Lemma destroy_all_returns ps : ∀ s,
  NoDup ps → Forall (λ p, is_Some (sv_conns s !! p)) ps →
  ∃ s', for_each destroy_connection ps s = Ret tt s' ∧ sv_heap s' = sv_heap s ∧ sv_pool s' = sv_pool s ∧
    sv_db s' = sv_db s.
Proof.
  induction ps as [|p ps IH]; intros s Hnd Hps; cbn [for_each]; [by exists s|].
  apply NoDup_cons in Hnd as [Hp Hnd]. apply Forall_cons in Hps as [Hs Hps].
  destruct (destroy_returns p s Hs) as (s1 & E & Hh & Hpo & Hd & Hc). mred. rewrite E.
  destruct (IH s1 Hnd) as (s2 & E2 & ? & ? & ?).
  { apply Forall_forall. intros q Hq. rewrite Hc; [by apply (proj1 (Forall_forall _ _) Hps)|]. by intros ->. }
  exists s2. split_ands; congruence.
Qed.

Lemma destroy_workers_returns s :
  ∃ s', destroy_workers s = Ret tt s' ∧ sv_heap s' = sv_heap s ∧ sv_pool s' = sv_pool s ∧ sv_db s' = sv_db s ∧
    sv_workers s' = ∅.
Proof.
  unfold destroy_workers. mred.
  destruct (destroy_all_returns (map_to_list (sv_conns s)).*1 s) as (s1 & E & Hh & Hp & Hd).
  - apply NoDup_fst_map_to_list.
  - apply Forall_forall. intros p Hp. apply list_elem_of_fmap in Hp as ([q t] & -> & Hq%elem_of_map_to_list). cbn. rewrite Hq. eauto.
  - rewrite E. eexists. split; [done|]. by cbn.
Qed.

(** Requests that are still queued at shutdown run on a server without
    workers: when one of them is a heartbeat of a client, its answer goes
    through a worker that has been destroyed. *)
Theorem shutdown_runs_orphans streams s p c x w hdr body rest :
  sv_pool s = Some p → tasks_ p = TBusiness c hdr body :: rest → cmd hdr = cmd_val HEARTBEAT →
  ctxs (sv_heap s) !! c = Some x → owner_worker x = Some w →
  shutdown_server (λ _ s, s) streams false s = Crash UseAfterFree.
Proof.
  intros Hp Ht Hh Hx Hw. unfold shutdown_server. destruct (destroy_workers_returns s) as (s1 & E & H1 & H2 & H3 & H4).
  mred. rewrite E. cbn [set_ai sv_db].
  assert (Hs : ∀ d, DbWriter.shutdown false d = Ret tt (mkWriter (queue_ d) false (backend d))) by done.
  assert (Hgo : ∀ s2, sv_heap s2 = sv_heap s → sv_pool s2 = sv_pool s → sv_workers s2 = ∅ →
    drain_pool streams s2 = Crash UseAfterFree).
  { intros s2 G1 G2 G3. unfold drain_pool. mred. rewrite G2, Hp, Ht. cbn [for_each run_task]. mred.
    unfold process_business. mred. rewrite Hh. change (cmd_val HEARTBEAT =? cmd_val CHAT)%Z with false. mred.
    unfold handle_command. rewrite Hh. cbn [Z.eqb cmd_val Pos.eqb].
    unfold handle_heartbeat, uid_of, ack, reply, owner_of, ctx_of, queue_send_packet, queue_functor, worker_of. mred.
    rewrite G1, Hx. lazy beta match. rewrite ?G1, ?Hx. lazy beta match. rewrite Hw. lazy beta match.
    by rewrite G3, lookup_empty. }
  destruct (sv_db s1) as [d|]; [unfold on_db; rewrite Hs|]; apply Hgo; cbn; congruence.
Qed.
End Shutdown.

(** ** Witnesses *)

Definition demo_two : Server (HashedDB len_hash) :=
  match start_workers 2 (empty_server demo_env (new_ai 2) demo_db 4) with Ret _ s => s | _ => demo_server end.

Lemma round_robin_balanced_witness :
  ∃ s', handle_accept 2 0 [(5%Z, str "10.0.0.1", 4000%Z); (6%Z, str "10.0.0.2", 4001%Z); (7%Z, str "10.0.0.3", 4002%Z)]
          demo_two = Ret 3%Z s' ∧
    pending_of s' 1 = (λ q, q ++ [FAdd 6 (str "10.0.0.2") 4001]) <$> pending_of demo_two 1.
Proof.
  destruct (round_robin_balanced 2 0
    [(5%Z, str "10.0.0.1", 4000%Z); (6%Z, str "10.0.0.2", 4001%Z); (7%Z, str "10.0.0.3", 4002%Z)] demo_two)
    as (s' & E & Hp & _); [lia|lia| |lia|simpl; lia|].
  - intros w Hw. apply (bool_decide_unpack _). do 2 (destruct w as [|w]; [vm_compute; exact I|]). lia.
  - exists s'. split; [exact E|exact (Hp 1)].
Defined.

Lemma shutdown_runs_orphans_witness :
  shutdown_server (λ _ s, s) (λ _, mret tt) false
    (set_pool (Some (enqueue (TBusiness 0 ping_header []) (new_pool 2)).2) demo_connected) = Crash UseAfterFree.
Proof.
  apply (shutdown_runs_orphans (λ _, mret tt) _ (enqueue (TBusiness 0 ping_header []) (new_pool 2)).2 0 demo_ctx 0
           ping_header [] []); reflexivity.
Defined.
