(* ===== verification/Startup.v ===== *)
(** * Starting and stopping (src/main.cpp, src/acceptor.cpp, src/event_loop.cpp, include/llama_client.h, chat_client.cpp)

    The calls into the kernel that set the sockets up, the options of an HTTP
    request, [main] of the server from the first to the last line, and [main]
    of the client.  The kernel is an argument: what it answers to a call may
    depend on all calls before. *)

From S2P Require Import Prelude Steps Bytes Config Scan Protocol Framing Timer ThreadPool Context EventLoop.
From S2P Require Import Session Json RefCodec Llama AiManager FileStore DbWriter World Business Stream Worker.
From S2P Require Import ConnTable System Delivery Requests ClientNet Client MainLoop.

(** ** Kernel calls *)

(** The calls of the kernel that set the program up, and libcurl's. *)
Inductive sys_call :=
  | CurlGlobalInit (flags : Z)
  | CurlGlobalCleanup
  | SysSocket (domain type protocol : Z)
  | SysSetsockopt (fd level name value : Z)
  | SysBind (fd family port addr : Z)             (* port in network byte order *)
  | SysListen (fd backlog : Z)
  | SysConnect (fd family port : Z) (host : bytes) (* port in network byte order *)
  | SysEpollCreate (flags : Z)
  | SysEventfd (initval flags : Z)
  | SysEpollAdd (epfd fd events : Z)
  | SysSignal (signum : Z) (ignored : bool).

Definition kernel : Type := list sys_call → sys_call → Z.
Definition sys (k : kernel) (c : sys_call) : M (list sys_call) Z := λ log, Ret (k log c) (log ++ [c]).

Definition AF_INET : Z := 2.
Definition SOCK_STREAM : Z := 1.
Definition SOCK_NONBLOCK : Z := 0x800.
Definition SOCK_CLOEXEC : Z := 0x80000.
Definition SOL_SOCKET : Z := 1.
Definition SO_REUSEADDR : Z := 2.
Definition SO_KEEPALIVE : Z := 9.
Definition IPPROTO_TCP : Z := 6.
Definition TCP_KEEPIDLE : Z := 4.
Definition TCP_KEEPINTVL : Z := 5.
Definition TCP_KEEPCNT : Z := 6.
Definition INADDR_ANY : Z := 0.
Definition SIGINT : Z := 2.
Definition SIGPIPE : Z := 13.
Definition SIGTERM : Z := 15.
Definition CURL_GLOBAL_ALL : Z := 3.

Definition wrap_u16 (z : Z) : Z := z `mod` 2 ^ 16.
Definition is_u16 (z : Z) : Prop := (0 ≤ z < 2 ^ 16)%Z.
(** [htons], [ntohs] on a little-endian machine: the two bytes change places. *)
Definition htons (z : Z) : Z := ((wrap_u16 z `mod` 256) * 256 + wrap_u16 z / 256)%Z.

Section Kernel.
Context (k : kernel).

(** [create_eventfd]: [exit(1)] when the kernel has none. *)
Definition create_eventfd : M (list sys_call) Z :=
  efd ← sys k (SysEventfd 0 (Z.lor SOCK_NONBLOCK SOCK_CLOEXEC));
  if (efd <? 0)%Z then crash ExitFailure else mret efd.

(** [EventLoop::EventLoop]: the descriptors of the epoll set and its eventfd. *)
Definition open_loop : M (list sys_call) (Z * Z) :=
  epfd ← sys k (SysEpollCreate SOCK_CLOEXEC);
  wakeup_fd ← create_eventfd;
  sys k (SysEpollAdd epfd wakeup_fd EPOLLIN) ;;
  mret (epfd, wakeup_fd).

(** The event loops of [n] workers. *)
Fixpoint open_loops (n : nat) : M (list sys_call) unit :=
  match n with O => mret tt | S n' => open_loop ;; open_loops n' end.

(** [Acceptor::Acceptor]: no answer is looked at. *)
Definition open_acceptor (epfd port backlog : Z) : M (list sys_call) Z :=
  listen_fd ← sys k (SysSocket AF_INET (Z.lor SOCK_STREAM (Z.lor SOCK_NONBLOCK SOCK_CLOEXEC)) 0);
  sys k (SysSetsockopt listen_fd SOL_SOCKET SO_REUSEADDR 1) ;;
  sys k (SysBind listen_fd AF_INET (htons port) INADDR_ANY) ;;
  sys k (SysListen listen_fd backlog) ;;
  sys k (SysEpollAdd epfd listen_fd EPOLLIN) ;;
  mret listen_fd.

(** [set_keepalive], called for every new connection. *)
Definition set_keepalive (fd idle interval count : Z) : M (list sys_call) unit :=
  sys k (SysSetsockopt fd SOL_SOCKET SO_KEEPALIVE 1) ;;
  sys k (SysSetsockopt fd IPPROTO_TCP TCP_KEEPIDLE idle) ;;
  sys k (SysSetsockopt fd IPPROTO_TCP TCP_KEEPINTVL interval) ;;
  sys k (SysSetsockopt fd IPPROTO_TCP TCP_KEEPCNT count) ;;
  mret tt.

Definition install_signals : M (list sys_call) unit :=
  sys k (SysSignal SIGPIPE true) ;;
  sys k (SysSignal SIGINT false) ;;
  sys k (SysSignal SIGTERM false) ;;
  mret tt.
End Kernel.

(** ** HTTP requests (include/llama_client.h) *)

Inductive curl_option :=
  | CURLOPT_URL | CURLOPT_POSTFIELDS | CURLOPT_WRITEFUNCTION | CURLOPT_WRITEDATA | CURLOPT_TIMEOUT
  | CURLOPT_CONNECTTIMEOUT | CURLOPT_NOSIGNAL | CURLOPT_TCP_KEEPALIVE | CURLOPT_TCP_KEEPIDLE
  | CURLOPT_TCP_KEEPINTVL | CURLOPT_LOW_SPEED_LIMIT | CURLOPT_LOW_SPEED_TIME | CURLOPT_HTTPHEADER.
#[export] Instance curl_option_eq : EqDecision curl_option.
Proof. solve_decision. Defined.

(** A value: text, a number, a header list, or the callback and its argument. *)
Inductive curl_value := CText (s : bytes) | CLong (n : Z) | CList (l : list bytes) | CCallback.

(** A handle keeps the options of earlier requests. *)
Definition curl_handle : Type := curl_option → option curl_value.
Definition setopt (o : curl_option) (v : curl_value) (h : curl_handle) : curl_handle :=
  λ o', if decide (o' = o) then Some v else h o'.

Record LlamaClient := mkLlama { curl_ : option curl_handle; base_url_ : bytes }.
(** [LlamaClient::LlamaClient]; [ok]: [curl_easy_init] gave a handle. *)
Definition new_llama (ok : bool) (url : bytes) : LlamaClient :=
  mkLlama (if ok then Some (λ _, None) else None) url.

(** The options of one request, in the order of the code. *)
Definition request_setup (base_url prompt : bytes) : list (curl_option * curl_value) :=
  [(CURLOPT_URL, CText (base_url ++ str "/v1/chat/completions"));
   (CURLOPT_POSTFIELDS, CText (request_json prompt));
   (CURLOPT_WRITEFUNCTION, CCallback);
   (CURLOPT_WRITEDATA, CCallback);
   (CURLOPT_TIMEOUT, CLong 600);
   (CURLOPT_CONNECTTIMEOUT, CLong 60);
   (CURLOPT_NOSIGNAL, CLong 1);
   (CURLOPT_TCP_KEEPALIVE, CLong 1);
   (CURLOPT_TCP_KEEPIDLE, CLong 60);
   (CURLOPT_TCP_KEEPINTVL, CLong 15);
   (CURLOPT_LOW_SPEED_LIMIT, CLong 1);
   (CURLOPT_LOW_SPEED_TIME, CLong 30);
   (CURLOPT_HTTPHEADER, CList [str "Content-Type: application/json"; str "Accept: text/event-stream"])].

(** The handle as [curl_easy_perform] sees it; [None]: no handle, nothing is sent. *)
Definition prepare_request (prompt : bytes) (c : LlamaClient) : option curl_handle :=
  (λ h, foldl (λ h p, setopt p.1 p.2 h) h (request_setup (base_url_ c) prompt)) <$> curl_ c.
Definition after_request (prompt : bytes) (c : LlamaClient) : LlamaClient :=
  mkLlama (prepare_request prompt c) (base_url_ c).

(** ** [main] of the server *)

(** The process: its objects, and the kernel calls made so far. *)
Record Process (B : Type) := mkProcess { pr_server : Server B; pr_calls : list sys_call }.
Arguments mkProcess {B}.
Arguments pr_server {B} p.
Arguments pr_calls {B} p.

Section ServerMain.
Context {B : Type} `{Backend B} `{Protobuf}.

Definition on_server {A} (m : M (Server B) A) : M (Process B) A := λ p,
  match m (pr_server p) with
  | Ret a s => Ret a (mkProcess s (pr_calls p))
  | Throw s => Throw (mkProcess s (pr_calls p))
  | Crash r => Crash r
  end.
Definition on_kernel {A} (m : M (list sys_call) A) : M (Process B) A := λ p,
  match m (pr_calls p) with
  | Ret a l => Ret a (mkProcess (pr_server p) l)
  | Throw l => Throw (mkProcess (pr_server p) l)
  | Crash r => Crash r
  end.

(** The globals before [main]: null pointers. *)
Definition blank_server (env : environment) : Server B :=
  mkServer env 0 0 empty_heap ∅ 0 ∅ ∅ new_sessions None None None 0.

(** [std::make_unique<ThreadPool>(worker_num * 2)] and
    [std::make_unique<StreamingAIManager>(Config::AI_MAX_CONCURRENT())]: the
    [int] becomes a [size_t].  [limit] is how many threads, or clients, the
    system can give; beyond it the constructor throws, and [main] has no
    handler. *)
Definition make_workers_pool (limit worker_num : Z) : M (Server B) unit :=
  let n := wrap_u64 (wrap_i32 (worker_num * 2)) in
  if (n >? limit)%Z then crash Terminate else modify (set_pool (Some (new_pool (Z.to_nat n)))).
Definition make_ai_manager (limit max_concurrent : Z) : M (Server B) unit :=
  let n := wrap_u64 max_concurrent in
  if (n >? limit)%Z then crash Terminate else modify (set_ai (Some (new_ai (Z.to_nat n)))).

(** One turn of the [while (g_running)] loop: the other threads run during
    [epoll_wait]; then for every event one [handle_accept], which the kernel
    answers with some connections.  The other threads run before each of
    them (a call during which they run is written as several). *)
Record turn := mkTurn {
  waiting : Server B → Server B;
  events : list ((Server B → Server B) * list accepted_conn)
}.
Fixpoint accept_events (worker_num rr : Z) (evs : list ((Server B → Server B) * list accepted_conn)) : M (Server B) Z :=
  match evs with
  | [] => mret rr
  | (others, answers) :: rest =>
      modify others ;;
      rr' ← handle_accept worker_num rr answers;
      accept_events worker_num rr' rest
  end.
(** The loop until a signal clears [g_running]. *)
Fixpoint accept_rounds (worker_num rr : Z) (turns : list turn) : M (Server B) Z :=
  match turns with
  | [] => mret rr
  | t :: rest =>
      modify (waiting t) ;;
      rr' ← accept_events worker_num rr (events t);
      accept_rounds worker_num rr' rest
  end.

(** From [worker_num] to the signal handlers.  [db] is the writer its
    constructor made; every [Worker] opens an event loop of its own. *)
Definition start_server (k : kernel) (limit hw : Z) (env : environment) (db : DBBatchWriter B) : M (Process B) unit :=
  let worker_num := WORKER_NUM env hw in
  on_server (make_workers_pool limit worker_num) ;;
  on_server (modify (set_db (Some db))) ;;
  on_server (make_ai_manager limit (AI_MAX_CONCURRENT env)) ;;
  on_server (start_workers (Z.to_nat worker_num)) ;;
  on_kernel (open_loops k (Z.to_nat worker_num)) ;;
  fds ← on_kernel (open_loop k);
  on_kernel (open_acceptor k fds.1 (PORT env) (BACKLOG env)) ;;
  on_kernel (install_signals k).

(** [log_ok]: the log files could be opened.  The answer is the exit code. *)
Definition main (k : kernel) (limit hw : Z) (env : environment) (log_ok : bool) (db : DBBatchWriter B)
    (turns : list turn) (meanwhile : nat → Server B → Server B)
    (streams : req_id → M (Server B) unit) (writing : bool) : M (Process B) Z :=
  on_kernel (sys k (CurlGlobalInit CURL_GLOBAL_ALL)) ;;
  if negb log_ok then mret 1%Z
  else
    start_server k limit hw env db ;;
    on_server (accept_rounds (WORKER_NUM env hw) 0 turns) ;;
    on_server (shutdown_server meanwhile streams writing) ;;
    on_kernel (sys k CurlGlobalCleanup) ;;
    mret 0%Z.
End ServerMain.
Arguments turn B : clear implicits.

(** ** [main] of the client *)

(** [argv] after the program's name.  [None]: [std::stoi] throws, which ends
    the process. *)
Definition client_address (argv : list bytes) : option (bytes * Z) :=
  let host := match argv with h :: _ => h | [] => str "127.0.0.1" end in
  match argv with
  | _ :: p :: _ => v ← stoi p; Some (host, wrap_u16 v)
  | _ => Some (host, 8888%Z)
  end.

(** The kernel calls of [AIChatClient::connect]. *)
Definition client_connect_calls (k : kernel) (host : bytes) (port : Z) : M (list sys_call) (Z * Z) :=
  sock ← sys k (SysSocket AF_INET SOCK_STREAM 0);
  if (sock <? 0)%Z then mret (sock, (-1)%Z)
  else
    sys k (SysSetsockopt sock SOL_SOCKET 20 1) ;;
    r ← sys k (SysConnect sock AF_INET (htons port) host);
    mret (sock, r).

Section ClientMain.
Context `{Protobuf}.

(** [input] is what the user types; the answer is the exit code.  The
    destructor of the client calls [disconnect]. *)
Definition client_main (k : kernel) (argv : list bytes) (err : bytes) (input : list typed) : M AIChatClient Z :=
  match client_address argv with
  | None => crash Terminate
  | Some (host, port) =>
      match client_connect_calls k host port [] with
      | Ret (sock, r) _ =>
          ok ← connect sock (if (r <? 0)%Z then Some err else None);
          if (ok : bool) then chat_loop input ;; say_line (endl ++ str "👋 再见！") ;; disconnect ;; mret 0%Z
          else disconnect ;; mret 1%Z
      | _ => crash Terminate
      end
  end.
End ClientMain.

(** ** Addresses *)

Lemma htons_u16 p : is_u16 p → is_u16 (htons p).
Proof.
  unfold is_u16, htons, wrap_u16. intros Hp. rewrite (Z.mod_small p (2 ^ 16)) by done.
  pose proof (Z.mod_pos_bound p 256 eq_refl). pose proof (Z.div_lt_upper_bound p 256 256 eq_refl ltac:(lia)).
  pose proof (Z.div_pos p 256 ltac:(lia) eq_refl). lia.
Qed.
Lemma htons_twice p : is_u16 p → htons (htons p) = p.
Proof.
  intros Hp. pose proof (htons_u16 p Hp) as Hh. unfold htons at 1. unfold wrap_u16. rewrite (Z.mod_small (htons p) (2 ^ 16)) by exact Hh.
  unfold htons, wrap_u16. rewrite (Z.mod_small p (2 ^ 16)) by exact Hp. unfold is_u16 in Hp.
  pose proof (Z.mod_pos_bound p 256 eq_refl). pose proof (Z.div_lt_upper_bound p 256 256 eq_refl ltac:(lia)).
  pose proof (Z.div_pos p 256 ltac:(lia) eq_refl). pose proof (Z.div_mod p 256 ltac:(lia)).
  set (a := (p `mod` 256)%Z) in *. set (b := (p / 256)%Z) in *.
  rewrite <- (Z.div_unique (a * 256 + b) 256 a b), <- (Z.mod_unique (a * 256 + b) 256 a b) by lia. lia.
Qed.

(** [std::stoi] reads what [std::to_string] wrote. *)
Lemma get_number_digit lo hi b s :
  is_digit b = true →
  get_number lo hi (b :: s) =
  match from_chars_digits lo hi 1 (b :: s) with Parsed v rest => Some (v, rest) | _ => None end.
Proof. destruct b; first [discriminate|reflexivity]. Qed.
Lemma stoi_to_string v : is_i32 v → stoi (to_string v) = Some v.
Proof.
  unfold is_i32, stoi, to_string. intros Hv. case_if; zbool.
  - unfold get_number. cbn [skipws]. change (isspace x2d) with false. cbv beta iota.
    rewrite from_chars_dec_digits; unfold INT32_MAX; [cbn; f_equal; lia|lia..].
  - destruct (dec_digits_head 19 v [] ltac:(lia)) as (d & s & Hd & Es).
    assert (Hc : from_chars_digits (- 2 ^ 31) INT32_MAX 1 (dec_digits 20 v []) = Parsed v []).
    { rewrite from_chars_dec_digits; unfold INT32_MAX; [f_equal; lia|lia|lia]. }
    rewrite Es in *. rewrite get_number_digit, Hc; [done|]. unfold is_digit. rewrite digit_val by done.
    rewrite !(proj2 (Z.leb_le _ _)) by lia. done.
Qed.

(** C20. A client that is given the server's port as its second argument connects to
    the port the server binds: when the text [to_string p] of a 16-bit number
    is both the variable IM_PORT of the server and the argument of the client,
    the [sin_port] of [bind] and the [sin_port] of [connect] are the same, and
    the kernel reads [p] from both. *)
Theorem client_finds_server k k' epfd p host env :
  is_u16 p → env (str "IM_PORT") = Some (to_string p) → (∀ log c, (0 ≤ k' log c)%Z) →
  ∃ fd log sock r log',
    open_acceptor k epfd (PORT env) (BACKLOG env) [] = Ret fd log ∧
    SysBind fd AF_INET (htons p) INADDR_ANY ∈ log ∧ SysListen fd (BACKLOG env) ∈ log ∧
    client_address [host; to_string p] = Some (host, p) ∧
    client_connect_calls k' host p [] = Ret (sock, r) log' ∧
    SysConnect sock AF_INET (htons p) host ∈ log' ∧ htons (htons p) = p.
Proof.
  intros Hp He Hk. assert (Hi : is_i32 p) by (unfold is_u16, is_i32 in *; lia).
  assert (Hport : PORT env = p).
  { unfold PORT, getenv_i32. rewrite He, (from_chars_to_string p Hi). pose proof (to_string_nonempty p).
    by destruct (to_string p). }
  assert (Haddr : client_address [host; to_string p] = Some (host, p)).
  { unfold client_address. rewrite (stoi_to_string p Hi). cbn. f_equal. f_equal. by apply Z.mod_small. }
  unfold open_acceptor, client_connect_calls, sys. rewrite Hport. mred.
  rewrite (proj2 (Z.ltb_ge _ _)) by apply Hk. do 5 eexists. split_ands; [reflexivity|set_solver|set_solver|exact Haddr|
    reflexivity|set_solver|by apply htons_twice].
Qed.

(** ** Requests to the AI service do not leak into each other *)

(** A handle is used for many requests, of many users.  Whatever was asked
    before with it, [curl_easy_perform] sees the URL, the body, the headers,
    the callbacks and the timeouts of the present request and no other
    option: its view is the one a fresh handle would give. *)
Theorem request_is_fresh (url prompt : bytes) (earlier : list bytes) :
  ∃ h, prepare_request prompt (foldl (λ c p, after_request p c) (new_llama true url) earlier) = Some h ∧
    ∀ o v, h o = Some v ↔ (o, v) ∈ request_setup url prompt.
Proof.
  assert (Hc : ∀ l c h, curl_ c = Some h → base_url_ c = url →
    ∃ h', curl_ (foldl (λ c p, after_request p c) c l) = Some h' ∧
          base_url_ (foldl (λ c p, after_request p c) c l) = url).
  { induction l as [|p l IH]; intros c h Hh Hu; cbn [foldl]; [eauto|].
    eapply IH; [unfold after_request, prepare_request; cbn; by rewrite Hh|done]. }
  destruct (Hc earlier (new_llama true url) _ eq_refl eq_refl) as (h & Hh & Hu).
  unfold prepare_request. rewrite Hh, Hu. eexists. split; [reflexivity|].
  intros o v. unfold request_setup. cbn [foldl fst snd]. unfold setopt. split.
  - intros Hv. destruct o; cbn in Hv; injection Hv as <-; repeat (try (by left); right).
  - rewrite !elem_of_cons, elem_of_nil. intros Hin. repeat destruct Hin as [[= -> ->]|Hin]; try done.
Qed.

(** ** What [main] does *)

Section MainProps.
Context {B : Type} `{Backend B} `{Protobuf}.
Implicit Types (s : Server B).



Section Turns.
Context (n : nat) (Hn : 0 < n) (Hn2 : (Z.of_nat n < 2 ^ 31)%Z).

End Turns.




(** *** The calls of the kernel *)



Section Start.
Context (k : kernel) (limit hw : Z) (env : environment) (db : DBBatchWriter B) (n : nat).
Context (Hn : WORKER_NUM env hw = Z.of_nat n) (Hlt : (Z.of_nat n * 2 < 2 ^ 31)%Z) (Hlim : (Z.of_nat n * 2 ≤ limit)%Z).
Context (Hai : (0 ≤ AI_MAX_CONCURRENT env ≤ limit)%Z) (Hai2 : (AI_MAX_CONCURRENT env < 2 ^ 31)%Z).



End Start.

(** A negative number of workers ends the server before it starts: the [int]
    becomes a huge [size_t]. *)
Theorem negative_workers_terminate k limit hw env db turns meanwhile streams writing p :
  (- 2 ^ 30 ≤ WORKER_NUM env hw < 0)%Z → (limit < 2 ^ 63)%Z →
  main k limit hw env true db turns meanwhile streams writing p = Crash Terminate.
Proof.
  intros Hw Hl. unfold main, start_server. cbn [negb]. unfold make_workers_pool, on_server, on_kernel, sys. mred.
  rewrite wrap_i32_id by (unfold is_i32; lia). unfold wrap_u64.
  replace (WORKER_NUM env hw * 2)%Z with (WORKER_NUM env hw * 2 + 2 ^ 64 + (-1) * 2 ^ 64)%Z by lia.
  rewrite Z.mod_add, Z.mod_small by lia. rewrite Z.gtb_ltb, (proj2 (Z.ltb_lt _ _)) by lia. done.
Qed.
End MainProps.

(** ** Witnesses *)

(** Every call succeeds with descriptor 3. *)
Definition kind_kernel : kernel := λ _ _, 3%Z.

Lemma client_finds_server_witness :
  ∃ log log', open_acceptor kind_kernel 4 (PORT (λ _, Some (str "9000"))) 9000 [] = Ret 3%Z log ∧
    SysBind 3 AF_INET (htons 9000) INADDR_ANY ∈ log ∧
    client_connect_calls kind_kernel (str "10.0.0.1") 9000 [] = Ret (3%Z, 3%Z) log' ∧
    SysConnect 3 AF_INET (htons 9000) (str "10.0.0.1") ∈ log'.
Proof.
  destruct (client_finds_server kind_kernel kind_kernel 4 9000 (str "10.0.0.1") (λ _, Some (str "9000")))
    as (fd & log & sock & r & log' & E & Hb & _ & _ & E' & Hc & _).
  - unfold is_u16. lia.
  - vm_compute. reflexivity.
  - intros l c. unfold kind_kernel. lia.
  - assert (BACKLOG (λ _, Some (str "9000")) = 9000%Z) as HB by (vm_compute; reflexivity). rewrite HB in E.
    exists log, log'. assert (fd = 3%Z) as -> by (vm_compute in E; congruence).
    assert (sock = 3%Z ∧ r = 3%Z) as [-> ->] by (vm_compute in E'; split; congruence). done.
Defined.


Lemma negative_workers_terminate_witness :
  main kind_kernel 1000 2 (λ n, if decide (n = str "IM_WORKER") then Some (str "-1") else None) true demo_db []
    (λ _ s, s) (λ _, mret tt) false (mkProcess (blank_server (λ _, None)) []) = Crash Terminate.
Proof. apply negative_workers_terminate; [vm_compute; split; [discriminate|reflexivity]|lia]. Defined.
