(* ===== verification/ClientSteps.v ===== *)
(** * The client's threads, step by step (chat_client.cpp)

    The methods of Client.v again, cut where other threads may run: every
    access to a field, every critical section and every statement that writes
    to the terminal is a step of its own.  (The sections under [wait_mutex_]
    are cut further than the lock allows, which only adds interleavings.)
    [client_step] interleaves the
    command line, the receiving thread and the heartbeat thread, from
    [connect] to the joins of [disconnect].  In every state they can reach the
    fields have the values their types and uses promise; but two threads that
    send at once can tear each other's packets. *)

From S2P Require Import Prelude Steps Bytes Config Scan Protocol Framing Json RefCodec ClientNet Client ClientProps.

Section Fine.
Context `{Protobuf}.
#[local] Abbreviation P := (prog AIChatClient).

Definition say_steps (t : bytes) : P unit := atomic (say t).
Definition line_steps (t : bytes) : P unit := atomic (say_line t).

(** ** Sending *)

(** [send_packet]: [++seq_] reads and writes, and the header and the body are
    two calls of [::send].  Nothing is locked. *)
Definition client_send_packet_steps (command : Z) (body : bytes) : P bool :=
  n ← atomic (gets seq_);
  let s := wrap_u32 (n + 1) in
  atomic (modify (set_seq s)) ;;
  ok ← atomic (sock_send (header_bytes (mkHeader PROTO_MAGIC (wrap_u32 (Z.of_nat (length body))) command s)));
  if negb ok then mret false
  else if bool_decide (body = []) then mret true
  else atomic (sock_send body).

Definition send_message_steps (to_uid : Z) (text : bytes) : P bool :=
  ok ← atomic (gets is_logged_in);
  if negb ok then line_steps (str "❌ 请先登录") ;; mret false
  else
    u ← atomic (gets uid_);
    now ← atomic (gets system_ms);
    client_send_packet_steps (cmd_val CHAT) (SerializeToString (mkChat u to_uid text now false false 0)).

(** ** Registration and login *)

Definition start_heartbeat_steps : P unit :=
  joinable ← atomic (gets heartbeat_thread_);
  if (joinable : bool) then mret tt else atomic (modify (set_hb_thread true)).

(** The critical section of [wait_auth_result]: the answer, or the timeout. *)
Definition wait_auth : M AIChatClient PendingAuth :=
  c ← get_st;
  let p := pending_response_ c in
  (if pa_active p then modify (set_pending (mkPending false (pa_uid p) (pa_msg p))) else mret tt) ;;
  mret p.
Definition wait_auth_result_steps (action : bytes) : P bool :=
  p ← atomic wait_auth;
  if pa_active p then line_steps (str "⏰ " ++ action ++ str "超时") ;; mret false
  else if (0 <? pa_uid p)%Z then
    atomic (modify (set_uid (pa_uid p))) ;;
    u ← atomic (gets uid_);
    line_steps (str "✅ " ++ action ++ str "成功! UID: " ++ to_string u) ;;
    start_heartbeat_steps ;;
    mret true
  else line_steps (str "❌ " ++ action ++ str "失败: " ++ pa_msg p) ;; mret false.

Definition do_register_steps (username password : bytes) : P bool :=
  if bool_decide (username = []) || bool_decide (password = []) then
    line_steps (str "❌ 用户名和密码不能为空") ;; mret false
  else
    atomic (modify (set_pending no_answer)) ;;
    ok ← client_send_packet_steps (cmd_val REGISTER) (SerializeToString (mkRegister username password));
    if negb ok then mret false else wait_auth_result_steps (str "注册").
Definition do_login_steps (username password : bytes) : P bool :=
  if bool_decide (username = []) || bool_decide (password = []) then
    line_steps (str "❌ 用户名和密码不能为空") ;; mret false
  else
    atomic (modify (set_pending no_answer)) ;;
    ok ← client_send_packet_steps (cmd_val LOGIN) (SerializeToString (mkLogin username password));
    if negb ok then mret false else wait_auth_result_steps (str "登录").

(** ** Commands *)

Definition usage_steps (t : string) : P bool := line_steps (str t) ;; mret true.

(** [/list] and [/status]: the fields are read as the lines are printed. *)
Definition print_contacts_steps : P unit :=
  l ← atomic (gets recent_contacts_);
  match l with
  | [] => line_steps (str "📋 暂无最近联系人")
  | _ =>
      line_steps (str "📋 最近联系人:") ;;
      pfor (λ u, target ← atomic (gets chat_target_); line_steps (contact_line target u)) l
  end.
Definition print_status_steps : P unit :=
  line_steps (str "📊 当前状态:") ;;
  u ← atomic (gets uid_);
  line_steps (str "  👤 我的 UID: " ++ to_string u) ;;
  target ← atomic (gets chat_target_);
  line_steps (str "  🎯 当前目标: " ++ target_name target) ;;
  online ← atomic (gets running_);
  line_steps (str "  📡 连接: " ++ (if (online : bool) then str "在线" else str "离线")).
Definition welcome_steps : P unit :=
  pfor (λ t, line_steps (str t))
    [rule; "🔌 已连接到 IM 服务器"; rule; "📝 请先注册或登录:";
     "  /register <用户名> <密码>  — 注册新账号"; "  /login <用户名> <密码>     — 登录已有账号"; rule;
     "💡 登录后可用命令:"; "  /ai              — 切换到 AI 对话"; "  /chat <uid>      — 切换到私聊";
     "  /to <uid> <消息>  — 快速发送给指定用户"; "  /list            — 最近联系人";
     "  /status          — 当前状态"; "  /quit            — 退出"; rule]%string.

Definition command_line_steps (line : bytes) : P bool :=
  match line with
  | x2f :: _ =>
      let '(name, iss) := default ([], []) (get_word line) in
      if decide (name = str "/register") then
        match two_words iss with
        | Some (u, p) => do_register_steps u p
        | None => usage_steps "❌ 用法: /register <用户名> <密码>"
        end
      else if decide (name = str "/login") then
        match two_words iss with
        | Some (u, p) => do_login_steps u p
        | None => usage_steps "❌ 用法: /login <用户名> <密码>"
        end
      else
        ok ← atomic (gets is_logged_in);
        if negb ok then usage_steps "❌ 请先注册或登录"
        else if decide (name = str "/ai") then
          atomic (modify (set_target 9999)) ;; usage_steps "✅ 已切换到 AI 对话模式"
        else if decide (name = str "/chat") then
          match get_int iss with
          | Some (t, _) =>
              u ← atomic (gets uid_);
              if (t =? u)%Z then usage_steps "❌ 不能和自己私聊"
              else
                atomic (modify (set_target t)) ;; atomic (add_recent_contact t) ;;
                line_steps (str "✅ 已切换到与用户" ++ to_string t ++ str "的私聊模式") ;; mret true
          | None => usage_steps "❌ 用法: /chat <uid>"
          end
        else if decide (name = str "/to") then
          match get_int iss with
          | Some (t, r) =>
              let m := drop_blank (get_line r) in
              if bool_decide (m = []) then usage_steps "❌ 用法: /to <uid> <消息>"
              else
                atomic (add_recent_contact t) ;;
                line_steps (str "📤 发送给用户" ++ to_string t ++ str ": " ++ m) ;;
                send_message_steps t m
          | None => usage_steps "❌ 用法: /to <uid> <消息>"
          end
        else if decide (name = str "/list") then print_contacts_steps ;; mret true
        else if decide (name = str "/status") then print_status_steps ;; mret true
        else if decide (name = str "/help") then welcome_steps ;; mret true
        else if decide (name = str "/quit") then atomic (modify (set_running false)) ;; mret true
        else line_steps (str "❌ 未知命令: " ++ name ++ str " (输入 /help 查看帮助)") ;; mret true
  | _ => mret false
  end.

(** ** The command line *)

(** [cv_.wait_for] gives up [wait_mutex_]: other threads run before the next
    step.  After [wakes] rounds nothing arrives any more. *)
Fixpoint wait_chunks_steps (wakes : nat) : P unit :=
  r ← atomic (gets running_);
  d ← atomic (gets stream_completed_);
  if negb (r && negb d) then mret tt
  else
    silent ← atomic (gets (λ c, 30 <? Z.quot (steady_ns c - last_ai_chunk_time_ c) SEC)%Z);
    match wakes with
    | O => line_steps (endl ++ str "⏰ AI 响应中断")
    | S n => if (silent : bool) then line_steps (endl ++ str "⏰ AI 响应中断") else wait_chunks_steps n
    end.
Definition wait_for_stream_completion_steps (wakes : nat) : P unit :=
  woken ← atomic (gets (λ c, negb (running_ c) || stream_started_ c));
  if negb woken then line_steps (endl ++ str "⏰ AI 响应超时")
  else
    wait_chunks_steps wakes ;;
    atomic (modify (set_in_stream false)) ;;
    say_steps endl.

Definition print_prompt_steps : P unit :=
  s ← atomic (gets in_stream_);
  ok ← atomic (gets is_logged_in);
  if negb s && ok then
    target ← atomic (gets chat_target_);
    if (target =? 9999)%Z then say_steps ([x0d] ++ str "[🤖 AI] >>> ")
    else say_steps ([x0d] ++ str "[👤 用户" ++ to_string target ++ str "] >>> ")
  else if negb ok then say_steps ([x0d] ++ str "[未登录] >>> ")
  else mret tt.

Definition chat_line_steps (line : bytes) (wakes : nat) : P bool :=
  if bool_decide (line = []) then mret true
  else
    handled ← command_line_steps line;
    if (handled : bool) then mret true
    else
      ok ← atomic (gets is_logged_in);
      target ← atomic (gets chat_target_);
      if negb ok then
        line_steps (str "❌ 请先注册或登录: /register <用户名> <密码>  或  /login <用户名> <密码>") ;; mret true
      else if (target =? 9999)%Z then
        atomic (modify (λ c, set_started false (set_completed false c))) ;;
        atomic (modify (λ c, set_last_chunk (steady_ns c) c)) ;;
        sent ← send_message_steps 9999 line;
        if negb sent then line_steps (endl ++ str "发送失败") ;; mret false
        else wait_for_stream_completion_steps wakes ;; mret true
      else
        line_steps (str "📤 发送给用户" ++ to_string target ++ str ": " ++ line) ;;
        sent ← send_message_steps target line;
        (if negb sent then line_steps (endl ++ str "发送失败") else mret tt) ;;
        mret true.

Fixpoint chat_loop_steps (input : list (bytes * nat)) : P unit :=
  r ← atomic (gets running_);
  if negb r then mret tt
  else
    print_prompt_steps ;;
    match input with
    | [] => mret tt
    | (line, wakes) :: rest => go ← chat_line_steps line wakes; if (go : bool) then chat_loop_steps rest else mret tt
    end.

(** The main thread once the receiving thread exists: the rest of [connect],
    the loop, and [disconnect] up to its joins. *)
Definition main_thread_steps (input : list (bytes * nat)) : P unit :=
  welcome_steps ;;
  chat_loop_steps input ;;
  line_steps (endl ++ str "👋 再见！") ;;
  atomic (modify (set_running false)) ;;
  atomic (modify (λ c, if (0 <=? sock_ c)%Z then set_sock (-1) c else c)).

(** ** The receiving thread *)

Definition handle_chat_message_steps (m : ChatMessage) : P unit :=
  atomic (modify (λ c, set_last_chunk (steady_ns c) c)) ;;
  if negb (from_uid m =? 9999)%Z then
    s ← atomic (gets in_stream_);
    if (s : bool) then mret tt
    else
      say_steps (clear_line ++ str "📩 ") ;;
      target ← atomic (gets chat_target_);
      (if (from_uid m =? target)%Z then say_steps (str "【当前聊天】") else mret tt) ;;
      line_steps (str "用户" ++ to_string (from_uid m) ++ str ": " ++ content m)
  else if is_last_chunk m then
    atomic (modify (set_in_stream false)) ;; atomic (modify (set_completed true))
  else if bool_decide (content m = []) then mret tt
  else
    s ← atomic (gets in_stream_);
    (if (s : bool) then mret tt
     else atomic (modify (set_in_stream true)) ;; atomic (modify (set_started true)) ;;
          say_steps (clear_line ++ str "🤖 AI: ")) ;;
    say_steps (content m).

(** The critical section of [handle_ack_response]: is the answer awaited? *)
Definition take_answer (r : Response) : M AIChatClient bool :=
  c ← get_st;
  if pa_active (pending_response_ c) then modify (set_pending (mkPending false (resp_uid r) (msg r))) ;; mret true
  else mret false.
Definition handle_ack_response_steps (r : Response) : P unit :=
  if decide (msg r = str "PONG") then mret tt
  else
    taken ← atomic (take_answer r);
    if (taken : bool) then mret tt
    else
      say_steps clear_line ;;
      if success r then line_steps (str "[系统] " ++ msg r)
      else line_steps (str "[系统] 错误: " ++ msg r).

Definition handle_packet_steps (p : Z * bytes) : P unit :=
  if (p.1 =? cmd_val CHAT)%Z then
    match ParseFromString p.2 : option ChatMessage with Some m => handle_chat_message_steps m | None => mret tt end
  else if (p.1 =? cmd_val ACK)%Z then
    match ParseFromString p.2 : option Response with Some r => handle_ack_response_steps r | None => mret tt end
  else mret tt.

(** The receive buffer is a local of this thread: cutting it is one step. *)
Definition cut_packets (d : bytes) : M AIChatClient (list (Z * bytes) * bool) :=
  c ← get_st;
  let '(ps, rest, ok) := recv_packets (recv_buffer c ++ d) in
  put_st (set_buffer rest c) ;;
  mret (ps, ok).
Definition receive_steps (a : recv_answer) : P unit :=
  match a with
  | GotAgain => mret tt
  | GotEnd => line_steps (endl ++ str "⚠️ 服务器已关闭连接") ;; atomic (modify (set_running false))
  | GotError text =>
      r ← atomic (gets running_);
      (if (r : bool) then line_steps (endl ++ str "⚠️ 接收错误: " ++ text) else mret tt) ;;
      atomic (modify (set_running false))
  | GotData d =>
      cut ← atomic (cut_packets d);
      pfor handle_packet_steps cut.1 ;;
      if (cut.2 : bool) then mret tt else atomic (crash Terminate)
  end.
Fixpoint receive_loop_steps (answers : list recv_answer) : P unit :=
  match answers with
  | [] => mret tt
  | a :: rest => r ← atomic (gets running_); if (r : bool) then receive_steps a ;; receive_loop_steps rest else mret tt
  end.

(** ** The heartbeat thread *)

(** After each sleep. *)
Definition heartbeat_tick_steps : P unit :=
  r ← atomic (gets running_);
  if (r : bool) then
    u ← atomic (gets uid_);
    if (0 <? u)%Z then
      u' ← atomic (gets uid_);
      client_send_packet_steps (cmd_val HEARTBEAT) (SerializeToString (mkChat u' 0 (str "PING") 0 false false 0)) ;;
      mret tt
    else mret tt
  else mret tt.
Fixpoint heartbeat_loop_steps (rounds : nat) : P unit :=
  match rounds with
  | O => mret tt
  | S n => r ← atomic (gets running_); if (r : bool) then heartbeat_tick_steps ;; heartbeat_loop_steps n else mret tt
  end.
End Fine.

(** ** All three *)

(** The client's state and what its threads still have to do. *)
Record client_conf := mkConf {
  cf_client : AIChatClient;
  cf_main : prog AIChatClient unit;
  cf_recv : prog AIChatClient unit;
  cf_heartbeat : prog AIChatClient unit
}.

(** One step of one of the threads that exist; time passes; the kernel makes up
    its mind about the coming [send] calls; a [join] of [disconnect], which
    waits for the end of its thread. *)
Inductive client_step : client_conf → client_conf → Prop :=
  | cs_main X (m : M AIChatClient X) k h x c c' rc hb :
      m c = Ret x c' → client_step (mkConf c (PStep m k h) rc hb) (mkConf c' (k x) rc hb)
  | cs_recv X (m : M AIChatClient X) k h x c c' mn hb :
      recv_thread_ c = true → m c = Ret x c' →
      client_step (mkConf c mn (PStep m k h) hb) (mkConf c' mn (k x) hb)
  | cs_heartbeat X (m : M AIChatClient X) k h x c c' mn rc :
      heartbeat_thread_ c = true → m c = Ret x c' →
      client_step (mkConf c mn rc (PStep m k h)) (mkConf c' mn rc (k x))
  | cs_time ns ms c mn rc hb : client_step (mkConf c mn rc hb) (mkConf (set_time ns ms c) mn rc hb)
  | cs_socket answers c mn rc hb : client_step (mkConf c mn rc hb) (mkConf (set_wire (wire c) answers c) mn rc hb)
  | cs_join_recv c hb :
      client_step (mkConf c (PRet tt) (PRet tt) hb) (mkConf (set_recv_thread false c) (PRet tt) (PRet tt) hb)
  | cs_join_heartbeat c hb :
      recv_thread_ c = false → heartbeat_thread_ c = false ∨ hb = PRet tt →
      client_step (mkConf c (PRet tt) (PRet tt) hb) (mkConf (set_hb_thread false c) (PRet tt) (PRet tt) hb).

(** The client when [connect] has started the receiving thread. *)
Definition connected `{Protobuf} (now wall sock : Z) (answers : list (option nat))
    (input : list (bytes * nat)) (heard : list recv_answer) (rounds : nat) : client_conf :=
  mkConf (set_recv_thread true (set_running true (set_sock sock (new_client now wall answers))))
    (main_thread_steps input) (receive_loop_steps heard) (heartbeat_loop_steps rounds).

(** Documented behaviour of the protobuf runtime: a parsed [int32] field holds
    32 bits. *)
Class ProtobufTyped `{Protobuf} := {
  response_typed (b : bytes) (r : Response) : ParseFromString b = Some r → is_i32 (resp_uid r)
}.

(** ** The type invariant *)

Record client_typed (c : AIChatClient) : Prop := {
  ct_uid : is_i32 (uid_ c);
  ct_user : uid_ c = (-1)%Z ∨ (0 < uid_ c)%Z;
  ct_heartbeat : heartbeat_thread_ c = true → (0 < uid_ c)%Z;
  ct_seq : is_u32 (seq_ c);
  ct_target : is_i32 (chat_target_ c);
  ct_recent : Forall is_i32 (recent_contacts_ c);
  ct_nodup : NoDup (recent_contacts_ c);
  ct_ten : length (recent_contacts_ c) ≤ MAX_CONTACTS;
  ct_pending : is_i32 (pa_uid (pending_response_ c));
  ct_buffer : recv_one (recv_buffer c) = RWait ∨ recv_one (recv_buffer c) = RBroken
}.

(** A change of the other fields. *)
Lemma typed_fields c c' :
  uid_ c' = uid_ c → heartbeat_thread_ c' = heartbeat_thread_ c → seq_ c' = seq_ c →
  chat_target_ c' = chat_target_ c → recent_contacts_ c' = recent_contacts_ c →
  pending_response_ c' = pending_response_ c → recv_buffer c' = recv_buffer c →
  client_typed c → client_typed c'.
Proof. intros E1 E2 E3 E4 E5 E6 E7 []. split; rewrite ?E1, ?E2, ?E3, ?E4, ?E5, ?E6, ?E7; done. Qed.

(** [types m P]: from a typed state the step [m] leads to a typed state, a user
    who is logged in stays so, and the value satisfies [P]. *)
Definition types {A} (m : M AIChatClient A) (P : A → Prop) : Prop := ∀ c,
  client_typed c →
  match m c with
  | Ret a c' => client_typed c' ∧ ((0 < uid_ c)%Z → (0 < uid_ c')%Z) ∧ P a
  | Throw _ | Crash _ => True
  end.
Abbreviation keeps_types m := (types m (λ _, True)).

(** The steps of a program, each from any typed state; [l]: the user is known
    to be logged in; [Φ]: of its value. *)
Fixpoint typed_steps {A} (l : bool) (p : prog AIChatClient A) (Φ : A → Prop) : Prop :=
  match p with
  | PRet a => Φ a
  | PThrow => True
  | PStep m k h => ∀ c, client_typed c → (l = true → (0 < uid_ c)%Z) →
      match m c with
      | Ret x c' => client_typed c' ∧ ((0 < uid_ c)%Z → (0 < uid_ c')%Z) ∧
          ∃ l', (l' = true → (0 < uid_ c')%Z) ∧ typed_steps l' (k x) Φ
      | Throw _ | Crash _ => True
      end
  end.
(** Whatever is known about the user. *)
Definition typed_prog {A} (p : prog AIChatClient A) (Φ : A → Prop) : Prop := ∀ l, typed_steps l p Φ.
Abbreviation keeps_prog p := (typed_prog p (λ _, True)).

Lemma tp_ret {A} (a : A) (Φ : A → Prop) : Φ a → typed_prog (mret a) Φ.
Proof. by intros Ha l. Qed.
Lemma tp_atomic {A} (m : M AIChatClient A) P : types m P → typed_prog (atomic m) P.
Proof.
  intros Hm l c Hc Hl. specialize (Hm c Hc). destruct (m c) as [a c'|c'|r]; [|done..].
  destruct Hm as (? & Hu & ?). split_ands; [done..|]. exists l. auto.
Qed.
Lemma tp_bind {A C} (p : prog AIChatClient A) (f : A → prog AIChatClient C) Φ Ψ :
  typed_prog p Φ → (∀ a, Φ a → typed_prog (f a) Ψ) → typed_prog (p ≫= f) Ψ.
Proof.
  intros Hp Hf l. specialize (Hp l). revert l Hp. induction p as [a| |X m k IHk h IHh]; intros l Hp; cbn in *.
  - by apply Hf.
  - done.
  - intros c Hc Hl. specialize (Hp c Hc Hl). destruct (m c) as [x c'|c'|r]; [|done..].
    destruct Hp as (? & ? & l' & ? & ?). split_ands; [done..|]. exists l'. auto.
Qed.
Lemma tp_weaken {A} (p : prog AIChatClient A) Φ : typed_prog p Φ → keeps_prog p.
Proof.
  intros Hp l. specialize (Hp l). revert l Hp. induction p as [a| |X m k IHk h IHh]; intros l Hp; cbn in *; [done..|].
  intros c Hc Hl. specialize (Hp c Hc Hl). destruct (m c) as [x c'|c'|r]; [|done..].
  destruct Hp as (? & ? & l' & ? & ?). split_ands; [done..|]. exists l'. auto.
Qed.
Lemma tp_for {A} (f : A → prog AIChatClient unit) l : (∀ a, keeps_prog (f a)) → keeps_prog (pfor f l).
Proof.
  intros Hf. induction l as [|x l IH]; cbn [pfor]; [by apply tp_ret|]. eapply tp_bind; [apply Hf|done].
Qed.

Lemma types_gets {A} (f : AIChatClient → A) (P : A → Prop) : (∀ c, client_typed c → P (f c)) → types (gets f) P.
Proof. intros Hf c Hc. mred. auto. Qed.
Lemma types_modify (f : AIChatClient → AIChatClient) :
  (∀ c, client_typed c → client_typed (f c)) → (∀ c, uid_ (f c) = uid_ c) → keeps_types (modify f).
Proof. intros Hf Hu c Hc. mred. rewrite Hu. auto. Qed.
Lemma types_fields (f : AIChatClient → AIChatClient) :
  (∀ c, uid_ (f c) = uid_ c) → (∀ c, heartbeat_thread_ (f c) = heartbeat_thread_ c) → (∀ c, seq_ (f c) = seq_ c) →
  (∀ c, chat_target_ (f c) = chat_target_ c) → (∀ c, recent_contacts_ (f c) = recent_contacts_ c) →
  (∀ c, pending_response_ (f c) = pending_response_ c) → (∀ c, recv_buffer (f c) = recv_buffer c) →
  keeps_types (modify f).
Proof. intros. apply types_modify; [|done]. intros c Hc. by eapply typed_fields; [..|exact Hc]. Qed.
Lemma tp_say t : keeps_prog (say_steps t).
Proof. by apply tp_atomic, types_fields. Qed.
Lemma tp_line t : keeps_prog (line_steps t).
Proof. by apply tp_atomic, types_fields. Qed.

Create HintDb typed discriminated.
#[export] Hint Resolve tp_say tp_line : typed.

(** Decomposes a [typed_prog] goal along the code. *)
Ltac tp_tac :=
  repeat match goal with
  | |- typed_prog (_ ≫= _) _ => apply (tp_bind _ _ (λ _, True)); [|intros ? _]
  | |- typed_prog (mret _) _ => apply tp_ret; exact I
  | |- typed_prog (pfor _ _) _ => apply tp_for; intros ?
  | |- typed_prog (if ?b then _ else _) _ => destruct b eqn:?
  | |- typed_prog (match ?x with _ => _ end) _ => destruct x eqn:?
  | |- typed_prog (atomic (gets _)) _ => apply tp_atomic, types_gets; intros ? _; exact I
  | |- typed_prog (atomic (crash _)) _ => apply tp_atomic; intros ? _; exact I
  | |- typed_prog (atomic (modify _)) _ => apply tp_atomic, types_fields; intros ?; reflexivity
  | |- typed_prog _ _ => solve [eauto with typed]
  end.

Section Typed.
Context `{Protobuf} `{!ProtobufTyped}.

Lemma types_sock_send data : keeps_types (sock_send data).
Proof.
  intros c Hc. unfold sock_send. mred. destruct (sock_ c <? 0)%Z; [done|].
  destruct (send_answers c) as [|[n|] rest]; (split; [by eapply typed_fields; [..|exact Hc]|done]).
Qed.
Lemma tp_send_packet command body : keeps_prog (client_send_packet_steps command body).
Proof.
  unfold client_send_packet_steps. eapply tp_bind; [apply tp_atomic, (types_gets _ (λ _, True)); done|]. intros n _. cbv zeta.
  eapply tp_bind.
  - apply tp_atomic, types_modify; [|done]. intros c Hc. destruct Hc. split; try done. apply wrap_u32_range.
  - intros _ _. eapply tp_bind; [apply tp_atomic, types_sock_send|]. intros ok _. tp_tac. apply tp_atomic, types_sock_send.
Qed.
#[local] Hint Resolve tp_send_packet : typed.

Lemma tp_heartbeat rounds : keeps_prog (heartbeat_loop_steps rounds).
Proof. induction rounds as [|n IH]; cbn [heartbeat_loop_steps]; unfold heartbeat_tick_steps; tp_tac. Qed.

Lemma tp_chat_message m : keeps_prog (handle_chat_message_steps m).
Proof. unfold handle_chat_message_steps. tp_tac. Qed.
Lemma tp_ack b r : ParseFromString b = Some r → keeps_prog (handle_ack_response_steps r).
Proof.
  intros Hr. unfold handle_ack_response_steps. destruct (decide _); [tp_tac|].
  apply (tp_bind _ _ (λ _, True)); [apply tp_atomic|intros taken _; tp_tac].
  intros c Hc. unfold take_answer. mred. destruct (pa_active (pending_response_ c)); [|done]. split; [|done].
  destruct Hc. split; try done. by eapply response_typed.
Qed.
Lemma tp_packet p : keeps_prog (handle_packet_steps p).
Proof. unfold handle_packet_steps. tp_tac; [apply tp_chat_message|by eapply tp_ack]. Qed.
Lemma types_cut d : keeps_types (cut_packets d).
Proof.
  intros c Hc. unfold cut_packets. mred. destruct (recv_packets (recv_buffer c ++ d)) as [[ps rest] ok] eqn:Er.
  split; [|done]. destruct Hc. split; try done. cbn [recv_buffer set_buffer].
  destruct ok; [left; by eapply recv_rest|right; by eapply recv_stuck].
Qed.

Lemma tp_receive a : keeps_prog (receive_steps a).
Proof.
  destruct a as [d| | |text]; cbn [receive_steps]; try (by tp_tac).
  eapply tp_bind; [apply tp_atomic, types_cut|]. intros cut _. tp_tac. apply tp_packet.
Qed.
Lemma tp_receive_loop heard : keeps_prog (receive_loop_steps heard).
Proof. induction heard as [|a heard IH]; cbn [receive_loop_steps]; tp_tac; apply tp_receive. Qed.

Lemma tp_send_message u text : keeps_prog (send_message_steps u text).
Proof. unfold send_message_steps. tp_tac. Qed.

(** A login: the heartbeat thread is started by a user who is logged in. *)
Lemma tp_logged_in u action :
  is_i32 u → (0 < u)%Z →
  keeps_prog (atomic (modify (set_uid u)) ;;
    u' ← atomic (gets uid_);
    line_steps (str "✅ " ++ action ++ str "成功! UID: " ++ to_string u') ;;
    start_heartbeat_steps ;; mret true).
Proof.
  intros Hu Hp l c Hc _. cbn. split; [destruct Hc; split; try done; by right|]. split; [done|]. exists true. split; [done|].
  intros c2 Hc2 H2. cbn. split; [done|]. split; [done|]. exists true. split; [done|].
  intros c3 Hc3 H3. cbn. split; [by eapply typed_fields; [..|exact Hc3]|]. split; [done|]. exists true. split; [done|].
  intros c4 Hc4 H4. cbn. split; [done|]. split; [done|]. exists true. split; [done|].
  destruct (heartbeat_thread_ c4); [done|]. intros c5 Hc5 H5. cbn. split; [|split; [done|by exists true]].
  destruct Hc5. split; auto.
Qed.
Lemma types_wait_auth : types wait_auth (λ p, is_i32 (pa_uid p)).
Proof.
  intros c Hc. unfold wait_auth. mred. pose proof (ct_pending c Hc).
  destruct (pa_active (pending_response_ c)); cbn; (split; [|done]); [destruct Hc; by split|done].
Qed.
Lemma tp_wait_auth action : keeps_prog (wait_auth_result_steps action).
Proof.
  unfold wait_auth_result_steps. eapply tp_bind; [apply tp_atomic, types_wait_auth|]. intros p Hp.
  destruct (pa_active p); [tp_tac|]. destruct (0 <? pa_uid p)%Z eqn:E; [|tp_tac]. zbool. by apply tp_logged_in.
Qed.
#[local] Hint Resolve tp_send_message tp_wait_auth : typed.

Lemma tp_no_answer : keeps_prog (atomic (modify (set_pending no_answer))).
Proof. apply tp_atomic, types_modify; [|done]. intros c []. by split. Qed.
Lemma tp_register u p : keeps_prog (do_register_steps u p).
Proof.
  unfold do_register_steps. case_if; [tp_tac|]. eapply tp_bind; [apply tp_no_answer|]. intros _ _. tp_tac.
Qed.
Lemma tp_login u p : keeps_prog (do_login_steps u p).
Proof.
  unfold do_login_steps. case_if; [tp_tac|]. eapply tp_bind; [apply tp_no_answer|]. intros _ _. tp_tac.
Qed.
#[local] Hint Resolve tp_register tp_login : typed.

Lemma get_int_range s v r : get_int s = Some (v, r) → is_i32 v.
Proof.
  unfold get_int, get_number. match goal with |- context [let '(_, _) := ?x in _] => destruct x as [sign s'] end.
  unfold from_chars_digits. destruct s' as [|b s']; [done|]. destruct (is_digit b); [|done].
  destruct (scan_digits 0 (b :: s')) as [w rest]. unfold in_range. case_if; [|done]. intros [= <- _].
  zbool. unfold is_i32, INT32_MAX in *. lia.
Qed.

(** The contact list stays a list of at most ten different users. *)
Lemma types_add_recent u : is_i32 u → keeps_types (add_recent_contact u).
Proof.
  intros Hu. apply types_modify; [|done]. intros c []. 
  assert (Hn : NoDup (u :: filter (λ v, v ≠ u) (recent_contacts_ c))).
  { constructor; [|by apply NoDup_filter]. rewrite list_elem_of_filter. by intros [? _]. }
  assert (Hf : Forall is_i32 (u :: filter (λ v, v ≠ u) (recent_contacts_ c))).
  { constructor; [done|]. apply Forall_forall. intros v [_ Hv]%list_elem_of_filter. by apply (proj1 (Forall_forall _ _) ct_recent0). }
  assert (Hl : length (filter (λ v, v ≠ u) (recent_contacts_ c)) ≤ MAX_CONTACTS).
  { etrans; [apply length_filter|done]. }
  split; try done; cbn [recent_contacts_ set_recent]; unfold recent_after; set (l := u :: _) in *; case_if; zbool; try done.
  - rewrite removelast_firstn_len. by apply Forall_take.
  - rewrite removelast_firstn_len. eapply sublist_NoDup; [exact Hn|apply sublist_take].
  - rewrite removelast_firstn_len, length_take. subst l. cbn [length] in *. lia.
Qed.
Lemma tp_add_recent u : is_i32 u → keeps_prog (atomic (add_recent_contact u)).
Proof. intros Hu. by apply tp_atomic, types_add_recent. Qed.
Lemma tp_target u : is_i32 u → keeps_prog (atomic (modify (set_target u))).
Proof. intros Hu. apply tp_atomic, types_modify; [|done]. intros c []. by split. Qed.

Lemma tp_welcome : keeps_prog welcome_steps.
Proof. unfold welcome_steps. tp_tac. Qed.
Lemma tp_usage t : keeps_prog (usage_steps t).
Proof. unfold usage_steps. tp_tac. Qed.
Lemma tp_contacts : keeps_prog print_contacts_steps.
Proof. unfold print_contacts_steps. tp_tac. Qed.
Lemma tp_status : keeps_prog print_status_steps.
Proof. unfold print_status_steps. tp_tac. Qed.
#[local] Hint Resolve tp_welcome tp_usage tp_contacts tp_status : typed.

Lemma tp_command line : keeps_prog (command_line_steps line).
Proof.
  assert (Hai : is_i32 9999) by (unfold is_i32; lia).
  unfold command_line_steps. destruct line as [|b line]; [by apply tp_ret|]. destruct b; try (by apply tp_ret).
  repeat first [apply tp_add_recent; by eapply get_int_range|apply tp_target; first [done|by eapply get_int_range]
    |match goal with
     | |- typed_prog (_ ≫= _) _ => apply (tp_bind _ _ (λ _, True)); [|intros ? _]
     | |- typed_prog (if ?b then _ else _) _ => destruct b eqn:?
     | |- typed_prog (match ?x with _ => _ end) _ => destruct x eqn:?
     end|progress tp_tac].
Qed.
Lemma tp_wait_chunks wakes : keeps_prog (wait_chunks_steps wakes).
Proof. induction wakes as [|n IH]; cbn [wait_chunks_steps]; tp_tac. Qed.
#[local] Hint Resolve tp_command tp_wait_chunks : typed.
Lemma tp_stream wakes : keeps_prog (wait_for_stream_completion_steps wakes).
Proof. unfold wait_for_stream_completion_steps. tp_tac. Qed.
#[local] Hint Resolve tp_stream : typed.
Lemma tp_chat_line line wakes : keeps_prog (chat_line_steps line wakes).
Proof. unfold chat_line_steps. tp_tac. Qed.
Lemma tp_prompt : keeps_prog print_prompt_steps.
Proof. unfold print_prompt_steps. tp_tac. Qed.
#[local] Hint Resolve tp_chat_line tp_prompt : typed.
Lemma tp_chat_loop input : keeps_prog (chat_loop_steps input).
Proof. induction input as [|[line wakes] input IH]; cbn [chat_loop_steps]; tp_tac. Qed.
#[local] Hint Resolve tp_chat_loop : typed.
Lemma tp_main input : keeps_prog (main_thread_steps input).
Proof. unfold main_thread_steps. tp_tac; apply tp_atomic, types_fields; intros c; by case_if. Qed.

(** ** All states *)

(** Every thread keeps the types; what one knows about the user stays true. *)
Definition conf_typed (cf : client_conf) : Prop :=
  client_typed (cf_client cf) ∧
  Forall (λ p, ∃ l, (l = true → (0 < uid_ (cf_client cf))%Z) ∧ typed_steps l p (λ _, True))
    [cf_main cf; cf_recv cf; cf_heartbeat cf].

Lemma typed_next {X} (m : M AIChatClient X) k h x c c' (ps : list (prog AIChatClient unit)) :
  m c = Ret x c' → client_typed c →
  Forall (λ p, ∃ l, (l = true → (0 < uid_ c)%Z) ∧ typed_steps l p (λ _, True)) (PStep m k h :: ps) →
  client_typed c' ∧ Forall (λ p, ∃ l, (l = true → (0 < uid_ c')%Z) ∧ typed_steps l p (λ _, True)) (k x :: ps).
Proof.
  intros E Hc [(l & Hl & Hp) Hps]%Forall_cons. specialize (Hp c Hc Hl). rewrite E in Hp.
  destruct Hp as (Hc' & Hu & l' & Hl' & Hk). split; [done|]. constructor; [eauto|].
  eapply Forall_impl; [exact Hps|]. intros p (l2 & Hl2 & Hp2). exists l2. auto.
Qed.

Lemma client_step_typed cf cf' : client_step cf cf' → conf_typed cf → conf_typed cf'.
Proof.
  intros Hs [Hc Hps]. destruct Hs as [X m k h x c c' rc hb E|X m k h x c c' mn hb _ E|X m k h x c c' mn rc _ E
    |ns ms c mn rc hb|answers c mn rc hb|c hb|c hb _ _]; cbn in *.
  - exact (typed_next m k h x c c' [rc; hb] E Hc Hps).
  - destruct (typed_next m k h x c c' [mn; hb] E Hc) as [Hc' Hps']; [by rewrite !Forall_cons in *; naive_solver|].
    split; [done|]. cbn. rewrite !Forall_cons in *. naive_solver.
  - destruct (typed_next m k h x c c' [mn; rc] E Hc) as [Hc' Hps']; [by rewrite !Forall_cons in *; naive_solver|].
    split; [done|]. cbn. rewrite !Forall_cons in *. naive_solver.
  - split; [by eapply typed_fields; [..|exact Hc]|done].
  - split; [by eapply typed_fields; [..|exact Hc]|done].
  - split; [by eapply typed_fields; [..|exact Hc]|done].
  - split; [destruct Hc; by split|done].
Qed.

Lemma connected_typed now wall sock answers input heard rounds :
  conf_typed (connected now wall sock answers input heard rounds).
Proof.
  split.
  - split; try done; cbn; try (unfold is_i32, is_u32, MAX_CONTACTS; lia); first [by left|constructor].
  - constructor; [|constructor; [|constructor; [|constructor]]]; exists false; (split; [done|]);
      [apply tp_main|apply tp_receive_loop|apply tp_heartbeat].
Qed.

(** C14. The client's fields keep their types, whatever the user types, the
    server sends and the network cuts, and however the steps of its three
    threads are interleaved, from [connect] to the joins of [disconnect]: user
    numbers and the chat target are [int]s and the sequence number an
    [unsigned], the client's own number is -1 or positive, the heartbeat
    thread exists only when it is positive, the contacts are at most ten
    different users, and the receive buffer never keeps a packet that is
    complete. *)
Theorem client_well_typed now wall sock answers input heard rounds cf :
  rtc client_step (connected now wall sock answers input heard rounds) cf →
  let c := cf_client cf in
  is_i32 (uid_ c) ∧ (uid_ c = (-1)%Z ∨ (0 < uid_ c)%Z) ∧ (heartbeat_thread_ c = true → (0 < uid_ c)%Z) ∧
  is_u32 (seq_ c) ∧ is_i32 (chat_target_ c) ∧ is_i32 (pa_uid (pending_response_ c)) ∧
  NoDup (recent_contacts_ c) ∧ length (recent_contacts_ c) ≤ MAX_CONTACTS ∧ Forall is_i32 (recent_contacts_ c) ∧
  (recv_packets (recv_buffer c)).1.1 = [].
Proof.
  intros Hr c.
  assert (Ht : conf_typed cf).
  { pose proof (connected_typed now wall sock answers input heard rounds) as Hs. revert Hs.
    induction Hr; eauto using client_step_typed. }
  destruct Ht as [[] _]. split_ands; try done.
  rewrite recv_packets_unfold. unfold c. by destruct ct_buffer0 as [->| ->].
Qed.
End Typed.

(** ** Two threads send *)

Section Sending.
Implicit Types (c : AIChatClient).

Lemma seq_send_packet command body c :
  seq_run (client_send_packet_steps command body) c = client_send_packet command body c.
Proof.
  unfold client_send_packet_steps, client_send_packet. sred.
  match goal with |- context [sock_send ?h ?c1] => destruct (sock_send h c1) as [[] c2|c2|r] end; try done.
  sred. cbn [negb]. case_if; [done|]. sred. done.
Qed.

Definition sender (command : Z) (body : bytes) : thread AIChatClient :=
  mkThread (client_send_packet_steps command body ;; mret tt) [].

(** A chat message and a heartbeat at the same time: the heartbeat thread may
    put its packet between the header and the body of the message.  The server
    takes the heartbeat's header for the beginning of the message's body,
    loses the frame and closes the connection. *)
Theorem packets_torn :
  ∃ c' ts', rtc (threads_step (λ _ _, False)) (demo_client, [sender (cmd_val CHAT) (str "hello"); sender (cmd_val HEARTBEAT) (str "PING")])
              (c', ts') ∧ forallb ended ts' = true ∧
    ∃ frames rest, parse_frames (wire c') = (frames, rest, false) ∧ map snd frames = [take 5 (header_bytes (mkHeader PROTO_MAGIC 4 (cmd_val HEARTBEAT) 2))].
Proof.
  pose (q := λ c' (ts' : list (thread AIChatClient)), forallb ended ts' && match parse_frames (wire c') with
    | (frames, _, ok) => negb ok && bool_decide (map snd frames = [take 5 (header_bytes (mkHeader PROTO_MAGIC 4 (cmd_val HEARTBEAT) 2))])
    end).
  assert (E : match run_schedule [0; 0; 0; 1; 1; 1; 1; 0] demo_client
    [sender (cmd_val CHAT) (str "hello"); sender (cmd_val HEARTBEAT) (str "PING")] with
    | Some (c', ts') => q c' ts' | None => false end = true) by (vm_compute; reflexivity).
  destruct (run_schedule _ demo_client _) as [[c' ts']|] eqn:Er; [|done].
  apply (run_schedule_steps (λ _ _, False)) in Er. unfold q in E. destruct (parse_frames (wire c')) as [[frames rest] ok] eqn:Ep.
  zbool. exists c', ts'. subst ok. split_ands; [done..|]. exists frames, rest. done.
Qed.
End Sending.

(** ** Witness *)

#[export] Instance is_i32_dec z : Decision (is_i32 z).
Proof. unfold is_i32. apply _. Defined.

(** The reference codec, rejecting a response whose number is too large. *)
Definition typed_response : ProtoCodec Response := {|
  ParseFromString s := r ← @ParseFromString _ (@pb_response ref_proto) s;
                       if decide (is_i32 (resp_uid r)) then Some r else None;
  SerializeToString := @SerializeToString _ (@pb_response ref_proto) |}.
Definition typed_proto : Protobuf := {|
  pb_chat := @pb_chat ref_proto; pb_response := typed_response; pb_login := @pb_login ref_proto;
  pb_register := @pb_register ref_proto; pb_add_friend := @pb_add_friend ref_proto; pb_accept := @pb_accept ref_proto;
  pb_search := @pb_search ref_proto; pb_user_list := @pb_user_list ref_proto; pb_req_list := @pb_req_list ref_proto |}.
Lemma typed_proto_typed : @ProtobufTyped typed_proto.
Proof.
  split. intros b r. cbn. destruct (bytes_to_pos b); cbn; [|done]. destruct (decode _); cbn; [|done].
  case_decide; [|done]. by intros [= <-].
Qed.

(** Alice logs in; the answer comes while the client waits. *)
Definition login_reply : bytes :=
  make_packet (cmd_val ACK) 1 (@SerializeToString _ (@pb_response ref_proto) (mkResponse true (str "ok") 1000)).
Definition demo_conf : client_conf :=
  @connected typed_proto 0 0 4 [] [(str "/login alice pw", 0)] [GotData login_reply] 1.

(** The interleaving a schedule asks for: 0 the main thread, 1 the receiving
    thread, 2 the heartbeat thread. *)
Definition step_thread (i : nat) (cf : client_conf) : option client_conf :=
  let run p (k : prog AIChatClient unit → AIChatClient → client_conf) :=
    match p with
    | PStep m q _ => match m (cf_client cf) with Ret x c' => Some (k (q x) c') | _ => None end
    | _ => None
    end in
  match i with
  | 0 => run (cf_main cf) (λ p c, mkConf c p (cf_recv cf) (cf_heartbeat cf))
  | 1 => if recv_thread_ (cf_client cf) then run (cf_recv cf) (λ p c, mkConf c (cf_main cf) p (cf_heartbeat cf)) else None
  | _ => if heartbeat_thread_ (cf_client cf) then run (cf_heartbeat cf) (λ p c, mkConf c (cf_main cf) (cf_recv cf) p) else None
  end.
Fixpoint run_conf (sched : list nat) (cf : client_conf) : option client_conf :=
  match sched with
  | [] => Some cf
  | i :: sched' => step_thread i cf ≫= run_conf sched'
  end.
Lemma run_conf_steps sched : ∀ cf cf', run_conf sched cf = Some cf' → rtc client_step cf cf'.
Proof.
  induction sched as [|i sched IH]; intros cf cf' Hr; cbn in Hr; [by injection Hr as <-|].
  destruct (step_thread i cf) as [cf1|] eqn:E; [|done]. eapply rtc_l; [|by apply IH]. clear Hr IH.
  destruct cf as [c mn rc hb]. destruct i as [|[|i]]; cbn in E.
  - destruct mn as [| |X m k h]; try done. destruct (m c) eqn:Em; try done. injection E as <-. by constructor.
  - destruct (recv_thread_ c) eqn:?; [|done]. destruct rc as [| |X m k h]; try done.
    destruct (m c) eqn:Em; try done. injection E as <-. by constructor.
  - destruct (heartbeat_thread_ c) eqn:?; [|done]. destruct hb as [| |X m k h]; try done.
    destruct (m c) eqn:Em; try done. injection E as <-. by constructor.
Qed.

(** The main thread prints the welcome and sends the request, the receiving
    thread hears the reply, the main thread goes on, a heartbeat is sent. *)
Definition demo_schedule : list nat := replicate 24 0 ++ replicate 3 1 ++ replicate 8 0 ++ replicate 6 2.

Lemma client_well_typed_witness :
  ∃ cf, rtc client_step demo_conf cf ∧ uid_ (cf_client cf) = 1000%Z ∧ heartbeat_thread_ (cf_client cf) = true ∧
    is_u32 (seq_ (cf_client cf)).
Proof.
  assert (E : match run_conf demo_schedule demo_conf with
              | Some cf => (uid_ (cf_client cf) =? 1000)%Z && heartbeat_thread_ (cf_client cf)
              | None => false end = true) by (vm_compute; reflexivity).
  destruct (run_conf demo_schedule demo_conf) as [cf|] eqn:Er; [|discriminate E].
  apply run_conf_steps in Er. apply andb_true_iff in E as [Eu Eh]. apply Z.eqb_eq in Eu.
  destruct (@client_well_typed typed_proto typed_proto_typed 0 0 4 [] [(str "/login alice pw", 0)] [GotData login_reply] 1 cf Er)
    as (_ & _ & _ & Hs & _).
  exists cf. split; [exact Er|]. split; [exact Eu|]. split; [exact Eh|exact Hs].
Defined.
