(* ===== verification/MySqlProps.v ===== *)
(** * Properties of the MySQL storage

    The statements that the methods send ([spied] records them) do not depend,
    in their structure, on the strings of users; the methods do not crash
    whatever the database answers, so requests are answered in this mode as
    well. *)

From S2P Require Import Prelude Bytes Config Scan Protocol Framing Timer ThreadPool Context EventLoop.
From S2P Require Import Session Json RefCodec Llama AiManager FileStore DbWriter MySqlStore World Business Stream.
From S2P Require Import Storage Worker ConnTable System Requests.

(** ** String literals of MySQL

    What [mysql_real_escape_string] is documented to do, and how the server
    reads a statement: text outside and string literals inside quotes. *)

Definition escape_byte (b : byte) : bytes :=
  match b with
  | x00 => [x5c; x30] | x0a => [x5c; x6e] | x0d => [x5c; x72] | x1a => [x5c; x5a]
  | x22 => [x5c; x22] | x27 => [x5c; x27] | x5c => [x5c; x5c]
  | _ => [b]
  end.
Definition escape_bytes (s : bytes) : bytes := s ≫= escape_byte.

Inductive sql_piece := Txt (t : bytes) | Lit (t : bytes).

(** The character that a backslash and [b] stand for in a literal. *)
Definition unescape (b : byte) : bytes :=
  match b with
  | x30 => [x00] | x6e => [x0a] | x72 => [x0d] | x5a => [x1a] | x74 => [x09] | x62 => [x08]
  | x25 => [x5c; x25] | x5f => [x5c; x5f]
  | _ => [b]
  end.

(** [lit]: inside a literal; [acc]: the piece read so far, reversed.  [None]: a
    literal is not closed. *)
Fixpoint lex (lit : bool) (acc s : bytes) : option (list sql_piece) :=
  match lit, s with
  | false, [] => Some [Txt (reverse acc)]
  | false, x27 :: s' => cons (Txt (reverse acc)) <$> lex true [] s'
  | false, b :: s' => lex false (b :: acc) s'
  | true, [] => None
  | true, x5c :: e :: s' => lex true (reverse (unescape e) ++ acc) s'
  | true, x27 :: x27 :: s' => lex true (x27 :: acc) s'
  | true, x27 :: s' => cons (Lit (reverse acc)) <$> lex false [] s'
  | true, b :: s' => lex true (b :: acc) s'
  end.
Definition lex_sql (s : bytes) : option (list sql_piece) := lex false [] s.

(** ** Lemmas *)

Lemma lex_escape_byte b acc s : lex true acc (escape_byte b ++ s) = lex true (b :: acc) s.
Proof. by destruct b. Qed.

Lemma lex_escaped t acc s : lex true acc (escape_bytes t ++ s) = lex true (reverse t ++ acc) s.
Proof.
  revert acc. induction t as [|b t IH]; intros acc; [done|]. unfold escape_bytes. cbn [mbind list_bind].
  rewrite <- app_assoc, lex_escape_byte. change (t ≫= escape_byte) with (escape_bytes t).
  rewrite IH, reverse_cons, <- app_assoc. done.
Qed.

(** Text without a quote. *)
Definition plain (t : bytes) : Prop := Forall (λ b, b ≠ x27 ∧ b ≠ x00) t.
#[local] Instance plain_dec t : Decision (plain t).
Proof. unfold plain. apply _. Defined.

Lemma lex_plain t acc s : plain t → lex false acc (t ++ s) = lex false (reverse t ++ acc) s.
Proof.
  intros Ht. revert acc. induction Ht as [|b t [Hb _] _ IH]; intros acc; [done|]. cbn [app].
  assert (E : lex false acc (b :: t ++ s) = lex false (b :: acc) (t ++ s)) by (by destruct b).
  rewrite E, IH, reverse_cons, <- app_assoc. done.
Qed.

(** A quote that closes a literal: no second one follows. *)
Lemma lex_close acc s : head s ≠ Some x27 → lex true acc (x27 :: s) = cons (Lit (reverse acc)) <$> lex false [] s.
Proof. intros Hs. destruct s as [|b s]; [done|]. by destruct b. Qed.

(** A literal between two texts. *)
Lemma lex_literal t u s acc :
  plain t → head s ≠ Some x27 →
  lex false acc (t ++ x27 :: escape_bytes u ++ x27 :: s) =
  (λ ps, Txt (reverse acc ++ t) :: Lit u :: ps) <$> lex false [] s.
Proof.
  intros Ht Hs. rewrite lex_plain by done.
  change (lex false (reverse t ++ acc) (x27 :: escape_bytes u ++ x27 :: s))
    with (cons (Txt (reverse (reverse t ++ acc))) <$> lex true [] (escape_bytes u ++ x27 :: s)).
  rewrite lex_escaped, app_nil_r, lex_close, reverse_app, !reverse_involutive by done.
  by destruct (lex false [] s).
Qed.
Lemma lex_end t acc : plain t → lex false acc t = Some [Txt (reverse acc ++ t)].
Proof.
  intros Ht. rewrite <- (app_nil_r t) at 1. rewrite lex_plain by done. cbn.
  by rewrite reverse_app, reverse_involutive.
Qed.

Lemma plain_app t u : plain t → plain u → plain (t ++ u).
Proof. intros. by apply Forall_app. Qed.
Lemma plain_digits f z acc : plain acc → plain (dec_digits f z acc).
Proof.
  revert z acc. induction f as [|f IH]; intros z acc Hacc; [done|]. cbn [dec_digits].
  assert (Hd : plain (digit (z `mod` 10) :: acc)).
  { constructor; [|done]. pose proof (Z.mod_pos_bound z 10 ltac:(lia)) as Hz.
    assert (H0 : byte_val x00 = 0%Z) by done. assert (H27 : byte_val x27 = 39%Z) by done.
    split; intros E%(f_equal byte_val); rewrite digit_val in E by done; lia. }
  case_if; [done|]. by apply IH.
Qed.
Lemma plain_to_string z : plain (to_string z).
Proof. unfold to_string. case_if; [constructor; [done|]|]; apply plain_digits; constructor. Qed.

(** Statements contain no zero byte, so [c_str] keeps them whole. *)
Lemma no_nul_app (t u : bytes) : x00 ∉ t → x00 ∉ u → x00 ∉ t ++ u.
Proof. rewrite elem_of_app. tauto. Qed.
Lemma no_nul_quote (t : bytes) : x00 ∉ t → x00 ∉ x27 :: t.
Proof. rewrite elem_of_cons. intros Ht [?|?]; done. Qed.
Lemma no_nul_plain t : plain t → x00 ∉ t.
Proof. intros Ht Hin. by destruct (proj1 (Forall_forall _ t) Ht _ Hin). Qed.
Lemma no_nul_escaped t : x00 ∉ escape_bytes t.
Proof.
  induction t as [|b t IH]; [apply not_elem_of_nil|]. unfold escape_bytes. cbn [mbind list_bind].
  apply no_nul_app; [|exact IH]. destruct b; cbn; set_solver.
Qed.
Lemma no_nul_to_string z : x00 ∉ to_string z.
Proof. apply no_nul_plain, plain_to_string. Qed.

(** A constant text. *)
Ltac plain_tac := first
  [ apply plain_to_string
  | apply plain_app; plain_tac
  | apply (bool_decide_unpack _); vm_compute; exact I ].
Ltac nul_tac := repeat apply no_nul_app; first
  [ apply no_nul_escaped
  | apply no_nul_to_string
  | apply (bool_decide_unpack _); vm_compute; exact I ].


(** The law of the escaping function. *)
Class MySqlEscape (S : Type) `{MySql S} :=
  escape_documented : ∀ (s : S) (t : bytes), mysql_real_escape_string s t = escape_bytes t.

Section Injection.
Context {env : environment} {S : Type} `{MySqlEscape S}.
Implicit Types (d : MySqlDB env S).

Lemma esc_eq t d : esc t d = Ret (escape_bytes t) d.
Proof. unfold esc. mred. by rewrite escape_documented, c_str_id by apply no_nul_escaped. Qed.

(** What the server reads in a batch insert. *)
Fixpoint tuple_pieces (acc : bytes) (first : bool) (batch : list DBChatMessage) : list sql_piece :=
  match batch with
  | [] => [Txt acc]
  | m :: ms =>
      Txt (acc ++ (if first then [] else str ",") ++ str "(" ++ to_string (dm_from m) ++ str "," ++
           to_string (dm_to m) ++ str ",")
      :: Lit (dm_content m)
      :: tuple_pieces (str "," ++ (if dm_delivered m then str "1" else str "0") ++ str ")") false ms
  end.

Lemma lex_tuples batch d : ∀ first acc,
  ∃ ts, sql_tuples first batch d = Ret ts d ∧ (x00 ∉ ts) ∧
    ∀ t, plain t → lex false (reverse acc) (t ++ ts) = Some (tuple_pieces (acc ++ t) first batch).
Proof.
  induction batch as [|m ms IH]; intros first acc; cbn [sql_tuples tuple_pieces].
  - exists []. split_ands; [done|set_solver|]. intros t Ht. rewrite app_nil_r, lex_end by done.
    by rewrite reverse_involutive.
  - mred. rewrite esc_eq. destruct (IH false []) as (ts & E & Hn & Hl). mred. rewrite E.
    change (reverse (A:=byte) []) with ([] : bytes) in Hl.
    set (flag := str "," ++ (if dm_delivered m then str "1" else str "0") ++ str ")").
    eexists. split_ands; [done| |].
    + apply no_nul_app; [|done]. unfold sql_tuple.
      destruct first, (dm_delivered m); nul_tac.
    + intros t Ht. unfold sql_tuple.
      set (pre := (if first then [] else str ",") ++ str "(" ++ to_string (dm_from m) ++ str "," ++
                  to_string (dm_to m) ++ str ",").
      replace (t ++ _ ++ ts) with ((t ++ pre) ++ x27 :: escape_bytes (dm_content m) ++ x27 :: flag ++ ts).
      2:{ unfold pre, flag. change (str ",'") with (str "," ++ [x27]). change (str "',") with ([x27] ++ str ",").
          by rewrite <- !app_assoc. }
      rewrite lex_literal; [|apply plain_app; [done|unfold pre; destruct first; plain_tac]|by destruct (dm_delivered m)].
      rewrite (Hl flag) by (unfold flag; destruct (dm_delivered m); plain_tac). cbn [fmap option_fmap option_map].
      by rewrite reverse_involutive, <- app_assoc.
Qed.

(** A statement with one literal, or two. *)
Lemma lex_one (a u b : bytes) (sql : bytes) :
  sql = a ++ x27 :: escape_bytes u ++ x27 :: b → plain a → plain b →
  lex_sql (c_str sql) = Some [Txt a; Lit u; Txt b].
Proof.
  intros -> Ha Hb. rewrite c_str_id.
  - unfold lex_sql. rewrite lex_literal, lex_end by (try done; destruct Hb as [|? ? [] _]; cbn; congruence). done.
  - auto 15 using no_nul_app, no_nul_quote, no_nul_plain, no_nul_escaped.
Qed.
Lemma lex_two (a u b v e : bytes) (sql : bytes) :
  sql = a ++ x27 :: escape_bytes u ++ x27 :: b ++ x27 :: escape_bytes v ++ x27 :: e →
  plain a → plain b → b ≠ [] → plain e →
  lex_sql (c_str sql) = Some [Txt a; Lit u; Txt b; Lit v; Txt e].
Proof.
  intros -> Ha Hb Hne He. rewrite c_str_id.
  - unfold lex_sql. rewrite lex_literal; [|done|destruct Hb as [|? ? [] _]; [done|cbn; congruence]].
    rewrite lex_literal, lex_end by (try done; destruct He as [|? ? [] _]; cbn; congruence). done.
  - auto 15 using no_nul_app, no_nul_quote, no_nul_plain, no_nul_escaped.
Qed.
Lemma lex_numbers (sql : bytes) : plain sql → lex_sql (c_str sql) = Some [Txt sql].
Proof. intros Hp. rewrite c_str_id by by apply no_nul_plain. unfold lex_sql. by rewrite lex_end. Qed.
End Injection.

(** ** No method crashes *)

(** How many columns a [SELECT] asks for. *)
Fixpoint select_width (s : bytes) : nat :=
  match s with
  | [] => 1
  | b :: s' => if starts_with (str " FROM") s then 1 else (if decide (b = x2c) then 1 else 0) + select_width s'
  end.

(** The law of result sets: every row has the columns that were asked for. *)
Class MySqlColumns (S : Type) `{MySql S} :=
  columns_documented : ∀ (q : bytes) (s s1 s2 : S) rows,
    mysql_query q s = (true, s1) → mysql_store_result s1 = (Some rows, s2) →
    Forall (λ r : sql_row, length r = select_width q) rows.

Section Total.
Context {env : environment} {S : Type} `{MySql S} `{!MySqlColumns S}.

Definition no_crash {A} (m : M (MySqlDB env S) A) : Prop := ∀ d r, m d ≠ Crash r.

Lemma no_crash_bind {A A'} (m : M (MySqlDB env S) A) (k : A → M (MySqlDB env S) A') :
  no_crash m → (∀ a, no_crash (k a)) → no_crash (a ← m; k a).
Proof.
  intros Hm Hk d r. mred. destruct (m d) as [a d'|d'|r'] eqn:E; [apply Hk|done|by destruct (Hm d r')].
Qed.
Lemma no_crash_ret {A} (a : A) : no_crash (mret a).
Proof. done. Qed.
Lemma no_crash_call {A} (f : S → A * S) : no_crash (session_call f).
Proof. intros d r. unfold session_call. by destruct (f _). Qed.
Lemma no_crash_gets {A} (f : MySqlDB env S → A) : no_crash (gets f).
Proof. done. Qed.
Lemma no_crash_modify f : no_crash (modify f).
Proof. done. Qed.
Lemma no_crash_run_all qs : no_crash (run_all (env := env) qs).
Proof.
  induction qs as [|q qs IH]; cbn [run_all]; [done|]. apply no_crash_bind; [apply no_crash_call|].
  by intros [].
Qed.
Lemma no_crash_connected : no_crash (ensure_connected (env := env)).
Proof.
  unfold ensure_connected, connect_db. intros d r.
  repeat first [apply no_crash_bind; [|intros ?] | apply no_crash_call | apply no_crash_run_all | done | case_if].
Qed.

Lemma no_crash_fetch {A} sql (k : option (list sql_row) → M (MySqlDB env S) A) :
  (∀ rows, Forall (λ r, length r = select_width (c_str sql)) rows → no_crash (k (Some rows))) →
  no_crash (k None) → no_crash (r ← fetch sql; k r).
Proof.
  intros Hs Hn d r. unfold fetch, query, store_result, session_call. mred.
  destruct (mysql_query (c_str sql) (my_session d)) as [ok s1] eqn:E1. destruct ok; [|apply Hn]. cbn [my_session].
  destruct (mysql_store_result s1) as [[rows|] s2] eqn:E2; [|apply Hn]. apply Hs. by eapply columns_documented.
Qed.

Lemma no_crash_col (k : nat) (row : sql_row) : k < length row → no_crash (col (env := env) (S := S) k row).
Proof. intros Hk d r. unfold col, sql_row in *. destruct (lookup_lt_is_Some_2 row k Hk) as [v ->]. done. Qed.
Lemma no_crash_number parse (k : nat) (row : sql_row) :
  k < length row → no_crash (number (env := env) (S := S) parse k row).
Proof.
  intros Hk. apply no_crash_bind; [by apply no_crash_col|]. intros v d r. by destruct (v ≫= _).
Qed.
Lemma no_crash_text (k : nat) (row : sql_row) : k < length row → no_crash (text (env := env) (S := S) k row).
Proof. intros Hk. apply no_crash_bind; [by apply no_crash_col|done]. Qed.

Lemma no_crash_each {A} (f : sql_row → M (MySqlDB env S) A) rows :
  Forall (λ r, no_crash (f r)) rows → no_crash (each_row f rows).
Proof.
  induction 1 as [|r rows Hr _ IH]; cbn [each_row]; [done|].
  apply no_crash_bind; [done|]. intros a. by apply no_crash_bind.
Qed.
Lemma no_crash_fetch_all {A} sql (f : sql_row → M (MySqlDB env S) A) n :
  select_width (c_str sql) = n → (∀ r, length r = n → no_crash (f r)) → no_crash (fetch_all sql f).
Proof.
  intros Hw Hf. apply no_crash_fetch; [|done]. intros rows Hr. apply no_crash_each.
  eapply Forall_impl; [exact Hr|]. cbn. intros r E. apply Hf. congruence.
Qed.

(** The columns of a statement that begins with [a]. *)
Lemma width_prefix (a rest : bytes) (n : nat) :
  x00 ∉ a → (∀ t, select_width (a ++ t) = n) → select_width (c_str (a ++ rest)) = n.
Proof. intros Ha Hw. by rewrite c_str_app. Qed.
End Total.

Ltac crash_tac := repeat match goal with
  | |- no_crash (mbind _ (fetch _)) => apply no_crash_fetch; [intros [|? ?] ?|]
  | |- no_crash (mbind _ _) => apply no_crash_bind; [|intros ?]
  | |- no_crash ensure_connected => apply no_crash_connected
  | |- no_crash (has_rows _) => apply no_crash_fetch; done
  | |- no_crash (number _ _ _) => apply no_crash_number; lia
  | |- no_crash (text _ _) => apply no_crash_text; lia
  | |- no_crash (query _) => apply no_crash_call
  | |- no_crash (if _ then _ else _) => case_if
  | |- no_crash (mret _) => apply no_crash_ret
  | |- no_crash insert_id => apply no_crash_gets
  | |- no_crash (esc _) => apply no_crash_gets
  end.

Section Instance.
Context {env : environment} {S : Type} `{MySql S} `{!MySqlColumns S}.

(** The rows of a statement with a constant beginning. *)
Lemma first_row (a rest : bytes) (n : nat) (row : sql_row) rows :
  x00 ∉ a → (∀ t, select_width (a ++ t) = n) →
  Forall (λ r : sql_row, length r = select_width (c_str (a ++ rest))) (row :: rows) → length row = n.
Proof. intros Ha Hn [Hr _]%Forall_cons. by rewrite (width_prefix a rest n) in Hr. Qed.

Lemma no_crash_login u p : no_crash (my_verify_login (env := env) u p).
Proof.
  unfold my_verify_login. crash_tac. apply no_crash_number.
  erewrite (first_row (str "SELECT uid FROM users WHERE username='") _ 1); [lia|nul_tac|done|eassumption].
Qed.
Lemma no_crash_accept i a : no_crash (my_accept_friend_request (env := env) i a).
Proof.
  unfold my_accept_friend_request. crash_tac; apply no_crash_number;
    (erewrite (first_row (str "SELECT from_uid,to_uid FROM friend_requests WHERE id=") _ 2);
     [lia|nul_tac|done|eassumption]).
Qed.
Lemma no_crash_select {A} (a rest : bytes) (n : nat) (f : sql_row → M (MySqlDB env S) A) :
  x00 ∉ a → (∀ t, select_width (a ++ t) = n) → (∀ r, length r = n → no_crash (f r)) →
  no_crash (select (a ++ rest) f).
Proof.
  intros Ha Hn Hf. unfold select. crash_tac. eapply no_crash_fetch_all; [by apply width_prefix|done].
Qed.

#[export] Instance mysql_backend_total : BackendTotal (MySqlDB env S).
Proof.
  split; cbn; intros; match goal with |- ?m ?d ≠ _ => revert r; revert d; change (no_crash m) end.
  - unfold my_register_user. crash_tac.
  - apply no_crash_login.
  - apply (no_crash_select (str "SELECT id,from_uid,to_uid,content FROM messages WHERE to_uid=") _ 4);
      [nul_tac|done|]. intros r Hr. crash_tac.
  - unfold my_search_users. crash_tac.
    apply (no_crash_fetch_all _ _ 2); [apply (width_prefix (str "SELECT uid,username FROM users WHERE username LIKE '%")); [nul_tac|done]|].
    intros r Hr. crash_tac.
  - unfold my_add_friend_request. crash_tac.
  - apply no_crash_accept.
  - apply (no_crash_select (str "SELECT u.uid,u.username FROM users u INNER JOIN friends f ON (u.uid=f.uid1 OR u.uid=f.uid2) WHERE (f.uid1=") _ 2);
      [nul_tac|done|]. intros r Hr. crash_tac.
  - apply (no_crash_select (str "SELECT fr.id,fr.from_uid,u.username,fr.message FROM friend_requests fr INNER JOIN users u ON fr.from_uid=u.uid WHERE fr.to_uid=") _ 4);
      [nul_tac|done|]. intros r Hr. crash_tac.
  - unfold my_mark_delivered. crash_tac.
Qed.
End Instance.

(** ** What is sent

    Any session, with a record of the statements it was asked to run. *)

Record spied (S : Type) := mkSpied { sp_inner : S; sp_sent : list bytes }.
Arguments mkSpied {S} sp_inner sp_sent.
Arguments sp_inner {S} s.
Arguments sp_sent {S} s.

Definition inside {S A} (f : S → A * S) (s : spied S) : A * spied S :=
  let '(a, t) := f (sp_inner s) in (a, mkSpied t (sp_sent s)).
#[export] Instance spied_mysql {S} `{MySql S} : MySql (spied S) := {|
  mysql_init := inside mysql_init;
  mysql_real_connect h u p n port := inside (mysql_real_connect h u p n port);
  mysql_close s := mkSpied (mysql_close (sp_inner s)) (sp_sent s);
  mysql_ping := inside mysql_ping;
  mysql_query q s := inside (mysql_query q) (mkSpied (sp_inner s) (sp_sent s ++ [q]));
  mysql_store_result := inside mysql_store_result;
  mysql_insert_id s := mysql_insert_id (sp_inner s);
  mysql_real_escape_string s := mysql_real_escape_string (sp_inner s) |}.
#[export] Instance spied_escape {S} `{MySqlEscape S} : MySqlEscape (spied S).
Proof. intros s t. apply (escape_documented (sp_inner s)). Qed.
#[export] Instance spied_columns {S} `{MySqlColumns S} : MySqlColumns (spied S).
Proof.
  intros q s s1 s2 rows E1 E2. cbn in E1, E2. unfold inside in *. cbn in E1.
  destruct (mysql_query q (sp_inner s)) as [ok t1] eqn:Q1. injection E1 as -> <-. cbn in E2.
  destruct (mysql_store_result t1) as [r t2] eqn:Q2. injection E2 as -> <-. by eapply columns_documented.
Qed.

Definition sent {env S} (d : MySqlDB env (spied S)) : list bytes := sp_sent (my_session d).

(** A call of one of the methods. *)
Inductive storage_call :=
  | CRegister (username password : bytes)
  | CVerify (username password : bytes)
  | COffline (uid : Z)
  | CSearch (keyword : bytes)
  | CAddFriend (from to : Z) (message : bytes)
  | CAccept (request acceptor : Z)
  | CFriends (uid : Z)
  | CPending (uid : Z)
  | CUsername (uid : Z)
  | CMark (uid max_id : Z)
  | CBatch (batch : list DBChatMessage).
Definition run_call {env S} `{MySql S} (c : storage_call) : M (MySqlDB env S) unit :=
  match c with
  | CRegister u p => my_register_user u p ;; mret tt
  | CVerify u p => my_verify_login u p ;; mret tt
  | COffline u => my_query_offline_messages u ;; mret tt
  | CSearch k => my_search_users k ;; mret tt
  | CAddFriend a b m => my_add_friend_request a b m ;; mret tt
  | CAccept i a => my_accept_friend_request i a ;; mret tt
  | CFriends u => my_get_friends u ;; mret tt
  | CPending u => my_get_pending_requests u ;; mret tt
  | CUsername u => my_get_username u ;; mret tt
  | CMark u i => my_mark_delivered u i
  | CBatch l => my_store_batch l
  end.

(** What the server is meant to read, statement by statement; [x] and [y] are
    the users of an accepted request, as the database gave them. *)
Definition statements (c : storage_call) (x y : Z) : list (list sql_piece) :=
  match c with
  | CRegister u p =>
      [[Txt (str "SELECT uid FROM users WHERE username="); Lit u; Txt []];
       [Txt (str "INSERT INTO users (username,password_hash) VALUES ("); Lit u; Txt (str ",SHA2("); Lit p; Txt (str ",256))")]]
  | CVerify u p =>
      [[Txt (str "SELECT uid FROM users WHERE username="); Lit u; Txt (str " AND password_hash=SHA2("); Lit p; Txt (str ",256)")]]
  | COffline u => [[Txt (sql_offline u)]]
  | CSearch k =>
      [[Txt (str "SELECT uid,username FROM users WHERE username LIKE "); Lit (str "%" ++ k ++ str "%"); Txt (str " LIMIT 20")]]
  | CAddFriend a b m =>
      [[Txt (sql_friends_check a b)]; [Txt (sql_request_check a b)];
       [Txt (str "INSERT INTO friend_requests (from_uid,to_uid,message) VALUES (" ++ to_string a ++ str "," ++
             to_string b ++ str ","); Lit m; Txt (str ")")]]
  | CAccept i a => [[Txt (sql_find_request i a)]; [Txt (sql_accept i)]; [Txt (sql_add_friends x y)]]
  | CFriends u => [[Txt (sql_friends u)]]
  | CPending u => [[Txt (sql_pending u)]]
  | CUsername u => [[Txt (sql_username u)]]
  | CMark u i => [[Txt (sql_mark u i)]]
  | CBatch l => [tuple_pieces sql_insert_head true l]
  end.
Definition schema : list bytes := [create_users; create_msgs; create_friends; create_friend_reqs].

Section Sent.
Context {env : environment} {S : Type} `{MySql S} `{!MySqlEscape S} `{!MySqlColumns S}.
Implicit Types (d : MySqlDB env (spied S)).
#[local] Abbreviation Q := (M (MySqlDB env (spied S))).

(** [says m l]: [m] sends exactly [l] when it returns and nothing when it
    throws. [tells m L]: it sends the beginning of a list in [L]; [first]:
    at least one statement. *)
Definition says {A} (m : Q A) (l : list bytes) : Prop := ∀ d,
  match m d with Ret _ d' => sent d' = sent d ++ l | Throw d' => sent d' = sent d | Crash _ => True end.
Definition tells {A} (first : bool) (m : Q A) (L : list bytes → Prop) : Prop := ∀ d,
  match m d with
  | Ret _ d' | Throw d' => ∃ l ms, L l ∧ ms `prefix_of` l ∧ sent d' = sent d ++ ms ∧ (first = true → ms ≠ [])
  | Crash _ => True
  end.

Lemma says_ret {A} (a : A) : says (mret a) [].
Proof. intros d. cbn. by rewrite app_nil_r. Qed.
Lemma says_gets {A} (f : MySqlDB env (spied S) → A) : says (gets f) [].
Proof. intros d. cbn. by rewrite app_nil_r. Qed.
Lemma says_bind {A A'} (m : Q A) (k : A → Q A') l : says m [] → (∀ a, says (k a) l) → says (a ← m; k a) l.
Proof.
  intros Hm Hk d. mred. specialize (Hm d). destruct (m d) as [a d1|d1|r]; [|done..]. specialize (Hk a d1).
  rewrite app_nil_r in Hm. rewrite <- Hm. done.
Qed.
Lemma says_query sql : says (query sql) [c_str sql].
Proof.
  intros d. unfold query, session_call. cbn. unfold inside. cbn. by destruct (mysql_query _ _).
Qed.
Lemma says_store : says store_result [].
Proof.
  intros d. unfold store_result, session_call. cbn. unfold inside. destruct (mysql_store_result _).
  by rewrite app_nil_r.
Qed.
Lemma says_fetch sql : says (fetch sql) [c_str sql].
Proof.
  intros d. unfold fetch. mred. pose proof (says_query sql d) as Hq. destruct (query sql d) as [[] d1|d1|r]; try done.
  pose proof (says_store d1) as Hs. unfold store_result, session_call in *.
  destruct (mysql_store_result (my_session d1)). by rewrite Hs, Hq, app_nil_r.
Qed.
Lemma says_has_rows sql : says (has_rows sql) [c_str sql].
Proof.
  intros d. unfold has_rows. mred. pose proof (says_fetch sql d) as Hf. by destruct (fetch sql d).
Qed.
Lemma says_col k row : says (col k row) [].
Proof. unfold col. intros d. destruct (row !! k); cbn; by rewrite ?app_nil_r. Qed.
Lemma says_number parse k row : says (number parse k row) [].
Proof.
  apply says_bind; [apply says_col|]. intros v. destruct (v ≫= _); [apply says_ret|]. by intros d.
Qed.
Lemma says_text k row : says (text k row) [].
Proof. apply says_bind; [apply says_col|]. intros v. apply says_ret. Qed.
Lemma says_each {A} (f : sql_row → Q A) rows : (∀ r, says (f r) []) → says (each_row f rows) [].
Proof.
  intros Hf. induction rows as [|r rows IH]; cbn [each_row]; [apply says_ret|].
  apply says_bind; [done|]. intros a. apply says_bind; [done|]. intros l. apply says_ret.
Qed.

Lemma tells_ret {A} (a : A) (L : list bytes → Prop) l : L l → tells false (mret a) L.
Proof. intros Hl d. cbn. exists l, []. split_ands; [done|apply prefix_nil|by rewrite app_nil_r|done]. Qed.
Lemma tells_quiet {A} (m : Q A) (L : list bytes → Prop) l : L l → says m [] → tells false m L.
Proof.
  intros Hl Hm d. specialize (Hm d). destruct (m d); [|..]; try done;
    exists l, []; (split_ands; [done|apply prefix_nil|by rewrite Hm, ?app_nil_r|done]).
Qed.
(** One statement and then more. *)
Lemma tells_next {A A'} first (m : Q A) (k : A → Q A') q (L : list bytes → Prop) :
  says m [q] → (∀ d r, m d ≠ Throw r) → (∀ a, tells false (k a) (λ l, L (q :: l))) → tells first (a ← m; k a) L.
Proof.
  intros Hm Ht Hk d. mred. specialize (Hm d). destruct (m d) as [a d1|d1|r] eqn:E; [|by destruct (Ht d d1)|done].
  specialize (Hk a d1). destruct (k a d1) as [a' d2|d2|r]; [..|done];
    destruct Hk as (l & ms & Hl & Hp & Hs & _); exists (q :: l), (q :: ms);
    (split_ands; [done|by apply prefix_cons|by rewrite Hs, Hm, <- app_assoc|done]).
Qed.
Lemma tells_skip {A A'} first (m : Q A) (k : A → Q A') (L : list bytes → Prop) l :
  L l → first = false → says m [] → (∀ a, tells first (k a) L) → tells first (a ← m; k a) L.
Proof.
  intros Hl -> Hm Hk d. mred. specialize (Hm d). destruct (m d) as [a d1|d1|r]; [|exists l, []|done].
  - specialize (Hk a d1). by rewrite app_nil_r in Hm; rewrite Hm in Hk.
  - split_ands; [done|apply prefix_nil|by rewrite Hm, app_nil_r|done].
Qed.
Lemma tells_esc {A} first t (k : bytes → Q A) L : tells first (k (escape_bytes t)) L → tells first (u ← esc t; k u) L.
Proof. intros Hk d. mred. rewrite esc_eq. apply Hk. Qed.

Lemma query_no_throw sql d r : query sql d ≠ Throw r.
Proof. unfold query, session_call. by destruct (mysql_query _ _). Qed.
Lemma fetch_no_throw sql d r : fetch sql d ≠ Throw r.
Proof.
  unfold fetch, query, store_result, session_call. mred. destruct (mysql_query _ _) as [[] ?]; [|done].
  by destruct (mysql_store_result _).
Qed.
Lemma has_rows_no_throw sql d r : has_rows sql d ≠ Throw r.
Proof.
  unfold has_rows. mred. pose proof (fetch_no_throw sql d) as Hf. destruct (fetch sql d); [done| |done].
  by destruct (Hf s).
Qed.

(** *** The methods *)

(** The statements read as they should be. *)
Definition reads (c : storage_call) (l : list bytes) : Prop :=
  ∃ x y, map lex_sql l = map Some (statements c x y).

Definition tells_query {A} first sql (k : bool → Q A) L :=
  tells_next first (query sql) k (c_str sql) L (says_query sql) (query_no_throw sql).
Definition tells_fetch {A} first sql (k : option (list sql_row) → Q A) L :=
  tells_next first (fetch sql) k (c_str sql) L (says_fetch sql) (fetch_no_throw sql).
Definition tells_has {A} first sql (k : bool → Q A) L :=
  tells_next first (has_rows sql) k (c_str sql) L (says_has_rows sql) (has_rows_no_throw sql).

Lemma tells_each {A} first sql (f : sql_row → Q A) (L : list bytes → Prop) :
  L [c_str sql] → (∀ r, says (f r) []) → tells first (fetch_all sql f) L.
Proof.
  intros Hl Hf. apply tells_fetch. intros [rows|]; [|by apply (tells_ret _ _ [])].
  apply (tells_quiet _ _ []); [done|by apply says_each].
Qed.
Ltac says_tac := repeat first
  [apply says_number|apply says_text|apply says_ret|apply says_gets|apply says_bind; [|intros ?]].

Lemma reads_numbers c (q : bytes) : statements c 0 0 = [[Txt q]] → plain q → reads c [c_str q].
Proof. intros E Hq. exists 0%Z, 0%Z. rewrite E. cbn. by rewrite lex_numbers. Qed.
Lemma lex_exists u :
  lex_sql (c_str (sql_user_exists (escape_bytes u))) = Some [Txt (str "SELECT uid FROM users WHERE username="); Lit u; Txt []].
Proof. apply lex_one; [reflexivity|plain_tac..]. Qed.
Lemma lex_register u p :
  lex_sql (c_str (sql_register (escape_bytes u) (escape_bytes p))) =
    Some [Txt (str "INSERT INTO users (username,password_hash) VALUES ("); Lit u; Txt (str ",SHA2("); Lit p; Txt (str ",256))")].
Proof. apply lex_two; [reflexivity|try plain_tac; done..]. Qed.
Lemma lex_login u p :
  lex_sql (c_str (sql_login (escape_bytes u) (escape_bytes p))) =
    Some [Txt (str "SELECT uid FROM users WHERE username="); Lit u; Txt (str " AND password_hash=SHA2("); Lit p; Txt (str ",256)")].
Proof. apply lex_two; [reflexivity|try plain_tac; done..]. Qed.
Lemma lex_search k :
  lex_sql (c_str (sql_search (escape_bytes k))) =
    Some [Txt (str "SELECT uid,username FROM users WHERE username LIKE "); Lit (str "%" ++ k ++ str "%"); Txt (str " LIMIT 20")].
Proof. apply lex_one; [|plain_tac..]. unfold sql_search, escape_bytes. rewrite !bind_app, <- !app_assoc. reflexivity. Qed.
Lemma lex_request a b m :
  lex_sql (c_str (sql_add_request a b (escape_bytes m))) =
    Some [Txt (str "INSERT INTO friend_requests (from_uid,to_uid,message) VALUES (" ++ to_string a ++ str "," ++
               to_string b ++ str ","); Lit m; Txt (str ")")].
Proof. apply lex_one; [|plain_tac..]. unfold sql_add_request. by rewrite <- !app_assoc. Qed.

(** After [ensure_connected]: the rest of each method. *)
Definition guarded {A} (e : A) (m : Q A) : Q A := ok ← ensure_connected; if negb ok then mret e else m.

Lemma tells_register u p : ∃ e m, my_register_user u p = guarded e m ∧ tells true m (reads (CRegister u p)).
Proof.
  do 2 eexists. split; [reflexivity|]. apply tells_esc, tells_has.
  assert (Hr : reads (CRegister u p) [c_str (sql_user_exists (escape_bytes u)); c_str (sql_register (escape_bytes u) (escape_bytes p))]).
  { exists 0%Z, 0%Z. cbn. by rewrite lex_exists, lex_register. }
  intros [|]; [eapply tells_ret; exact Hr|]. apply tells_esc, tells_esc, tells_query.
  intros []; cbn [negb]; [eapply tells_quiet; [exact Hr|apply says_gets]|eapply tells_ret; exact Hr].
Qed.
Lemma tells_login u p : ∃ e m, my_verify_login u p = guarded e m ∧ tells true m (reads (CVerify u p)).
Proof.
  do 2 eexists. split; [reflexivity|]. apply tells_esc, tells_esc, tells_fetch.
  assert (Hr : reads (CVerify u p) [c_str (sql_login (escape_bytes u) (escape_bytes p))]).
  { exists 0%Z, 0%Z. cbn. by rewrite lex_login. }
  intros [[|row rows]|]; [eapply tells_ret; exact Hr| |eapply tells_ret; exact Hr].
  eapply tells_quiet; [exact Hr|apply says_number].
Qed.
Lemma tells_search k : ∃ e m, my_search_users k = guarded e m ∧ tells true m (reads (CSearch k)).
Proof.
  do 2 eexists. split; [reflexivity|]. apply tells_esc, tells_each; [|intros r; says_tac].
  exists 0%Z, 0%Z. cbn. by rewrite lex_search.
Qed.
Lemma tells_add_friend a b t : ∃ e m, my_add_friend_request a b t = guarded e m ∧ tells true m (reads (CAddFriend a b t)).
Proof.
  do 2 eexists. split; [reflexivity|].
  assert (Hr : reads (CAddFriend a b t) [c_str (sql_friends_check a b); c_str (sql_request_check a b);
    c_str (sql_add_request a b (escape_bytes t))]).
  { exists 0%Z, 0%Z. cbn. rewrite lex_request, !lex_numbers; [done|unfold sql_friends_check, sql_request_check; plain_tac..]. }
  apply tells_has. intros [|]; [eapply tells_ret; exact Hr|].
  apply tells_has. intros [|]; [eapply tells_ret; exact Hr|]. apply tells_esc, tells_query.
  intros []; cbn [negb]; [eapply tells_quiet; [exact Hr|apply says_gets]|eapply tells_ret; exact Hr].
Qed.
Lemma tells_accept i a : ∃ e m, my_accept_friend_request i a = guarded e m ∧ tells true m (reads (CAccept i a)).
Proof.
  do 2 eexists. split; [reflexivity|].
  assert (Hr : ∀ x y, reads (CAccept i a) [c_str (sql_find_request i a); c_str (sql_accept i); c_str (sql_add_friends x y)]).
  { intros x y. exists x, y. cbn. rewrite !lex_numbers; [done|unfold sql_find_request, sql_accept, sql_add_friends; plain_tac..]. }
  apply tells_fetch. intros [[|row rows]|]; [eapply tells_ret; exact (Hr 0%Z 0%Z)| |eapply tells_ret; exact (Hr 0%Z 0%Z)].
  eapply tells_skip; [exact (Hr 0%Z 0%Z)|done|apply says_number|]. intros x.
  eapply tells_skip; [exact (Hr 0%Z 0%Z)|done|apply says_number|]. intros y.
  apply tells_query. intros _. apply tells_query. intros ok. eapply tells_ret; exact (Hr x y).
Qed.
Lemma tells_select {A} c sql (f : sql_row → Q A) :
  statements c 0 0 = [[Txt sql]] → plain sql → (∀ r, says (f r) []) →
  ∃ e m, select sql f = guarded e m ∧ tells true m (reads c).
Proof.
  intros Hc Hp Hf. do 2 eexists. split; [reflexivity|]. apply tells_each; [by apply reads_numbers|done].
Qed.
Lemma tells_username u : ∃ e m, my_get_username u = guarded e m ∧ tells true m (reads (CUsername u)).
Proof.
  do 2 eexists. split; [reflexivity|].
  assert (Hr : reads (CUsername u) [c_str (sql_username u)]) by (apply reads_numbers; [done|unfold sql_username; plain_tac]).
  apply tells_fetch. intros [[|row rows]|]; [eapply tells_ret; exact Hr| |eapply tells_ret; exact Hr].
  eapply tells_quiet; [exact Hr|apply says_text].
Qed.
Lemma tells_mark u i : ∃ e m, my_mark_delivered u i = guarded e m ∧ tells true m (reads (CMark u i)).
Proof.
  do 2 eexists. split; [reflexivity|]. apply tells_query. intros ok. apply (tells_ret _ _ []).
  apply reads_numbers; [done|unfold sql_mark; plain_tac].
Qed.
Lemma tells_batch l : ∃ e m, my_store_batch l = guarded e m ∧ tells true m (reads (CBatch l)).
Proof.
  do 2 eexists. split; [reflexivity|]. intros d. mred. destruct (lex_tuples l d true []) as (ts & -> & Hn & Hl).
  refine (tells_query true (sql_insert_head ++ ts) (λ _, mret tt) _ _ d). intros ok. apply (tells_ret _ _ []).
  exists 0%Z, 0%Z. cbn. rewrite c_str_id by (apply no_nul_app; [nul_tac|done]). unfold lex_sql.
  rewrite <- (reverse_nil (A:=byte)). rewrite (Hl sql_insert_head) by plain_tac. done.
Qed.

(** *** The connection *)

Lemma run_all_sent sqls : ∀ d, ∃ ok d' qs,
  run_all sqls d = Ret ok d' ∧ sent d' = sent d ++ qs ∧ qs `prefix_of` map c_str sqls.
Proof.
  induction sqls as [|q sqls IH]; intros d; cbn [run_all map].
  - exists true, d, []. rewrite app_nil_r. split_ands; [done..|apply prefix_nil].
  - mred. pose proof (says_query q d) as Hq. pose proof (query_no_throw q d) as Ht.
    destruct (query q d) as [ok d1|d1|r] eqn:E; [|by destruct (Ht d1)|by destruct (no_crash_call _ d r E)].
    destruct ok; [destruct (IH d1) as (ok & d2 & qs & -> & Hs & Hp)|].
    + exists ok, d2, (c_str q :: qs). split_ands; [done|by rewrite Hs, Hq, <- app_assoc|by apply prefix_cons].
    + exists false, d1, [c_str q]. split_ands; [done..|apply prefix_cons, prefix_nil].
Qed.
Lemma c_str_schema : map c_str schema = schema.
Proof. vm_compute. reflexivity. Qed.
Lemma connected_sent d : ∃ ok d' qs,
  ensure_connected d = Ret ok d' ∧ sent d' = sent d ++ qs ∧ qs `prefix_of` schema.
Proof.
  assert (Hc : ∀ d0, ∃ ok d' qs, connect_db d0 = Ret ok d' ∧ sent d' = sent d0 ++ qs ∧ qs `prefix_of` schema).
  { assert (Hnone : ∀ d0 d1, sent d1 = sent d0 → ∃ ok d' qs,
      Ret false d1 = Ret ok d' ∧ sent d' = sent d0 ++ qs ∧ qs `prefix_of` schema).
    { intros d0 d1 E. exists false, d1, []. split_ands; [done|by rewrite app_nil_r|apply prefix_nil]. }
    intros d0. unfold connect_db, session_call.
    destruct (my_handle d0) eqn:Eh; mred; rewrite Eh; cbn [mysql_init mysql_real_connect mysql_close spied_mysql];
      unfold inside; cbn [my_session sp_inner]; destruct (mysql_init _) as [[] s1]; cbn [negb]; try (by apply Hnone);
      cbn [my_session sp_inner]; destruct (mysql_real_connect _ _ _ _ _ s1) as [[] s2]; cbn [negb]; try (by apply Hnone);
      match goal with |- context [run_all _ ?d2] => destruct (run_all_sent schema d2) as (ok & d3 & qs & Er & Hs & Hp) end;
      rewrite c_str_schema in Hp; by exists ok, d3, qs. }
  unfold ensure_connected. mred. destruct (my_handle d); [|apply Hc]. unfold session_call.
  cbn [mysql_ping spied_mysql]. unfold inside. destruct (mysql_ping (sp_inner (my_session d))) as [[] s1].
  - do 2 eexists. exists []. split_ands; [reflexivity|by rewrite app_nil_r|apply prefix_nil].
  - match goal with |- context [connect_db ?d1] => exact (Hc d1) end.
Qed.

(** A method: the connection is looked after, and then its own statements. *)
Lemma guarded_sends {A} (e : A) m c d :
  tells true m (reads c) → no_crash (guarded e m) →
  ∃ d' cs ms x y, (guarded e m d = Throw d' ∨ ∃ a, guarded e m d = Ret a d') ∧
    sent d' = sent d ++ cs ++ ms ∧ cs `prefix_of` schema ∧ map lex_sql ms `prefix_of` map Some (statements c x y) ∧
    ∀ d1, ensure_connected d = Ret true d1 → ms ≠ [].
Proof.
  intros Hm Hn. specialize (Hn d). revert Hn. unfold guarded. mred.
  destruct (connected_sent d) as (ok & d1 & cs & -> & Hs & Hp). destruct ok; cbn [negb]; intros Hn.
  - specialize (Hm d1). destruct (m d1) as [a d2|d2|r]; [| |by destruct (Hn r)];
      (destruct Hm as (l & ms & (x & y & Hl) & [l' ->] & Hs2 & Hne); exists d2, cs, ms, x, y;
       split_ands; [eauto|by rewrite Hs2, Hs, <- app_assoc|done| |by intros _ _; apply Hne];
       rewrite <- Hl, map_app; by eexists).
  - exists d1, cs, [], 0%Z, 0%Z. split_ands; [eauto|by rewrite app_nil_r|done|apply prefix_nil|done].
Qed.
Lemma method_sends {A} (m : Q A) c d :
  (∃ e m', m = guarded e m' ∧ tells true m' (reads c)) → no_crash m → run_call c d = (m ;; mret tt) d →
  ∃ d' cs ms x y, (run_call c d = Ret tt d' ∨ run_call c d = Throw d') ∧
    sent d' = sent d ++ cs ++ ms ∧ cs `prefix_of` schema ∧ map lex_sql ms `prefix_of` map Some (statements c x y) ∧
    ∀ d1, ensure_connected d = Ret true d1 → ms ≠ [].
Proof.
  intros (e & m' & -> & Ht) Hn ->. destruct (guarded_sends e m' c d Ht Hn) as (d' & cs & ms & x & y & Hr & Hrest).
  exists d', cs, ms, x, y. split; [|exact Hrest]. mred. destruct Hr as [->|[a ->]]; auto.
Qed.

Lemma no_crash_batch l : no_crash (my_store_batch (env := env) (S := spied S) l).
Proof.
  unfold my_store_batch. crash_tac. clear. revert l. generalize true. intros first l. revert first.
  induction l as [|m ms IH]; intros first; cbn [sql_tuples]; crash_tac. apply IH.
Qed.
Lemma no_crash_username u : no_crash (my_get_username (env := env) (S := spied S) u).
Proof.
  unfold my_get_username. crash_tac. apply no_crash_text.
  erewrite (first_row (str "SELECT username FROM users WHERE uid=") _ 1); [lia|nul_tac|done|eassumption].
Qed.

(** C22. Users cannot inject SQL.  Whatever storage method the server calls,
    with whatever strings and numbers, and whatever the database answers: the
    call returns or throws, and the statements it has sent are, in this order,
    a beginning of the program's [CREATE TABLE]s (when it had to connect) and
    a beginning of the method's own list of statements (of at least one, when
    there is a connection).  In each of these the database reads every string
    of a user, whatever its bytes, as the value of one string literal, and all
    text around the literals is the program's own and its numbers; a batch
    insert has one such literal per message. *)
Theorem mysql_no_injection (c : storage_call) d :
  ∃ d' cs ms x y, (run_call c d = Ret tt d' ∨ run_call c d = Throw d') ∧
    sent d' = sent d ++ cs ++ ms ∧ cs `prefix_of` schema ∧ map lex_sql ms `prefix_of` map Some (statements c x y) ∧
    ∀ d1, ensure_connected d = Ret true d1 → ms ≠ [].
Proof.
  destruct c as [u p|u p|u|k|a b m|i a|u|u|u|u i|l].
  - apply (method_sends (my_register_user u p)); [apply tells_register|exact (λ d r, bt_register u p d r)|done].
  - apply (method_sends (my_verify_login u p)); [apply tells_login|apply no_crash_login|done].
  - apply (method_sends (my_query_offline_messages u)); [|exact (λ d r, bt_offline u d r)|done].
    apply tells_select; [done|unfold sql_offline; plain_tac|intros r; says_tac].
  - apply (method_sends (my_search_users k)); [apply tells_search|exact (λ d r, bt_search k d r)|done].
  - apply (method_sends (my_add_friend_request a b m)); [apply tells_add_friend|exact (λ d r, bt_add_friend a b m d r)|done].
  - apply (method_sends (my_accept_friend_request i a)); [apply tells_accept|apply no_crash_accept|done].
  - apply (method_sends (my_get_friends u)); [|exact (λ d r, bt_friends u d r)|done].
    apply tells_select; [done|unfold sql_friends; plain_tac|intros r; says_tac].
  - apply (method_sends (my_get_pending_requests u)); [|exact (λ d r, bt_pending u d r)|done].
    apply tells_select; [done|unfold sql_pending; plain_tac|intros r; says_tac].
  - apply (method_sends (my_get_username u)); [apply tells_username|apply no_crash_username|done].
  - apply (method_sends (my_mark_delivered u i)); [apply tells_mark|exact (λ d r, bt_mark u i d r)|].
    cbn [run_call]. mred. by destruct (my_mark_delivered u i d) as [[]| |].
  - apply (method_sends (my_store_batch l)); [apply tells_batch|apply no_crash_batch|].
    cbn [run_call]. mred. by destruct (my_store_batch l d) as [[]| |].
Qed.
End Sent.

(** ** The writer thread *)

Section Writer.
Context {env : environment} {S : Type} `{MySql S}.

Lemma tuples_Ret batch first (d : MySqlDB env S) : ∃ ts, sql_tuples first batch d = Ret ts d.
Proof.
  revert first. induction batch as [|m ms IH]; intros first; cbn [sql_tuples]; [eauto|].
  unfold esc. mred. destruct (IH false) as [ts ->]. eauto.
Qed.

Lemma connected_Ret (d : MySqlDB env S) : ∃ ok d', ensure_connected d = Ret ok d'.
Proof.
  assert (Hq : ∀ qs (d0 : MySqlDB env S), ∃ ok d1, run_all qs d0 = Ret ok d1).
  { induction qs as [|q qs IH]; intros d0; cbn [run_all]; [eauto|]. unfold query, session_call. mred.
    destruct (mysql_query _ _) as [[] s]; eauto. }
  unfold ensure_connected, connect_db, session_call. mred.
  repeat (match goal with
  | |- context [match ?a with (_, _) => _ end] => destruct a
  | |- context [if ?b then _ else _] => destruct b
  end; eauto).
Qed.

(** The writer thread survives the database: in MySQL mode every round
    returns, whatever the database answers, and takes at most a hundred
    messages off the queue; but those messages are not kept when they could
    not be stored: without a connection no statement is sent and the batch is
    gone all the same. *)
Theorem mysql_writer_round (w : DBBatchWriter (MySqlDB env S)) :
  ∃ w', loop_round w = Ret tt w' ∧ queue_ w' = drop BATCH_MAX (queue_ w) ∧ db_running_ w' = db_running_ w ∧
    ∀ d', ensure_connected (backend w) = Ret false d' → queue_ w ≠ [] → backend w' = d'.
Proof.
  unfold loop_round. destruct (queue_ w) as [|m ms] eqn:Eq.
  - eexists. split; [reflexivity|]. done.
  - change (take BATCH_MAX (m :: ms)) with (m :: take 99 ms). unfold lift. cbn [be_store_batch mysql_backend].
    unfold my_store_batch. mred. cbn [backend].
    destruct (connected_Ret (backend w)) as (ok & d1 & ->). destruct ok; cbn [negb].
    + destruct (tuples_Ret (m :: take 99 ms) true d1) as [ts ->]. unfold query, session_call.
      destruct (mysql_query _ _) as [b s]. eexists. split; [reflexivity|]. split_ands; done.
    + eexists. split; [reflexivity|]. split_ands; try done. by intros d' [= ->].
Qed.
End Writer.

(** ** A database for the witnesses

    It answers every query while it is up; a result has one row of the asked
    width. *)
Record mock := mkMock { mock_up : bool; mock_width : nat }.
#[export] Instance mock_mysql : MySql mock := {|
  mysql_init s := (true, s);
  mysql_real_connect _ _ _ _ _ s := (mock_up s, s);
  mysql_close s := s;
  mysql_ping s := (mock_up s, s);
  mysql_query q s := (mock_up s, mkMock (mock_up s) (select_width q));
  mysql_store_result s := (Some [replicate (mock_width s) (Some (str "7"))], s);
  mysql_insert_id _ := 7%Z;
  mysql_real_escape_string _ t := escape_bytes t |}.
#[export] Instance mock_escape : MySqlEscape mock.
Proof. done. Qed.
#[export] Instance mock_columns : MySqlColumns mock.
Proof.
  intros q s s1 s2 rows E1 E2. cbn in E1. injection E1 as _ <-. cbn in E2. injection E2 as <- <-.
  constructor; [|constructor]. by rewrite length_replicate.
Qed.

Definition mock_db : MySqlDB demo_env mock := mkMySql true (mkMock true 0).

(** A login with a hostile name. *)
Definition mock_spied : MySqlDB demo_env (spied mock) := mkMySql true (mkSpied (mkMock true 0) []).
Lemma mysql_no_injection_witness :
  ∃ d' q, run_call (CVerify (str "a' OR '1'='1") (str "x")) mock_spied = Ret tt d' ∧ sent d' = [q] ∧
    lex_sql q = Some [Txt (str "SELECT uid FROM users WHERE username="); Lit (str "a' OR '1'='1");
                      Txt (str " AND password_hash=SHA2("); Lit (str "x"); Txt (str ",256)")].
Proof.
  destruct (mysql_no_injection (CVerify (str "a' OR '1'='1") (str "x")) mock_spied)
    as (d' & cs & ms & x & y & Hr & Hs & Hc & Hp & Hne).
  assert (E : ∃ d q, run_call (CVerify (str "a' OR '1'='1") (str "x")) mock_spied = Ret tt d ∧ sent d = [q])
    by (do 2 eexists; split; vm_compute; reflexivity).
  destruct E as (d & q & E & Eq). rewrite E in Hr. destruct Hr as [[= <-]|Hr]; [|discriminate Hr].
  exists d, q. split; [exact E|]. split; [exact Eq|].
  assert (Hm : ms ≠ []) by (eapply Hne; vm_compute; reflexivity). rewrite Eq in Hs. cbn in Hs.
  destruct cs as [|b cs]; [|destruct cs, ms; discriminate Hs || (exfalso; apply Hm; reflexivity)].
  cbn in Hs. subst ms. destruct Hp as [rest Hp]. cbn in Hp. injection Hp as Hp _. exact (eq_sym Hp).
Defined.

(** Whichever storage was chosen, requests do not crash in it. *)
#[export] Instance storage_total `{JsonText} hasher env S `{MySql S} `{!MySqlColumns S} :
  BackendTotal (storage hasher env S).
Proof.
  assert (Hb : ∀ A (f : M (HashedDB hasher) A) (m : M (MySqlDB env S) A) st r,
    (∀ d r, f d ≠ Crash r) → (∀ d r, m d ≠ Crash r) → branch f m st ≠ Crash r).
  { intros A f m st r Hf Hm. destruct st as [d|d]; cbn.
    - destruct (f d) eqn:E; try done. by destruct (Hf d why).
    - destruct (m d) eqn:E; try done. by destruct (Hm d why). }
  split; intros; apply Hb; intros d r';
    [apply bt_register|apply bt_register|apply bt_verify|apply bt_verify|apply bt_offline|apply bt_offline
    |apply bt_search|apply bt_search|apply bt_add_friend|apply bt_add_friend|apply bt_accept|apply bt_accept
    |apply bt_friends|apply bt_friends|apply bt_pending|apply bt_pending|apply bt_mark|apply bt_mark].
Qed.
